(* ===== verification/_CoqProject ===== *)
-Q . S2P
Prelude.v
PlcTypes.v
StdFb.v
ProcessImage.v
SpscRing.v
SpscConc.v
Adapter.v
Loopback.v
Runtime.v
RuntimeProps.v
Demo.v
Registry.v
Config.v
Shm.v
IpcProxy.v
EipProxy.v
ScannerConfig.v
ScannerProxy.v
EipService.v
IpcLink.v
EipLink.v
EipOpener.v
ScannerService.v
ScannerBackends.v
ScannerLink.v
CoreLink.v
Outage.v
Startup.v
App.v
Status.v
Log.v
WireFrame.v
Impair.v
EipProbe.v
E2e.v
Bench.v
CipFuzz.v
