(* ===== verification/Prelude.v ===== *)
(** * softplc: a verification library

    A soft PLC: a cyclic runtime in the style of IEC 61131-3 whose field
    traffic goes through protocol adapters, some of them in processes of their
    own.  All paths below are under [src/].

    ** The program and its parts

    The core process ([src/app/softplc_main.c]) reads its settings
    ([src/core/plc_config.c]), turns a role or an adapter list into adapters
    through a registry of factories ([src/core/adapter_registry.c],
    [src/adapters/builtins.c]), binds each to a slice of the process image
    ([src/core/process_image.c]), and runs the scan engine
    ([src/core/plc_runtime.c]).  A scan calls every adapter's [exchange] once:
    it hands over the outputs the previous scan latched and brings back
    inputs, or a fault, for which the inputs follow a failsafe policy
    ([src/core/protocol_adapter.c]).  Then the programs run, built from the
    standard function blocks ([src/core/std_fb.c]).

    An adapter is the in-process mirror ([src/adapters/loopback/]), or the
    proxy of an EtherNet/IP process: [src/adapters/eip/] for the target role,
    [src/adapters/eip_scanner/] for the originator role.  A proxy and its
    process share one mapped region with two rings of frames
    ([src/ipc/spsc_ring.c]) and two named semaphores ([src/ipc/shm.c]): the
    proxy pushes a request with a sequence number, posts, and waits within a
    budget for the reply with that number; the process pops the request, swaps
    images with its protocol stack and pushes the reply.  The processes may
    die at any moment, and neither trusts what the other has written.

    ** Which file models what

    - [Prelude]: this text; notations, tactics, hints, fixed-width integers,
      lists addressed by byte offset.
    - [PlcTypes]: [plc_types.c], [plc_status.h], [plc_types.h].
    - [StdFb]: [std_fb.c], a record per block and one function per call.
    - [ProcessImage]: [process_image.c]; an area is the bytes of its
      allocation or [None].
    - [SpscRing], [SpscConc]: [spsc_ring.c], call by call, and access by
      access as two processes under every interleaving and crash.
    - [Adapter]: [protocol_adapter.c]; the table of entry points is a record,
      the contract of the header is the class [AdapterLaws].
    - [Loopback]: [loopback_adapter.c], an instance of that class.
    - [Runtime], [RuntimeProps]: [plc_runtime.c] and what it guarantees to any
      adapter that obeys the contract.
    - [Demo]: [examples/demo_program.c].
    - [Registry]: [adapter_registry.c], [builtins.c].
    - [Config]: [plc_config.c], from the characters of a file to the lookups.
    - [Shm]: [shm.c] over a model of the kernel objects it uses.
    - [IpcProxy]: the code [eip_adapter_proxy.c] and [eip_scanner_proxy.c]
      share; [EipProxy] and [ScannerProxy] have the rest, the region layouts
      and the names of the shared objects, and are instances of
      [AdapterLaws].
    - [ScannerConfig]: [eip_scanner_config.c], the device table.
    - [EipService]: [eip_adapter_main.c] with [eip_backend_loopback.c];
      [EipOpener]: [eip_backend_opener.c].  [BackendLaws] is the interface
      between them.
    - [IpcLink]: one region mapped by two processes, the lemmas that hold for
      both links; [EipLink]: the proxy and the service of the target role.
    - [ScannerService]: [eip_scanner_main.c]; [ScannerBackends]:
      [eip_scanner_backend_mirror.cpp], [eip_scanner_backend_eipscanner.cpp].
      [ScannerBackendLaws] is the interface between them.  [ScannerLink]: the
      proxy and the service of the originator role, down to the devices.
    - [CoreLink]: the scan engine, the proxy, the region and the adapter process
      with its mirror backend as one system, scan after scan; [Outage]: the
      same engine and proxy after that process has died; [Startup]: how the system
      comes up, from the factory of [eip_adapter_proxy.c] and the [main] of
      [eip_adapter_main.c].
    - [App]: [softplc_main.c]; [Status]: [softplc_status.c]; [Log]:
      [plc_log.c].
    - [WireFrame], [Impair]: [tools/cip_impair.c], the bridge that damages CIP
      I/O frames on purpose; [EipProbe]: [tools/eip_probe.c], the wire probe;
      [E2e]: [tools/e2e_cip_failsafe.c], [tools/e2e_link_survive.c],
      [tools/e2e_two_plc.c], the acceptance tests; [Bench]:
      [tools/bench_exchange.c]; [CipFuzz]: [tools/cip_fuzz.c].

    A C structure is a record with the source's field names, an enumeration an
    inductive type, a fallible function returns a [plc_status_t] or an
    [option].  Integers are [Z] kept at their width with the wrap-around
    written out; a C string is the list of its characters before the
    terminator.  Stateful code passes its state: what a process can reach is a
    type [W] of which a component uses only the operations a class names
    ([Clock], [Channel] and the kernel of [Shm]).

    ** What the theorems show

    - The scan: outputs reach the field one scan after they are computed, each
      adapter is called once per scan, every bound input is defined whatever
      the adapters answer, a hard interlock runs no program, and the run loop
      ends and keeps its period ([RuntimeProps]).
    - The whole system: with the adapter process in mirror mode, a cold start
      reaches a link on which every scan goes through ([Startup]), and any number
      of scans computes what a plant without processes, rings and doorbells would
      compute, whose field hands the latched outputs back ([CoreLink]).  When the
      process dies the scans go on, each waiting no longer than its budget, on
      inputs that are the last good image until the failsafe window ends and the
      policy's after it ([Outage]).
    - The link: an exchange delivers only the reply to its own request,
      returns, and waits no longer than its one budget however often it is woken,
      whatever the other process does; what a missed exchange delivers is decided
      by the age, on the clock, of the last answer ([EipProxy], [ScannerProxy]); the processes answer each request
      with its own number ([EipService], [ScannerService]); and the two ends
      together move the data ([EipLink]), for the scanner from the core's image
      to each device's slice and back ([ScannerLink]).
    - The ring: a bounded queue, linearizable and wait-free, no torn frame
      under any interleaving or crash, no overrun from corrupted cursors
      ([SpscRing], [SpscConc]).
    - The kernel objects: exclusive ownership of a region, waits with a
      deadline ([Shm]).
    - The stacks: images handed over whole, counted connections, paired
      resources ([EipOpener]); over the whole history of a scanner, each device's
      slice and health are those of the frames its own connection brought
      ([ScannerBackends]).
    - The data: the process image refines an abstract little-endian memory,
      timers and counters have closed forms over their whole input history,
      the settings and the device table print and parse back, and the line of
      the health probe, printed by the format strings of the source, is JSON that
      reads back ([Status]).
    - The process: adapters wired as listed, nothing leaked or freed twice on
      any path, a health probe that only looks ([App], [Status]).
    - The test bench: the impaired wire sends every frame it does not drop
      once, held or not, makes none up and repairs every checksum ([WireFrame], [Impair]); the probe's one-pass statistics
      are those of the packets, connection by connection ([EipProbe]); a PASS of
      an acceptance test is a statement about the images that arrived ([E2e]);
      the benchmark reports its exchanges ([Bench]); the fuzzer's shaped
      datagrams are malformed ([CipFuzz]).
    - Some theorems show where the code does less than its comments say; they
      are named after what happens ([shm_create_unlinks_live_region],
      [scanner_core_gone_never_exits], [producer_drain_tears_frame],
      [linksurv_accepts_frozen], ...).

    ** Scripts, fuel and bounds

    What is outside a process is a script that the theorems quantify over: a
    list of events, one for each system call or access to shared memory, each
    saying how much time went by, what others changed and which error is
    reported.  A theorem about all scripts covers all interleavings and
    failures; an exhausted script means that nobody else acts any more.  The
    flags another thread sets ([g_stop]) are lists of readings.

    Recursion that the source leaves open takes fuel: the run loop, the two
    loops of an exchange, the waits that signals interrupt.  [None] then
    means still running and is a result no correctness theorem accepts: the
    termination theorems ([runtime_run_paced], [eip_exchange_returns],
    [app_returns], [sem_wait_deadline]) show that every fuel above a bound
    gives the same result.  An exchange needs one unit per event of the script
    and per frame in the ring; the run loop one per scan and per sleep.  The
    exchanges of [EipLink], [ScannerLink] and [CoreLink], whose peer answers at
    once, need two units and hold for any number above; those of [Outage] likewise.
    Loops over arrays and strings are structural.  The monotonic clock is taken to
    stay below 2^62 ns, 146 years, so that no deadline leaves an [int64_t].

    ** Not modelled

    - OpENer, EIPScanner, the C library and the POSIX kernel beyond [Shm]: not
      in the repository.  What the stacks, [rand_r] and the sockets answer is an
      argument.
    - The texts of log lines, except the reason of a rejected connection
      ([ScannerBackends]), the number formats of the probe's report, and usage
      messages: no decision depends on them.
    - [opener_conf/]: compile-time constants of the stack.
    - [tests/], the scripts of [tools/] and [docker/]: they only run the programs.
    - The race on [Device::connected]: [eip_scanner_backend_eipscanner.cpp]
      writes it on the stack thread without the lock the exchange holds; a poll and
      an exchange are single steps in [ScannerBackends].
    - Weak memory: [SpscConc] interleaves accesses sequentially consistently,
      which its release and acquire accesses justify.
*)

From Stdlib Require Import ZArith Lia.
From stdpp Require Import base numbers list option decidable tactics.
#[global] Open Scope Z_scope.

(** ** Machine integers

    A C integer of width [w] is a [Z]; every place where the source converts
    or where unsigned arithmetic may wrap applies one of these functions. *)

Definition u8 (x : Z) : Z := x mod 2 ^ 8.
Definition u16 (x : Z) : Z := x mod 2 ^ 16.
Definition u32 (x : Z) : Z := x mod 2 ^ 32.
Definition u64 (x : Z) : Z := x mod 2 ^ 64.
Definition s16 (x : Z) : Z := (x + 2 ^ 15) mod 2 ^ 16 - 2 ^ 15.
Definition s32 (x : Z) : Z := (x + 2 ^ 31) mod 2 ^ 32 - 2 ^ 31.
Definition s64 (x : Z) : Z := (x + 2 ^ 63) mod 2 ^ 64 - 2 ^ 63.

Definition INT16_MAX : Z := 32767.
Definition INT16_MIN : Z := -32768.
Definition INT64_MAX : Z := 9223372036854775807.
Definition UINT32_MAX : Z := 4294967295.
Definition UINT64_MAX : Z := 18446744073709551615.

(** ** Byte buffers

    A C byte array is the list of its bytes.  [bslice off len l] is the
    [len] bytes at [l + off], [bwrite off src l] is [memcpy (l + off, src, ..)],
    [bwrite off (zeros n) l] is [memset (l + off, 0, n)]. *)

Definition zlen {A} (l : list A) : Z := Z.of_nat (length l).
Definition zeros (n : Z) : list Z := replicate (Z.to_nat n) 0.
Definition bslice (off len : Z) (l : list Z) : list Z :=
  take (Z.to_nat len) (drop (Z.to_nat off) l).
Definition bwrite (off : Z) (src l : list Z) : list Z :=
  take (Z.to_nat off) l ++ src ++ drop (Z.to_nat off + length src)%nat l.
Definition byte_at (l : list Z) (off : Z) : Z := nth (Z.to_nat off) l 0.

Definition is_byte (b : Z) : Prop := 0 <= b < 256.
Definition bytes (l : list Z) : Prop := Forall is_byte l.

(** ** Record update

    [r <| f := v |>] is the record [r] with field [f] assigned [v], the
    reading of the C statement [r->f = v].  A record type declares its
    [Eta] expansion once; the setter of each field is derived from it. *)

Class Eta (R : Type) : Type := eta : R -> R.
Class Setter {R E : Type} (proj : R -> E) : Type := setf : (E -> E) -> R -> R.
Arguments setf {R E} proj {_} _ _ /.

Ltac eta_head t := lazymatch t with ?f _ => eta_head f | _ => t end.
Ltac derive_setter R E proj :=
  let i := lazymatch constr:(@eta R _) with @eta _ ?x => x end in
  let h := eta_head i in
  exact (fun (g : E -> E) (r : R) =>
    ltac:(let b := eval cbv beta delta [h eta] in (i r) in
          match b with
          | context C [proj r] => let b' := context C [g (proj r)] in exact b'
          end)).
#[export] Hint Extern 1 (@Setter ?R ?E ?proj) => derive_setter R E proj
  : typeclass_instances.

Declare Scope plc_scope.
Delimit Scope plc_scope with plc.
#[warnings="-postfix-notation-not-level-1"]
Notation "r <| f := v |>" := (setf f (fun _ => v) r)
  (at level 12, left associativity, f constr at level 0, v constr at level 200)
  : plc_scope.
#[global] Open Scope plc_scope.

(** A pointer parameter that may be [NULL] is an [option]; [on_ptr f] is the
    body of a [void] function that starts with [if (!p) return;]. *)
Definition on_ptr {T : Type} (f : T -> T) (p : option T) : option T :=
  match p with None => None | Some x => Some (f x) end.

(** A loop that takes [fuel] rounds at most is [None] when they do not suffice;
    it returns [r] when every large enough [fuel] gives [Some r]. *)
Definition returns {T : Type} (f : nat -> option T) (r : T) : Prop :=
  exists n : nat, forall m, (n <= m)%nat -> f m = Some r.

(** ** Automation *)

Create HintDb plc discriminated.
Create HintDb plc_len discriminated.
Create Rewrite HintDb plc.
Create Rewrite HintDb plc_len.

(** Split the conditionals of the goal and of the hypotheses. *)
Ltac split_if :=
  match goal with
  | |- context [if ?b then _ else _] => destruct b eqn:?
  | H : context [if ?b then _ else _] |- _ => destruct b eqn:?
  end.
Ltac split_ifs := repeat (split_if; simpl in *).

(** Arithmetic on machine integers whose ranges are known. *)
Ltac mach := unfold u8, u16, u32, u64, s16, s32, s64, INT16_MAX, INT16_MIN,
  INT64_MAX, UINT32_MAX, UINT64_MAX, is_byte in *; Z.div_mod_to_equations; lia.

(** Length side conditions of buffer rewriting. *)
Ltac lens := autorewrite with plc_len in *; unfold zlen in *; lia.

(** ** Machine-integer lemmas *)

Lemma u32_range x : 0 <= u32 x < 2 ^ 32.
Proof. apply Z.mod_pos_bound. lia. Qed.

Lemma u64_range x : 0 <= u64 x < 2 ^ 64.
Proof. apply Z.mod_pos_bound. lia. Qed.

Lemma u8_range x : is_byte (u8 x).
Proof. apply (Z.mod_pos_bound x (2 ^ 8)). lia. Qed.

Lemma u8_small x : is_byte x -> u8 x = x.
Proof. intros H. apply Z.mod_small. exact H. Qed.

Lemma u16_small x : 0 <= x < 2 ^ 16 -> u16 x = x.
Proof. apply Z.mod_small. Qed.

Lemma u32_small x : 0 <= x < 2 ^ 32 -> u32 x = x.
Proof. apply Z.mod_small. Qed.

Lemma u64_small x : 0 <= x < 2 ^ 64 -> u64 x = x.
Proof. apply Z.mod_small. Qed.

Lemma s32_small x : - 2 ^ 31 <= x < 2 ^ 31 -> s32 x = x.
Proof. intros. unfold s32. rewrite Z.mod_small; lia. Qed.

Lemma s64_small x : - 2 ^ 63 <= x < 2 ^ 63 -> s64 x = x.
Proof. intros. unfold s64. rewrite Z.mod_small; lia. Qed.

Lemma s16_small x : INT16_MIN <= x <= INT16_MAX -> s16 x = x.
Proof. unfold INT16_MIN, INT16_MAX. intros. unfold s16. rewrite Z.mod_small; lia. Qed.

Lemma u32_idem x : u32 (u32 x) = u32 x.
Proof. apply u32_small, u32_range. Qed.

Lemma u32_add_l x y : u32 (u32 x + y) = u32 (x + y).
Proof. apply Zplus_mod_idemp_l. Qed.

Lemma u32_sub_l x y : u32 (u32 x - y) = u32 (x - y).
Proof. apply Zminus_mod_idemp_l. Qed.

Lemma u32_sub_r x y : u32 (x - u32 y) = u32 (x - y).
Proof. apply Zminus_mod_idemp_r. Qed.

#[export] Hint Resolve u32_range u64_range u8_range : plc.
#[export] Hint Rewrite u32_idem u32_add_l u32_sub_l u32_sub_r : plc.

(** ** Buffer lemmas *)

Lemma zlen_nonneg {A} (l : list A) : 0 <= zlen l.
Proof. unfold zlen. lia. Qed.

Lemma length_zeros n : length (zeros n) = Z.to_nat n.
Proof. apply length_replicate. Qed.

Lemma length_bwrite off src l :
  0 <= off -> off + zlen src <= zlen l -> length (bwrite off src l) = length l.
Proof.
  unfold zlen, bwrite. intros. rewrite !length_app, length_take, length_drop. lia.
Qed.

Lemma length_bslice off len l :
  0 <= off -> 0 <= len -> off + len <= zlen l -> length (bslice off len l) = Z.to_nat len.
Proof. unfold zlen, bslice. intros. rewrite length_take, length_drop. lia. Qed.

Lemma zlen_zeros n : 0 <= n -> zlen (zeros n) = n.
Proof. unfold zlen. rewrite length_zeros. lia. Qed.

Lemma zlen_bwrite off src l :
  0 <= off -> off + zlen src <= zlen l -> zlen (bwrite off src l) = zlen l.
Proof. intros. unfold zlen at 1. rewrite length_bwrite by done. done. Qed.

Lemma zlen_bslice off len l :
  0 <= off -> 0 <= len -> off + len <= zlen l -> zlen (bslice off len l) = len.
Proof. intros. unfold zlen at 1. rewrite length_bslice by done. lia. Qed.

Lemma zlen_app {A} (l k : list A) : zlen (l ++ k) = zlen l + zlen k.
Proof. unfold zlen. rewrite length_app. lia. Qed.

Lemma bslice_all l : bslice 0 (zlen l) l = l.
Proof. unfold bslice, zlen. rewrite Nat2Z.id. simpl. rewrite drop_0. by rewrite take_ge. Qed.

(** Reading back what was written. *)
Lemma bslice_bwrite_same off src l :
  0 <= off -> off + zlen src <= zlen l -> bslice off (zlen src) (bwrite off src l) = src.
Proof.
  unfold bslice, bwrite, zlen. intros. rewrite Nat2Z.id.
  rewrite drop_app_length' by (rewrite length_take; lia).
  by rewrite take_app_length.
Qed.

(** A byte of the written range, and of the rest. *)
Lemma lookup_bwrite_inside off src l (i : nat) :
  0 <= off -> off + zlen src <= zlen l ->
  (Z.to_nat off <= i < Z.to_nat off + length src)%nat ->
  bwrite off src l !! i = src !! (i - Z.to_nat off)%nat.
Proof.
  unfold bwrite, zlen. intros.
  rewrite lookup_app_r, length_take by (rewrite length_take; lia).
  rewrite lookup_app_l by lia. f_equal. lia.
Qed.

Lemma lookup_bwrite_outside off src l (i : nat) :
  0 <= off -> off + zlen src <= zlen l ->
  (i < Z.to_nat off \/ Z.to_nat off + length src <= i)%nat ->
  bwrite off src l !! i = l !! i.
Proof.
  unfold bwrite, zlen. intros ? ? [Hi|Hi].
  - rewrite lookup_app_l by (rewrite length_take; lia). apply lookup_take_lt. lia.
  - rewrite lookup_app_r, length_take by (rewrite length_take; lia).
    rewrite lookup_app_r by lia. rewrite lookup_drop. f_equal. lia.
Qed.

Lemma lookup_bslice off len l (i : nat) :
  (i < Z.to_nat len)%nat -> bslice off len l !! i = l !! (Z.to_nat off + i)%nat.
Proof. intros. unfold bslice. rewrite lookup_take_lt by done. apply lookup_drop. Qed.

(** Writing one range leaves a disjoint range as it was. *)
Lemma bslice_bwrite_disjoint off src l off' len' :
  0 <= off -> off + zlen src <= zlen l -> 0 <= off' -> 0 <= len' ->
  off' + len' <= off \/ off + zlen src <= off' ->
  bslice off' len' (bwrite off src l) = bslice off' len' l.
Proof.
  intros ? ? ? ? Hd. apply list_eq. intros i.
  destruct (decide (i < Z.to_nat len')%nat) as [Hi|Hi].
  - rewrite !lookup_bslice by done. apply lookup_bwrite_outside; [done..|].
    unfold zlen in *. lia.
  - rewrite !lookup_ge_None_2; [done|..]; unfold bslice; rewrite length_take; lia.
Qed.

Lemma byte_at_lookup l off : 0 <= off < zlen l -> l !! Z.to_nat off = Some (byte_at l off).
Proof.
  unfold zlen, byte_at. intros.
  destruct (nth_lookup_or_length l (Z.to_nat off) 0) as [-> | ?]; [done|lia].
Qed.

Lemma byte_at_byte l off : bytes l -> is_byte (byte_at l off).
Proof.
  intros Hl. unfold byte_at. destruct (nth_in_or_default (Z.to_nat off) l 0) as [Hi| ->].
  - unfold bytes in Hl. rewrite List.Forall_forall in Hl. auto.
  - unfold is_byte. lia.
Qed.

Lemma bytes_zeros n : bytes (zeros n).
Proof. apply Forall_replicate. unfold is_byte. lia. Qed.

Lemma bytes_bwrite off src l : bytes src -> bytes l -> bytes (bwrite off src l).
Proof. intros. apply Forall_app_2; [by apply Forall_take|apply Forall_app_2; [done|by apply Forall_drop]]. Qed.

Lemma bytes_bslice off len l : bytes l -> bytes (bslice off len l).
Proof. intros. by apply Forall_take, Forall_drop. Qed.

#[export] Hint Resolve bytes_zeros bytes_bwrite bytes_bslice byte_at_byte zlen_nonneg : plc.
#[export] Hint Rewrite @length_app length_zeros @length_take @length_drop : plc_len.

(** Consecutive writes are one write; a write inside a prefix commutes with
    taking the prefix. *)
Lemma bwrite_bwrite off s1 s2 l :
  0 <= off -> off + zlen s1 + zlen s2 <= zlen l ->
  bwrite (off + zlen s1) s2 (bwrite off s1 l) = bwrite off (s1 ++ s2) l.
Proof.
  unfold bwrite, zlen. intros.
  replace (Z.to_nat (off + Z.of_nat (length s1))) with (Z.to_nat off + length s1)%nat by lia.
  rewrite (app_assoc (take (Z.to_nat off) l) s1).
  rewrite take_app_length', <- drop_drop, drop_app_length' by (rewrite length_app, length_take; lia).
  rewrite drop_drop, length_app, <- !app_assoc. do 4 f_equal. lia.
Qed.

Lemma bslice_prefix_bwrite off src l n :
  0 <= off -> off + zlen src <= n -> n <= zlen l ->
  bslice 0 n (bwrite off src l) = bwrite off src (bslice 0 n l).
Proof.
  intros H1 H2 H3. pose proof (zlen_nonneg src).
  assert (zlen (bslice 0 n l) = n) as HL by (apply zlen_bslice; lia).
  apply list_eq. intros i. destruct (decide (i < Z.to_nat n)%nat) as [Hi|Hi].
  - rewrite lookup_bslice by done. simpl.
    destruct (decide (Z.to_nat off <= i < Z.to_nat off + length src)%nat) as [Hin|Hout].
    + rewrite !lookup_bwrite_inside by (unfold zlen in *; lia). done.
    + rewrite !lookup_bwrite_outside by (unfold zlen in *; lia).
      rewrite lookup_bslice by done. done.
  - rewrite !lookup_ge_None_2; [done|..].
    + rewrite length_bwrite by lia. unfold zlen in *. lia.
    + unfold bslice. rewrite length_take. lia.
Qed.

Lemma bslice_bslice off len n l :
  0 <= off -> 0 <= len -> off + len <= n -> bslice off len (bslice 0 n l) = bslice off len l.
Proof.
  intros. apply list_eq. intros i. destruct (decide (i < Z.to_nat len)%nat) as [Hi|Hi].
  - rewrite !lookup_bslice by lia. done.
  - rewrite !lookup_ge_None_2; [done|..]; unfold bslice; rewrite length_take; lia.
Qed.

(** ** List lemmas *)

Lemma Forall2_impl_In {A B} (P Q : A -> B -> Prop) l k :
  Forall2 P l k -> (forall x y, In x l -> P x y -> Q x y) -> Forall2 Q l k.
Proof.
  induction 1 as [|x y l k Hxy _ IH]; intros HPQ; [constructor|].
  constructor; [by apply HPQ; [left|]|]. apply IH. intros. apply HPQ; [by right|done].
Qed.

(** ** Little-endian encoding *)

Fixpoint le_bytes (n : nat) (v : Z) : list Z :=
  match n with O => [] | S n => u8 v :: le_bytes n (v / 256) end.
Fixpoint le_value (l : list Z) : Z :=
  match l with [] => 0 | b :: l => b + 256 * le_value l end.

Lemma length_le_bytes n v : length (le_bytes n v) = n.
Proof. revert v. induction n; intros; simpl; auto. Qed.

Lemma bytes_le_bytes n v : bytes (le_bytes n v).
Proof. revert v. induction n; intros; simpl; constructor; [apply u8_range|apply IHn]. Qed.

Lemma le_value_bytes n v : le_value (le_bytes n v) = v mod 2 ^ (8 * Z.of_nat n).
Proof.
  revert v. induction n as [|n IH]; intros v; [simpl; by rewrite Z.mod_1_r|].
  cbn [le_bytes le_value]. rewrite IH. unfold u8.
  replace (2 ^ (8 * Z.of_nat (S n))) with (256 * 2 ^ (8 * Z.of_nat n)).
  2:{ rewrite Nat2Z.inj_succ, Z.mul_succ_r, Z.pow_add_r by lia. lia. }
  rewrite Z.rem_mul_r by lia. done.
Qed.

Lemma le_bytes_value l : bytes l -> le_bytes (length l) (le_value l) = l.
Proof.
  induction 1 as [|b l Hb Hl IH]; [done|]. cbn [length le_bytes le_value].
  replace ((b + 256 * le_value l) / 256) with (le_value l) by mach.
  rewrite IH. f_equal. mach.
Qed.

Lemma le_value_range l : bytes l -> 0 <= le_value l < 2 ^ (8 * zlen l).
Proof.
  induction 1 as [|b l Hb Hl IH]; [done|]. cbn [le_value].
  replace (8 * zlen (b :: l)) with (8 + 8 * zlen l) by (unfold zlen; simpl; lia).
  rewrite Z.pow_add_r by (unfold zlen; lia). unfold is_byte in Hb. lia.
Qed.

(** Or-ing a value below a shifted one is addition. *)
Lemma lor_shiftl_add x y k : 0 <= k -> 0 <= x < 2 ^ k -> Z.lor x (Z.shiftl y k) = x + y * 2 ^ k.
Proof.
  intros Hk Hx. rewrite <- Z.shiftl_mul_pow2 by done.
  rewrite <- (Z.add_lor_land x). enough (Z.land x (Z.shiftl y k) = 0) by lia.
  apply Z.bits_inj'. intros n Hn. rewrite Z.land_spec, Z.bits_0.
  destruct (Z.lt_ge_cases n k).
  - rewrite Z.shiftl_spec_low by done. apply andb_false_r.
  - destruct (Z.eq_dec x 0) as [->|]; [by rewrite Z.bits_0|].
    rewrite (Z.bits_above_log2 x n); [done|lia|].
    apply Z.log2_lt_pow2; [lia|]. apply Z.lt_le_trans with (2 ^ k); [lia|].
    apply Z.pow_le_mono_r; lia.
Qed.

Lemma land_255 v : Z.land v 255 = u8 v.
Proof. apply (Z.land_ones v 8). lia. Qed.

#[export] Hint Resolve bytes_le_bytes : plc.
#[export] Hint Rewrite length_le_bytes : plc_len.
