(* ===== verification/PlcTypes.v ===== *)
(** * Status codes and elementary types

    [src/core/plc_types.c], [include/softplc/plc_status.h] and
    [include/softplc/plc_types.h]: the status enumeration every operation
    returns, the table of IEC 61131-3 elementary types, and the two
    "never NULL" description functions. *)

From Stdlib Require Import ZArith Lia.
From stdpp Require Import base list strings decidable tactics.
From S2P Require Import Prelude.

(** [plc_status_t]. *)
Inductive plc_status : Type :=
| PLC_OK
| PLC_ERR_INVAL
| PLC_ERR_NOMEM
| PLC_ERR_IO
| PLC_ERR_TIMEOUT
| PLC_ERR_PROTO
| PLC_ERR_STATE
| PLC_ERR_UNSUPPORTED
| PLC_ERR_AGAIN
| PLC_ERR_NOTFOUND.

#[export] Instance plc_status_eq_dec : EqDecision plc_status.
Proof. solve_decision. Defined.

(** The numeric value of an enumerator. *)
Definition plc_status_code (st : plc_status) : Z :=
  match st with
  | PLC_OK => 0
  | PLC_ERR_INVAL => -1
  | PLC_ERR_NOMEM => -2
  | PLC_ERR_IO => -3
  | PLC_ERR_TIMEOUT => -4
  | PLC_ERR_PROTO => -5
  | PLC_ERR_STATE => -6
  | PLC_ERR_UNSUPPORTED => -7
  | PLC_ERR_AGAIN => -8
  | PLC_ERR_NOTFOUND => -9
  end.

(** [st == PLC_OK]. *)
Definition is_ok (st : plc_status) : bool := bool_decide (st = PLC_OK).

(** [plc_strerror] takes the raw enumeration value, which a C caller may
    have obtained from an integer outside the enumeration. *)
Definition plc_strerror (st : Z) : string :=
  if st =? 0 then "ok"
  else if st =? -1 then "invalid argument"
  else if st =? -2 then "out of memory"
  else if st =? -3 then "transport error"
  else if st =? -4 then "timeout"
  else if st =? -5 then "protocol or ABI mismatch"
  else if st =? -6 then "invalid state"
  else if st =? -7 then "unsupported"
  else if st =? -8 then "would block"
  else if st =? -9 then "not found"
  else "unknown error".

(** [kTypes], indexed by [plc_type_id_t]. *)
Definition kTypes : list (string * Z) :=
  [ ("BOOL", 1); ("SINT", 8); ("INT", 16); ("DINT", 32); ("LINT", 64);
    ("USINT", 8); ("UINT", 16); ("UDINT", 32); ("ULINT", 64);
    ("REAL", 32); ("LREAL", 64);
    ("BYTE", 8); ("WORD", 16); ("DWORD", 32); ("LWORD", 64); ("TIME", 64) ]%string.

Definition PLC_TYPE__COUNT : Z := 16.

Definition plc_type_bits (id : Z) : Z :=
  if (0 <=? id) && (id <? PLC_TYPE__COUNT)
  then (nth (Z.to_nat id) kTypes (""%string, 0)).2 else 0.

Definition plc_type_name (id : Z) : string :=
  if (0 <=? id) && (id <? PLC_TYPE__COUNT)
  then (nth (Z.to_nat id) kTypes (""%string, 0)).1 else "<invalid>"%string.

(** ** Facts *)

Lemma is_ok_true st : is_ok st = true <-> st = PLC_OK.
Proof. apply bool_decide_eq_true. Qed.

Lemma is_ok_false st : is_ok st = false <-> st <> PLC_OK.
Proof. apply bool_decide_eq_false. Qed.

#[export] Instance plc_status_code_inj : Inj (=) (=) plc_status_code.
Proof. intros [] []; simpl; congruence. Qed.

Lemma type_id_cases id :
  0 <= id < PLC_TYPE__COUNT ->
  exists k : nat, (k < 16)%nat /\ id = Z.of_nat k.
Proof. unfold PLC_TYPE__COUNT. intros. exists (Z.to_nat id). lia. Qed.
