(* ===== verification/StdFb.v ===== *)
(** * Standard function blocks

    [src/core/std_fb.c] and [include/softplc/std_fb.h]: edge detectors,
    bistables, timers and counters.  Each block is the record of its IEC
    inputs and outputs and its private state; [<name>_run] is one call per
    scan.  A [PLC_TIME] is an [int64_t] number of nanoseconds, a [PLC_INT] an
    [int16_t].

    The theorems relate [n] successive calls to a closed form over the
    sequence of inputs: elapsed time for the timers, the number of rising
    edges for the counters. *)

From Stdlib Require Import ZArith Lia.
From stdpp Require Import base list tactics.
From S2P Require Import Prelude.

(** ** Blocks *)

Record plc_r_trig : Type := RTrig {
  rt_CLK : bool;
  rt_Q : bool;
  rt_m_prev : bool
}.
#[export] Instance eta_plc_r_trig : Eta plc_r_trig := fun r =>
  RTrig (rt_CLK r) (rt_Q r) (rt_m_prev r).

Record plc_f_trig : Type := FTrig {
  ft_CLK : bool;
  ft_Q : bool;
  ft_m_prev : bool
}.
#[export] Instance eta_plc_f_trig : Eta plc_f_trig := fun r =>
  FTrig (ft_CLK r) (ft_Q r) (ft_m_prev r).

Record plc_rs : Type := RS {
  rs_S : bool;
  rs_R1 : bool;
  rs_Q1 : bool
}.
#[export] Instance eta_plc_rs : Eta plc_rs := fun r =>
  RS (rs_S r) (rs_R1 r) (rs_Q1 r).

Record plc_sr : Type := SR {
  sr_S1 : bool;
  sr_R : bool;
  sr_Q1 : bool
}.
#[export] Instance eta_plc_sr : Eta plc_sr := fun r =>
  SR (sr_S1 r) (sr_R r) (sr_Q1 r).

Record plc_ton : Type := TON {
  ton_IN : bool;
  ton_Q : bool;
  ton_PT : Z;
  ton_ET : Z
}.
#[export] Instance eta_plc_ton : Eta plc_ton := fun r =>
  TON (ton_IN r) (ton_Q r) (ton_PT r) (ton_ET r).

Record plc_tof : Type := TOF {
  tof_IN : bool;
  tof_Q : bool;
  tof_PT : Z;
  tof_ET : Z;
  tof_m_prev : bool;
  tof_m_running : bool
}.
#[export] Instance eta_plc_tof : Eta plc_tof := fun r =>
  TOF (tof_IN r) (tof_Q r) (tof_PT r) (tof_ET r) (tof_m_prev r) (tof_m_running r).

Record plc_tp : Type := TP {
  tp_IN : bool;
  tp_Q : bool;
  tp_PT : Z;
  tp_ET : Z;
  tp_m_prev : bool
}.
#[export] Instance eta_plc_tp : Eta plc_tp := fun r =>
  TP (tp_IN r) (tp_Q r) (tp_PT r) (tp_ET r) (tp_m_prev r).

Record plc_ctu : Type := CTU {
  ctu_CU : bool;
  ctu_R : bool;
  ctu_Q : bool;
  ctu_PV : Z;
  ctu_CV : Z;
  ctu_m_prev : bool
}.
#[export] Instance eta_plc_ctu : Eta plc_ctu := fun r =>
  CTU (ctu_CU r) (ctu_R r) (ctu_Q r) (ctu_PV r) (ctu_CV r) (ctu_m_prev r).

Record plc_ctd : Type := CTD {
  ctd_CD : bool;
  ctd_LD : bool;
  ctd_Q : bool;
  ctd_PV : Z;
  ctd_CV : Z;
  ctd_m_prev : bool
}.
#[export] Instance eta_plc_ctd : Eta plc_ctd := fun r =>
  CTD (ctd_CD r) (ctd_LD r) (ctd_Q r) (ctd_PV r) (ctd_CV r) (ctd_m_prev r).

Record plc_ctud : Type := CTUD {
  cud_CU : bool;
  cud_CD : bool;
  cud_R : bool;
  cud_LD : bool;
  cud_QU : bool;
  cud_QD : bool;
  cud_PV : Z;
  cud_CV : Z;
  cud_m_prev_cu : bool;
  cud_m_prev_cd : bool
}.
#[export] Instance eta_plc_ctud : Eta plc_ctud := fun r =>
  CTUD (cud_CU r) (cud_CD r) (cud_R r) (cud_LD r) (cud_QU r) (cud_QD r) (cud_PV r)
    (cud_CV r) (cud_m_prev_cu r) (cud_m_prev_cd r).

(** ** Edge detection *)

Definition r_trig_body (fb : plc_r_trig) : plc_r_trig :=
  let fb := fb <| rt_Q := rt_CLK fb && negb (rt_m_prev fb) |> in
  fb <| rt_m_prev := rt_CLK fb |>.

Definition plc_r_trig_run (fb : option plc_r_trig) : option plc_r_trig :=
  on_ptr r_trig_body fb.

Definition f_trig_body (fb : plc_f_trig) : plc_f_trig :=
  let fb := fb <| ft_Q := negb (ft_CLK fb) && ft_m_prev fb |> in
  fb <| ft_m_prev := ft_CLK fb |>.

Definition plc_f_trig_run (fb : option plc_f_trig) : option plc_f_trig :=
  on_ptr f_trig_body fb.

(** ** Bistables *)

Definition rs_body (fb : plc_rs) : plc_rs :=
  fb <| rs_Q1 := negb (rs_R1 fb) && (rs_S fb || rs_Q1 fb) |>.

Definition plc_rs_run (fb : option plc_rs) : option plc_rs := on_ptr rs_body fb.

Definition sr_body (fb : plc_sr) : plc_sr :=
  fb <| sr_Q1 := sr_S1 fb || (negb (sr_R fb) && sr_Q1 fb) |>.

Definition plc_sr_run (fb : option plc_sr) : option plc_sr := on_ptr sr_body fb.

(** ** Timers *)

Definition accumulate (et dt pt : Z) : Z :=
  let dt := if dt <? 0 then 0 else dt in
  if et >=? pt then pt
  else
    let et := s64 (et + dt) in
    if et >? pt then pt else et.

Definition ton_body (dt : Z) (fb : plc_ton) : plc_ton :=
  if negb (ton_IN fb) then fb <| ton_ET := 0 |> <| ton_Q := false |>
  else
    let fb := fb <| ton_ET := accumulate (ton_ET fb) dt (ton_PT fb) |> in
    fb <| ton_Q := ton_ET fb >=? ton_PT fb |>.

Definition plc_ton_run (fb : option plc_ton) (dt : Z) : option plc_ton :=
  on_ptr (ton_body dt) fb.

Definition tof_body (dt : Z) (fb : plc_tof) : plc_tof :=
  let fb :=
    if tof_IN fb then
      fb <| tof_ET := 0 |> <| tof_Q := true |> <| tof_m_running := false |>
    else
      let fb := if tof_m_prev fb
                then fb <| tof_ET := 0 |> <| tof_m_running := true |> else fb in
      if tof_m_running fb then
        let fb := fb <| tof_ET := accumulate (tof_ET fb) dt (tof_PT fb) |> in
        if tof_ET fb >=? tof_PT fb
        then fb <| tof_Q := false |> <| tof_m_running := false |> else fb
      else fb in
  fb <| tof_m_prev := tof_IN fb |>.

Definition plc_tof_run (fb : option plc_tof) (dt : Z) : option plc_tof :=
  on_ptr (tof_body dt) fb.

Definition tp_body (dt : Z) (fb : plc_tp) : plc_tp :=
  let fb :=
    if negb (tp_Q fb) && tp_IN fb && negb (tp_m_prev fb) then
      fb <| tp_Q := true |> <| tp_ET := 0 |>
    else if tp_Q fb then
      let fb := fb <| tp_ET := accumulate (tp_ET fb) dt (tp_PT fb) |> in
      if tp_ET fb >=? tp_PT fb then fb <| tp_Q := false |> else fb
    else if negb (tp_IN fb) then fb <| tp_ET := 0 |>
    else fb in
  fb <| tp_m_prev := tp_IN fb |>.

Definition plc_tp_run (fb : option plc_tp) (dt : Z) : option plc_tp :=
  on_ptr (tp_body dt) fb.

(** ** Counters

    [fb->CV++] is guarded by [fb->CV < INT16_MAX], so the [int16_t]
    increment cannot overflow; the conversion is written out all the same. *)

Definition ctu_body (fb : plc_ctu) : plc_ctu :=
  let fb :=
    if ctu_R fb then fb <| ctu_CV := 0 |>
    else if ctu_CU fb && negb (ctu_m_prev fb) && (ctu_CV fb <? INT16_MAX)
    then fb <| ctu_CV := s16 (ctu_CV fb + 1) |> else fb in
  let fb := fb <| ctu_Q := ctu_CV fb >=? ctu_PV fb |> in
  fb <| ctu_m_prev := ctu_CU fb |>.

Definition plc_ctu_run (fb : option plc_ctu) : option plc_ctu := on_ptr ctu_body fb.

Definition ctd_body (fb : plc_ctd) : plc_ctd :=
  let fb :=
    if ctd_LD fb then fb <| ctd_CV := ctd_PV fb |>
    else if ctd_CD fb && negb (ctd_m_prev fb) && (ctd_CV fb >? INT16_MIN)
    then fb <| ctd_CV := s16 (ctd_CV fb - 1) |> else fb in
  let fb := fb <| ctd_Q := ctd_CV fb <=? 0 |> in
  fb <| ctd_m_prev := ctd_CD fb |>.

Definition plc_ctd_run (fb : option plc_ctd) : option plc_ctd := on_ptr ctd_body fb.

Definition ctud_body (fb : plc_ctud) : plc_ctud :=
  let up := cud_CU fb && negb (cud_m_prev_cu fb) in
  let down := cud_CD fb && negb (cud_m_prev_cd fb) in
  let fb :=
    if cud_R fb then fb <| cud_CV := 0 |>
    else if cud_LD fb then fb <| cud_CV := cud_PV fb |>
    else
      let fb := if up && negb down && (cud_CV fb <? INT16_MAX)
                then fb <| cud_CV := s16 (cud_CV fb + 1) |> else fb in
      if down && negb up && (cud_CV fb >? INT16_MIN)
      then fb <| cud_CV := s16 (cud_CV fb - 1) |> else fb in
  let fb := fb <| cud_QU := cud_CV fb >=? cud_PV fb |> in
  let fb := fb <| cud_QD := cud_CV fb <=? 0 |> in
  let fb := fb <| cud_m_prev_cu := cud_CU fb |> in
  fb <| cud_m_prev_cd := cud_CD fb |>.

Definition plc_ctud_run (fb : option plc_ctud) : option plc_ctud :=
  on_ptr ctud_body fb.

(** ** Runs of several scans

    One scan of a timer assigns its inputs and calls the block with the
    scan's elapsed time; a run is the left fold of the scans. *)

Definition ton_scan (fb : plc_ton) (x : bool * Z) : plc_ton :=
  ton_body x.2 (fb <| ton_IN := x.1 |>).
Definition tof_scan (fb : plc_tof) (x : bool * Z) : plc_tof :=
  tof_body x.2 (fb <| tof_IN := x.1 |>).
Definition tp_scan (fb : plc_tp) (x : bool * Z) : plc_tp :=
  tp_body x.2 (fb <| tp_IN := x.1 |>).
Definition r_trig_scan (fb : plc_r_trig) (clk : bool) : plc_r_trig :=
  r_trig_body (fb <| rt_CLK := clk |>).
Definition f_trig_scan (fb : plc_f_trig) (clk : bool) : plc_f_trig :=
  f_trig_body (fb <| ft_CLK := clk |>).
Definition ctu_scan (fb : plc_ctu) (cu : bool) : plc_ctu :=
  ctu_body (fb <| ctu_CU := cu |>).
Definition ctd_scan (fb : plc_ctd) (cd : bool) : plc_ctd :=
  ctd_body (fb <| ctd_CD := cd |>).
Definition ctud_scan (fb : plc_ctud) (x : bool * bool) : plc_ctud :=
  ctud_body (fb <| cud_CU := x.1 |> <| cud_CD := x.2 |>).

(** ** Reference definitions over an input history *)

(** A negative [dt] counts as no time at all. *)
Definition dt_pos (dt : Z) : Z := Z.max 0 dt.

(** How long [IN] has been seen true, counting the scan in which it was
    first seen; [None] when the last scan saw it false. *)
Definition held_step (h : option Z) (x : bool * Z) : option Z :=
  if x.1 then Some (default 0 h + dt_pos x.2) else None.
Definition held (xs : list (bool * Z)) : option Z := fold_left held_step xs None.

(** What an off-delay has to remember: [IN] was never true, is true, or has
    been false for some time. *)
Inductive off_state : Type := OffNever | OffOn | OffFor (t : Z).
Definition off_step (s : off_state) (x : bool * Z) : off_state :=
  if x.1 then OffOn else
  match s with
  | OffNever => OffNever
  | OffOn => OffFor (dt_pos x.2)
  | OffFor t => OffFor (t + dt_pos x.2)
  end.
Definition off_history (xs : list (bool * Z)) : off_state :=
  fold_left off_step xs OffNever.

Definition total_dt (xs : list (bool * Z)) : Z :=
  fold_left (fun t x => t + dt_pos x.2) xs 0.

(** Rising edges of an input history, given the previous level. *)
Fixpoint rising (prev : bool) (xs : list bool) : list bool :=
  match xs with
  | [] => []
  | x :: xs => (x && negb prev) :: rising x xs
  end.
Fixpoint count_true (xs : list bool) : Z :=
  match xs with [] => 0 | x :: xs => (if x then 1 else 0) + count_true xs end.

(** No signed overflow can happen in [accumulate] when the preset time and
    the scan's elapsed time fit an [int64_t] together. *)
Definition dt_fits (pt : Z) (x : bool * Z) : Prop := pt + x.2 <= INT64_MAX.

(** ** Lemmas *)

Lemma accumulate_spec et dt pt :
  0 <= et -> pt + dt <= INT64_MAX -> pt <= INT64_MAX ->
  accumulate et dt pt = Z.min pt (et + dt_pos dt).
Proof.
  unfold accumulate, dt_pos, INT64_MAX. intros.
  destruct (Z.ltb_spec dt 0); destruct (Z.geb_spec et pt); [lia| |lia|].
  - rewrite s64_small by lia. split_ifs; lia.
  - rewrite s64_small by lia. split_ifs; lia.
Qed.

Lemma fold_left_snoc {A B} (f : A -> B -> A) xs x a :
  fold_left f (xs ++ [x]) a = f (fold_left f xs a) x.
Proof. by rewrite fold_left_app. Qed.

Lemma held_nonneg xs t : held xs = Some t -> 0 <= t.
Proof.
  unfold held. revert t. induction xs as [|x xs IH] using rev_ind; intros t; simpl; [done|].
  rewrite fold_left_snoc. unfold held_step at 1.
  destruct x as [[] dt]; simpl; [|done]. intros [= <-]. unfold dt_pos.
  destruct (fold_left held_step xs None) as [h|]; simpl in *; [|lia].
  specialize (IH h eq_refl). lia.
Qed.

Lemma off_nonneg xs t : off_history xs = OffFor t -> 0 <= t.
Proof.
  unfold off_history. revert t. induction xs as [|x xs IH] using rev_ind; intros t; simpl; [done|].
  rewrite fold_left_snoc. unfold off_step at 1, dt_pos.
  destruct x as [[] dt]; simpl; [done|].
  destruct (fold_left off_step xs OffNever) as [| |h]; [done| |]; intros [= <-]; [lia|].
  specialize (IH h eq_refl). lia.
Qed.

Lemma total_dt_snoc xs x : total_dt (xs ++ [x]) = total_dt xs + dt_pos x.2.
Proof. unfold total_dt. by rewrite fold_left_snoc. Qed.

Lemma total_dt_nonneg xs : 0 <= total_dt xs.
Proof.
  induction xs as [|x xs IH] using rev_ind; [done|].
  rewrite total_dt_snoc. unfold dt_pos. lia.
Qed.

Lemma count_true_nonneg xs : 0 <= count_true xs.
Proof. induction xs as [|[] xs]; simpl; lia. Qed.

(** The state of each timer after a run, by induction on the run. *)
Lemma ton_run_state pt xs fb :
  0 <= pt <= INT64_MAX -> Forall (dt_fits pt) xs ->
  ton_PT fb = pt -> ton_ET fb = 0 -> ton_Q fb = false ->
  let fb' := fold_left ton_scan xs fb in
  ton_PT fb' = pt /\
  ton_ET fb' = match held xs with None => 0 | Some t => Z.min pt t end /\
  ton_Q fb' = match held xs with None => false | Some t => t >=? pt end.
Proof.
  intros Hpt Hall H1 H2 H3. simpl. revert Hall.
  induction xs as [|[[] dt] xs IH] using rev_ind; intros Hall; [done| |];
    apply Forall_app in Hall as [Hall Hx]; destruct (IH Hall) as (IP & IE & IQ);
    unfold held in *; rewrite !fold_left_snoc; cbn [held_step fst snd].
  - inversion Hx as [|? ? Hdt _]; subst; unfold dt_fits in Hdt; simpl in Hdt.
    pose proof (held_nonneg xs) as Hn. unfold held in Hn.
    unfold ton_scan at 1 3 5, ton_body; simpl. rewrite IP, IE.
    set (t := fold_left held_step xs None) in *.
    rewrite accumulate_spec; [|destruct t as [h|]; [specialize (Hn h eq_refl)|]; lia..].
    unfold dt_pos. destruct t as [h|]; simpl; [specialize (Hn h eq_refl)|];
      (split; [done|split; lia]).
  - unfold ton_scan at 1 3 5, ton_body; simpl. done.
Qed.

Lemma tof_run_state pt xs fb :
  0 <= pt <= INT64_MAX -> Forall (dt_fits pt) xs ->
  tof_PT fb = pt -> tof_ET fb = 0 -> tof_Q fb = false ->
  tof_m_prev fb = false -> tof_m_running fb = false ->
  let fb' := fold_left tof_scan xs fb in
  tof_PT fb' = pt /\
  match off_history xs with
  | OffNever => tof_ET fb' = 0 /\ tof_Q fb' = false /\
                tof_m_prev fb' = false /\ tof_m_running fb' = false
  | OffOn => tof_ET fb' = 0 /\ tof_Q fb' = true /\
             tof_m_prev fb' = true /\ tof_m_running fb' = false
  | OffFor t => tof_ET fb' = Z.min pt t /\ tof_Q fb' = (t <? pt) /\
                tof_m_prev fb' = false /\ tof_m_running fb' = (t <? pt)
  end.
Proof.
  intros Hpt Hall H1 H2 H3 H4 H5. simpl. revert Hall.
  induction xs as [|[[] dt] xs IH] using rev_ind; intros Hall; [done| |];
    apply Forall_app in Hall as [Hall Hx]; destruct (IH Hall) as (IP & IS);
    unfold off_history in *; rewrite !fold_left_snoc; cbn [off_step fst snd].
  - unfold tof_scan at 1 3 5 7 9, tof_body; simpl. done.
  - inversion Hx as [|? ? Hdt _]; subst; unfold dt_fits in Hdt; simpl in Hdt.
    pose proof (off_nonneg xs) as Hn. unfold off_history in Hn.
    destruct (fold_left off_step xs OffNever) as [| |t];
      destruct IS as (IE & IQ & IV & IR);
      unfold tof_scan at 1, tof_body; simpl; rewrite IP, ?IE, ?IQ, ?IV, ?IR; simpl.
    + done.
    + rewrite accumulate_spec by (rewrite ?IP; lia). unfold dt_pos. split_ifs; lia.
    + specialize (Hn t eq_refl).
      rewrite accumulate_spec by (rewrite ?IP; lia). unfold dt_pos. split_ifs; lia.
Qed.

Lemma tp_scan_running fb x :
  tp_Q fb = true ->
  let et := accumulate (tp_ET fb) x.2 (tp_PT fb) in
  tp_PT (tp_scan fb x) = tp_PT fb /\ tp_ET (tp_scan fb x) = et /\
  tp_Q (tp_scan fb x) = negb (et >=? tp_PT fb).
Proof. intros H. unfold tp_scan, tp_body; simpl. rewrite H; simpl. by split_ifs. Qed.

Lemma tp_run_state pt xs fb :
  0 < pt <= INT64_MAX -> Forall (dt_fits pt) xs ->
  tp_PT fb = pt -> tp_ET fb = 0 -> tp_Q fb = true ->
  total_dt xs < pt ->
  let fb' := fold_left tp_scan xs fb in
  tp_PT fb' = pt /\ tp_ET fb' = total_dt xs /\ tp_Q fb' = true.
Proof.
  intros Hpt Hall H1 H2 H3. simpl. revert Hall.
  induction xs as [|[b dt] xs IH] using rev_ind; intros Hall Hlt; [done|].
  apply Forall_app in Hall as [Hall Hx]. rewrite total_dt_snoc in *.
  inversion Hx as [|? ? Hdt _]; subst; unfold dt_fits in Hdt; simpl in Hdt.
  pose proof (total_dt_nonneg xs). assert (0 <= dt_pos dt) by (unfold dt_pos; lia).
  simpl in Hlt. destruct IH as (IP & IE & IQ); [done|lia|].
  rewrite !fold_left_snoc.
  destruct (tp_scan_running _ (b, dt) IQ) as (-> & -> & ->).
  rewrite IP, IE. simpl. rewrite accumulate_spec by lia. split; [done|split; [lia|]].
  destruct (Z.geb_spec (Z.min (tp_PT fb) (total_dt xs + dt_pos dt)) (tp_PT fb)); lia.
Qed.

Lemma ctu_run_state fb xs :
  INT16_MIN <= ctu_CV fb <= INT16_MAX -> ctu_R fb = false ->
  let fb' := fold_left ctu_scan xs fb in
  ctu_CV fb' = Z.min INT16_MAX (ctu_CV fb + count_true (rising (ctu_m_prev fb) xs)) /\
  ctu_R fb' = false /\ ctu_PV fb' = ctu_PV fb.
Proof.
  revert fb. induction xs as [|x xs IH]; intros fb Hr HR; cbn [fold_left rising count_true];
    [split; [lia|done]|].
  set (fb1 := ctu_scan fb x).
  assert (ctu_CV fb1 = Z.min INT16_MAX (ctu_CV fb + if x && negb (ctu_m_prev fb) then 1 else 0)
          /\ ctu_R fb1 = false /\ ctu_PV fb1 = ctu_PV fb /\ ctu_m_prev fb1 = x) as (E1 & E2 & E3 & E4).
  { subst fb1. unfold ctu_scan, ctu_body; simpl. rewrite HR; simpl.
    destruct (x && negb (ctu_m_prev fb)); simpl; [|split; [lia|done]].
    destruct (Z.ltb_spec (ctu_CV fb) INT16_MAX); simpl; (split; [rewrite ?s16_small by lia; lia|done]). }
  pose proof (count_true_nonneg (rising x xs)).
  destruct (IH fb1) as (I1 & I2 & I3); [rewrite E1; unfold INT16_MIN, INT16_MAX in *; split_ifs; lia|done|].
  rewrite I1, I2, I3, E1, E3, E4. split; [|done]. split_ifs; lia.
Qed.

Lemma ctd_run_state fb xs :
  INT16_MIN <= ctd_CV fb <= INT16_MAX -> ctd_LD fb = false ->
  let fb' := fold_left ctd_scan xs fb in
  ctd_CV fb' = Z.max INT16_MIN (ctd_CV fb - count_true (rising (ctd_m_prev fb) xs)) /\
  ctd_LD fb' = false /\ ctd_PV fb' = ctd_PV fb.
Proof.
  revert fb. induction xs as [|x xs IH]; intros fb Hr HR; cbn [fold_left rising count_true];
    [split; [lia|done]|].
  set (fb1 := ctd_scan fb x).
  assert (ctd_CV fb1 = Z.max INT16_MIN (ctd_CV fb - if x && negb (ctd_m_prev fb) then 1 else 0)
          /\ ctd_LD fb1 = false /\ ctd_PV fb1 = ctd_PV fb /\ ctd_m_prev fb1 = x) as (E1 & E2 & E3 & E4).
  { subst fb1. unfold ctd_scan, ctd_body; simpl. rewrite HR; simpl.
    destruct (x && negb (ctd_m_prev fb)); simpl; [|split; [lia|done]].
    destruct (Z.gtb_spec (ctd_CV fb) INT16_MIN); simpl; (split; [rewrite ?s16_small by lia; lia|done]). }
  pose proof (count_true_nonneg (rising x xs)).
  destruct (IH fb1) as (I1 & I2 & I3); [rewrite E1; unfold INT16_MIN, INT16_MAX in *; split_ifs; lia|done|].
  rewrite I1, I2, I3, E1, E3, E4. split; [|done]. split_ifs; lia.
Qed.

(** The signed contribution of one scan to an up/down counter: simultaneous
    edges cancel. *)
Definition ctud_delta (up down : bool) : Z :=
  (if up then 1 else 0) - (if down then 1 else 0).

(** A run of the up/down counter as a walk that stops at the [int16_t]
    bounds. *)
Fixpoint ctud_walk (cv : Z) (pu pd : bool) (xs : list (bool * bool)) : Z :=
  match xs with
  | [] => cv
  | (u, d) :: xs =>
      ctud_walk (Z.max INT16_MIN (Z.min INT16_MAX
                   (cv + ctud_delta (u && negb pu) (d && negb pd)))) u d xs
  end.

Lemma ctud_scan_state fb u d :
  INT16_MIN <= cud_CV fb <= INT16_MAX -> cud_R fb = false -> cud_LD fb = false ->
  let fb' := ctud_scan fb (u, d) in
  let cv := Z.max INT16_MIN (Z.min INT16_MAX
              (cud_CV fb + ctud_delta (u && negb (cud_m_prev_cu fb)) (d && negb (cud_m_prev_cd fb)))) in
  cud_CV fb' = cv /\ cud_R fb' = false /\ cud_LD fb' = false /\ cud_PV fb' = cud_PV fb /\
  cud_m_prev_cu fb' = u /\ cud_m_prev_cd fb' = d /\
  cud_QU fb' = (cv >=? cud_PV fb) /\ cud_QD fb' = (cv <=? 0).
Proof.
  intros Hr HR HL. unfold ctud_scan, ctud_body, ctud_delta; simpl. rewrite HR, HL; simpl.
  unfold INT16_MIN, INT16_MAX in *.
  destruct (u && negb (cud_m_prev_cu fb)), (d && negb (cud_m_prev_cd fb)); simpl;
    split_ifs; rewrite ?s16_small by (unfold INT16_MIN, INT16_MAX; lia);
    repeat split; try done; try lia; f_equal; lia.
Qed.

Lemma ctud_run_state fb xs :
  INT16_MIN <= cud_CV fb <= INT16_MAX -> cud_R fb = false -> cud_LD fb = false ->
  cud_CV (fold_left ctud_scan xs fb)
  = ctud_walk (cud_CV fb) (cud_m_prev_cu fb) (cud_m_prev_cd fb) xs.
Proof.
  revert fb. induction xs as [|[u d] xs IH]; intros fb Hr HR HL; cbn [fold_left ctud_walk]; [done|].
  destruct (ctud_scan_state fb u d Hr HR HL) as (E1 & E2 & E3 & E4 & E5 & E6 & _).
  rewrite IH; [rewrite E1, E5, E6; done|rewrite E1|done|done].
  unfold INT16_MIN, INT16_MAX. lia.
Qed.


(** The [Q] outputs of a run of an edge detector, scan by scan. *)
Fixpoint r_trig_outputs (fb : plc_r_trig) (xs : list bool) : list bool :=
  match xs with
  | [] => []
  | x :: xs => let fb := r_trig_scan fb x in rt_Q fb :: r_trig_outputs fb xs
  end.
Fixpoint f_trig_outputs (fb : plc_f_trig) (xs : list bool) : list bool :=
  match xs with
  | [] => []
  | x :: xs => let fb := f_trig_scan fb x in ft_Q fb :: f_trig_outputs fb xs
  end.

Lemma r_trig_outputs_rising fb xs : r_trig_outputs fb xs = rising (rt_m_prev fb) xs.
Proof. revert fb. induction xs as [|x xs IH]; intros fb; simpl; [done|]. by rewrite IH. Qed.

Lemma f_trig_outputs_rising fb xs :
  f_trig_outputs fb xs = rising (negb (ft_m_prev fb)) (map negb xs).
Proof.
  revert fb. induction xs as [|x xs IH]; intros fb; simpl; [done|].
  rewrite IH; simpl. by rewrite negb_involutive.
Qed.

(** ** Properties *)

Definition ton_init (pt : Z) : plc_ton := TON false false pt 0.
Definition tof_init (pt : Z) : plc_tof := TOF false false pt 0 false false.
Definition tp_init (pt : Z) : plc_tp := TP false false pt 0 false.

(** On-delay timer.  After any history of scans of a zero-initialised
    [plc_ton_t], [ET] is the sum of the elapsed times of the scans since the last
    one that saw [IN] false, the scan that first sees [IN] true included, stopped
    at [PT], and [Q] is true exactly when that sum has reached [PT]; a scan that
    sees [IN] false resets both.  No scan may be so long that [PT] plus its elapsed
    time leaves the [int64_t]: the code does not guard the addition. *)
Theorem ton_on_delay (pt : Z) (xs : list (bool * Z))
    (Hpt : 0 <= pt <= INT64_MAX) (Hdt : Forall (dt_fits pt) xs) :
  ton_ET (fold_left ton_scan xs (ton_init pt))
    = match held xs with None => 0 | Some t => Z.min pt t end /\
  ton_Q (fold_left ton_scan xs (ton_init pt))
    = match held xs with None => false | Some t => t >=? pt end.
Proof. apply (ton_run_state pt xs (ton_init pt)); done. Qed.

Lemma ton_on_delay_witness :
  let xs := [(false, 7); (true, 40); (true, 30); (true, 40)] in
  ton_ET (fold_left ton_scan xs (ton_init 100)) = 100 /\
  ton_Q (fold_left ton_scan xs (ton_init 100)) = true.
Proof.
  apply (ton_on_delay 100 [(false, 7); (true, 40); (true, 30); (true, 40)]);
    [unfold INT64_MAX; lia | repeat constructor; unfold dt_fits, INT64_MAX; simpl; lia].
Defined.

(** Off-delay timer.  A [plc_tof_t] whose [IN] has never been true keeps
    [Q] false for ever; while [IN] is true [Q] is true; after [IN] falls [Q]
    stays true exactly until the accumulated time reaches [PT], and [ET]
    stops at [PT]. *)
Theorem tof_off_delay (pt : Z) (xs : list (bool * Z))
    (Hpt : 0 <= pt <= INT64_MAX) (Hdt : Forall (dt_fits pt) xs) :
  match off_history xs with
  | OffNever => tof_Q (fold_left tof_scan xs (tof_init pt)) = false
  | OffOn => tof_Q (fold_left tof_scan xs (tof_init pt)) = true
  | OffFor t => tof_Q (fold_left tof_scan xs (tof_init pt)) = (t <? pt) /\
                tof_ET (fold_left tof_scan xs (tof_init pt)) = Z.min pt t
  end.
Proof.
  destruct (tof_run_state pt xs (tof_init pt)) as [_ H]; try done.
  destruct (off_history xs); tauto.
Qed.

Lemma tof_off_delay_witness :
  let xs := [(false, 20); (true, 1); (false, 20); (false, 20); (false, 20)] in
  tof_Q (fold_left tof_scan xs (tof_init 50)) = false /\
  tof_ET (fold_left tof_scan xs (tof_init 50)) = 50.
Proof.
  apply (tof_off_delay 50 [(false, 20); (true, 1); (false, 20); (false, 20); (false, 20)]);
    [unfold INT64_MAX; lia | repeat constructor; unfold dt_fits, INT64_MAX; simpl; lia].
Defined.

(** Pulse timer.  A rising [IN] on an idle [plc_tp_t] starts a pulse that
    no later input can shorten, lengthen or retrigger: whatever [IN] does, [Q]
    stays true while the elapsed time is below [PT] and the scan in which it
    reaches [PT] ends the pulse with [ET] equal to [PT]. *)
Theorem tp_pulse (pt d0 : Z) (xs : list (bool * Z)) (x : bool * Z)
    (Hpt : 0 < pt <= INT64_MAX) (Hdt : Forall (dt_fits pt) (xs ++ [x]))
    (Hrun : total_dt xs < pt) :
  let fb := fold_left tp_scan xs (tp_scan (tp_init pt) (true, d0)) in
  tp_Q fb = true /\ tp_ET fb = total_dt xs /\
  (pt <= total_dt (xs ++ [x]) -> tp_Q (tp_scan fb x) = false /\ tp_ET (tp_scan fb x) = pt).
Proof.
  apply Forall_app in Hdt as [Hall Hx]. inversion Hx as [|? ? Hfit _]; subst.
  destruct (tp_run_state pt xs (tp_scan (tp_init pt) (true, d0))) as (IP & IE & IQ); try done.
  cbv zeta in *. split; [done|split; [done|]]. rewrite total_dt_snoc. intros Hge.
  destruct (tp_scan_running _ x IQ) as (_ & -> & ->). rewrite IP, IE.
  pose proof (total_dt_nonneg xs). unfold dt_fits in Hfit.
  rewrite accumulate_spec by lia. rewrite Z.min_l by lia.
  by rewrite (proj2 (Z.geb_le pt pt) (Z.le_refl pt)).
Qed.

Lemma tp_pulse_witness :
  let fb := fold_left tp_scan [(false, 10); (true, 10)] (tp_scan (tp_init 30) (true, 0)) in
  tp_Q fb = true /\ tp_ET fb = 20 /\
  (30 <= 30 -> tp_Q (tp_scan fb (true, 10)) = false /\ tp_ET (tp_scan fb (true, 10)) = 30).
Proof.
  apply (tp_pulse 30 0 [(false, 10); (true, 10)] (true, 10));
    [unfold INT64_MAX; lia | repeat constructor; unfold dt_fits, INT64_MAX; simpl; lia
    | vm_compute; done].
Defined.

(** A scan with the counting input and the reset (the load) as its inputs. *)
Definition ctu_scan_r (fb : plc_ctu) (x : bool * bool) : plc_ctu := ctu_scan (fb <| ctu_R := x.2 |>) x.1.
Definition ctd_scan_ld (fb : plc_ctd) (x : bool * bool) : plc_ctd := ctd_scan (fb <| ctd_LD := x.2 |>) x.1.

Lemma ctu_scans_PV xs fb : ctu_PV (fold_left ctu_scan_r xs fb) = ctu_PV fb.
Proof.
  revert fb. induction xs as [|[c r] xs IH]; intros fb; simpl; [done|]. rewrite IH.
  unfold ctu_scan_r, ctu_scan, ctu_body. simpl. by repeat case_match.
Qed.

Lemma ctd_scans_PV xs fb : ctd_PV (fold_left ctd_scan_ld xs fb) = ctd_PV fb.
Proof.
  revert fb. induction xs as [|[c r] xs IH]; intros fb; simpl; [done|]. rewrite IH.
  unfold ctd_scan_ld, ctd_scan, ctd_body. simpl. by repeat case_match.
Qed.

(** The output always compares the count. *)
Lemma ctu_scans_Q xs x fb :
  let fb' := fold_left ctu_scan_r (xs ++ [x]) fb in ctu_Q fb' = (ctu_CV fb' >=? ctu_PV fb).
Proof.
  cbv zeta. rewrite <- (ctu_scans_PV (xs ++ [x]) fb), fold_left_snoc.
  unfold ctu_scan_r at 1 3 5, ctu_scan, ctu_body. simpl. by repeat case_match.
Qed.

Lemma ctd_scans_Q xs x fb :
  let fb' := fold_left ctd_scan_ld (xs ++ [x]) fb in ctd_Q fb' = (ctd_CV fb' <=? 0).
Proof.
  cbv zeta. rewrite fold_left_snoc. unfold ctd_scan_ld at 1 3, ctd_scan, ctd_body. simpl. by repeat case_match.
Qed.

(** With the reset low the scans are plain ones. *)
Lemma ctu_scans_low xs fb :
  fold_left ctu_scan_r (map (fun x => (x, false)) xs) fb <| ctu_R := false |> = fold_left ctu_scan xs (fb <| ctu_R := false |>).
Proof.
  revert fb. induction xs as [|x xs IH]; intros fb; [done|]. cbn [map fold_left]. rewrite IH. f_equal.
  unfold ctu_scan_r, ctu_scan, ctu_body. simpl. by repeat case_match.
Qed.

Lemma ctd_scans_low xs fb :
  fold_left ctd_scan_ld (map (fun x => (x, false)) xs) fb <| ctd_LD := false |> = fold_left ctd_scan xs (fb <| ctd_LD := false |>).
Proof.
  revert fb. induction xs as [|x xs IH]; intros fb; [done|]. cbn [map fold_left]. rewrite IH. f_equal.
  unfold ctd_scan_ld, ctd_scan, ctd_body. simpl. by repeat case_match.
Qed.

(** The count since a reset, since a load. *)
Lemma ctu_since_reset xs fb c :
  ctu_CV (fold_left ctu_scan_r (map (fun x => (x, false)) xs) (ctu_scan_r fb (c, true))) = Z.min INT16_MAX (count_true (rising c xs)).
Proof.
  refine (eq_trans (f_equal ctu_CV (ctu_scans_low xs (ctu_scan_r fb (c, true)))) _).
  by destruct (ctu_run_state (ctu_scan_r fb (c, true) <| ctu_R := false |>) xs) as (-> & _).
Qed.

Lemma ctd_since_load xs fb c :
  INT16_MIN <= ctd_PV fb <= INT16_MAX ->
  ctd_CV (fold_left ctd_scan_ld (map (fun x => (x, false)) xs) (ctd_scan_ld fb (c, true)))
    = Z.max INT16_MIN (ctd_PV fb - count_true (rising c xs)).
Proof.
  intros Hpv. refine (eq_trans (f_equal ctd_CV (ctd_scans_low xs (ctd_scan_ld fb (c, true)))) _).
  by destruct (ctd_run_state (ctd_scan_ld fb (c, true) <| ctd_LD := false |>) xs) as (-> & _).
Qed.

(** The scans after a reset (a load) at which [c] was the counting input. *)
Definition scans_after (before : list (bool * bool)) (c : bool) (after : list bool) : list (bool * bool) :=
  (before ++ [(c, true)]) ++ map (fun x => (x, false)) after.

Lemma scans_after_snoc before c after : exists xs x, scans_after before c after = xs ++ [x].
Proof.
  unfold scans_after. destruct after as [|x after _] using rev_ind; [exists before, (c, true); by rewrite app_nil_r|].
  rewrite map_app, app_assoc. eexists _, _. reflexivity.
Qed.

(** [C28] Counters.  Whatever happened before its last reset, an up-counter has
    counted the rising edges of [CU] since, and stops at [INT16_MAX] instead of
    wrapping; a down-counter has counted down from the loaded [PV] by the rising
    edges of [CD] since its last load, and stops at [INT16_MIN].  A level held over
    several scans counts once, an edge in the scan of the reset or load itself
    does not count and does not count later either, and [Q] says in every scan
    whether the count has reached [PV], respectively zero. *)
Theorem counters_count_edges_since_reset (up : plc_ctu) (down : plc_ctd) (before : list (bool * bool)) (c : bool)
    (after : list bool) (Hpv : INT16_MIN <= ctd_PV down <= INT16_MAX) :
  let edges := count_true (rising c after) in
  let up' := fold_left ctu_scan_r (scans_after before c after) up in
  let down' := fold_left ctd_scan_ld (scans_after before c after) down in
  ctu_CV up' = Z.min INT16_MAX edges /\ ctu_Q up' = (Z.min INT16_MAX edges >=? ctu_PV up) /\
  ctd_CV down' = Z.max INT16_MIN (ctd_PV down - edges) /\ ctd_Q down' = (Z.max INT16_MIN (ctd_PV down - edges) <=? 0).
Proof.
  cbv zeta. destruct (scans_after_snoc before c after) as (xs & x & E).
  pose proof (ctu_scans_Q xs x up) as Hu. pose proof (ctd_scans_Q xs x down) as Hd. cbv zeta in Hu, Hd. rewrite <- E in Hu, Hd.
  rewrite Hu, Hd. clear Hu Hd E xs x. unfold scans_after. rewrite !fold_left_app. cbn [fold_left].
  rewrite ctu_since_reset, ctd_since_load by (by rewrite ctd_scans_PV). by rewrite ctd_scans_PV.
Qed.

Lemma counters_count_edges_since_reset_witness :
  let xs := scans_after [(true, false); (false, false)] true [true; false; true; false; true] in
  ctu_CV (fold_left ctu_scan_r xs (CTU false false false 2 32765 false)) = 2 /\
  ctd_CV (fold_left ctd_scan_ld xs (CTD false false false 2 7 false)) = 0.
Proof.
  destruct (counters_count_edges_since_reset (CTU false false false 2 32765 false) (CTD false false false 2 7 false)
              [(true, false); (false, false)] true [true; false; true; false; true]) as (Hu & _ & Hd & _);
    [vm_compute; split; discriminate|]. split; [exact Hu|exact Hd].
Defined.

(** Up/down counter.  Without reset or load, a run of [plc_ctud_run] is a
    walk in which an up edge and a down edge in the same scan cancel and which
    stops at the [int16_t] bounds; a reset or a load in the next scan
    overrides any edge, reset first. *)
Theorem ctud_saturating_walk (fb : plc_ctud) (xs : list (bool * bool))
    (Hr : INT16_MIN <= cud_CV fb <= INT16_MAX)
    (HR : cud_R fb = false) (HL : cud_LD fb = false) :
  cud_CV (fold_left ctud_scan xs fb)
    = ctud_walk (cud_CV fb) (cud_m_prev_cu fb) (cud_m_prev_cd fb) xs /\
  (forall fb' x r l, r || l = true ->
     cud_CV (ctud_scan (fb' <| cud_R := r |> <| cud_LD := l |>) x)
       = if r then 0 else cud_PV fb').
Proof.
  split; [by apply ctud_run_state|]. intros fb' [u d] r l.
  unfold ctud_scan, ctud_body; simpl. destruct r, l; simpl; done.
Qed.

Lemma ctud_saturating_walk_witness :
  let fb := CTUD false false false false false false 2 32766 false false in
  let xs := [(true, true); (false, false); (true, false); (false, false); (true, false);
             (false, true)] in
  cud_CV (fold_left ctud_scan xs fb) = 32766 /\
  (forall fb' x r l, r || l = true ->
     cud_CV (ctud_scan (fb' <| cud_R := r |> <| cud_LD := l |>) x)
       = if r then 0 else cud_PV fb').
Proof.
  apply (ctud_saturating_walk (CTUD false false false false false false 2 32766 false false)
           [(true, true); (false, false); (true, false); (false, false); (true, false);
            (false, true)]); first [reflexivity | vm_compute; split; discriminate].
Defined.

(** Edge detectors.  Over any run, the outputs of [plc_r_trig_run] are
    exactly the rising edges of [CLK], and [plc_f_trig_run] is [plc_r_trig_run]
    on the negated signal; in particular [Q] is never true in two successive
    scans. *)
Theorem trig_edges (r : plc_r_trig) (f : plc_f_trig) (xs : list bool) :
  r_trig_outputs r xs = rising (rt_m_prev r) xs /\
  f_trig_outputs f xs = rising (negb (ft_m_prev f)) (map negb xs) /\
  (forall x y, rt_Q (r_trig_scan r x) && rt_Q (r_trig_scan (r_trig_scan r x) y) = false).
Proof.
  split; [apply r_trig_outputs_rising|split; [apply f_trig_outputs_rising|]].
  intros [] []; simpl; by rewrite ?andb_false_r.
Qed.

(** The scan that first sees [IN] true already counts its whole elapsed time,
    most of which passed before [IN] rose: with a scan at least as long as
    [PT] the on-delay has no delay at all. *)
Theorem ton_counts_time_before_the_edge (pt dt : Z)
    (Hpt : 0 <= pt) (Hdt : pt <= dt) (Hfit : pt + dt <= INT64_MAX) :
  ton_Q (ton_scan (ton_init pt) (true, dt)) = true.
Proof.
  unfold ton_scan, ton_body; simpl. rewrite accumulate_spec; unfold dt_pos; lia.
Qed.
