(* ===== verification/ProcessImage.v ===== *)
(** * The process image

    [src/core/process_image.c] and [include/softplc/process_image.h]: the
    three areas [%I], [%Q] and [%M], their allocation, and the range-checked
    accessors.  An area is [None] for a [NULL] base pointer, otherwise the
    bytes of the allocation, which is one byte long for a zero-sized area.

    A pointer into an area is the pair of the area's index and an offset;
    [slot] is the one function that makes them.  [PLC_REAL] values are their
    32-bit patterns, as the source moves them with [memcpy].

    The theorems: allocation never leaks, every accessor stays inside its
    area and touches nothing else, reads give back what was written in the
    documented byte and bit order, out-of-range reads give zero and
    out-of-range writes are dropped. *)

From Stdlib Require Import ZArith Lia.
From stdpp Require Import base list tactics.
From S2P Require Import Prelude PlcTypes.

Definition PLC_AREA_I : Z := 0.
Definition PLC_AREA_Q : Z := 1.
Definition PLC_AREA_M : Z := 2.
Definition PLC_AREA__COUNT : Z := 3.

Record plc_process_image : Type := PI {
  pi_area : list (option (list Z));  (** base pointer of each area *)
  pi_size : list Z;  (** configured size of each area *)
  pi_owns_memory : bool
}.
#[export] Instance eta_plc_process_image : Eta plc_process_image := fun r =>
  PI (pi_area r) (pi_size r) (pi_owns_memory r).

(** The image after [memset(pi, 0, sizeof( *pi))]. *)
Definition pi_zero : plc_process_image := PI [None; None; None] [0; 0; 0] false.

(** [pi->area[a]] and [pi->size[a]] for an [a] already checked. *)
Definition area_of (pi : plc_process_image) (a : Z) : option (list Z) :=
  nth (Z.to_nat a) (pi_area pi) None.
Definition size_of (pi : plc_process_image) (a : Z) : Z :=
  nth (Z.to_nat a) (pi_size pi) 0.

Definition area_ok (pi : option plc_process_image) (a : Z) : bool :=
  match pi with
  | None => false
  | Some pi => (0 <=? a) && (a <? PLC_AREA__COUNT) &&
               match area_of pi a with Some _ => true | None => false end
  end.

(** A range failure yields [NULL]. *)
Definition slot (pi : option plc_process_image) (a off len : Z) : option (Z * Z) :=
  if negb (area_ok pi a) then None
  else match pi with
       | None => None
       | Some pi =>
           if (off >? size_of pi a) || (len >? u64 (size_of pi a - off)) then None
           else Some (a, off)
       end.

(** [p[i]] and [memcpy(p + i, src, ..)] for a pointer [slot] returned. *)
Definition load (pi : plc_process_image) (p : Z * Z) (i : Z) : Z :=
  match area_of pi p.1 with None => 0 | Some l => byte_at l (p.2 + i) end.
Definition load_n (pi : plc_process_image) (p : Z * Z) (n : Z) : list Z :=
  match area_of pi p.1 with None => [] | Some l => bslice p.2 n l end.
Definition store_n (pi : plc_process_image) (p : Z * Z) (i : Z) (src : list Z)
    : plc_process_image :=
  match area_of pi p.1 with
  | None => pi
  | Some l => pi <| pi_area := <[Z.to_nat p.1 := Some (bwrite (p.2 + i) src l)]> (pi_area pi) |>
  end.

(** ** Allocation

    The heap is the number of live blocks; [calloc_ok a] says whether the
    allocation for area [a] succeeds. *)

Definition free_area (p : option (list Z)) (live : Z) : Z :=
  match p with None => live | Some _ => live - 1 end.

Definition plc_pi_free (pi : option plc_process_image) (live : Z)
    : option plc_process_image * Z :=
  match pi with
  | None => (None, live)
  | Some pi =>
      let live := if pi_owns_memory pi
                  then fold_left (fun h p => free_area p h) (pi_area pi) live else live in
      (Some pi_zero, live)
  end.

(** The [for] loop of [plc_pi_init], from area [a] on. *)
Fixpoint pi_init_loop (calloc_ok : Z -> bool) (a : Z) (want : list Z)
    (pi : plc_process_image) (live : Z) : plc_status * plc_process_image * Z :=
  match want with
  | [] => (PLC_OK, pi, live)
  | w :: want =>
      if calloc_ok a then
        let p := zeros (if w =? 0 then 1 else w) in
        let pi := pi <| pi_area := <[Z.to_nat a := Some p]> (pi_area pi) |> in
        let pi := pi <| pi_size := <[Z.to_nat a := w]> (pi_size pi) |> in
        pi_init_loop calloc_ok (a + 1) want pi (live + 1)
      else
        let (pi', live) := plc_pi_free (Some pi) live in
        (PLC_ERR_NOMEM, default pi pi', live)
  end.

Definition plc_pi_init (calloc_ok : Z -> bool) (pi : option plc_process_image)
    (i_bytes q_bytes m_bytes : Z) (live : Z)
    : plc_status * option plc_process_image * Z :=
  match pi with
  | None => (PLC_ERR_INVAL, None, live)
  | Some _ =>
      let pi := pi_zero <| pi_owns_memory := true |> in
      let '(st, pi, live) :=
        pi_init_loop calloc_ok 0 [i_bytes; q_bytes; m_bytes] pi live in
      (st, Some pi, live)
  end.

(** ** Whole areas *)

Definition plc_pi_clear (pi : option plc_process_image) (a : Z)
    : plc_status * option plc_process_image :=
  if negb (area_ok pi a) then (PLC_ERR_INVAL, pi)
  else (PLC_OK, on_ptr (fun pi => store_n pi (a, 0) 0 (zeros (size_of pi a))) pi).

Definition plc_pi_area (pi : option plc_process_image) (a : Z) : option (Z * Z) :=
  if area_ok pi a then Some (a, 0) else None.

Definition plc_pi_area_size (pi : option plc_process_image) (a : Z) : Z :=
  if area_ok pi a then match pi with Some pi => size_of pi a | None => 0 end else 0.

(** ** Accessors

    A reader returns zero when [slot] refuses; a writer returns the image
    unchanged. *)

Definition with_slot {T} (pi : option plc_process_image) (a off len : Z) (dflt : T)
    (k : plc_process_image -> Z * Z -> T) : T :=
  match pi, slot pi a off len with
  | Some pi, Some p => k pi p
  | _, _ => dflt
  end.

Definition plc_pi_get_bit (pi : option plc_process_image) (a byte bit : Z) : bool :=
  with_slot pi a byte 1 false (fun pi p =>
    if bit >? 7 then false
    else negb (Z.land (Z.shiftr (load pi p 0) bit) 1 =? 0)).

Definition plc_pi_set_bit (pi : option plc_process_image) (a byte bit : Z) (v : bool)
    : option plc_process_image :=
  with_slot pi a byte 1 pi (fun pi p =>
    if bit >? 7 then Some pi
    else
      let b := load pi p 0 in
      let b := if v then u8 (Z.lor b (u8 (Z.shiftl 1 bit)))
               else u8 (Z.land b (u8 (Z.lnot (Z.shiftl 1 bit)))) in
      Some (store_n pi p 0 [b])).

Definition plc_pi_get_byte (pi : option plc_process_image) (a off : Z) : Z :=
  with_slot pi a off 1 0 (fun pi p => load pi p 0).

Definition plc_pi_set_byte (pi : option plc_process_image) (a off v : Z)
    : option plc_process_image :=
  with_slot pi a off 1 pi (fun pi p => Some (store_n pi p 0 [v])).

Definition plc_pi_get_word (pi : option plc_process_image) (a off : Z) : Z :=
  with_slot pi a off 2 0 (fun pi p =>
    u16 (Z.lor (load pi p 0) (Z.shiftl (load pi p 1) 8))).

Definition plc_pi_set_word (pi : option plc_process_image) (a off v : Z)
    : option plc_process_image :=
  with_slot pi a off 2 pi (fun pi p =>
    let pi := store_n pi p 0 [u8 (Z.land v 255)] in
    Some (store_n pi p 1 [u8 (Z.shiftr v 8)])).

Definition plc_pi_get_dword (pi : option plc_process_image) (a off : Z) : Z :=
  with_slot pi a off 4 0 (fun pi p =>
    Z.lor (Z.lor (Z.lor (load pi p 0)
                        (u32 (Z.shiftl (load pi p 1) 8)))
                 (u32 (Z.shiftl (load pi p 2) 16)))
          (u32 (Z.shiftl (load pi p 3) 24))).

Definition plc_pi_set_dword (pi : option plc_process_image) (a off v : Z)
    : option plc_process_image :=
  with_slot pi a off 4 pi (fun pi p =>
    let pi := store_n pi p 0 [u8 (Z.land v 255)] in
    let pi := store_n pi p 1 [u8 (Z.land (Z.shiftr v 8) 255)] in
    let pi := store_n pi p 2 [u8 (Z.land (Z.shiftr v 16) 255)] in
    Some (store_n pi p 3 [u8 (Z.land (Z.shiftr v 24) 255)])).

Definition plc_pi_get_real (pi : option plc_process_image) (a off : Z) : Z :=
  plc_pi_get_dword pi a off.

Definition plc_pi_set_real (pi : option plc_process_image) (a off v : Z)
    : option plc_process_image :=
  plc_pi_set_dword pi a off v.

(** [src] is the [len] bytes the caller's buffer holds, [None] for [NULL]. *)
Definition plc_pi_write (pi : option plc_process_image) (a off : Z)
    (src : option (list Z)) (len : Z) : plc_status * option plc_process_image :=
  with_slot pi a off len (PLC_ERR_INVAL, pi) (fun pi p =>
    match src with
    | None => (PLC_ERR_INVAL, Some pi)
    | Some src => (PLC_OK, Some (store_n pi p 0 (take (Z.to_nat len) src)))
    end).

(** [dst] is the caller's buffer before the call, [None] for [NULL]. *)
Definition plc_pi_read (pi : option plc_process_image) (a off : Z)
    (dst : option (list Z)) (len : Z) : plc_status * option (list Z) :=
  with_slot pi a off len (PLC_ERR_INVAL, dst) (fun pi p =>
    match dst with
    | None => (PLC_ERR_INVAL, None)
    | Some dst => (PLC_OK, Some (bwrite 0 (load_n pi p len) dst))
    end).

(** ** Well-formed images and their abstract view *)

Record area_wf (pi : plc_process_image) (a : Z) (l : list Z) : Prop := {
  aw_area : area_of pi a = Some l;
  aw_size : 0 <= size_of pi a < 2 ^ 64;
  aw_len : zlen l = Z.max 1 (size_of pi a);
  aw_bytes : bytes l
}.

Definition valid_area (a : Z) : Prop := 0 <= a < PLC_AREA__COUNT.

(** The invariant every operation preserves: three areas, each with a buffer
    of its configured size. *)
Definition pi_wf (pi : plc_process_image) : Prop :=
  length (pi_area pi) = 3%nat /\ forall a, valid_area a -> exists l, area_wf pi a l.

(** The abstract state: the bytes of an area that belong to the image. *)
Definition view (pi : plc_process_image) (a : Z) : list Z :=
  bslice 0 (size_of pi a) (default [] (area_of pi a)).

Definition in_range (pi : plc_process_image) (a off len : Z) : bool :=
  (0 <=? a) && (a <? PLC_AREA__COUNT) && (off + len <=? size_of pi a).

(** A writer implements the abstract write of [src] at [off]: inside the area
    exactly those bytes change, outside of it nothing does. *)
Definition writes_as (pi : plc_process_image) (pi' : option plc_process_image)
    (a off : Z) (src : list Z) : Prop :=
  exists pi1, pi' = Some pi1 /\ pi_wf pi1 /\ (forall a', size_of pi1 a' = size_of pi a') /\
    forall a', valid_area a' ->
      view pi1 a' = if in_range pi a off (zlen src) && (a' =? a)
                    then bwrite off src (view pi a') else view pi a'.

(** ** Lemmas *)

Lemma area_ok_wf pi a : pi_wf pi -> area_ok (Some pi) a = (0 <=? a) && (a <? PLC_AREA__COUNT).
Proof.
  intros [_ H]. unfold area_ok.
  destruct ((0 <=? a) && (a <? PLC_AREA__COUNT)) eqn:E; [|done].
  destruct (H a) as [l [-> _ _ _]]; [unfold valid_area, PLC_AREA__COUNT in *; lia|done].
Qed.

Lemma slot_wf pi a off len :
  pi_wf pi -> 0 <= off -> 0 <= len ->
  slot (Some pi) a off len = if in_range pi a off len then Some (a, off) else None.
Proof.
  intros Hwf Ho Hl. unfold slot, in_range. rewrite (area_ok_wf pi a Hwf).
  destruct ((0 <=? a) && (a <? PLC_AREA__COUNT)) eqn:E; [|done]. simpl.
  destruct Hwf as [_ Hwf].
  destruct (Hwf a) as [l [_ Hs _ _]]; [unfold valid_area, PLC_AREA__COUNT in *; lia|].
  destruct (Z.gtb_spec off (size_of pi a)); simpl.
  - rewrite (proj2 (Z.leb_gt _ _)) by lia. done.
  - rewrite u64_small by lia. destruct (Z.gtb_spec len (size_of pi a - off)).
    + rewrite (proj2 (Z.leb_gt _ _)) by lia. done.
    + rewrite (proj2 (Z.leb_le _ _)) by lia. done.
Qed.

Lemma in_range_valid pi a off len :
  in_range pi a off len = true -> valid_area a /\ off + len <= size_of pi a.
Proof. unfold in_range, valid_area, PLC_AREA__COUNT. lia. Qed.

Lemma in_range_le pi a off n m :
  in_range pi a off n = true -> m <= n -> in_range pi a off m = true.
Proof. unfold in_range. lia. Qed.

Lemma zlen_view pi a : pi_wf pi -> valid_area a -> zlen (view pi a) = size_of pi a.
Proof.
  intros [_ H] Ha. destruct (H a Ha) as [l [E Hs Hl Hb]]. unfold view. rewrite E. simpl.
  apply zlen_bslice; lia.
Qed.

Lemma bytes_view pi a : pi_wf pi -> valid_area a -> bytes (view pi a).
Proof.
  intros [_ H] Ha. destruct (H a Ha) as [l [E Hs Hl Hb]]. unfold view. rewrite E. simpl.
  by apply bytes_bslice.
Qed.

(** A store through a pointer that [slot] returned. *)
Lemma store_n_wf pi a off i src :
  pi_wf pi -> valid_area a -> 0 <= off -> 0 <= i -> bytes src ->
  off + i + zlen src <= size_of pi a ->
  let pi' := store_n pi (a, off) i src in
  pi_wf pi' /\ (forall a', size_of pi' a' = size_of pi a') /\
  forall a', valid_area a' ->
    view pi' a' = if a' =? a then bwrite (off + i) src (view pi a') else view pi a'.
Proof.
  intros [HL H] Ha Ho Hi Hsrc Hr. destruct (H a Ha) as [l [E Hs Hl Hb]].
  pose proof (zlen_nonneg src) as Hz.
  unfold store_n; simpl. rewrite E; simpl.
  assert (forall a', valid_area a' ->
    nth (Z.to_nat a') (<[Z.to_nat a := Some (bwrite (off + i) src l)]> (pi_area pi)) None
    = if a' =? a then Some (bwrite (off + i) src l) else area_of pi a') as Hn.
  { intros a' Ha'. unfold valid_area, PLC_AREA__COUNT, area_of in *. rewrite !nth_lookup.
    destruct (Z.eqb_spec a' a) as [->|Hne].
    - rewrite list_lookup_insert_eq by lia. done.
    - rewrite list_lookup_insert_ne by lia. done. }
  split; [|split; [done|]].
  - split; [simpl; by rewrite length_insert|]. intros a' Ha'.
    destruct (H a' Ha') as [l' [E' Hs' Hl' Hb']].
    destruct (Z.eqb_spec a' a) as [->|Hne].
    + exists (bwrite (off + i) src l). split; simpl; [|done| |auto with plc].
      2:{ change (size_of _ a) with (size_of pi a). rewrite zlen_bwrite; lia. }
      unfold area_of; simpl. rewrite Hn by done. by rewrite Z.eqb_refl.
    + exists l'. split; simpl; [|done..].
      unfold area_of; simpl. rewrite Hn by done. by rewrite (proj2 (Z.eqb_neq _ _)).
  - intros a' Ha'. unfold view at 1. change (size_of _ a') with (size_of pi a').
    unfold area_of; simpl. rewrite Hn by done.
    destruct (Z.eqb_spec a' a) as [->|Hne]; simpl; [|done].
    unfold view. rewrite E. simpl. apply bslice_prefix_bwrite; lia.
Qed.

Lemma with_slot_wf {T} pi a off len (d : T) k :
  pi_wf pi -> 0 <= off -> 0 <= len ->
  with_slot (Some pi) a off len d k = if in_range pi a off len then k pi (a, off) else d.
Proof. intros. unfold with_slot. rewrite slot_wf by done. by split_ifs. Qed.

Lemma writes_dropped pi a off src :
  pi_wf pi -> in_range pi a off (zlen src) = false -> writes_as pi (Some pi) a off src.
Proof. intros Hwf E. exists pi. split; [done|split; [done|split; [done|]]]. by rewrite E. Qed.

Lemma writes_store pi a off src :
  pi_wf pi -> 0 <= off -> bytes src -> in_range pi a off (zlen src) = true ->
  writes_as pi (Some (store_n pi (a, off) 0 src)) a off src.
Proof.
  intros Hwf Ho Hb E. destruct (in_range_valid _ _ _ _ E) as [Ha Hr].
  destruct (store_n_wf pi a off 0 src) as (H1 & H2 & H3); [done..|lia|].
  eexists. split; [done|split; [done|split; [done|]]].
  intros a' Ha'. rewrite H3, E by done. simpl. by rewrite Z.add_0_r.
Qed.

(** A store that continues the previous one extends the write. *)
Lemma writes_step pi pi1 a off src1 src2 :
  pi_wf pi -> 0 <= off -> bytes src2 ->
  in_range pi a off (zlen (src1 ++ src2)) = true ->
  writes_as pi (Some pi1) a off src1 ->
  writes_as pi (Some (store_n pi1 (a, off) (zlen src1) src2)) a off (src1 ++ src2).
Proof.
  intros Hwf Ho Hb E (p & [= <-] & Hwf1 & Hs1 & Hv1).
  destruct (in_range_valid _ _ _ _ E) as [Ha Hr]. rewrite zlen_app in Hr.
  pose proof (zlen_nonneg src1). pose proof (zlen_nonneg src2).
  destruct (store_n_wf pi1 a off (zlen src1) src2) as (H1 & H2 & H3); [done..|rewrite Hs1; lia|].
  eexists. split; [done|split; [done|split; [intros; by rewrite H2, Hs1|]]].
  intros a' Ha'. rewrite H3, E, Hv1 by done.
  assert (in_range pi a off (zlen src1) = true) as ->.
  { unfold in_range in *. rewrite zlen_app in E. lia. }
  simpl. destruct (Z.eqb_spec a' a) as [->|]; [|done].
  apply bwrite_bwrite; [done|]. rewrite zlen_view by done. lia.
Qed.

Lemma load_view pi a off i :
  pi_wf pi -> valid_area a -> 0 <= off + i < size_of pi a ->
  load pi (a, off) i = byte_at (view pi a) (off + i).
Proof.
  intros [_ H] Ha Hr. destruct (H a Ha) as [l [E Hs Hl Hb]].
  unfold load, view; simpl. rewrite E; simpl. unfold byte_at, bslice. simpl.
  rewrite drop_0, !nth_lookup, lookup_take_lt by lia. done.
Qed.

Lemma bslice_bytes l off (n : nat) :
  0 <= off -> off + Z.of_nat n <= zlen l ->
  bslice off (Z.of_nat n) l = map (fun i => byte_at l (off + Z.of_nat i)) (seq 0 n).
Proof.
  intros Ho Hn. apply list_eq. intros i. destruct (decide (i < n)%nat) as [Hi|Hi].
  - rewrite lookup_bslice by lia. rewrite list_lookup_fmap, lookup_seq_lt by done. simpl.
    replace (Z.to_nat off + i)%nat with (Z.to_nat (off + Z.of_nat i)) by lia.
    apply byte_at_lookup. lia.
  - rewrite !lookup_ge_None_2; [done|..].
    + rewrite length_fmap, length_seq. lia.
    + rewrite length_bslice by lia. lia.
Qed.

Lemma view_byte pi a i : pi_wf pi -> valid_area a -> is_byte (byte_at (view pi a) i).
Proof. intros. apply byte_at_byte. by apply bytes_view. Qed.

(** ** Properties *)

(** Tactic for the writers: out of range is a dropped write, in range is a
    chain of stores. *)
Ltac writer :=
  rewrite with_slot_wf by (done || lia); 
  match goal with
  | |- writes_as ?pi _ ?a ?off ?src =>
      let n := eval cbv [zlen length Z.of_nat Pos.of_succ_nat Pos.succ] in (zlen src) in
      destruct (in_range pi a off n) eqn:E; [|by apply writes_dropped]
  end.

Lemma set_byte_writes pi a off v :
  pi_wf pi -> 0 <= off -> is_byte v ->
  writes_as pi (plc_pi_set_byte (Some pi) a off v) a off [v].
Proof.
  intros Hwf Ho Hv. unfold plc_pi_set_byte. writer. apply writes_store; try done.
  by constructor.
Qed.

Lemma set_word_writes pi a off v :
  pi_wf pi -> 0 <= off -> 0 <= v < 2 ^ 16 ->
  writes_as pi (plc_pi_set_word (Some pi) a off v) a off (le_bytes 2 v).
Proof.
  intros Hwf Ho Hv. unfold plc_pi_set_word. cbn [le_bytes]. writer.
  rewrite land_255. replace (u8 (u8 v)) with (u8 v) by mach.
  replace (Z.shiftr v 8) with (v / 256) by (by rewrite Z.shiftr_div_pow2).
  apply (writes_step pi _ a off [u8 v] [u8 (v / 256)]); try done; [apply Forall_singleton, u8_range|].
  apply writes_store; try done; [apply Forall_singleton, u8_range|].
  by apply (in_range_le _ _ _ _ _ E).
Qed.

Lemma set_dword_writes pi a off v :
  pi_wf pi -> 0 <= off -> 0 <= v < 2 ^ 32 ->
  writes_as pi (plc_pi_set_dword (Some pi) a off v) a off (le_bytes 4 v).
Proof.
  intros Hwf Ho Hv. unfold plc_pi_set_dword. cbn [le_bytes]. writer.
  rewrite !land_255, !Z.shiftr_div_pow2 by lia.
  rewrite !(u8_small (u8 _)) by apply u8_range.
  replace (v / 2 ^ 16) with (v / 256 / 256) by (rewrite Z.div_div by lia; done).
  replace (v / 2 ^ 24) with (v / 256 / 256 / 256) by (rewrite !Z.div_div by lia; done).
  change (v / 2 ^ 8) with (v / 256).
  pose proof u8_range as Hb.
  apply (writes_step pi _ a off [_; _; _] [_]); try done; [by apply Forall_singleton|].
  apply (writes_step pi _ a off [_; _] [_]); try done; [by apply Forall_singleton|by apply (in_range_le _ _ _ _ _ E)|].
  apply (writes_step pi _ a off [_] [_]); try done; [by apply Forall_singleton|by apply (in_range_le _ _ _ _ _ E)|].
  apply writes_store; try done; [by apply Forall_singleton|by apply (in_range_le _ _ _ _ _ E)].
Qed.

(** ** Readers *)

Lemma get_byte_reads pi a off :
  pi_wf pi -> 0 <= off ->
  plc_pi_get_byte (Some pi) a off
    = if in_range pi a off 1 then byte_at (view pi a) off else 0.
Proof.
  intros Hwf Ho. unfold plc_pi_get_byte. rewrite with_slot_wf by (done || lia).
  destruct (in_range pi a off 1) eqn:E; [|done].
  apply in_range_valid in E as [Ha Hr]. rewrite load_view by (done || lia). by rewrite Z.add_0_r.
Qed.

Lemma get_word_reads pi a off :
  pi_wf pi -> 0 <= off ->
  plc_pi_get_word (Some pi) a off
    = if in_range pi a off 2 then le_value (bslice off 2 (view pi a)) else 0.
Proof.
  intros Hwf Ho. unfold plc_pi_get_word. rewrite with_slot_wf by (done || lia).
  destruct (in_range pi a off 2) eqn:E; [|done].
  apply in_range_valid in E as [Ha Hr]. rewrite !load_view by (done || lia).
  rewrite (bslice_bytes (view pi a) off 2 : 0 <= off -> _ -> bslice off 2 _ = _) by (rewrite ?zlen_view by done; lia).
  pose proof (view_byte pi a (off + 0) Hwf Ha). pose proof (view_byte pi a (off + 1) Hwf Ha).
  rewrite lor_shiftl_add by (unfold is_byte in *; lia).
  cbn [seq map le_value]. change (Z.of_nat 0) with 0. change (Z.of_nat 1) with 1.
  rewrite u16_small by (unfold is_byte in *; lia). lia.
Qed.

Lemma get_dword_reads pi a off :
  pi_wf pi -> 0 <= off ->
  plc_pi_get_dword (Some pi) a off
    = if in_range pi a off 4 then le_value (bslice off 4 (view pi a)) else 0.
Proof.
  intros Hwf Ho. unfold plc_pi_get_dword. rewrite with_slot_wf by (done || lia).
  destruct (in_range pi a off 4) eqn:E; [|done].
  apply in_range_valid in E as [Ha Hr]. rewrite !load_view by (done || lia).
  rewrite (bslice_bytes (view pi a) off 4 : 0 <= off -> _ -> bslice off 4 _ = _) by (rewrite ?zlen_view by done; lia).
  pose proof (fun i => view_byte pi a (off + i) Hwf Ha) as Hb.
  pose proof (Hb 0). pose proof (Hb 1). pose proof (Hb 2). pose proof (Hb 3). clear Hb.
  rewrite !u32_small by (rewrite Z.shiftl_mul_pow2 by lia; unfold is_byte in *; lia).
  unfold is_byte in *. rewrite (lor_shiftl_add _ _ 8) by lia.
  rewrite (lor_shiftl_add _ _ 16) by lia. rewrite (lor_shiftl_add _ _ 24) by lia.
  cbn [seq map le_value]. change (Z.of_nat 0) with 0. change (Z.of_nat 1) with 1.
  change (Z.of_nat 2) with 2. change (Z.of_nat 3) with 3. lia.
Qed.

(** The byte [plc_pi_set_bit] stores and the bit [plc_pi_get_bit] extracts,
    checked over every byte, bit and value. *)
Definition bit_upd (b bit : Z) (v : bool) : Z :=
  if v then u8 (Z.lor b (u8 (Z.shiftl 1 bit)))
  else u8 (Z.land b (u8 (Z.lnot (Z.shiftl 1 bit)))).
Definition bit_get (b bit : Z) : bool := negb (Z.land (Z.shiftr b bit) 1 =? 0).

Definition zrange (n : nat) : list Z := map Z.of_nat (seq 0 n).
Lemma elem_zrange n z : 0 <= z < Z.of_nat n -> In z (zrange n).
Proof.
  intros. apply in_map_iff. exists (Z.to_nat z). rewrite in_seq. lia.
Qed.

Definition bit_upd_check : bool :=
  forallb (fun b => forallb (fun i => forallb (fun j => forallb (fun v =>
    Bool.eqb (bit_get (bit_upd b i v) j) (if j =? i then v else bit_get b j))
    [true; false]) (zrange 8)) (zrange 8)) (zrange 256).

Lemma bit_get_upd b i v j :
  is_byte b -> 0 <= i <= 7 -> 0 <= j <= 7 ->
  bit_get (bit_upd b i v) j = if j =? i then v else bit_get b j.
Proof.
  intros Hb Hi Hj. assert (bit_upd_check = true) as H by (vm_compute; done).
  unfold bit_upd_check in H. rewrite forallb_forall in H.
  specialize (H b (elem_zrange 256 b Hb)). rewrite forallb_forall in H.
  specialize (H i (elem_zrange 8 i ltac:(lia))). rewrite forallb_forall in H.
  specialize (H j (elem_zrange 8 j ltac:(lia))). rewrite forallb_forall in H.
  apply Bool.eqb_prop, H. destruct v; simpl; auto.
Qed.

Lemma set_bit_writes pi a byte bit v :
  pi_wf pi -> 0 <= byte -> 0 <= bit <= 7 ->
  writes_as pi (plc_pi_set_bit (Some pi) a byte bit v) a byte
            [bit_upd (byte_at (view pi a) byte) bit v].
Proof.
  intros Hwf Ho Hbit. unfold plc_pi_set_bit. writer.
  destruct (Z.gtb_spec bit 7); [lia|].
  destruct (in_range_valid _ _ _ _ E) as [Ha Hr].
  rewrite load_view by (done || lia). rewrite Z.add_0_r. fold (bit_upd (byte_at (view pi a) byte) bit v).
  apply writes_store; try done. apply Forall_singleton. unfold bit_upd. destruct v; apply u8_range.
Qed.

Lemma load_n_view pi a off n :
  pi_wf pi -> valid_area a -> 0 <= off -> 0 <= n -> off + n <= size_of pi a ->
  load_n pi (a, off) n = bslice off n (view pi a).
Proof.
  intros [_ Hwf] Ha Ho Hn Hs. destruct (Hwf a Ha) as [l [E _ _ _]].
  unfold load_n, view; simpl. rewrite E; simpl. symmetry. apply bslice_bslice; lia.
Qed.

(** The extracted bit is the bit of the number. *)
Lemma bit_get_testbit b i : 0 <= i -> bit_get b i = Z.testbit b i.
Proof.
  intros Hi. unfold bit_get. change 1 with (Z.ones 1). rewrite Z.land_ones by lia. change (2 ^ 1) with 2.
  rewrite <- Z.bit0_mod, Z.shiftr_spec, Z.add_0_l by lia. by destruct (Z.testbit b i).
Qed.

Lemma get_bit_reads pi a byte bit :
  pi_wf pi -> 0 <= byte ->
  plc_pi_get_bit (Some pi) a byte bit
    = in_range pi a byte 1 && (bit <=? 7) && bit_get (byte_at (view pi a) byte) bit.
Proof.
  intros Hwf Ho. unfold plc_pi_get_bit. rewrite with_slot_wf by (done || lia).
  destruct (in_range pi a byte 1) eqn:E; [|done].
  apply in_range_valid in E as [Ha Hr]. rewrite load_view by (done || lia). rewrite Z.add_0_r.
  destruct (Z.gtb_spec bit 7); destruct (Z.leb_spec bit 7); try lia; done.
Qed.

Lemma byte_at_bwrite_one off v l i :
  0 <= off < zlen l -> 0 <= i -> byte_at (bwrite off [v] l) i = if i =? off then v else byte_at l i.
Proof.
  intros Ho Hi. unfold byte_at. rewrite !nth_lookup. destruct (Z.eqb_spec i off) as [->|].
  - rewrite lookup_bwrite_inside by (simpl; unfold zlen in *; simpl; lia).
    by rewrite Nat.sub_diag.
  - rewrite lookup_bwrite_outside by (simpl; unfold zlen in *; simpl; lia). done.
Qed.

(** Reading any bit after writing one. *)
Lemma get_bit_set_bit pi a byte bit v a' byte' bit' :
  pi_wf pi -> 0 <= byte -> 0 <= bit -> valid_area a' -> 0 <= byte' -> 0 <= bit' ->
  plc_pi_get_bit (plc_pi_set_bit (Some pi) a byte bit v) a' byte' bit'
    = if in_range pi a byte 1 && (bit <=? 7) && (a' =? a) && (byte' =? byte) && (bit' =? bit)
      then v else plc_pi_get_bit (Some pi) a' byte' bit'.
Proof.
  intros Hwf Hbyte Hbit Ha' Hbyte' Hbit'.
  destruct (Z.leb_spec bit 7).
  2:{ rewrite andb_false_r. cbn [andb]. f_equal. unfold plc_pi_set_bit.
      rewrite with_slot_wf by (done || lia). destruct (Z.gtb_spec bit 7); [|lia]. by split_ifs. }
  destruct (set_bit_writes pi a byte bit v) as (pi1 & -> & Hwf1 & Hs & Hv); [done..|].
  rewrite !get_bit_reads by done.
  assert (in_range pi1 a' byte' 1 = in_range pi a' byte' 1) as -> by (unfold in_range; by rewrite Hs).
  rewrite Hv by done. change (zlen [_]) with 1.
  destruct (in_range pi a byte 1) eqn:E; simpl; [|done].
  destruct (in_range_valid _ _ _ _ E) as [Ha Hr].
  destruct (Z.eqb_spec a' a) as [->|]; simpl; [|done].
  rewrite byte_at_bwrite_one by (rewrite ?zlen_view by done; lia).
  destruct (Z.eqb_spec byte' byte) as [->|]; simpl; [|done]. rewrite E. simpl.
  destruct (Z.leb_spec bit' 7); simpl.
  - rewrite bit_get_upd; [done|by apply view_byte|lia|lia].
  - destruct (Z.eqb_spec bit' bit); [lia|done].
Qed.

(** ** Initialisation *)

Lemma area_wf_fresh pi a w :
  0 <= w < 2 ^ 64 -> area_of pi a = Some (zeros (if w =? 0 then 1 else w)) -> size_of pi a = w ->
  area_wf pi a (zeros (if w =? 0 then 1 else w)).
Proof.
  intros Hw Ha Hs. split; [done|lia| |apply bytes_zeros].
  rewrite Hs, zlen_zeros; split_ifs; lia.
Qed.

Lemma pi_init_wf i q m live :
  0 <= i < 2 ^ 64 -> 0 <= q < 2 ^ 64 -> 0 <= m < 2 ^ 64 ->
  exists pi, plc_pi_init (fun _ => true) (Some pi_zero) i q m live = (PLC_OK, Some pi, live + 1 + 1 + 1) /\
    pi_wf pi /\ pi_owns_memory pi = true /\ size_of pi 0 = i /\ size_of pi 1 = q /\ size_of pi 2 = m /\
    (forall a, valid_area a -> view pi a = zeros (size_of pi a)) /\
    plc_pi_free (Some pi) (live + 1 + 1 + 1) = (Some pi_zero, live).
Proof.
  intros Hi Hq Hm. eexists. split; [simpl; reflexivity|].
  assert (forall w, 0 <= w -> bslice 0 w (zeros (if w =? 0 then 1 else w)) = zeros w) as Hz.
  { intros w Hw. unfold bslice, zeros. simpl. rewrite drop_0, take_replicate. f_equal. split_ifs; lia. }
  assert (forall a, valid_area a -> a = 0 \/ a = 1 \/ a = 2) as Hcases.
  { unfold valid_area, PLC_AREA__COUNT. lia. }
  split; [split; [done|]|split; [done|split; [done|split; [done|split; [done|split]]]]].
  - intros a Ha. destruct (Hcases a Ha) as [->|[->| ->]]; eexists;
      [by apply (area_wf_fresh _ 0 i)|by apply (area_wf_fresh _ 1 q)|by apply (area_wf_fresh _ 2 m)].
  - intros a Ha. destruct (Hcases a Ha) as [->|[->| ->]]; unfold view, size_of; simpl; apply Hz; lia.
  - simpl. f_equal. lia.
Qed.

Definition pi_example : plc_process_image :=
  default pi_zero (plc_pi_init (fun _ => true) (Some pi_zero) 4 8 2 0).1.2.

Lemma pi_example_wf : pi_wf pi_example.
Proof.
  destruct (pi_init_wf 4 8 2 0) as (pi & E & H & _); [lia..|].
  unfold pi_example. rewrite E. exact H.
Qed.

(** ** Properties of the accessors *)

(** Allocation.  When all three [calloc]s succeed the image is
    well-formed, zero, and freeing it releases exactly what was allocated; when
    any of them fails [plc_pi_init] reports [PLC_ERR_NOMEM], has released
    everything it had allocated and leaves the zeroed image, and
    [plc_pi_free] is idempotent. *)
Theorem pi_init_no_leak (calloc_ok : Z -> bool) (i q m live : Z)
    (Hi : 0 <= i < 2 ^ 64) (Hq : 0 <= q < 2 ^ 64) (Hm : 0 <= m < 2 ^ 64) :
  (if calloc_ok 0 && calloc_ok 1 && calloc_ok 2 then
     exists pi, plc_pi_init calloc_ok (Some pi_zero) i q m live = (PLC_OK, Some pi, live + 3) /\
       pi_wf pi /\ (forall a, valid_area a -> view pi a = zeros (size_of pi a)) /\
       plc_pi_free (Some pi) (live + 3) = (Some pi_zero, live)
   else plc_pi_init calloc_ok (Some pi_zero) i q m live = (PLC_ERR_NOMEM, Some pi_zero, live)) /\
  plc_pi_free (plc_pi_free (Some pi_zero) live).1 live = (Some pi_zero, live).
Proof.
  split; [|done]. unfold plc_pi_init; cbn [pi_init_loop]. change (0 + 1) with 1. change (1 + 1) with 2.
  destruct (calloc_ok 0), (calloc_ok 1), (calloc_ok 2); simpl; try (do 2 f_equal; lia).
  destruct (pi_init_wf i q m live Hi Hq Hm) as (pi & E & Hwf & Hown & _ & _ & _ & Hz & Hf).
  exists pi. replace (live + 1 + 1 + 1) with (live + 3) in * by lia.
  split; [|done]. rewrite <- E. simpl. done || (f_equal; lia).
Qed.

Lemma pi_init_no_leak_witness :
  plc_pi_init (fun a => a <? 2) (Some pi_zero) 4 8 2 7 = (PLC_ERR_NOMEM, Some pi_zero, 7) /\
  plc_pi_free (plc_pi_free (Some pi_zero) 7).1 7 = (Some pi_zero, 7).
Proof. apply (pi_init_no_leak (fun a => a <? 2) 4 8 2 7); lia. Defined.

(** What [plc_pi_write] does with the [zlen src] bytes of a caller's buffer. *)
Lemma write_writes pi a off src :
  pi_wf pi -> 0 <= off -> bytes src ->
  writes_as pi (plc_pi_write (Some pi) a off (Some src) (zlen src)).2 a off src /\
  (plc_pi_write (Some pi) a off (Some src) (zlen src)).1 = if in_range pi a off (zlen src) then PLC_OK else PLC_ERR_INVAL.
Proof.
  intros Hwf Hoff Hsrc. pose proof (zlen_nonneg src). unfold plc_pi_write. rewrite with_slot_wf by done.
  replace (take (Z.to_nat (zlen src)) src) with src by (unfold zlen; rewrite take_ge; [done|lia]).
  destruct (in_range pi a off (zlen src)) eqn:E; (split; [|done]); [by apply writes_store|by apply writes_dropped].
Qed.

(** [C13] The writers implement the abstract little-endian write: inside the area
    exactly the written bytes change, an out-of-range write changes nothing, the
    areas keep their sizes and the other areas are untouched.  The bulk writer
    says which of the two happened. *)
Theorem pi_writers_refine (pi : plc_process_image) (a off v : Z)
    (Hwf : pi_wf pi) (Hoff : 0 <= off) (Hv : 0 <= v < 2 ^ 32) :
  (v < 2 ^ 8 -> writes_as pi (plc_pi_set_byte (Some pi) a off v) a off (le_bytes 1 v)) /\
  (v < 2 ^ 16 -> writes_as pi (plc_pi_set_word (Some pi) a off v) a off (le_bytes 2 v)) /\
  writes_as pi (plc_pi_set_dword (Some pi) a off v) a off (le_bytes 4 v) /\
  writes_as pi (plc_pi_set_real (Some pi) a off v) a off (le_bytes 4 v) /\
  (forall bit b, 0 <= bit <= 7 ->
     writes_as pi (plc_pi_set_bit (Some pi) a off bit b) a off
               [bit_upd (byte_at (view pi a) off) bit b]) /\
  (forall src, bytes src ->
     let '(st, pi') := plc_pi_write (Some pi) a off (Some src) (zlen src) in
     writes_as pi pi' a off src /\ st = if in_range pi a off (zlen src) then PLC_OK else PLC_ERR_INVAL).
Proof.
  split; [|split; [|split; [|split; [|split]]]].
  - intros Hb. cbn [le_bytes]. rewrite u8_small by (split; lia).
    apply set_byte_writes; [done..|split; lia].
  - intros. apply set_word_writes; [done..|lia].
  - by apply set_dword_writes.
  - by apply set_dword_writes.
  - intros. by apply set_bit_writes.
  - intros src Hsrc. pose proof (write_writes pi a off src Hwf Hoff Hsrc) as H. by destruct (plc_pi_write _ _ _ _ _).
Qed.

Lemma pi_writers_refine_witness :
  let pi := pi_example in
  (305419896 < 2 ^ 8 -> writes_as pi (plc_pi_set_byte (Some pi) 1 2 305419896) 1 2 (le_bytes 1 305419896)) /\
  (305419896 < 2 ^ 16 -> writes_as pi (plc_pi_set_word (Some pi) 1 2 305419896) 1 2 (le_bytes 2 305419896)) /\
  writes_as pi (plc_pi_set_dword (Some pi) 1 2 305419896) 1 2 [120; 86; 52; 18] /\
  writes_as pi (plc_pi_set_real (Some pi) 1 2 305419896) 1 2 [120; 86; 52; 18] /\
  writes_as pi (plc_pi_write (Some pi) 1 2 (Some [7; 8; 9]) 3).2 1 2 [7; 8; 9].
Proof.
  destruct (pi_writers_refine pi_example 1 2 305419896) as (H1 & H2 & H3 & H4 & _ & H6); [apply pi_example_wf|lia|lia|].
  do 4 (split; [assumption|]). apply (H6 [7; 8; 9]). repeat constructor; lia.
Defined.

(** [C14] The readers are functions of the abstract view.  In range the byte, word,
    double word and real readers decode the little-endian bytes there (a real is
    its bit pattern), the bit reader gives that bit of the byte, and the bulk
    reader copies the bytes to the front of the caller's buffer and leaves the rest
    of it alone.  Out of range, or for a bit number above 7, they return zero, and
    the bulk reader fails and leaves the buffer as it was, as it does for a null
    buffer. *)
Theorem pi_readers_refine (pi : plc_process_image) (a off : Z)
    (Hwf : pi_wf pi) (Hoff : 0 <= off) :
  let reads n := if in_range pi a off n then le_value (bslice off n (view pi a)) else 0 in
  plc_pi_get_byte (Some pi) a off = reads 1 /\
  plc_pi_get_word (Some pi) a off = reads 2 /\
  plc_pi_get_dword (Some pi) a off = reads 4 /\
  plc_pi_get_real (Some pi) a off = reads 4 /\
  (forall bit, 0 <= bit ->
     plc_pi_get_bit (Some pi) a off bit
       = in_range pi a off 1 && (bit <=? 7) && Z.testbit (le_value (bslice off 1 (view pi a))) bit) /\
  (forall n dst, 0 <= n ->
     plc_pi_read (Some pi) a off (Some dst) n
       = (if in_range pi a off n then (PLC_OK, Some (bwrite 0 (bslice off n (view pi a)) dst)) else (PLC_ERR_INVAL, Some dst)) /\
     plc_pi_read (Some pi) a off None n = (PLC_ERR_INVAL, None)).
Proof.
  intros reads.
  assert (forall b, (in_range pi a off 1 = true -> byte_at (view pi a) off = b) ->
            in_range pi a off 1 = true -> le_value (bslice off 1 (view pi a)) = b) as H1.
  { intros b Hb E. rewrite <- (Hb E). apply in_range_valid in E as [Ha Hr].
    rewrite (bslice_bytes (view pi a) off 1 : 0 <= off -> _ -> bslice off 1 _ = _) by (rewrite ?zlen_view by done; lia).
    simpl. by rewrite !Z.add_0_r. }
  unfold reads. split; [|split; [by apply get_word_reads|split; [by apply get_dword_reads|split; [by apply get_dword_reads|split]]]].
  - rewrite get_byte_reads by done. destruct (in_range pi a off 1) eqn:E; [|done]. by rewrite (H1 _ (fun _ => eq_refl)).
  - intros bit Hbit. rewrite get_bit_reads, bit_get_testbit by done. destruct (in_range pi a off 1) eqn:E; [|done].
    by rewrite (H1 _ (fun _ => eq_refl)).
  - intros n dst Hn. unfold plc_pi_read. rewrite !with_slot_wf by done. destruct (in_range pi a off n) eqn:E; [|done].
    destruct (in_range_valid _ _ _ _ E). by rewrite load_n_view.
Qed.

Lemma pi_readers_refine_witness :
  let pi := default pi_zero (plc_pi_set_dword (Some pi_example) 1 2 305419896) in
  plc_pi_get_byte (Some pi) 1 2 = 120 /\ plc_pi_get_word (Some pi) 1 2 = 22136 /\
  plc_pi_get_dword (Some pi) 1 2 = 305419896 /\ plc_pi_get_real (Some pi) 1 2 = 305419896 /\
  plc_pi_get_bit (Some pi) 1 2 3 = true /\
  plc_pi_read (Some pi) 1 2 (Some [9; 9; 9; 9]) 3 = (PLC_OK, Some [120; 86; 52; 9]).
Proof.
  intros pi. destruct (pi_readers_refine pi 1 2) as (H1 & H2 & H3 & H4 & H5 & H6).
  - unfold pi. destruct (set_dword_writes pi_example 1 2 305419896) as (pi1 & -> & H & _);
      [apply pi_example_wf|lia|lia|exact H].
  - lia.
  - do 4 (split; [assumption|]). split; [exact (H5 3 ltac:(lia))|exact (proj1 (H6 3 [9; 9; 9; 9] ltac:(lia)))].
Defined.

(** Bit accessors.  After [plc_pi_set_bit] every bit of every area reads
    as before except the addressed one, which reads the value written when the
    byte is in range and the bit number at most 7. *)
Theorem pi_bit_update (pi : plc_process_image) (a byte bit : Z) (v : bool) (a' byte' bit' : Z)
    (Hwf : pi_wf pi) (Hbyte : 0 <= byte) (Hbit : 0 <= bit)
    (Ha' : valid_area a') (Hbyte' : 0 <= byte') (Hbit' : 0 <= bit') :
  plc_pi_get_bit (plc_pi_set_bit (Some pi) a byte bit v) a' byte' bit'
    = if in_range pi a byte 1 && (bit <=? 7) && (a' =? a) && (byte' =? byte) && (bit' =? bit)
      then v else plc_pi_get_bit (Some pi) a' byte' bit'.
Proof. by apply get_bit_set_bit. Qed.

Lemma pi_bit_update_witness :
  plc_pi_get_bit (plc_pi_set_bit (Some pi_example) 1 3 5 true) 1 3 5 = true.
Proof.
  apply (pi_bit_update pi_example 1 3 5 true 1 3 5);
    [apply pi_example_wf|lia|lia|unfold valid_area, PLC_AREA__COUNT; lia|lia|lia].
Defined.

(** Bulk copies.  [plc_pi_write] of a caller buffer is all or nothing: in
    range it implements the abstract write, otherwise it fails with
    [PLC_ERR_INVAL] and the image is unchanged; [plc_pi_read] of the range just
    written gives those bytes back and writes nothing past them, and a refused
    read leaves the destination alone. *)
Theorem pi_bulk_roundtrip (pi : plc_process_image) (a off : Z) (src dst : list Z)
    (Hwf : pi_wf pi) (Hoff : 0 <= off) (Hsrc : bytes src) (Hdst : zlen src <= zlen dst) :
  let n := zlen src in
  let '(st, pi') := plc_pi_write (Some pi) a off (Some src) n in
  writes_as pi pi' a off src /\
  st = (if in_range pi a off n then PLC_OK else PLC_ERR_INVAL) /\
  plc_pi_read pi' a off (Some dst) n
    = (if in_range pi a off n then (PLC_OK, Some (bwrite 0 src dst)) else (PLC_ERR_INVAL, Some dst)).
Proof.
  cbv zeta. pose proof (zlen_nonneg src) as Hn. pose proof (write_writes pi a off src Hwf Hoff Hsrc) as [W Est].
  destruct (plc_pi_write (Some pi) a off (Some src) (zlen src)) as [st pi'] eqn:Ew. simpl in W, Est.
  split; [done|split; [done|]]. destruct W as (pi1 & -> & Hwf1 & Hs & Hv).
  unfold plc_pi_read. rewrite with_slot_wf by done.
  assert (in_range pi1 a off (zlen src) = in_range pi a off (zlen src)) as -> by (unfold in_range; by rewrite Hs).
  destruct (in_range pi a off (zlen src)) eqn:E; [|done]. destruct (in_range_valid _ _ _ _ E) as [Ha Hr].
  rewrite load_n_view, (Hv a Ha), Z.eqb_refl by (rewrite ?Hs; done). cbn [andb].
  rewrite bslice_bwrite_same by (rewrite ?zlen_view by done; lia). done.
Qed.

Lemma pi_bulk_roundtrip_witness :
  let '(st, pi') := plc_pi_write (Some pi_example) 1 5 (Some [1; 2; 3]) 3 in
  writes_as pi_example pi' 1 5 [1; 2; 3] /\ st = PLC_OK /\
  plc_pi_read pi' 1 5 (Some [9; 9; 9; 9]) 3 = (PLC_OK, Some [1; 2; 3; 9]).
Proof.
  apply (pi_bulk_roundtrip pi_example 1 5 [1; 2; 3] [9; 9; 9; 9]);
    [apply pi_example_wf|lia|repeat constructor; unfold is_byte; lia|unfold zlen; simpl; lia].
Defined.
