(* ===== verification/SpscRing.v ===== *)
(** * The single-producer single-consumer ring

    [src/ipc/spsc_ring.c] and [include/softplc/ipc/spsc_ring.h], called one
    operation at a time: four slots of 496 payload bytes and two free-running
    [uint32_t] cursors.  [SpscConc] has the same operations interleaved
    access by access.

    [queue] is the abstract contents of a ring.  On rings whose cursors are
    at most four apart the operations implement a bounded FIFO queue,
    wherever the cursors stand in the [uint32_t] range; on an arbitrary ring,
    one a faulty peer has scribbled over, [plc_spsc_pop] still copies no more
    than the frame limit and never writes the peer's side. *)

From Stdlib Require Import ZArith Lia.
From stdpp Require Import base list tactics.
From S2P Require Import Prelude PlcTypes.

Definition PLC_IPC_MAX_FRAME_BYTES : Z := 496.
Definition PLC_IPC_RING_SLOTS : Z := 4.
Definition PLC_IPC_FRAME_DATA_INVALID : Z := 1.

Record plc_ipc_frame : Type := Frame {
  fr_seq : Z;  (** echoed by the responder so replies can be matched *)
  fr_len : Z;  (** payload length *)
  fr_flags : Z;
  fr_data : list Z  (** [PLC_IPC_MAX_FRAME_BYTES] bytes *)
}.
#[export] Instance eta_plc_ipc_frame : Eta plc_ipc_frame := fun r =>
  Frame (fr_seq r) (fr_len r) (fr_flags r) (fr_data r).

Record plc_spsc_ring : Type := Ring {
  rg_head : Z;  (** producer cursor *)
  rg_tail : Z;  (** consumer cursor *)
  rg_slots : list plc_ipc_frame
}.
#[export] Instance eta_plc_spsc_ring : Eta plc_spsc_ring := fun r =>
  Ring (rg_head r) (rg_tail r) (rg_slots r).

Definition frame_zero : plc_ipc_frame := Frame 0 0 0 (zeros PLC_IPC_MAX_FRAME_BYTES).
Definition ring_zero : plc_spsc_ring :=
  Ring 0 0 (replicate (Z.to_nat PLC_IPC_RING_SLOTS) frame_zero).

(** [r->slots[cursor & (PLC_IPC_RING_SLOTS - 1)]]. *)
Definition slot_index (cursor : Z) : nat :=
  Z.to_nat (Z.land cursor (PLC_IPC_RING_SLOTS - 1)).
Definition slot_at (r : plc_spsc_ring) (cursor : Z) : plc_ipc_frame :=
  nth (slot_index cursor) (rg_slots r) frame_zero.

Definition plc_spsc_init (r : option plc_spsc_ring) : option plc_spsc_ring :=
  on_ptr (fun _ => ring_zero <| rg_head := 0 |> <| rg_tail := 0 |>) r.

Definition plc_spsc_push_flagged (r : option plc_spsc_ring) (seq flags : Z)
    (data : option (list Z)) (len : Z) : plc_status * option plc_spsc_ring :=
  match r with
  | None => (PLC_ERR_INVAL, None)
  | Some r =>
      if (len >? PLC_IPC_MAX_FRAME_BYTES) || (negb (len =? 0) && bool_decide (data = None))
      then (PLC_ERR_INVAL, Some r)
      else
        let head := rg_head r in
        let tail := rg_tail r in
        if u32 (head - tail) >=? PLC_IPC_RING_SLOTS then (PLC_ERR_AGAIN, Some r)
        else
          let slot := slot_at r head in
          let slot := slot <| fr_seq := seq |> in
          let slot := slot <| fr_len := len |> in
          let slot := slot <| fr_flags := flags |> in
          let slot := if len =? 0 then slot
                      else slot <| fr_data :=
                             bwrite 0 (take (Z.to_nat len) (default [] data)) (fr_data slot) |> in
          let r := r <| rg_slots := <[slot_index head := slot]> (rg_slots r) |> in
          (PLC_OK, Some (r <| rg_head := u32 (head + 1) |>))
  end.

Definition plc_spsc_push (r : option plc_spsc_ring) (seq : Z)
    (data : option (list Z)) (len : Z) : plc_status * option plc_spsc_ring :=
  plc_spsc_push_flagged r seq 0 data len.

(** [out] is the caller's frame, overwritten in place. *)
Definition plc_spsc_pop (r : option plc_spsc_ring) (out : option plc_ipc_frame) (cap : Z)
    : plc_status * option plc_spsc_ring * option plc_ipc_frame :=
  match r, out with
  | Some r, Some out =>
      if cap >? PLC_IPC_MAX_FRAME_BYTES then (PLC_ERR_INVAL, Some r, Some out)
      else
        let tail := rg_tail r in
        let head := rg_head r in
        if tail =? head then (PLC_ERR_AGAIN, Some r, Some out)
        else
          let slot := slot_at r tail in
          let seq := fr_seq slot in
          let len := fr_len slot in
          let flags := fr_flags slot in
          if len >? PLC_IPC_MAX_FRAME_BYTES
          then (PLC_ERR_PROTO, Some (r <| rg_tail := u32 (tail + 1) |>), Some out)
          else
            let out := out <| fr_seq := seq |> in
            let out := out <| fr_len := if len <? cap then len else cap |> in
            let out := out <| fr_flags := flags |> in
            let out := if fr_len out =? 0 then out
                       else out <| fr_data :=
                              bwrite 0 (bslice 0 (fr_len out) (fr_data slot)) (fr_data out) |> in
            (PLC_OK, Some (r <| rg_tail := u32 (tail + 1) |>), Some out)
  | _, _ => (PLC_ERR_INVAL, r, out)
  end.

Definition plc_spsc_count (r : option plc_spsc_ring) : Z :=
  match r with None => 0 | Some r => u32 (rg_head r - rg_tail r) end.

Definition plc_spsc_drain (r : option plc_spsc_ring) : option plc_spsc_ring :=
  on_ptr (fun r => r <| rg_tail := rg_head r |>) r.

(** ** Abstract contents *)

(** What a consumer is meant to see of a slot. *)
Record message : Type := Msg {
  m_seq : Z;
  m_flags : Z;
  m_payload : list Z
}.

Definition msg_of (f : plc_ipc_frame) : message :=
  Msg (fr_seq f) (fr_flags f) (take (Z.to_nat (fr_len f)) (fr_data f)).

(** A slot as the code leaves it. *)
Definition frame_ok (f : plc_ipc_frame) : Prop :=
  0 <= fr_len f <= PLC_IPC_MAX_FRAME_BYTES /\ zlen (fr_data f) = PLC_IPC_MAX_FRAME_BYTES.

(** The shape the struct declaration gives any ring, whatever it contains. *)
Definition ring_shape (r : plc_spsc_ring) : Prop :=
  0 <= rg_head r < 2 ^ 32 /\ 0 <= rg_tail r < 2 ^ 32 /\
  length (rg_slots r) = 4%nat /\
  Forall (fun f => 0 <= fr_len f < 2 ^ 32 /\ zlen (fr_data f) = PLC_IPC_MAX_FRAME_BYTES) (rg_slots r).

Definition ring_wf (r : plc_spsc_ring) : Prop :=
  0 <= rg_head r < 2 ^ 32 /\ 0 <= rg_tail r < 2 ^ 32 /\
  length (rg_slots r) = 4%nat /\ Forall frame_ok (rg_slots r) /\
  u32 (rg_head r - rg_tail r) <= PLC_IPC_RING_SLOTS.

Definition queue (r : plc_spsc_ring) : list message :=
  map (fun i => msg_of (slot_at r (rg_tail r + Z.of_nat i)))
      (seq 0 (Z.to_nat (u32 (rg_head r - rg_tail r)))).

(** ** Lemmas *)

Lemma slot_index_mod c : slot_index c = Z.to_nat (c mod 4).
Proof. unfold slot_index. change (PLC_IPC_RING_SLOTS - 1) with (Z.ones 2). by rewrite Z.land_ones. Qed.

Lemma slot_index_u32 c : slot_index (u32 c) = slot_index c.
Proof. rewrite !slot_index_mod. f_equal. mach. Qed.

Lemma slot_index_lt c : (slot_index c < 4)%nat.
Proof. rewrite slot_index_mod. mach. Qed.

Lemma slot_at_ok r c : length (rg_slots r) = 4%nat -> Forall frame_ok (rg_slots r) -> frame_ok (slot_at r c).
Proof.
  intros HL HF. unfold slot_at. rewrite List.Forall_forall in HF. apply HF, nth_In.
  pose proof (slot_index_lt c). lia.
Qed.

Lemma queue_length r : length (queue r) = Z.to_nat (u32 (rg_head r - rg_tail r)).
Proof. unfold queue. by rewrite length_map, length_seq. Qed.

Lemma slot_at_insert r c c' f h t :
  length (rg_slots r) = 4%nat ->
  slot_at (Ring h t (<[slot_index c := f]> (rg_slots r))) c'
    = if decide (slot_index c' = slot_index c) then f else slot_at r c'.
Proof.
  intros HL. unfold slot_at; simpl. rewrite !nth_lookup.
  pose proof (slot_index_lt c). destruct (decide (slot_index c' = slot_index c)) as [->|Hne].
  - by rewrite list_lookup_insert_eq by lia.
  - by rewrite list_lookup_insert_ne by done.
Qed.

(** Two cursors fewer than four apart never share a slot. *)
Lemma slot_index_distinct t (i n : nat) : (i < n < 4)%nat -> slot_index (t + Z.of_nat i) <> slot_index (t + Z.of_nat n).
Proof. rewrite !slot_index_mod. mach. Qed.

Lemma push_unfold r sq flags data len :
  0 <= len <= PLC_IPC_MAX_FRAME_BYTES -> len <= zlen data ->
  plc_spsc_push_flagged (Some r) sq flags (Some data) len =
  if u32 (rg_head r - rg_tail r) >=? PLC_IPC_RING_SLOTS then (PLC_ERR_AGAIN, Some r)
  else (PLC_OK, Some (Ring (u32 (rg_head r + 1)) (rg_tail r)
          (<[slot_index (rg_head r) := Frame sq len flags
               (bwrite 0 (take (Z.to_nat len) data) (fr_data (slot_at r (rg_head r))))]> (rg_slots r)))).
Proof.
  intros Hl Hd. unfold plc_spsc_push_flagged. simpl.
  rewrite andb_false_r, orb_false_r. destruct (Z.gtb_spec len PLC_IPC_MAX_FRAME_BYTES); [lia|].
  split_ifs; try done. assert (len = 0) as -> by lia. simpl. done.
Qed.

Lemma frame_ok_push r sq flags data len c :
  length (rg_slots r) = 4%nat -> Forall frame_ok (rg_slots r) ->
  0 <= len <= PLC_IPC_MAX_FRAME_BYTES -> len <= zlen data ->
  frame_ok (Frame sq len flags (bwrite 0 (take (Z.to_nat len) data) (fr_data (slot_at r c)))) /\
  msg_of (Frame sq len flags (bwrite 0 (take (Z.to_nat len) data) (fr_data (slot_at r c))))
    = Msg sq flags (take (Z.to_nat len) data).
Proof.
  intros HL HF Hl Hd. destruct (slot_at_ok r c HL HF) as [_ Hz].
  assert (zlen (take (Z.to_nat len) data) = len) as Ht by (unfold zlen in *; rewrite length_take; lia).
  split.
  - split; simpl; [done|]. rewrite zlen_bwrite; lia.
  - unfold msg_of; simpl. f_equal.
    change (take (Z.to_nat len) (bwrite 0 (take (Z.to_nat len) data) (fr_data (slot_at r c))))
      with (bslice 0 len (bwrite 0 (take (Z.to_nat len) data) (fr_data (slot_at r c)))).
    rewrite <- Ht at 1. apply bslice_bwrite_same; lia.
Qed.

Lemma push_queue r sq flags data len :
  ring_wf r -> 0 <= len <= PLC_IPC_MAX_FRAME_BYTES -> len <= zlen data ->
  u32 (rg_head r - rg_tail r) < PLC_IPC_RING_SLOTS ->
  exists r', plc_spsc_push_flagged (Some r) sq flags (Some data) len = (PLC_OK, Some r') /\
    ring_wf r' /\ rg_tail r' = rg_tail r /\
    queue r' = queue r ++ [Msg sq flags (take (Z.to_nat len) data)].
Proof.
  intros (Hh & Ht & HL & HF & Hc) Hl Hd Hn. rewrite push_unfold by done.
  destruct (Z.geb_spec (u32 (rg_head r - rg_tail r)) PLC_IPC_RING_SLOTS); [lia|].
  eexists. split; [done|].
  destruct (frame_ok_push r sq flags data len (rg_head r) HL HF Hl Hd) as [Hok Hmsg].
  set (f := Frame _ _ _ _) in *.
  assert (u32 (u32 (rg_head r + 1) - rg_tail r) = u32 (rg_head r - rg_tail r) + 1) as Hcnt.
  { unfold PLC_IPC_RING_SLOTS in *. mach. }
  split; [|split; [done|]].
  - split; [apply u32_range|]. split; [done|]. simpl. rewrite length_insert. split; [done|].
    split; [by apply Forall_insert|]. rewrite Hcnt. lia.
  - unfold queue; simpl. rewrite Hcnt.
    set (n := u32 (rg_head r - rg_tail r)) in *. pose proof (u32_range (rg_head r - rg_tail r)).
    replace (Z.to_nat (n + 1)) with (S (Z.to_nat n)) by lia.
    rewrite seq_S, map_app; simpl. f_equal.
    + apply map_ext_in. intros i Hi. apply in_seq in Hi. f_equal.
      rewrite slot_at_insert by done. rewrite decide_False; [done|].
      intros He. apply (slot_index_distinct (rg_tail r) i (Z.to_nat n)); [unfold PLC_IPC_RING_SLOTS in *; lia|].
      rewrite He. rewrite !slot_index_mod. f_equal. subst n. mach.
    + do 1 f_equal. rewrite slot_at_insert by done. rewrite decide_True; [done|].
      rewrite !slot_index_mod. f_equal. subst n. mach.
Qed.

Lemma pop_unfold r out cap :
  0 <= cap <= PLC_IPC_MAX_FRAME_BYTES ->
  plc_spsc_pop (Some r) (Some out) cap =
  if rg_tail r =? rg_head r then (PLC_ERR_AGAIN, Some r, Some out)
  else
    let slot := slot_at r (rg_tail r) in
    let r' := Ring (rg_head r) (u32 (rg_tail r + 1)) (rg_slots r) in
    if fr_len slot >? PLC_IPC_MAX_FRAME_BYTES then (PLC_ERR_PROTO, Some r', Some out)
    else
      let n := Z.min (fr_len slot) cap in
      (PLC_OK, Some r', Some (Frame (fr_seq slot) n (fr_flags slot)
         (if n =? 0 then fr_data out else bwrite 0 (bslice 0 n (fr_data slot)) (fr_data out)))).
Proof.
  intros Hc. unfold plc_spsc_pop. destruct (Z.gtb_spec cap PLC_IPC_MAX_FRAME_BYTES); [lia|].
  destruct (rg_tail r =? rg_head r); [done|]. cbv zeta.
  destruct (fr_len (slot_at r (rg_tail r)) >? PLC_IPC_MAX_FRAME_BYTES); [done|]. simpl.
  replace (if fr_len (slot_at r (rg_tail r)) <? cap then fr_len (slot_at r (rg_tail r)) else cap)
    with (Z.min (fr_len (slot_at r (rg_tail r))) cap) by (split_ifs; lia).
  by destruct (Z.min _ _ =? 0).
Qed.

Lemma count_zero_iff r :
  0 <= rg_head r < 2 ^ 32 -> 0 <= rg_tail r < 2 ^ 32 ->
  (rg_tail r =? rg_head r) = (u32 (rg_head r - rg_tail r) =? 0).
Proof. intros. destruct (Z.eqb_spec (rg_tail r) (rg_head r)); mach. Qed.

Lemma queue_cons r :
  ring_wf r -> rg_tail r <> rg_head r ->
  queue r = msg_of (slot_at r (rg_tail r))
            :: queue (Ring (rg_head r) (u32 (rg_tail r + 1)) (rg_slots r)).
Proof.
  intros (Hh & Ht & HL & HF & Hc) Hne. unfold queue; simpl.
  assert (u32 (rg_head r - rg_tail r) = 1 + u32 (rg_head r - u32 (rg_tail r + 1))) as E by mach.
  rewrite E. pose proof (u32_range (rg_head r - u32 (rg_tail r + 1))).
  replace (Z.to_nat (1 + _)) with (S (Z.to_nat (u32 (rg_head r - u32 (rg_tail r + 1))))) by lia.
  simpl. f_equal; [by rewrite Z.add_0_r|].
  rewrite <- seq_shift, map_map. apply map_ext. intros i. f_equal. unfold slot_at; simpl. f_equal.
  rewrite !slot_index_mod. f_equal. mach.
Qed.

(** ** The ring as a bounded queue

    A run of the ring is a sequence of calls; the specification is a list of
    at most four messages. *)

Inductive ring_op : Type :=
| OpPush (sq flags : Z) (data : list Z)
| OpPop
| OpDrain.

(** What a call reports: its status and, for a pop, the message read. *)
Definition ring_out : Type := plc_status * option message.

Definition ring_step (s : plc_spsc_ring * plc_ipc_frame) (op : ring_op)
    : (plc_spsc_ring * plc_ipc_frame) * ring_out :=
  let '(r, scratch) := s in
  match op with
  | OpPush sq flags data =>
      let '(st, r') := plc_spsc_push_flagged (Some r) sq flags (Some data) (zlen data) in
      ((default r r', scratch), (st, None))
  | OpPop =>
      let '(st, r', out) := plc_spsc_pop (Some r) (Some scratch) PLC_IPC_MAX_FRAME_BYTES in
      ((default r r', default scratch out),
       (st, if is_ok st then Some (msg_of (default scratch out)) else None))
  | OpDrain => ((default r (plc_spsc_drain (Some r)), scratch), (PLC_OK, None))
  end.

Definition queue_step (q : list message) (op : ring_op) : list message * ring_out :=
  match op with
  | OpPush sq flags data =>
      if zlen q <? PLC_IPC_RING_SLOTS then (q ++ [Msg sq flags data], (PLC_OK, None))
      else (q, (PLC_ERR_AGAIN, None))
  | OpPop => match q with
             | [] => ([], (PLC_ERR_AGAIN, None))
             | m :: q => (q, (PLC_OK, Some m))
             end
  | OpDrain => ([], (PLC_OK, None))
  end.

Fixpoint run_ops {S} (step : S -> ring_op -> S * ring_out) (s : S) (ops : list ring_op)
    : S * list ring_out :=
  match ops with
  | [] => (s, [])
  | op :: ops => let '(s, o) := step s op in
                 let '(s, os) := run_ops step s ops in (s, o :: os)
  end.

(** A frame the caller may pass: at most the frame limit. *)
Definition op_ok (op : ring_op) : Prop :=
  match op with OpPush _ _ data => zlen data <= PLC_IPC_MAX_FRAME_BYTES | _ => True end.

(** The simulation relation. *)
Definition ring_sim (s : plc_spsc_ring * plc_ipc_frame) (q : list message) : Prop :=
  ring_wf s.1 /\ zlen (fr_data s.2) = PLC_IPC_MAX_FRAME_BYTES /\ queue s.1 = q.

Lemma take_zlen {A} (l : list A) : take (Z.to_nat (zlen l)) l = l.
Proof. unfold zlen. rewrite take_ge; [done|lia]. Qed.

Lemma zlen_queue r : zlen (queue r) = u32 (rg_head r - rg_tail r).
Proof. unfold zlen. rewrite queue_length. pose proof (u32_range (rg_head r - rg_tail r)). lia. Qed.

Lemma pop_queue r out :
  ring_wf r -> zlen (fr_data out) = PLC_IPC_MAX_FRAME_BYTES ->
  match queue r with
  | [] => plc_spsc_pop (Some r) (Some out) PLC_IPC_MAX_FRAME_BYTES
            = (PLC_ERR_AGAIN, Some r, Some out)
  | m :: q => exists r' out',
      plc_spsc_pop (Some r) (Some out) PLC_IPC_MAX_FRAME_BYTES = (PLC_OK, Some r', Some out') /\
      ring_wf r' /\ queue r' = q /\ msg_of out' = m /\ frame_ok out' /\ rg_head r' = rg_head r
  end.
Proof.
  intros Hwf Hout. pose proof Hwf as (Hh & Ht & HL & HF & Hc).
  rewrite pop_unfold by (unfold PLC_IPC_MAX_FRAME_BYTES; lia).
  destruct (Z.eqb_spec (rg_tail r) (rg_head r)) as [E|E].
  - unfold queue. rewrite E, Z.sub_diag. done.
  - rewrite (queue_cons r Hwf E). destruct (slot_at_ok r (rg_tail r) HL HF) as [Hl Hd].
    cbv zeta. destruct (Z.gtb_spec (fr_len (slot_at r (rg_tail r))) PLC_IPC_MAX_FRAME_BYTES); [lia|].
    rewrite Z.min_l by lia. eexists _, _. split; [done|].
    set (sl := slot_at r (rg_tail r)) in *.
    assert (forall n, 0 <= n <= PLC_IPC_MAX_FRAME_BYTES -> n <> 0 ->
      bslice 0 n (bwrite 0 (bslice 0 n (fr_data sl)) (fr_data out)) = bslice 0 n (fr_data sl)) as Hcp.
    { intros n Hn _. assert (zlen (bslice 0 n (fr_data sl)) = n) as Hz by (apply zlen_bslice; lia).
      rewrite <- Hz at 1. apply bslice_bwrite_same; lia. }
    split; [|split; [done|split; [|split; [|done]]]].
    + split; [done|split; [apply u32_range|split; [done|split; [done|]]]]. simpl. mach.
    + unfold msg_of; simpl. f_equal.
      destruct (Z.eqb_spec (fr_len sl) 0) as [->|]; [done|]. apply (Hcp (fr_len sl)); lia.
    + split; simpl; [done|]. destruct (fr_len sl =? 0); [done|].
      rewrite zlen_bwrite; rewrite ?zlen_bslice; lia.
Qed.

Lemma ring_step_sim s q op :
  ring_sim s q -> op_ok op ->
  let '(s', o) := ring_step s op in
  let '(q', o') := queue_step q op in
  ring_sim s' q' /\ o = o'.
Proof.
  destruct s as [r scratch]. intros (Hwf & Hs & Hq) Hop; cbn [fst snd] in *.
  destruct op as [sq flags data| |]; unfold ring_step, queue_step, op_ok in *.
  - subst q. rewrite zlen_queue.
    pose proof (zlen_nonneg data). destruct (Z.ltb_spec (u32 (rg_head r - rg_tail r)) PLC_IPC_RING_SLOTS).
    + destruct (push_queue r sq flags data (zlen data)) as (r' & -> & Hwf' & _ & Hq'); [done|done|lia|done|].
      simpl. split; [|done]. split; [done|split; [done|]]. simpl. by rewrite Hq', take_zlen.
    + rewrite push_unfold by (done || lia).
      destruct (Z.geb_spec (u32 (rg_head r - rg_tail r)) PLC_IPC_RING_SLOTS); [|lia]. done.
  - pose proof (pop_queue r scratch Hwf Hs) as Hp. rewrite Hq in Hp. destruct q as [|m q].
    + rewrite Hp. done.
    + destruct Hp as (r' & out' & -> & Hwf' & Hq' & <- & [_ Hd] & _). simpl. done.
  - split; [|done]. destruct Hwf as (Hh & Ht & HL & HF & Hc). split; [|split; [done|]]; simpl.
    + split; [done|split; [done|split; [done|split; [done|]]]]. simpl. rewrite Z.sub_diag. done.
    + unfold queue; simpl. by rewrite Z.sub_diag.
Qed.

(** ** Properties *)

Definition ring_example : plc_spsc_ring :=
  ring_zero <| rg_head := 4294967294 |> <| rg_tail := 4294967294 |>.

Lemma ring_at_wf c : 0 <= c < 2 ^ 32 -> ring_wf (ring_zero <| rg_head := c |> <| rg_tail := c |>).
Proof.
  intros. split; [done|split; [done|split; [done|split]]]; simpl.
  - repeat constructor; unfold PLC_IPC_MAX_FRAME_BYTES; simpl; lia.
  - rewrite Z.sub_diag. done.
Qed.

Lemma run_ops_sim (r : plc_spsc_ring) (scratch : plc_ipc_frame)
    (ops : list ring_op)
    (Hwf : ring_wf r) (Hs : zlen (fr_data scratch) = PLC_IPC_MAX_FRAME_BYTES)
    (Hops : Forall op_ok ops) :
  (run_ops ring_step (r, scratch) ops).2 = (run_ops queue_step (queue r) ops).2 /\
  queue (run_ops ring_step (r, scratch) ops).1.1 = (run_ops queue_step (queue r) ops).1.
Proof.
  assert (ring_sim (r, scratch) (queue r)) as Hsim by done.
  revert Hsim. generalize (queue r) as q. generalize (r, scratch) as s. clear r scratch Hwf Hs.
  induction Hops as [|op ops Hop Hops IH]; intros s q Hsim; simpl.
  - destruct Hsim as (_ & _ & Hq). done.
  - pose proof (ring_step_sim s q op Hsim Hop) as Hstep.
    destruct (ring_step s op) as [s' o], (queue_step q op) as [q' o']. destruct Hstep as [Hsim' ->].
    specialize (IH s' q' Hsim'). destruct (run_ops ring_step s' ops), (run_ops queue_step q' ops).
    simpl in *. destruct IH as [-> ->]. done.
Qed.

(** [C9] The ring is a bounded FIFO queue.  From any well-formed ring, wherever
    its two cursors stand in the [uint32_t] range and however often they wrap,
    any sequence of pushes, pops and drains reports the statuses and delivers
    the messages of a list of at most [PLC_IPC_RING_SLOTS] messages, and
    [plc_spsc_count] is the length of that list.  [plc_spsc_init] makes such a
    ring, with nothing in it, of any memory. *)
Theorem spsc_refines_bounded_queue (r : plc_spsc_ring) (scratch : plc_ipc_frame)
    (ops : list ring_op)
    (Hwf : ring_wf r) (Hs : zlen (fr_data scratch) = PLC_IPC_MAX_FRAME_BYTES)
    (Hops : Forall op_ok ops) :
  (run_ops ring_step (r, scratch) ops).2 = (run_ops queue_step (queue r) ops).2 /\
  queue (run_ops ring_step (r, scratch) ops).1.1 = (run_ops queue_step (queue r) ops).1 /\
  plc_spsc_count (Some (run_ops ring_step (r, scratch) ops).1.1) = zlen (run_ops queue_step (queue r) ops).1 /\
  (forall r0, exists r1, plc_spsc_init (Some r0) = Some r1 /\ ring_wf r1 /\ queue r1 = []).
Proof.
  destruct (run_ops_sim r scratch ops Hwf Hs Hops) as [Ho Hq]. split; [done|]. split; [done|].
  split; [by rewrite <- Hq, zlen_queue|]. intros r0. eexists. split; [done|]. split; [by apply ring_at_wf|done].
Qed.

Lemma spsc_refines_bounded_queue_witness :
  let ops := [OpPush 7 0 [1; 2]; OpPush 8 1 []; OpPush 9 0 [3]; OpPush 10 0 [4]; OpPush 11 0 [5];
              OpPop; OpPop; OpPop; OpDrain; OpPop] in
  (run_ops ring_step (ring_example, frame_zero) ops).2
    = [(PLC_OK, None); (PLC_OK, None); (PLC_OK, None); (PLC_OK, None); (PLC_ERR_AGAIN, None);
       (PLC_OK, Some (Msg 7 0 [1; 2])); (PLC_OK, Some (Msg 8 1 [])); (PLC_OK, Some (Msg 9 0 [3]));
       (PLC_OK, None); (PLC_ERR_AGAIN, None)] /\
  queue (run_ops ring_step (ring_example, frame_zero) ops).1.1 = [].
Proof.
  intros ops. destruct (spsc_refines_bounded_queue ring_example frame_zero
    [OpPush 7 0 [1; 2]; OpPush 8 1 []; OpPush 9 0 [3]; OpPush 10 0 [4]; OpPush 11 0 [5];
     OpPop; OpPop; OpPop; OpDrain; OpPop]) as (H1 & H2 & _);
    [apply ring_at_wf; lia | reflexivity
    | repeat constructor; unfold PLC_IPC_MAX_FRAME_BYTES; vm_compute; discriminate|].
  split; [exact H1|exact H2].
Defined.

(** [C34] An untrusted peer cannot make the consumer overrun.  On a ring with
    arbitrary cursors and arbitrary length fields, [plc_spsc_pop] never changes the
    head cursor or a slot.  With equal cursors it returns [PLC_ERR_AGAIN] and
    changes nothing.  Otherwise it takes one slot, advancing the tail by one: a
    slot whose length field is larger than a frame is refused with
    [PLC_ERR_PROTO] and not a byte of the caller's frame changes; any other is
    returned with its number, its flags and as much of its payload as [cap]
    allows, and every byte of the caller's buffer after those is as it was. *)
Theorem spsc_pop_untrusted (r : plc_spsc_ring) (out : plc_ipc_frame) (cap : Z)
    (Hr : ring_shape r) (Hout : zlen (fr_data out) = PLC_IPC_MAX_FRAME_BYTES)
    (Hcap : 0 <= cap <= PLC_IPC_MAX_FRAME_BYTES) :
  let slot := slot_at r (rg_tail r) in
  let n := Z.min (fr_len slot) cap in
  exists st r' out', plc_spsc_pop (Some r) (Some out) cap = (st, Some r', Some out') /\
    rg_head r' = rg_head r /\ rg_slots r' = rg_slots r /\
    (rg_tail r = rg_head r -> st = PLC_ERR_AGAIN /\ r' = r /\ out' = out) /\
    (rg_tail r <> rg_head r ->
       rg_tail r' = u32 (rg_tail r + 1) /\
       (PLC_IPC_MAX_FRAME_BYTES < fr_len slot -> st = PLC_ERR_PROTO /\ out' = out) /\
       (fr_len slot <= PLC_IPC_MAX_FRAME_BYTES ->
          st = PLC_OK /\ fr_seq out' = fr_seq slot /\ fr_flags out' = fr_flags slot /\ fr_len out' = n /\
          zlen (fr_data out') = PLC_IPC_MAX_FRAME_BYTES /\ bslice 0 n (fr_data out') = bslice 0 n (fr_data slot) /\
          forall k, n <= k -> bslice k (PLC_IPC_MAX_FRAME_BYTES - k) (fr_data out')
                                = bslice k (PLC_IPC_MAX_FRAME_BYTES - k) (fr_data out))).
Proof.
  destruct Hr as (Hh & Ht & HL & HF). intros sl n. rewrite pop_unfold by done.
  assert (0 <= fr_len sl < 2 ^ 32 /\ zlen (fr_data sl) = PLC_IPC_MAX_FRAME_BYTES) as [Hl Hd].
  { rewrite List.Forall_forall in HF. apply HF, nth_In. pose proof (slot_index_lt (rg_tail r)). lia. }
  destruct (Z.eqb_spec (rg_tail r) (rg_head r)) as [E|E]; [by eexists _, _, _|]. cbv zeta. fold sl. fold n.
  destruct (Z.gtb_spec (fr_len sl) PLC_IPC_MAX_FRAME_BYTES) as [Hbig|Hsm]; eexists _, _, _; (split; [done|]); simpl.
  { do 3 (split; [done|]). intros _. split; [done|]. split; [done|lia]. }
  do 3 (split; [done|]). intros _. split; [done|]. split; [lia|]. intros _. do 4 (split; [done|]).
  assert (zlen (bslice 0 n (fr_data sl)) = n) as Hz by (apply zlen_bslice; lia).
  destruct (Z.eqb_spec n 0) as [E0|E0].
  { rewrite E0. done. }
  split; [rewrite zlen_bwrite; lia|split].
  - rewrite <- Hz at 1. apply bslice_bwrite_same; lia.
  - intros k Hk. destruct (Z.le_gt_cases k PLC_IPC_MAX_FRAME_BYTES).
    + apply bslice_bwrite_disjoint; lia.
    + unfold bslice. replace (Z.to_nat (PLC_IPC_MAX_FRAME_BYTES - k)) with 0%nat by lia. done.
Qed.

Definition ring_hostile : plc_spsc_ring :=
  ring_zero <| rg_head := 77 |>
            <| rg_slots := replicate 4 (Frame 5 4000000000 0 (zeros PLC_IPC_MAX_FRAME_BYTES)) |>.

(** A length field of four billion is refused. *)
Lemma spsc_pop_untrusted_witness :
  exists st r' out', plc_spsc_pop (Some ring_hostile) (Some frame_zero) 8 = (st, Some r', Some out') /\
    rg_head r' = 77 /\ rg_tail r' = 1 /\ st = PLC_ERR_PROTO /\ out' = frame_zero.
Proof.
  destruct (spsc_pop_untrusted ring_hostile frame_zero 8) as (st & r' & out' & E & Hh & _ & _ & Hne).
  - split; [simpl; lia|split; [simpl; lia|split; [reflexivity|]]]. repeat constructor; simpl; lia.
  - reflexivity.
  - unfold PLC_IPC_MAX_FRAME_BYTES; lia.
  - destruct Hne as (Ht & Hbig & _); [discriminate|]. destruct Hbig as [-> ->]; [reflexivity|].
    exists PLC_ERR_PROTO, r', frame_zero. split; [exact E|]. split; [exact Hh|]. split; [exact Ht|]. split; reflexivity.
Defined.
