(* ===== verification/SpscConc.v ===== *)
(** * The ring under interleaving and crashes

    [plc_spsc_push_flagged], [plc_spsc_pop] and [plc_spsc_drain] of
    [src/ipc/spsc_ring.c] again, now as two processes that take one shared
    memory access at a time: every load and store of a cursor or a slot field,
    and every byte of the two [memcpy] calls, is a step, and the steps of the
    producer and of the consumer interleave freely.  Either process may die
    between any two accesses.

    Accesses are interleaved sequentially consistently; the release store of
    [head] and [tail] and the matching acquire loads are what makes the
    interleavings of the other accesses indistinguishable from these.

    [conc_inv] is the invariant; [spsc_no_torn_frame] is the guarantee the
    header claims, [producer_drain_tears_frame] shows that it is lost when the
    drain is run by the producer. *)

From Stdlib Require Import ZArith Lia.
From stdpp Require Import base list relations tactics.
From S2P Require Import Prelude PlcTypes SpscRing.

(** ** The two processes *)

(** The next access of a push of [m]; [head] is the local variable. *)
Inductive producer : Type :=
| P_done (st : plc_status)  (** not in a call; the last one returned [st] *)
| P_load_head (m : message)
| P_load_tail (m : message) (head : Z)
| P_seq (m : message) (head : Z)
| P_len (m : message) (head : Z)
| P_flags (m : message) (head : Z)
| P_data (m : message) (head : Z) (i : nat)
| P_publish (m : message) (head : Z)
| P_dead.

(** The next access of a pop with limit [cap] into [out], or of a drain. *)
Inductive consumer : Type :=
| C_done (st : plc_status) (out : plc_ipc_frame)
| C_load_tail (cap : Z) (out : plc_ipc_frame)
| C_load_head (cap : Z) (out : plc_ipc_frame) (tail : Z)
| C_seq (cap : Z) (out : plc_ipc_frame) (tail : Z)
| C_len (cap : Z) (out : plc_ipc_frame) (tail seq : Z)
| C_flags (cap : Z) (out : plc_ipc_frame) (tail seq len : Z)
| C_skip (out : plc_ipc_frame) (tail : Z)
| C_data (cap : Z) (out : plc_ipc_frame) (tail : Z) (i : nat)
| C_retire (cap : Z) (out : plc_ipc_frame) (tail : Z)
| C_drain (out : plc_ipc_frame)
| C_drain_store (out : plc_ipc_frame) (head : Z)
| C_dead.

Definition set_slot (r : plc_spsc_ring) (cursor : Z) (f : plc_ipc_frame) : plc_spsc_ring :=
  r <| rg_slots := <[slot_index cursor := f]> (rg_slots r) |>.

(** [memcpy] moves one byte per step. *)
Definition put_byte (f : plc_ipc_frame) (i : nat) (b : Z) : plc_ipc_frame :=
  f <| fr_data := <[i := b]> (fr_data f) |>.

Definition prod_step (r : plc_spsc_ring) (p : producer) : plc_spsc_ring * producer :=
  match p with
  | P_done _ | P_dead => (r, p)
  | P_load_head m => (r, P_load_tail m (rg_head r))
  | P_load_tail m head =>
      (r, if u32 (head - rg_tail r) >=? PLC_IPC_RING_SLOTS then P_done PLC_ERR_AGAIN
          else P_seq m head)
  | P_seq m head => (set_slot r head (slot_at r head <| fr_seq := m_seq m |>), P_len m head)
  | P_len m head =>
      (set_slot r head (slot_at r head <| fr_len := zlen (m_payload m) |>), P_flags m head)
  | P_flags m head =>
      (set_slot r head (slot_at r head <| fr_flags := m_flags m |>), P_data m head 0)
  | P_data m head i =>
      match m_payload m !! i with
      | Some b => (set_slot r head (put_byte (slot_at r head) i b), P_data m head (S i))
      | None => (r, P_publish m head)
      end
  | P_publish m head => (r <| rg_head := u32 (head + 1) |>, P_done PLC_OK)
  end.

Definition cons_step (r : plc_spsc_ring) (c : consumer) : plc_spsc_ring * consumer :=
  match c with
  | C_done _ _ | C_dead => (r, c)
  | C_load_tail cap out => (r, C_load_head cap out (rg_tail r))
  | C_load_head cap out tail =>
      (r, if tail =? rg_head r then C_done PLC_ERR_AGAIN out else C_seq cap out tail)
  | C_seq cap out tail => (r, C_len cap out tail (fr_seq (slot_at r tail)))
  | C_len cap out tail seq => (r, C_flags cap out tail seq (fr_len (slot_at r tail)))
  | C_flags cap out tail seq len =>
      let flags := fr_flags (slot_at r tail) in
      if len >? PLC_IPC_MAX_FRAME_BYTES then (r, C_skip out tail)
      else (r, C_data cap (out <| fr_seq := seq |>
                               <| fr_len := if len <? cap then len else cap |>
                               <| fr_flags := flags |>) tail 0)
  | C_skip out tail => (r <| rg_tail := u32 (tail + 1) |>, C_done PLC_ERR_PROTO out)
  | C_data cap out tail i =>
      if (i <? Z.to_nat (fr_len out))%nat
      then (r, C_data cap (put_byte out i (nth i (fr_data (slot_at r tail)) 0)) tail (S i))
      else (r, C_retire cap out tail)
  | C_retire _ out tail => (r <| rg_tail := u32 (tail + 1) |>, C_done PLC_OK out)
  | C_drain out => (r, C_drain_store out (rg_head r))
  | C_drain_store out head => (r <| rg_tail := head |>, C_done PLC_OK out)
  end.

(** ** The system

    [published] records the messages whose [head] store was made, in order;
    [retired] has one entry for each frame the consumer moved [tail] past: the
    limit and the frame of a pop, or [None] for a frame a drain dropped.  Both
    are ghost state: no step reads them. *)

Record sys : Type := Sys {
  sy_ring : plc_spsc_ring;
  sy_prod : producer;
  sy_cons : consumer;
  published : list message;
  retired : list (option (Z * plc_ipc_frame))
}.
#[export] Instance eta_sys : Eta sys := fun r =>
  Sys (sy_ring r) (sy_prod r) (sy_cons r) (published r) (retired r).

Definition publishes (p : producer) : list message :=
  match p with P_publish m _ => [m] | _ => [] end.

Definition retires (r : plc_spsc_ring) (c : consumer) : list (option (Z * plc_ipc_frame)) :=
  match c with
  | C_retire cap out _ => [Some (cap, out)]
  | C_skip _ _ => [None]
  | C_drain_store _ head => replicate (Z.to_nat (u32 (head - rg_tail r))) None
  | _ => []
  end.

Definition message_ok (m : message) : Prop := zlen (m_payload m) <= PLC_IPC_MAX_FRAME_BYTES.

Inductive sys_step : sys -> sys -> Prop :=
| step_push s m st :
    sy_prod s = P_done st -> message_ok m ->
    sys_step s (s <| sy_prod := P_load_head m |>)
| step_prod s :
    sys_step s (s <| sy_ring := (prod_step (sy_ring s) (sy_prod s)).1 |>
                  <| sy_prod := (prod_step (sy_ring s) (sy_prod s)).2 |>
                  <| published := published s ++ publishes (sy_prod s) |>)
| step_prod_crash s : sys_step s (s <| sy_prod := P_dead |>)
| step_pop s cap out st :
    sy_cons s = C_done st out -> 0 <= cap <= PLC_IPC_MAX_FRAME_BYTES ->
    sys_step s (s <| sy_cons := C_load_tail cap out |>)
| step_drain s out st :
    sy_cons s = C_done st out ->
    sys_step s (s <| sy_cons := C_drain out |>)
| step_cons s :
    sys_step s (s <| sy_ring := (cons_step (sy_ring s) (sy_cons s)).1 |>
                  <| sy_cons := (cons_step (sy_ring s) (sy_cons s)).2 |>
                  <| retired := retired s ++ retires (sy_ring s) (sy_cons s) |>)
| step_cons_crash s : sys_step s (s <| sy_cons := C_dead |>).

(** A fresh region whose cursors stand at [base]. *)
Definition sys_init (base : Z) : sys :=
  Sys (ring_zero <| rg_head := base |> <| rg_tail := base |>)
      (P_done PLC_OK) (C_done PLC_OK frame_zero) [] [].

(** ** The invariant *)

(** What a pop with limit [cap] is to hand over of [m]. *)
Definition clip (cap : Z) (m : message) : message :=
  Msg (m_seq m) (m_flags m) (take (Z.to_nat cap) (m_payload m)).

Definition retired_ok (pub : list message) (i : nat) (e : option (Z * plc_ipc_frame)) : Prop :=
  match e with
  | None => True
  | Some (cap, out) => exists m, pub !! i = Some m /\ msg_of out = clip cap m
  end.

Section Invariant.
Variables (base : Z) (r : plc_spsc_ring) (pub : list message) (T : nat).

Definition cursor (k : nat) : Z := base + Z.of_nat k.

(** The cursors count publications and retirements, and every slot between
    them holds the message published there. *)
Definition ring_inv : Prop :=
  rg_head r = u32 (cursor (length pub)) /\ rg_tail r = u32 (cursor T) /\
  (T <= length pub <= T + 4)%nat /\
  length (rg_slots r) = 4%nat /\
  Forall (fun f => zlen (fr_data f) = PLC_IPC_MAX_FRAME_BYTES) (rg_slots r) /\
  Forall message_ok pub /\
  forall k m, (T <= k)%nat -> pub !! k = Some m ->
    msg_of (slot_at r (cursor k)) = m /\ fr_len (slot_at r (cursor k)) = zlen (m_payload m).

(** A push in progress owns the slot at [head]. *)
Definition owns_slot (m : message) (head : Z) : Prop :=
  message_ok m /\ head = u32 (cursor (length pub)) /\ (length pub < T + 4)%nat.

Definition prod_inv (p : producer) : Prop :=
  match p with
  | P_done _ | P_dead => True
  | P_load_head m => message_ok m
  | P_load_tail m head => message_ok m /\ head = u32 (cursor (length pub))
  | P_seq m head => owns_slot m head
  | P_len m head => owns_slot m head /\ fr_seq (slot_at r head) = m_seq m
  | P_flags m head =>
      owns_slot m head /\ fr_seq (slot_at r head) = m_seq m /\
      fr_len (slot_at r head) = zlen (m_payload m)
  | P_data m head i =>
      owns_slot m head /\ fr_seq (slot_at r head) = m_seq m /\
      fr_len (slot_at r head) = zlen (m_payload m) /\ fr_flags (slot_at r head) = m_flags m /\
      (i <= length (m_payload m))%nat /\
      take i (fr_data (slot_at r head)) = take i (m_payload m)
  | P_publish m head =>
      owns_slot m head /\ msg_of (slot_at r head) = m /\
      fr_len (slot_at r head) = zlen (m_payload m)
  end.

(** A pop in progress reads the oldest message. *)
Definition reads_slot (cap : Z) (out : plc_ipc_frame) (tail : Z) (m : message) : Prop :=
  0 <= cap <= PLC_IPC_MAX_FRAME_BYTES /\ zlen (fr_data out) = PLC_IPC_MAX_FRAME_BYTES /\
  tail = u32 (cursor T) /\ pub !! T = Some m.

Definition cons_inv (c : consumer) : Prop :=
  match c with
  | C_dead => True
  | C_done _ out | C_drain out => zlen (fr_data out) = PLC_IPC_MAX_FRAME_BYTES
  | C_load_tail cap out =>
      0 <= cap <= PLC_IPC_MAX_FRAME_BYTES /\ zlen (fr_data out) = PLC_IPC_MAX_FRAME_BYTES
  | C_load_head cap out tail =>
      0 <= cap <= PLC_IPC_MAX_FRAME_BYTES /\ zlen (fr_data out) = PLC_IPC_MAX_FRAME_BYTES /\
      tail = u32 (cursor T)
  | C_seq cap out tail => exists m, reads_slot cap out tail m
  | C_len cap out tail seq => exists m, reads_slot cap out tail m /\ seq = m_seq m
  | C_flags cap out tail seq len =>
      exists m, reads_slot cap out tail m /\ seq = m_seq m /\ len = zlen (m_payload m)
  | C_skip out tail => False
  | C_data cap out tail i =>
      exists m, reads_slot cap out tail m /\ fr_seq out = m_seq m /\ fr_flags out = m_flags m /\
        fr_len out = Z.min (zlen (m_payload m)) cap /\ (i <= Z.to_nat (fr_len out))%nat /\
        take i (fr_data out) = take i (m_payload m)
  | C_retire cap out tail => exists m, reads_slot cap out tail m /\ msg_of out = clip cap m
  | C_drain_store out head =>
      zlen (fr_data out) = PLC_IPC_MAX_FRAME_BYTES /\
      exists n, (T <= n <= length pub)%nat /\ head = u32 (cursor n)
  end.
End Invariant.

Definition conc_inv (base : Z) (s : sys) : Prop :=
  ring_inv base (sy_ring s) (published s) (length (retired s)) /\
  prod_inv base (sy_ring s) (published s) (length (retired s)) (sy_prod s) /\
  cons_inv base (published s) (length (retired s)) (sy_cons s) /\
  forall i e, retired s !! i = Some e -> retired_ok (published s) i e.

(** ** Preservation *)

Lemma u32_cursor_diff base (a b : nat) :
  (b <= a <= b + 4)%nat -> u32 (u32 (cursor base a) - u32 (cursor base b)) = Z.of_nat (a - b).
Proof. intros. rewrite u32_sub_l, u32_sub_r. unfold cursor. mach. Qed.

Lemma u32_cursor_S base (a : nat) : u32 (u32 (cursor base a) + 1) = u32 (cursor base (S a)).
Proof. rewrite u32_add_l. f_equal. unfold cursor. lia. Qed.

Lemma slot_at_cursor r c : slot_at r (u32 c) = slot_at r c.
Proof. unfold slot_at. by rewrite slot_index_u32. Qed.

Lemma slot_at_set_slot r c c' f :
  length (rg_slots r) = 4%nat ->
  slot_at (set_slot r c f) c' = if decide (slot_index c' = slot_index c) then f else slot_at r c'.
Proof. intros. by apply slot_at_insert. Qed.

Lemma slot_at_set_same r c f : length (rg_slots r) = 4%nat -> slot_at (set_slot r c f) c = f.
Proof. intros. rewrite slot_at_set_slot by done. by rewrite decide_True. Qed.

Lemma slot_data_size base r pub T c :
  ring_inv base r pub T -> zlen (fr_data (slot_at r c)) = PLC_IPC_MAX_FRAME_BYTES.
Proof.
  intros (_ & _ & _ & HL & HF & _). rewrite List.Forall_forall in HF. apply HF, nth_In.
  pose proof (slot_index_lt c). lia.
Qed.

(** A store into the slot a push owns touches no published message. *)
Lemma ring_inv_set_slot base r pub T m head f :
  ring_inv base r pub T -> owns_slot base pub T m head ->
  zlen (fr_data f) = PLC_IPC_MAX_FRAME_BYTES -> ring_inv base (set_slot r head f) pub T.
Proof.
  intros (Hh & Ht & Hn & HL & HF & Hm & Hs) (_ & -> & Hlt) Hf.
  split; [done|split; [done|split; [done|]]]. simpl. rewrite length_insert.
  split; [done|split; [by apply Forall_insert|split; [done|]]].
  intros k m' Hk Hl. rewrite slot_at_set_slot by done. rewrite decide_False; [by apply Hs|].
  rewrite slot_index_u32. pose proof (lookup_lt_Some _ _ _ Hl).
  rewrite !slot_index_mod. unfold cursor. mach.
Qed.

Lemma zlen_insert (l : list Z) i b : zlen (<[i := b]> l) = zlen l.
Proof. unfold zlen. by rewrite length_insert. Qed.

(** One more byte of a [memcpy]. *)
Lemma take_S_insert (l k : list Z) i b :
  take i l = take i k -> k !! i = Some b -> (i < length l)%nat ->
  take (S i) (<[i := b]> l) = take (S i) k.
Proof.
  intros He Hb Hi. rewrite (take_S_r _ _ b) by (by apply list_lookup_insert_eq).
  rewrite (take_S_r k _ b) by done. rewrite take_insert_ge by lia. by rewrite He.
Qed.

Lemma clip_msg (f : plc_ipc_frame) (m : message) cap :
  fr_seq f = m_seq m -> fr_flags f = m_flags m -> fr_len f = Z.min (zlen (m_payload m)) cap ->
  0 <= cap ->
  take (Z.to_nat (fr_len f)) (fr_data f) = take (Z.to_nat (fr_len f)) (m_payload m) ->
  msg_of f = clip cap m.
Proof.
  intros Hq Hf Hl Hc Ht. unfold msg_of, clip. rewrite Hq, Hf, Ht, Hl. f_equal.
  destruct (Z.le_gt_cases (zlen (m_payload m)) cap) as [H|H].
  - rewrite Z.min_l by lia. unfold zlen in *. rewrite !take_ge; [done|lia..].
  - by rewrite Z.min_r by lia.
Qed.

Lemma prod_step_inv base r pub T p :
  ring_inv base r pub T -> prod_inv base r pub T p ->
  ring_inv base (prod_step r p).1 (pub ++ publishes p) T /\
  prod_inv base (prod_step r p).1 (pub ++ publishes p) T (prod_step r p).2.
Proof.
  intros Hr Hp. pose proof Hr as (Hh & Ht & Hn & HL & HF & Hm & Hs).
  assert (forall c, zlen (fr_data (slot_at r c)) = PLC_IPC_MAX_FRAME_BYTES) as Hsz
    by (intros; by eapply slot_data_size).
  destruct p as [st|m|m head|m head|m head|m head|m head i|m head|];
    cbn [publishes]; rewrite ?app_nil_r; simpl in Hp |- *; try done.
  - split; [done|]. destruct Hp as [Hmo ->]. rewrite Ht, u32_cursor_diff by lia.
    destruct (Z.geb_spec (Z.of_nat (length pub - T)) PLC_IPC_RING_SLOTS); [done|].
    unfold PLC_IPC_RING_SLOTS in *. split; [done|split; [done|lia]].
  - split; [eapply ring_inv_set_slot; [done|done|apply Hsz]|]. split; [done|]. by rewrite slot_at_set_same.
  - destruct Hp as [Hp Hq]. split; [eapply ring_inv_set_slot; [done|done|apply Hsz]|]. split; [done|].
    by rewrite slot_at_set_same.
  - destruct Hp as (Hp & Hq & Hl). split; [eapply ring_inv_set_slot; [done|done|apply Hsz]|].
    rewrite slot_at_set_same, take_0 by done. do 4 (split; [done|]). split; [lia|done].
  - destruct Hp as (Hp & Hq & Hl & Hf & Hi & Hd). destruct (m_payload m !! i) as [b|] eqn:Hb; simpl.
    + assert (i < length (m_payload m))%nat as Hlt by (by eapply lookup_lt_Some).
      split; [eapply ring_inv_set_slot; [done..|]; simpl; rewrite zlen_insert; apply Hsz|].
      rewrite slot_at_set_same by done. simpl. do 4 (split; [done|]). split; [lia|]. apply take_S_insert; [done..|].
      destruct Hp as (Hmo & _). specialize (Hsz head). unfold message_ok, zlen in *. lia.
    + split; [done|]. split; [done|split; [|done]]. apply lookup_ge_None_1 in Hb.
      unfold msg_of. rewrite Hq, Hf, Hl. unfold zlen in *. rewrite Nat2Z.id.
      replace i with (length (m_payload m)) in Hd by lia. rewrite Hd, take_ge by lia. by destruct m.
  - destruct Hp as ((Hmo & Hhd & Hlt) & Hmsg & Hl). split; [|done]. rewrite Hhd in *.
    split; simpl; [rewrite length_app; simpl; rewrite Nat.add_1_r; apply u32_cursor_S|].
    split; [done|]. rewrite length_app; simpl. split; [lia|].
    split; [done|split; [done|split; [by apply Forall_app_2; [|constructor]|]]].
    intros k m' Hk Hlk. apply lookup_app_Some in Hlk as [Hlk|[Hge Hlk]]; [by apply Hs|].
    apply list_lookup_singleton_Some in Hlk as [Hz <-].
    replace k with (length pub) by lia. rewrite slot_at_cursor in *. done.
Qed.

(** Publishing more does not disturb the consumer. *)
Lemma cons_inv_mono base pub T c extra : cons_inv base pub T c -> cons_inv base (pub ++ extra) T c.
Proof.
  assert (forall i m, pub !! i = Some m -> (pub ++ extra) !! i = Some m) as Hl
    by (intros; by apply lookup_app_l_Some).
  assert (forall cap out tail m, reads_slot base pub T cap out tail m ->
    reads_slot base (pub ++ extra) T cap out tail m) as Hrd
    by (intros ???? (? & ? & ? & ?); do 3 (split; [done|]); by apply Hl).
  destruct c; simpl; try done;
    try (intros (m & H); exists m; first [exact (Hrd _ _ _ _ H)
                                        | destruct H as [H ?]; split; [exact (Hrd _ _ _ _ H)|done]]).
  intros [? (n & ? & ?)]. split; [done|]. exists n. rewrite length_app. split; [lia|done].
Qed.

Lemma retired_ok_mono pub extra i e : retired_ok pub i e -> retired_ok (pub ++ extra) i e.
Proof.
  destruct e as [[cap out]|]; simpl; [|done]. intros (m & Hm & ?). exists m. split; [|done].
  by apply lookup_app_l_Some.
Qed.

(** Moving [tail] forward frees slots; it never takes one from a push. *)
Lemma prod_inv_retire base r pub T p tail n :
  (T <= n)%nat -> prod_inv base r pub T p -> prod_inv base (r <| rg_tail := tail |>) pub n p.
Proof.
  intros Hn. destruct p; simpl; unfold owns_slot;
    try done; repeat (match goal with |- context [slot_at ?r' ?h] =>
      lazymatch r' with r => fail | _ => change (slot_at r' h) with (slot_at r h) end end);
    intuition lia.
Qed.

Lemma ring_inv_retire base r pub T n :
  (T <= n <= length pub)%nat -> ring_inv base r pub T ->
  ring_inv base (r <| rg_tail := u32 (cursor base n) |>) pub n.
Proof.
  intros Hn (Hh & Ht & Hb & HL & HF & Hm & Hs). split; [done|split; [done|split; [lia|]]].
  split; [done|split; [done|split; [done|]]]. intros k m Hk. apply Hs. lia.
Qed.

Lemma cons_step_inv base r pub ret p c :
  ring_inv base r pub (length ret) -> prod_inv base r pub (length ret) p ->
  cons_inv base pub (length ret) c ->
  (forall i e, ret !! i = Some e -> retired_ok pub i e) ->
  let ret' := ret ++ retires r c in
  ring_inv base (cons_step r c).1 pub (length ret') /\
  prod_inv base (cons_step r c).1 pub (length ret') p /\
  cons_inv base pub (length ret') (cons_step r c).2 /\
  forall i e, ret' !! i = Some e -> retired_ok pub i e.
Proof.
  intros Hr Hp Hc Hok. pose proof Hr as (Hh & Ht & Hn & HL & HF & Hm & Hs).
  assert (forall m, pub !! length ret = Some m ->
    msg_of (slot_at r (u32 (cursor base (length ret)))) = m /\
    fr_len (slot_at r (u32 (cursor base (length ret)))) = zlen (m_payload m)) as Hslot.
  { intros m Hl. rewrite slot_at_cursor. by apply Hs. }
  destruct c as [st out|cap out|cap out tail|cap out tail|cap out tail sq|cap out tail sq len
                |out tail|cap out tail i|cap out tail|out|out head|];
    cbn [retires] in *; rewrite ?app_nil_r; simpl in Hc |- *; try done.
  - destruct Hc as [Hcap Hout]. done.
  - destruct Hc as (Hcap & Hout & ->). rewrite Hh.
    destruct (Z.eqb_spec (u32 (cursor base (length ret))) (u32 (cursor base (length pub)))) as [E|E]; [done|].
    split; [done|split; [done|split; [|done]]].
    destruct (lookup_lt_is_Some_2 pub (length ret)) as [m Hl]; [|by exists m].
    destruct (decide (length ret = length pub)) as [He|]; [by rewrite He in E|lia].
  - destruct Hc as (m & Hc). split; [done|split; [done|split; [|done]]]. exists m. split; [done|].
    destruct Hc as (_ & _ & -> & Hl). destruct (Hslot m Hl) as [<- _]. done.
  - destruct Hc as (m & Hc & Hq). split; [done|split; [done|split; [|done]]]. exists m.
    split; [done|split; [done|]]. destruct Hc as (_ & _ & -> & Hl). by destruct (Hslot m Hl) as [_ ->].
  - destruct Hc as (m & (Hcap & Hout & -> & Hl) & -> & ->).
    assert (message_ok m) as Hmo by (by eapply Forall_lookup_1).
    destruct (Z.gtb_spec (zlen (m_payload m)) PLC_IPC_MAX_FRAME_BYTES); [unfold message_ok in Hmo; lia|].
    split; [done|split; [done|split; [|done]]]. exists m.
    split; [done|]. simpl. destruct (Hslot m Hl) as [Hmsg _]. split; [done|].
    split; [by rewrite <- Hmsg|]. rewrite !take_0. split; [|split; [lia|done]].
    destruct (Z.ltb_spec (zlen (m_payload m)) cap); lia.
  - destruct Hc as (m & (Hcap & Hout & -> & Hl) & Hq & Hf & Hln & Hi & Hd).
    destruct (Nat.ltb_spec i (Z.to_nat (fr_len out))) as [Hlt|Hge]; simpl.
    + split; [done|split; [done|split; [|done]]]. exists m.
      split; [split; [done|split; [simpl; by rewrite zlen_insert|done]]|].
      destruct (Hslot m Hl) as [Hmsg Hlen].
      simpl. do 4 (split; [done|]). apply take_S_insert; [done|..].
      * rewrite <- Hmsg. simpl. rewrite lookup_take_lt by lia.
        destruct (nth_lookup_or_length (fr_data (slot_at r (u32 (cursor base (length ret))))) i 0) as [E|E]; [done|].
        pose proof (slot_data_size _ _ _ _ (u32 (cursor base (length ret))) Hr). unfold zlen in *. lia.
      * unfold zlen in *. lia.
    + split; [done|split; [done|split; [|done]]]. exists m. split; [done|].
      replace i with (Z.to_nat (fr_len out)) in Hd by lia. apply clip_msg; [done..|lia|done].
  - destruct Hc as (m & (Hcap & Hout & -> & Hl) & Hmsg). pose proof (lookup_lt_Some _ _ _ Hl).
    rewrite length_app; simpl. rewrite Nat.add_1_r, u32_cursor_S.
    split; [apply (ring_inv_retire _ _ _ (length ret)); [lia|done]|].
    split; [apply (prod_inv_retire _ _ _ (length ret)); [lia|done]|]. split; [done|].
    intros i e [He|[Hge He]]%lookup_app_Some; [by apply Hok|].
    apply list_lookup_singleton_Some in He as [Hz <-]. exists m. split; [|done].
    by replace i with (length ret) by lia.
  - split; [done|split; [done|split; [|done]]]. split; [done|]. exists (length pub). rewrite Hh. split; [lia|done].
  - destruct Hc as (Hout & n & Hn' & ->). rewrite length_app, length_replicate, Ht, u32_cursor_diff by lia.
    replace (length ret + Z.to_nat (Z.of_nat (n - length ret)))%nat with n by lia.
    split; [by apply (ring_inv_retire _ _ _ (length ret))|].
    split; [by apply (prod_inv_retire _ _ _ (length ret)); [lia|]|]. split; [done|].
    intros i e [He|[Hge He]]%lookup_app_Some; [by apply Hok|].
    apply lookup_replicate in He as [-> _]. done.
Qed.

Lemma conc_inv_step base s s' : conc_inv base s -> sys_step s s' -> conc_inv base s'.
Proof.
  intros (Hr & Hp & Hc & Hok) Hst. destruct Hst as [s m st E Hm|s|s|s cap out st E Hcap|s out st E|s|s].
  - done.
  - destruct (prod_step_inv _ _ _ _ _ Hr Hp) as [Hr' Hp']. split; [done|split; [done|split]].
    + by apply cons_inv_mono.
    + intros i e He. apply retired_ok_mono. by apply Hok.
  - done.
  - rewrite E in Hc. done.
  - rewrite E in Hc. done.
  - by apply cons_step_inv.
  - done.
Qed.

Lemma conc_inv_init base : 0 <= base < 2 ^ 32 -> conc_inv base (sys_init base).
Proof.
  intros Hb. split; [|by repeat split]. unfold ring_inv, cursor; simpl. rewrite Z.add_0_r, u32_small by done.
  split; [done|split; [done|split; [lia|split; [done|split; [|split; [done|]]]]]].
  - by repeat constructor.
  - intros k m _ Hk. done.
Qed.

Lemma conc_inv_reachable base s : 0 <= base < 2 ^ 32 -> rtc sys_step (sys_init base) s -> conc_inv base s.
Proof.
  intros Hb Hs. cut (forall s0, conc_inv base s0 -> rtc sys_step s0 s -> conc_inv base s).
  { intros H. apply (H _ (conc_inv_init base Hb) Hs). }
  clear. intros s0 H0 Hs. induction Hs as [|s0 s1 s2 Hst _ IH]; [done|].
  apply IH. by eapply conc_inv_step.
Qed.

(** ** A call that is not interrupted *)

Definition prod_iter (n : nat) (s : plc_spsc_ring * producer) : plc_spsc_ring * producer :=
  Nat.iter n (fun s => prod_step s.1 s.2) s.
Definition cons_iter (n : nat) (s : plc_spsc_ring * consumer) : plc_spsc_ring * consumer :=
  Nat.iter n (fun s => cons_step s.1 s.2) s.

Lemma prod_iter_S n r p : prod_iter (S n) (r, p) = prod_iter n (prod_step r p).
Proof. unfold prod_iter. rewrite Nat.iter_succ_r. simpl. by destruct (prod_step r p). Qed.

Lemma cons_iter_S n r c : cons_iter (S n) (r, c) = cons_iter n (cons_step r c).
Proof. unfold cons_iter. rewrite Nat.iter_succ_r. simpl. by destruct (cons_step r c). Qed.

Lemma set_slot_twice r c f g : set_slot (set_slot r c f) c g = set_slot r c g.
Proof. unfold set_slot. simpl. by rewrite list_insert_insert_eq. Qed.

Lemma set_slot_self r c f : length (rg_slots r) = 4%nat -> f = slot_at r c -> set_slot r c f = r.
Proof.
  intros HL ->. unfold set_slot. destruct r as [h t sl]; simpl in *. f_equal.
  apply list_insert_id. unfold slot_at; simpl.
  destruct (nth_lookup_or_length sl (slot_index c) frame_zero); [done|]. pose proof (slot_index_lt c). lia.
Qed.

(** Inserting byte after byte is one copy. *)
Lemma bwrite_snoc src b l (i : nat) :
  i = length src -> (length src < length l)%nat ->
  <[i := b]> (bwrite 0 src l) = bwrite 0 (src ++ [b]) l.
Proof.
  intros -> Hi. unfold bwrite. simpl. rewrite length_app; simpl.
  rewrite insert_app_r_alt, Nat.sub_diag by lia. rewrite <- app_assoc. f_equal.
  destruct (drop (length src) l) as [|x k] eqn:E.
  { apply (f_equal length) in E. rewrite length_drop in E. simpl in E. lia. }
  simpl. f_equal. rewrite <- drop_drop, E. done.
Qed.

Lemma take_bwrite_step (src l : list Z) i b :
  src !! i = Some b -> (length src <= length l)%nat ->
  <[i := b]> (bwrite 0 (take i src) l) = bwrite 0 (take (S i) src) l.
Proof.
  intros Hb Hl. apply lookup_lt_Some in Hb as Hlt. rewrite (take_S_r src i b Hb).
  apply bwrite_snoc; rewrite length_take; lia.
Qed.

Lemma prod_data_iter m head (k : nat) : forall i r d,
  length (rg_slots r) = 4%nat -> (length (m_payload m) <= length d)%nat ->
  (i + k = length (m_payload m))%nat -> fr_data (slot_at r head) = bwrite 0 (take i (m_payload m)) d ->
  prod_iter (S (S k)) (r, P_data m head i)
    = (set_slot r head (slot_at r head <| fr_data := bwrite 0 (m_payload m) d |>)
         <| rg_head := u32 (head + 1) |>, P_done PLC_OK).
Proof.
  induction k as [|k IH]; intros i r d HL Hd Hi Hcur.
  - rewrite take_ge in Hcur by lia.
    rewrite (set_slot_self r head (setf _ _ _)); [|done|by rewrite <- Hcur; destruct (slot_at r head)].
    rewrite prod_iter_S. simpl. by rewrite lookup_ge_None_2 by lia.
  - rewrite prod_iter_S. simpl prod_step.
    destruct (lookup_lt_is_Some_2 (m_payload m) i) as [b Hb]; [lia|]. rewrite Hb.
    rewrite (IH (S i) _ d); [|by simpl; rewrite length_insert|done|lia|].
    + rewrite set_slot_twice, slot_at_set_same by done. done.
    + rewrite slot_at_set_same by done. simpl. rewrite Hcur. by apply take_bwrite_step.
Qed.

(** The number of steps of a push that is not interrupted. *)
Definition push_steps (r : plc_spsc_ring) (m : message) : nat :=
  if u32 (rg_head r - rg_tail r) >=? PLC_IPC_RING_SLOTS then 2%nat
  else (7 + length (m_payload m))%nat.

Lemma push_uninterrupted r m :
  ring_shape r -> message_ok m ->
  let '(r', p) := prod_iter (push_steps r m) (r, P_load_head m) in
  exists st, p = P_done st /\
    plc_spsc_push_flagged (Some r) (m_seq m) (m_flags m) (Some (m_payload m)) (zlen (m_payload m))
      = (st, Some r').
Proof.
  intros (Hh & Ht & HL & HF) Hm. unfold message_ok in Hm. pose proof (zlen_nonneg (m_payload m)).
  rewrite push_unfold by lia. unfold push_steps.
  destruct (u32 (rg_head r - rg_tail r) >=? PLC_IPC_RING_SLOTS) eqn:E.
  { rewrite !prod_iter_S. simpl. rewrite E. by exists PLC_ERR_AGAIN. }
  replace (7 + length (m_payload m))%nat with (S (S (S (S (S (S (S (length (m_payload m))))))))) by lia.
  do 5 (rewrite prod_iter_S; cbn [prod_step]; rewrite ?E).
  rewrite !slot_at_set_same, !set_slot_twice by (simpl; rewrite ?length_insert; done).
  assert (zlen (fr_data (slot_at r (rg_head r))) = PLC_IPC_MAX_FRAME_BYTES) as Hsz.
  { rewrite List.Forall_forall in HF. apply HF, nth_In. pose proof (slot_index_lt (rg_head r)). lia. }
  rewrite (prod_data_iter m (rg_head r) (length (m_payload m)) 0 _ (fr_data (slot_at r (rg_head r))));
    [|by simpl; rewrite length_insert|unfold zlen in *; lia|lia|].
  - exists PLC_OK. split; [done|]. rewrite set_slot_twice, slot_at_set_same by done. simpl.
    unfold set_slot. simpl. rewrite take_zlen. done.
  - rewrite slot_at_set_same by done. done.
Qed.

Lemma cons_data_iter r cap tail (k : nat) : forall i out d,
  (i + k = Z.to_nat (fr_len out))%nat -> 0 <= fr_len out <= PLC_IPC_MAX_FRAME_BYTES ->
  zlen (fr_data (slot_at r tail)) = PLC_IPC_MAX_FRAME_BYTES -> zlen d = PLC_IPC_MAX_FRAME_BYTES ->
  fr_data out = bwrite 0 (take i (fr_data (slot_at r tail))) d ->
  cons_iter (S (S k)) (r, C_data cap out tail i)
    = (r <| rg_tail := u32 (tail + 1) |>,
       C_done PLC_OK (out <| fr_data := bwrite 0 (bslice 0 (fr_len out) (fr_data (slot_at r tail))) d |>)).
Proof.
  induction k as [|k IH]; intros i out d Hi Hl Hs Hd Hcur; rewrite cons_iter_S; cbn [cons_step].
  - rewrite (proj2 (Nat.ltb_ge _ _)) by lia. unfold bslice; simpl. rewrite drop_0.
    replace i with (Z.to_nat (fr_len out)) in Hcur by lia. rewrite <- Hcur. by destruct out.
  - rewrite (proj2 (Nat.ltb_lt _ _)) by lia.
    rewrite (IH (S i) _ d); [done|simpl; lia|done|done|done|]. simpl. rewrite Hcur.
    unfold zlen in *. apply take_bwrite_step; [|lia].
    destruct (nth_lookup_or_length (fr_data (slot_at r tail)) i 0); [done|lia].
Qed.

(** The number of accesses of a pop that is not interrupted. *)
Definition pop_steps (r : plc_spsc_ring) (cap : Z) : nat :=
  if rg_tail r =? rg_head r then 2%nat
  else if fr_len (slot_at r (rg_tail r)) >? PLC_IPC_MAX_FRAME_BYTES then 6%nat
  else (7 + Z.to_nat (Z.min (fr_len (slot_at r (rg_tail r))) cap))%nat.

Lemma pop_uninterrupted r out cap :
  ring_shape r -> zlen (fr_data out) = PLC_IPC_MAX_FRAME_BYTES ->
  0 <= cap <= PLC_IPC_MAX_FRAME_BYTES ->
  let '(r', c) := cons_iter (pop_steps r cap) (r, C_load_tail cap out) in
  exists st out', c = C_done st out' /\
    plc_spsc_pop (Some r) (Some out) cap = (st, Some r', Some out').
Proof.
  intros (Hh & Ht & HL & HF) Hout Hcap. rewrite pop_unfold by done. unfold pop_steps.
  destruct (rg_tail r =? rg_head r) eqn:E.
  { do 2 (rewrite cons_iter_S; cbn [cons_step]; rewrite ?E). by eexists _, _. }
  assert (0 <= fr_len (slot_at r (rg_tail r)) < 2 ^ 32 /\
          zlen (fr_data (slot_at r (rg_tail r))) = PLC_IPC_MAX_FRAME_BYTES) as [Hl Hd].
  { rewrite List.Forall_forall in HF. apply HF, nth_In. pose proof (slot_index_lt (rg_tail r)). lia. }
  cbv zeta. destruct (fr_len (slot_at r (rg_tail r)) >? PLC_IPC_MAX_FRAME_BYTES) eqn:E2.
  { do 6 (rewrite cons_iter_S; cbn [cons_step]; rewrite ?E, ?E2). by eexists _, _. }
  set (n := Z.min (fr_len (slot_at r (rg_tail r))) cap).
  replace (7 + Z.to_nat n)%nat with (S (S (S (S (S (S (S (Z.to_nat n)))))))) by lia.
  do 5 (rewrite cons_iter_S; cbn [cons_step]; rewrite ?E, ?E2).
  assert ((if fr_len (slot_at r (rg_tail r)) <? cap then fr_len (slot_at r (rg_tail r)) else cap) = n) as ->
    by (subst n; split_ifs; lia).
  rewrite (cons_data_iter r cap (rg_tail r) (Z.to_nat n) 0 _ (fr_data out));
    [|done|simpl; lia|done|done|by rewrite take_0].
  simpl. eexists _, _. split; [done|]. destruct (Z.eqb_spec n 0) as [->|]; done.
Qed.

(** ** Properties *)

Lemma queue_published base r pub T : ring_inv base r pub T -> queue r = drop T pub.
Proof.
  intros (Hh & Ht & Hn & HL & HF & Hm & Hs). unfold queue. rewrite Hh, Ht, u32_cursor_diff by lia.
  rewrite Nat2Z.id. apply list_eq. intros i. rewrite lookup_drop.
  destruct (decide (i < length pub - T)%nat) as [Hi|Hi].
  - destruct (lookup_lt_is_Some_2 pub (T + i)%nat) as [m Hl]; [lia|]. rewrite Hl.
    rewrite list_lookup_fmap, lookup_seq_lt by done. simpl. f_equal.
    destruct (Hs (T + i)%nat m) as [<- _]; [lia|done|]. f_equal. unfold slot_at. f_equal.
    rewrite !slot_index_mod. unfold cursor. f_equal. mach.
  - rewrite !lookup_ge_None_2; [done|lia|rewrite length_map, length_seq; lia].
Qed.

(** [C8] No torn frame, under every interleaving and every crash.  Whatever
    the two processes have done, in whichever order of single memory accesses,
    with either of them dead between any two of them: the [i]-th frame a pop
    handed over is exactly the [i]-th frame published, cut to the caller's
    limit; at most four frames are outstanding; what the ring presents is the
    published frames not yet retired, so that a producer that died inside a
    frame is invisible; and a well-behaved producer never makes the consumer
    report a protocol error. *)
Theorem spsc_no_torn_frame (base : Z) (s : sys)
    (Hb : 0 <= base < 2 ^ 32) (Hs : rtc sys_step (sys_init base) s) :
  (forall i cap out, retired s !! i = Some (Some (cap, out)) ->
     exists m, published s !! i = Some m /\ msg_of out = clip cap m) /\
  (length (retired s) <= length (published s) <= length (retired s) + 4)%nat /\
  queue (sy_ring s) = drop (length (retired s)) (published s) /\
  (forall out tail, sy_cons s <> C_skip out tail).
Proof.
  destruct (conc_inv_reachable base s Hb Hs) as (Hr & Hp & Hc & Hok).
  split; [|split; [apply Hr|split; [by eapply queue_published|]]].
  - intros i cap out He. apply (Hok i _ He).
  - intros out tail E. by rewrite E in Hc.
Qed.

(** A run: the producer dies while it copies its second frame, then the
    consumer pops the first one. *)
Definition run_prod (s : sys) : sys :=
  s <| sy_ring := (prod_step (sy_ring s) (sy_prod s)).1 |>
    <| sy_prod := (prod_step (sy_ring s) (sy_prod s)).2 |>
    <| published := published s ++ publishes (sy_prod s) |>.
Definition run_cons (s : sys) : sys :=
  s <| sy_ring := (cons_step (sy_ring s) (sy_cons s)).1 |>
    <| sy_cons := (cons_step (sy_ring s) (sy_cons s)).2 |>
    <| retired := retired s ++ retires (sy_ring s) (sy_cons s) |>.

Definition crash_run : sys :=
  let s := sys_init 4294967295 in
  let s := Nat.iter 9 run_prod (s <| sy_prod := P_load_head (Msg 1 0 [7; 8]) |>) in
  let s := Nat.iter 6 run_prod (s <| sy_prod := P_load_head (Msg 2 0 [9; 9]) |>) in
  let s := s <| sy_prod := P_dead |> in
  Nat.iter 9 run_cons (s <| sy_cons := C_load_tail PLC_IPC_MAX_FRAME_BYTES frame_zero |>).

Lemma iter_run (f : sys -> sys) (Hf : forall s, sys_step s (f s)) n s s' :
  rtc sys_step s s' -> rtc sys_step s (Nat.iter n f s').
Proof.
  intros Hs. induction n as [|n IH]; [done|]. simpl.
  eapply rtc_r; [exact IH|apply Hf].
Qed.

Lemma crash_run_reachable : rtc sys_step (sys_init 4294967295) crash_run.
Proof.
  unfold crash_run. apply (iter_run run_cons step_cons). eapply rtc_r.
  2:{ eapply (step_pop _ _ frame_zero PLC_OK); [reflexivity|unfold PLC_IPC_MAX_FRAME_BYTES; lia]. }
  eapply rtc_r; [|apply step_prod_crash]. apply (iter_run run_prod step_prod). eapply rtc_r.
  2:{ eapply (step_push _ _ PLC_OK); [reflexivity|unfold message_ok; vm_compute; discriminate]. }
  apply (iter_run run_prod step_prod). eapply rtc_r; [apply rtc_refl|].
  eapply (step_push _ _ PLC_OK); [reflexivity|unfold message_ok; vm_compute; discriminate].
Qed.

Lemma spsc_no_torn_frame_witness :
  sy_prod crash_run = P_dead /\ length (retired crash_run) = 1%nat /\
  queue (sy_ring crash_run) = drop (length (retired crash_run)) (published crash_run).
Proof.
  split; [reflexivity|split; [reflexivity|]].
  apply (spsc_no_torn_frame 4294967295 crash_run); [lia|apply crash_run_reachable].
Defined.

(** The interleaved processes are the ring operations.  Run without
    interruption from the start of a call, the producer reaches exactly the
    ring and the status of [plc_spsc_push_flagged] and the consumer those of
    [plc_spsc_pop], on any ring whatever its cursors and length fields, in a
    number of accesses bounded by the payload length: neither call can spin. *)
Theorem spsc_calls_wait_free (r : plc_spsc_ring) (m : message) (out : plc_ipc_frame) (cap : Z)
    (Hr : ring_shape r) (Hm : zlen (m_payload m) <= PLC_IPC_MAX_FRAME_BYTES)
    (Hout : zlen (fr_data out) = PLC_IPC_MAX_FRAME_BYTES)
    (Hcap : 0 <= cap <= PLC_IPC_MAX_FRAME_BYTES) :
  (exists n st r', (n <= 7 + length (m_payload m))%nat /\
     prod_iter n (r, P_load_head m) = (r', P_done st) /\
     plc_spsc_push_flagged (Some r) (m_seq m) (m_flags m) (Some (m_payload m)) (zlen (m_payload m))
       = (st, Some r')) /\
  (exists n st r' out', (n <= 7 + Z.to_nat cap)%nat /\
     cons_iter n (r, C_load_tail cap out) = (r', C_done st out') /\
     plc_spsc_pop (Some r) (Some out) cap = (st, Some r', Some out')).
Proof.
  split.
  - pose proof (push_uninterrupted r m Hr Hm) as H.
    assert (push_steps r m <= 7 + length (m_payload m))%nat by (unfold push_steps; split_ifs; lia).
    destruct (prod_iter (push_steps r m) (r, P_load_head m)) as [r' p] eqn:E.
    destruct H as (st & -> & ->). by exists (push_steps r m), st, r'.
  - pose proof (pop_uninterrupted r out cap Hr Hout Hcap) as H.
    assert (pop_steps r cap <= 7 + Z.to_nat cap)%nat by (unfold pop_steps; split_ifs; lia).
    destruct (cons_iter (pop_steps r cap) (r, C_load_tail cap out)) as [r' c] eqn:E.
    destruct H as (st & out' & -> & ->). by exists (pop_steps r cap), st, r', out'.
Qed.

Lemma spsc_calls_wait_free_witness :
  (exists n st r', (n <= 7 + 2)%nat /\
     prod_iter n (ring_hostile, P_load_head (Msg 3 0 [1; 2])) = (r', P_done st) /\
     plc_spsc_push_flagged (Some ring_hostile) 3 0 (Some [1; 2]) 2 = (st, Some r')) /\
  (exists n st r' out', (n <= 7 + Z.to_nat 5)%nat /\
     cons_iter n (ring_hostile, C_load_tail 5 frame_zero) = (r', C_done st out') /\
     plc_spsc_pop (Some ring_hostile) (Some frame_zero) 5 = (st, Some r', Some out')).
Proof.
  apply (spsc_calls_wait_free ring_hostile (Msg 3 0 [1; 2]) frame_zero 5);
    [|vm_compute; discriminate|reflexivity|unfold PLC_IPC_MAX_FRAME_BYTES; lia].
  split; [simpl; lia|split; [simpl; lia|split; [reflexivity|]]]. repeat constructor; simpl; lia.
Defined.

(** ** Linearizability *)

(** The call a process is in. *)
Definition in_push (p : producer) : option message :=
  match p with
  | P_done _ | P_dead => None
  | P_load_head m | P_load_tail m _ | P_seq m _ | P_len m _ | P_flags m _ | P_data m _ _ | P_publish m _ => Some m
  end.
Definition in_pop (c : consumer) : option Z :=
  match c with
  | C_load_tail cap _ | C_load_head cap _ _ | C_seq cap _ _ | C_len cap _ _ _ | C_flags cap _ _ _ _
  | C_data cap _ _ _ | C_retire cap _ _ => Some cap
  | _ => None
  end.
Definition in_drain (c : consumer) : bool :=
  match c with C_drain _ | C_drain_store _ _ => true | _ => false end.

(** What a bounded queue of four frames does at one instant. *)
Definition push_at (q : list message) (m : message) : plc_status * list message :=
  if (length q <? 4)%nat then (PLC_OK, q ++ [m]) else (PLC_ERR_AGAIN, q).
Definition pop_at (q : list message) (cap : Z) : plc_status * option message * list message :=
  match q with [] => (PLC_ERR_AGAIN, None, []) | m :: rest => (PLC_OK, Some (clip cap m), rest) end.

Lemma queue_outstanding base r pub T : ring_inv base r pub T -> length (queue r) = (length pub - T)%nat.
Proof. intros Hr. rewrite (queue_published _ _ _ _ Hr). apply length_drop. Qed.

Lemma prod_step_queue base r pub T p :
  ring_inv base r pub T -> prod_inv base r pub T p ->
  queue (prod_step r p).1 = queue r ++ publishes p.
Proof.
  intros Hr Hp. destruct (prod_step_inv _ _ _ _ _ Hr Hp) as [Hr' _].
  rewrite (queue_published _ _ _ _ Hr'), (queue_published _ _ _ _ Hr). pose proof Hr as (_ & _ & Hn & _).
  by rewrite drop_app_le by lia.
Qed.

Lemma prod_step_returns base r pub T p m st :
  ring_inv base r pub T -> prod_inv base r pub T p -> in_push p = Some m -> (prod_step r p).2 = P_done st ->
  push_at (queue r) m = (st, queue (prod_step r p).1).
Proof.
  intros Hr Hp Hm Hst. rewrite (prod_step_queue _ _ _ _ _ Hr Hp). unfold push_at. rewrite (queue_outstanding _ _ _ _ Hr).
  pose proof Hr as (Hh & Ht & Hn & _).
  destruct p; simplify_eq/=; rewrite ?app_nil_r; try done.
  - destruct Hp as [_ ->]. rewrite Ht, u32_cursor_diff in Hst by lia.
    destruct (Z.geb_spec (Z.of_nat (length pub - T)) PLC_IPC_RING_SLOTS); [|done]. unfold PLC_IPC_RING_SLOTS in *.
    simplify_eq. by rewrite (proj2 (Nat.ltb_ge _ _)) by lia.
  - by destruct (m_payload m !! i).
  - destruct Hp as ((_ & _ & Hlt) & _). by rewrite (proj2 (Nat.ltb_lt _ _)) by lia.
Qed.

Lemma cons_step_queue base r pub ret p c :
  ring_inv base r pub (length ret) -> prod_inv base r pub (length ret) p -> cons_inv base pub (length ret) c ->
  (forall i e, ret !! i = Some e -> retired_ok pub i e) ->
  queue (cons_step r c).1 = drop (length (retires r c)) (queue r).
Proof.
  intros Hr Hp Hc Hok. destruct (cons_step_inv _ _ _ _ _ _ Hr Hp Hc Hok) as [Hr' _].
  rewrite (queue_published _ _ _ _ Hr'), (queue_published _ _ _ _ Hr), length_app, drop_drop. done.
Qed.

Lemma cons_step_returns base r pub ret p c cap st out :
  ring_inv base r pub (length ret) -> prod_inv base r pub (length ret) p -> cons_inv base pub (length ret) c ->
  (forall i e, ret !! i = Some e -> retired_ok pub i e) -> in_pop c = Some cap -> (cons_step r c).2 = C_done st out ->
  exists o, pop_at (queue r) cap = (st, o, queue (cons_step r c).1) /\ (forall m, o = Some m -> msg_of out = m).
Proof.
  intros Hr Hp Hc Hok Hcap Hst. rewrite (cons_step_queue _ _ _ _ _ _ Hr Hp Hc Hok). unfold pop_at.
  rewrite (queue_published _ _ _ _ Hr). pose proof Hr as (Hh & Ht & Hn & _).
  destruct c; simplify_eq/=; try done.
  - destruct Hc as (_ & _ & ->). destruct (Z.eqb_spec (u32 (cursor base (length ret))) (rg_head r)) as [E|E]; [|done].
    simplify_eq. rewrite Hh in E. assert (length pub = length ret) as El.
    { pose proof (u32_cursor_diff base (length pub) (length ret) ltac:(lia)) as Ed. rewrite E, Z.sub_diag in Ed. change (u32 0) with 0 in Ed. lia. }
    rewrite <- El, drop_all. by eexists.
  - by destruct (len >? _).
  - by destruct (_ <? _)%nat.
  - destruct Hc as (m & (_ & _ & _ & Hl) & Hmsg). rewrite (drop_S _ _ _ Hl). simpl. eexists. split; [done|]. by intros ? [= <-].
Qed.

(** A process whose every access finds the ring in whatever state the other left it. *)
Definition prod_run (rs : list plc_spsc_ring) (p : producer) : producer := foldl (fun p r => (prod_step r p).2) p rs.
Definition cons_run (rs : list plc_spsc_ring) (c : consumer) : consumer := foldl (fun c r => (cons_step r c).2) c rs.

(** An upper bound on the accesses a call still has to make. *)
Definition push_left (p : producer) : nat :=
  match p with
  | P_done _ | P_dead => 0
  | P_load_head m => 7 + length (m_payload m) | P_load_tail m _ => 6 + length (m_payload m)
  | P_seq m _ => 5 + length (m_payload m) | P_len m _ => 4 + length (m_payload m)
  | P_flags m _ => 3 + length (m_payload m) | P_data m _ i => 2 + (length (m_payload m) - i)
  | P_publish _ _ => 1
  end.
Definition pop_left (c : consumer) : nat :=
  match c with
  | C_load_tail cap _ => 7 + Z.to_nat cap | C_load_head cap _ _ => 6 + Z.to_nat cap
  | C_seq cap _ _ => 5 + Z.to_nat cap | C_len cap _ _ _ => 4 + Z.to_nat cap
  | C_flags cap _ _ _ _ => 3 + Z.to_nat cap | C_data _ out _ i => 2 + (Z.to_nat (fr_len out) - i)
  | C_drain _ => 2 | C_skip _ _ | C_retire _ _ _ | C_drain_store _ _ => 1
  | C_done _ _ | C_dead => 0
  end.

Lemma prod_run_returns rs : forall p,
  p <> P_dead -> (push_left p <= length rs)%nat -> exists st, prod_run rs p = P_done st.
Proof.
  induction rs as [|r rs IH]; intros p Hd Hl; [destruct p; simpl in Hl; try lia; [by eexists|done]|].
  simpl. apply IH.
  - destruct p; simpl; try done; [by destruct (_ >=? _)|by destruct (m_payload m !! i)].
  - destruct p as [| | | | | |m head i| |]; simpl in Hl |- *; try lia; [destruct (_ >=? _); simpl; lia|].
    destruct (m_payload m !! i) eqn:E; simpl; [apply lookup_lt_Some in E; lia|lia].
Qed.

Lemma cons_run_returns rs : forall c,
  c <> C_dead -> (pop_left c <= length rs)%nat -> exists st out, cons_run rs c = C_done st out.
Proof.
  induction rs as [|r rs IH]; intros c Hd Hl; [destruct c; simpl in Hl; try lia; [by eexists _, _|done]|].
  simpl. apply IH.
  - destruct c; simpl; try done; [by destruct (_ =? _)|by destruct (_ >? _)|by destruct (_ <? _)%nat].
  - destruct c as [| | | | |cap out tail sq len| |cap out tail i| | | |]; simpl in Hl |- *; try lia.
    + destruct (_ =? _); simpl; lia.
    + destruct (_ >? _); simpl; [lia|]. destruct (Z.ltb_spec len cap); lia.
    + destruct (Nat.ltb_spec i (Z.to_nat (fr_len out))); simpl; lia.
Qed.

(** The frames a drain that read [head] is about to remove. *)
Definition to_drain (r : plc_spsc_ring) (head : Z) : nat := Z.to_nat (u32 (head - rg_tail r)).

(** [C35] The ring is a linearizable, wait-free queue of four frames.  In every
    interleaving of single accesses, with crashes, each push and each pop takes
    effect at one instant, the access it returns by: there it gives exactly the
    status and the contents a queue gives that holds what the ring presents, so
    that a push reports a full ring only while four frames are waiting and a pop an
    empty one only while none is; a drain removes exactly the frames that were
    waiting when it read [head], by its last access; no other access of either
    process, and no crash, changes what the ring presents.  And a call returns within seven accesses of its own and one per payload byte,
    whatever the other process has made of the ring between any two of them. *)
Theorem spsc_linearizable (base : Z) (s s' : sys)
    (Hb : 0 <= base < 2 ^ 32) (Hs : rtc sys_step (sys_init base) s) (Hstep : sys_step s s') :
  (forall m st, in_push (sy_prod s) = Some m -> sy_prod s' = P_done st ->
     push_at (queue (sy_ring s)) m = (st, queue (sy_ring s'))) /\
  (forall cap st out, in_pop (sy_cons s) = Some cap -> sy_cons s' = C_done st out ->
     exists o, pop_at (queue (sy_ring s)) cap = (st, o, queue (sy_ring s')) /\ (forall m, o = Some m -> msg_of out = m)) /\
  (forall out head, sy_cons s = C_drain out -> sy_cons s' = C_drain_store out head ->
     length (queue (sy_ring s)) = to_drain (sy_ring s') head) /\
  (forall out head st out', sy_cons s = C_drain_store out head -> sy_cons s' = C_done st out' ->
     st = PLC_OK /\ queue (sy_ring s') = drop (to_drain (sy_ring s) head) (queue (sy_ring s))) /\
  ((in_push (sy_prod s) = None \/ forall st, sy_prod s' <> P_done st) ->
   ((in_pop (sy_cons s) = None /\ in_drain (sy_cons s) = false) \/ forall st out, sy_cons s' <> C_done st out) ->
   queue (sy_ring s') = queue (sy_ring s)) /\
  (forall m rs, (7 + length (m_payload m) <= length rs)%nat -> exists st, prod_run rs (P_load_head m) = P_done st) /\
  (forall cap out rs, (7 + Z.to_nat cap <= length rs)%nat -> exists st out', cons_run rs (C_load_tail cap out) = C_done st out').
Proof.
  destruct (conc_inv_reachable base s Hb Hs) as (Hr & Hp & Hc & Hok).
  assert (forall A B C D E F G : Prop, A /\ B /\ C /\ D /\ E -> F -> G -> A /\ B /\ C /\ D /\ E /\ F /\ G) as Hsplit by tauto.
  apply Hsplit; [|intros; by apply prod_run_returns|intros; by apply cons_run_returns]. clear Hsplit.
  assert (forall m st, in_push (sy_prod s) = Some m -> sy_prod s <> P_done st) as HP by (intros ?? H E; by rewrite E in H).
  assert (forall cap st out, in_pop (sy_cons s) = Some cap -> sy_cons s <> C_done st out) as HC by (intros ??? H E; by rewrite E in H).
  destruct Hstep as [s m st E Hm|s|s|s cap out st E Hcap|s out st E|s|s]; simpl in *;
    try (split_and!; [intros; exfalso; first [congruence|by eapply HP|by eapply HC]..|done]).
  - split_and!; [|intros; exfalso; first [congruence|by eapply HC]..|].
    + intros m st Hm Hst. by eapply prod_step_returns.
    + intros Hq _. rewrite (prod_step_queue _ _ _ _ _ Hr Hp).
      destruct (sy_prod s); simpl in *; rewrite ?app_nil_r; try done. destruct Hq as [|Hq]; [done|by destruct (Hq PLC_OK)].
  - split_and!; [intros; exfalso; by eapply HP|..].
    + intros cap st out Hcap Hst. by eapply cons_step_returns.
    + intros out head E Hst. rewrite E in *. simpl in *. simplify_eq. unfold to_drain.
      pose proof Hr as (-> & -> & Hn & _). rewrite u32_cursor_diff, (queue_outstanding _ _ _ _ Hr) by lia. lia.
    + intros out head st out' E Hst. rewrite (cons_step_queue _ _ _ _ _ _ Hr Hp Hc Hok).
      rewrite E in *. simpl in *. simplify_eq. by rewrite length_replicate.
    + intros _ Hq. rewrite (cons_step_queue _ _ _ _ _ _ Hr Hp Hc Hok).
      destruct (sy_cons s); simpl in *; try done; destruct Hq as [[? ?]|Hq]; try done; by edestruct Hq.
Qed.

(** The push that finds the ring full in the run above, at the access by which it returns. *)
Definition full_run : sys :=
  let push (n : Z) (s : sys) := Nat.iter 9 run_prod (s <| sy_prod := P_load_head (Msg n 0 [n; n]) |>) in
  let s := push 4 (push 3 (push 2 (push 1 (sys_init 4294967295)))) in
  run_prod (s <| sy_prod := P_load_head (Msg 5 0 [5; 5]) |>).

Lemma push_reachable s0 s n st :
  rtc sys_step s0 s -> sy_prod s = P_done st -> rtc sys_step s0 (s <| sy_prod := P_load_head (Msg n 0 [n; n]) |>).
Proof.
  intros Hs E. eapply rtc_r; [exact Hs|]. eapply step_push; [exact E|]. vm_compute. discriminate.
Qed.

Lemma full_run_reachable : rtc sys_step (sys_init 4294967295) full_run.
Proof.
  apply (iter_run run_prod step_prod 1). do 4 (eapply push_reachable; [apply (iter_run run_prod step_prod 9)|reflexivity]).
  eapply push_reachable; [apply rtc_refl|reflexivity].
Qed.

Lemma spsc_linearizable_witness :
  sy_prod (run_prod full_run) = P_done PLC_ERR_AGAIN /\
  push_at (queue (sy_ring full_run)) (Msg 5 0 [5; 5]) = (PLC_ERR_AGAIN, queue (sy_ring (run_prod full_run))).
Proof.
  split; [vm_compute; reflexivity|].
  destruct (spsc_linearizable 4294967295 full_run (run_prod full_run)) as (Hpush & _);
    [lia|apply full_run_reachable|apply step_prod|].
  apply Hpush; vm_compute; reflexivity.
Defined.

(** ** The drain is a consumer operation

    The service process is the producer of its reply ring, and drains that
    ring when a push finds it full ([src/adapters/eip/eip_adapter_main.c]). *)

Definition drain_run : sys :=
  let push (n : Z) (s : sys) := Nat.iter 9 run_prod (s <| sy_prod := P_load_head (Msg n 0 [n; n]) |>) in
  let s := push 4 (push 3 (push 2 (push 1 (sys_init 0)))) in
  (* the consumer has copied the first of the two bytes of the oldest frame *)
  let s := Nat.iter 6 run_cons (s <| sy_cons := C_load_tail PLC_IPC_MAX_FRAME_BYTES frame_zero |>) in
  (* the producer finds the ring full, drains it and goes on *)
  let s := Nat.iter 2 run_prod (s <| sy_prod := P_load_head (Msg 5 0 [5; 5]) |>) in
  let s := s <| sy_ring := default (sy_ring s) (plc_spsc_drain (Some (sy_ring s))) |> in
  Nat.iter 3 run_cons (push 6 s).

(** Drained by its producer, the ring tears frames: a pop under way when
    the producer drained the full ring and published one more frame returns
    [PLC_OK] with a payload that is half of the old frame and half of the new
    one, which nobody published, and its store of [tail] brings three drained
    frames back. *)
Theorem producer_drain_tears_frame :
  exists out, sy_cons drain_run = C_done PLC_OK out /\
    msg_of out = Msg 1 0 [1; 6] /\ ~ In (msg_of out) (published drain_run) /\
    map m_seq (queue (sy_ring drain_run)) = [2; 3; 4; 6].
Proof.
  eexists. split; [vm_compute; reflexivity|]. split; [vm_compute; reflexivity|].
  split; [|vm_compute; reflexivity].
  vm_compute. intros H. repeat destruct H as [H|H]; discriminate H || contradiction.
Qed.
