(* ===== verification/Adapter.v ===== *)
(** * The protocol adapter interface

    [src/core/protocol_adapter.c] and [include/softplc/protocol_adapter.h]:
    the configuration, capability and statistics structures, the clock and
    staleness helpers, the failsafe helper, the table of entry points and the
    argument-checking wrappers around it.

    The world outside a process (its clock, its shared memory, the peers that
    write there) is a type [W] of which the code only uses the operations the
    classes name; [Clock] is the monotonic clock.

    [AdapterLaws] is the contract the header asks of every adapter, stated
    once.  The loopback adapter and the EtherNet/IP proxies prove it for
    their tables; the scan engine's theorems are proved from it. *)

From Stdlib Require Import ZArith Lia.
From stdpp Require Import base list strings tactics.
From S2P Require Import Prelude PlcTypes.

(** ** The world

    [world_ok] is what holds of a world whatever the peers do to it: the
    memory other processes write still consists of bytes. *)

Class WorldInv (W : Type) : Type := world_ok : W -> Prop.

(** ** The monotonic clock *)

(** [clock_gettime(CLOCK_MONOTONIC, &ts)]: seconds and nanoseconds. *)
Class Clock (W : Type) : Type := clock_gettime : W -> (Z * Z) * W.

(** What POSIX says of it: it does not go backwards, and its nanosecond part
    is below one second.  A reading below [2 ^ 62] ns is less than 146 years
    after boot.  [clock_ns] is the time that has passed in a world. *)
Class ClockLaws (W : Type) `{Clock W, WorldInv W} : Type := {
  clock_ns : W -> Z;
  clock_world w : world_ok w -> world_ok (clock_gettime w).2;
  clock_reads w :
    let '((sec, nsec), w') := clock_gettime w in
    0 <= sec /\ 0 <= nsec < 1000000000 /\ sec * 1000000000 + nsec < 2 ^ 62 /\
    clock_ns w <= sec * 1000000000 + nsec <= clock_ns w'
}.

Definition plc_now_us {W} `{Clock W} (w : W) : Z * W :=
  let '((sec, nsec), w) := clock_gettime w in
  (u64 (u64 (sec * 1000000) + nsec / 1000), w).

(** A clock that advances by [step] nanoseconds at every reading. *)
Definition ticking : Type := Z * Z.
#[export] Instance ticking_world : WorldInv ticking := fun _ => True.
#[export] Instance ticking_clock : Clock ticking := fun '(now, step) =>
  let t := Z.max 0 (Z.min now (2 ^ 62 - 1)) in
  ((t / 1000000000, t mod 1000000000), (Z.max now (now + step), step)).

(** ** Data *)

Definition PLC_ADAPTER_ABI_VERSION : Z := 1.
Definition PLC_ADAPTER_NAME_MAX : Z := 32.
Definition PLC_ADAPTER_PROTOCOL_MAX : Z := 32.
Definition PLC_ADAPTER_CAP_OUT_OF_PROCESS : Z := 1.

Inductive plc_failsafe_policy : Type := PLC_FAILSAFE_HOLD | PLC_FAILSAFE_CLEAR.

Inductive plc_adapter_state : Type :=
| PLC_ADAPTER_CLOSED
| PLC_ADAPTER_OPENING
| PLC_ADAPTER_ONLINE
| PLC_ADAPTER_DEGRADED
| PLC_ADAPTER_FAULTED.

#[export] Instance plc_failsafe_policy_eq_dec : EqDecision plc_failsafe_policy.
Proof. solve_decision. Defined.
#[export] Instance plc_adapter_state_eq_dec : EqDecision plc_adapter_state.
Proof. solve_decision. Defined.

Record plc_adapter_caps : Type := Caps {
  cap_abi_version : Z;
  cap_name : string;
  cap_protocol : string;
  cap_input_bytes : Z;  (** field -> PLC *)
  cap_output_bytes : Z;  (** PLC -> field *)
  cap_failsafe_policy : plc_failsafe_policy;
  cap_exchange_timeout_us : Z;
  cap_failsafe_timeout_us : Z;
  cap_flags : Z;
  cap_point_override_capacity : Z  (** reserved, always 0 *)
}.
#[export] Instance eta_plc_adapter_caps : Eta plc_adapter_caps := fun r =>
  Caps (cap_abi_version r) (cap_name r) (cap_protocol r) (cap_input_bytes r)
    (cap_output_bytes r) (cap_failsafe_policy r) (cap_exchange_timeout_us r)
    (cap_failsafe_timeout_us r) (cap_flags r) (cap_point_override_capacity r).

Record plc_adapter_config : Type := Config {
  cfg_name : option string;
  cfg_endpoint : option string;
  cfg_input_bytes : Z;  (** 0 = the adapter's default *)
  cfg_output_bytes : Z;
  cfg_failsafe_policy : plc_failsafe_policy;
  cfg_exchange_timeout_us : Z;
  cfg_failsafe_timeout_us : Z
}.
#[export] Instance eta_plc_adapter_config : Eta plc_adapter_config := fun r =>
  Config (cfg_name r) (cfg_endpoint r) (cfg_input_bytes r) (cfg_output_bytes r)
    (cfg_failsafe_policy r) (cfg_exchange_timeout_us r) (cfg_failsafe_timeout_us r).

Record plc_adapter_stats : Type := Stats {
  sta_exchanges : Z;
  sta_timeouts : Z;
  sta_stale_for_us : Z;
  sta_failsafe_activations : Z;
  sta_data_invalid : Z;
  sta_protocol_errors : Z;
  sta_last_rtt_us : Z;
  sta_max_rtt_us : Z
}.
#[export] Instance eta_plc_adapter_stats : Eta plc_adapter_stats := fun r =>
  Stats (sta_exchanges r) (sta_timeouts r) (sta_stale_for_us r)
    (sta_failsafe_activations r) (sta_data_invalid r) (sta_protocol_errors r)
    (sta_last_rtt_us r) (sta_max_rtt_us r).

Definition caps_zero : plc_adapter_caps := Caps 0 "" "" 0 0 PLC_FAILSAFE_HOLD 0 0 0 0.
Definition stats_zero : plc_adapter_stats := Stats 0 0 0 0 0 0 0 0.

Definition plc_adapter_config_init (cfg : option plc_adapter_config) : option plc_adapter_config :=
  on_ptr (fun _ => Config None None 0 0 PLC_FAILSAFE_HOLD 0 0
                     <| cfg_failsafe_policy := PLC_FAILSAFE_HOLD |>) cfg.

(** [plc_adapter_state_name] takes the raw enumeration value. *)
Definition plc_adapter_state_code (s : plc_adapter_state) : Z :=
  match s with
  | PLC_ADAPTER_CLOSED => 0
  | PLC_ADAPTER_OPENING => 1
  | PLC_ADAPTER_ONLINE => 2
  | PLC_ADAPTER_DEGRADED => 3
  | PLC_ADAPTER_FAULTED => 4
  end.
Definition plc_adapter_state_name (s : Z) : string :=
  if s =? 0 then "CLOSED"
  else if s =? 1 then "OPENING"
  else if s =? 2 then "ONLINE"
  else if s =? 3 then "DEGRADED"
  else if s =? 4 then "FAULTED"
  else "?".

(** [snprintf(buf, n, "%s", s)]: the text the buffer then holds. *)
Definition snprintf_s (n : Z) (s : string) : string := String.substring 0 (Z.to_nat (n - 1)) s.

(** ** Staleness and failsafe *)

Record plc_staleness : Type := Staleness {
  stl_last_good_us : Z;
  stl_have_good : bool
}.
#[export] Instance eta_plc_staleness : Eta plc_staleness := fun r =>
  Staleness (stl_last_good_us r) (stl_have_good r).

Definition plc_staleness_mark_fresh {W} `{Clock W} (st : option plc_staleness) (w : W)
    : option plc_staleness * W :=
  match st with
  | None => (None, w)
  | Some st => let '(now, w) := plc_now_us w in
               (Some (st <| stl_last_good_us := now |> <| stl_have_good := true |>), w)
  end.

Definition plc_staleness_age_us {W} `{Clock W} (st : option plc_staleness) (opened_us : Z) (w : W)
    : Z * W :=
  match st with
  | None => (0, w)
  | Some st =>
      let from := if stl_have_good st then stl_last_good_us st else opened_us in
      let '(now, w) := plc_now_us w in
      ((if negb (from =? 0) && (now >? from) then now - from else 0), w)
  end.

(** [inb] is the caller's buffer of [len] bytes, [last_good] the adapter's. *)
Definition plc_adapter_apply_failsafe (policy : plc_failsafe_policy)
    (inb : option (list Z)) (last_good : option (list Z)) (len : Z) : option (list Z) :=
  match inb with
  | None => None
  | Some i =>
      if len =? 0 then Some i
      else match policy, last_good with
           | PLC_FAILSAFE_CLEAR, _ | _, None => Some (bwrite 0 (zeros len) i)
           | PLC_FAILSAFE_HOLD, Some g => Some (bwrite 0 (bslice 0 len g) i)
           end
  end.

(** ** Entry points

    An entry that is [NULL] is [None].  [exchange] returns [None] when it has
    not returned within the steps a model of it was given; every other entry
    is a total function. *)

Record plc_adapter_vtbl (W A : Type) : Type := Vtbl {
  vt_open : option (A -> plc_adapter_config -> W -> plc_status * A * W);
  vt_close : option (A -> W -> plc_status * A * W);
  vt_exchange : option (A -> option (list Z) -> Z -> option (list Z) -> Z -> W ->
                        option (plc_status * A * option (list Z) * W));
  vt_get_caps : option (A -> plc_adapter_caps -> plc_status * plc_adapter_caps);
  vt_get_stats : option (A -> plc_adapter_stats -> plc_status * plc_adapter_stats);
  vt_state : option (A -> plc_adapter_state)
}.
Arguments Vtbl {W A}.
Arguments vt_open {W A}.
Arguments vt_close {W A}.
Arguments vt_exchange {W A}.
Arguments vt_get_caps {W A}.
Arguments vt_get_stats {W A}.
Arguments vt_state {W A}.

Record plc_protocol_adapter (W A : Type) : Type := Adapter {
  ad_vtbl : option (plc_adapter_vtbl W A);
  ad_impl : A
}.
Arguments Adapter {W A}.
Arguments ad_vtbl {W A}.
Arguments ad_impl {W A}.

Section Wrappers.
Context {W A : Type}.
Implicit Types (a : option (plc_protocol_adapter W A)) (w : W).

(** The entry a wrapper is about to call, when [usable(a)] and it is set. *)
Definition usable a : bool :=
  match a with Some (Adapter (Some _) _) => true | _ => false end.
Definition entry {F} (sel : plc_adapter_vtbl W A -> option F) a : option (F * plc_protocol_adapter W A) :=
  match a with
  | Some (Adapter (Some v) i) =>
      match sel v with Some f => Some (f, Adapter (Some v) i) | None => None end
  | _ => None
  end.
Definition with_impl (o : plc_protocol_adapter W A) (i : A) : plc_protocol_adapter W A :=
  Adapter (ad_vtbl o) i.

Definition plc_adapter_open a (cfg : option plc_adapter_config) w
    : plc_status * option (plc_protocol_adapter W A) * W :=
  match entry vt_open a, cfg with
  | Some (f, o), Some cfg => let '(st, i, w) := f (ad_impl o) cfg w in (st, Some (with_impl o i), w)
  | _, _ => (PLC_ERR_INVAL, a, w)
  end.

Definition plc_adapter_close a w : plc_status * option (plc_protocol_adapter W A) * W :=
  match entry vt_close a with
  | Some (f, o) => let '(st, i, w) := f (ad_impl o) w in (st, Some (with_impl o i), w)
  | None => (PLC_ERR_INVAL, a, w)
  end.

Definition plc_adapter_exchange a (out : option (list Z)) (out_len : Z)
    (inb : option (list Z)) (in_len : Z) w
    : option (plc_status * option (plc_protocol_adapter W A) * option (list Z) * W) :=
  match entry vt_exchange a with
  | None => Some (PLC_ERR_INVAL, a, inb, w)
  | Some (f, o) =>
      if (negb (out_len =? 0) && bool_decide (out = None)) ||
         (negb (in_len =? 0) && bool_decide (inb = None))
      then Some (PLC_ERR_INVAL, a, inb, w)
      else match f (ad_impl o) out out_len inb in_len w with
           | None => None
           | Some (st, i, inb, w) => Some (st, Some (with_impl o i), inb, w)
           end
  end.

Definition plc_adapter_get_caps a (out : option plc_adapter_caps)
    : plc_status * option plc_adapter_caps :=
  match entry vt_get_caps a, out with
  | Some (f, o), Some out => let '(st, out) := f (ad_impl o) out in (st, Some out)
  | _, _ => (PLC_ERR_INVAL, out)
  end.

Definition plc_adapter_get_stats a (out : option plc_adapter_stats)
    : plc_status * option plc_adapter_stats :=
  match entry vt_get_stats a, out with
  | Some (f, o), Some out => let '(st, out) := f (ad_impl o) out in (st, Some out)
  | _, _ => (PLC_ERR_INVAL, out)
  end.

Definition plc_adapter_state_of a : plc_adapter_state :=
  match entry vt_state a with
  | Some (f, o) => f (ad_impl o)
  | None => PLC_ADAPTER_CLOSED
  end.
End Wrappers.

(** ** The contract *)

(** The image an adapter is to present when it has gone [age] without a fresh
    one: the last good image, except that CLEAR zeroes it once the window has
    passed. *)
Definition failsafe_image (policy : plc_failsafe_policy) (window age : Z) (held : list Z) (len : Z)
    : list Z :=
  match policy with
  | PLC_FAILSAFE_CLEAR => if window <=? age then zeros len else bslice 0 len held
  | PLC_FAILSAFE_HOLD => bslice 0 len held
  end.

Class AdapterLaws {W A : Type} `{WorldInv W} (v : plc_adapter_vtbl W A) : Type := {
  ad_inv : A -> Prop;  (** what open establishes and every call keeps *)
  ad_caps : A -> plc_adapter_caps;
  ad_state : A -> plc_adapter_state;
  ad_held : A -> list Z;  (** the last good image *)

  law_caps a out : exists f, vt_get_caps v = Some f /\ f a out = (PLC_OK, ad_caps a);
  law_state a : exists f, vt_state v = Some f /\ f a = ad_state a;

  (** A call it must refuse leaves the buffer alone.  Any other call keeps the
      invariant and the capabilities and leaves every byte of the input
      buffer defined: fresh, held, or cleared where the policy says so. *)
  law_exchange : exists f, vt_exchange v = Some f /\
    forall a out inb w st a' inb' w',
      ad_inv a -> world_ok w -> (out = None -> cap_output_bytes (ad_caps a) = 0) ->
      f a out (cap_output_bytes (ad_caps a)) (Some inb) (cap_input_bytes (ad_caps a)) w
        = Some (st, a', inb', w') ->
      zlen inb = cap_input_bytes (ad_caps a) -> bytes inb ->
      (forall l, out = Some l -> cap_output_bytes (ad_caps a) <= zlen l /\ bytes l) ->
      ad_inv a' /\ ad_caps a' = ad_caps a /\ world_ok w' /\
      exists i, inb' = Some i /\ zlen i = zlen inb /\ bytes i /\
        if bool_decide (ad_state a = PLC_ADAPTER_CLOSED)
        then st = PLC_ERR_STATE /\ ad_state a' = PLC_ADAPTER_CLOSED /\ ad_held a' = ad_held a /\ i = inb
        else ad_state a' <> PLC_ADAPTER_CLOSED /\
             (st = PLC_OK /\ (ad_state a' = PLC_ADAPTER_ONLINE \/ ad_state a' = PLC_ADAPTER_DEGRADED) /\
                 bslice 0 (zlen inb) (ad_held a') = i \/
              st <> PLC_OK /\ ad_held a' = ad_held a /\
              (i = bslice 0 (zlen inb) (ad_held a) \/
               cap_failsafe_policy (ad_caps a) = PLC_FAILSAFE_CLEAR /\ i = zeros (zlen inb)))
}.

(** An adapter whose exchange always returns. *)
Class AdapterReturns {W A : Type} (v : plc_adapter_vtbl W A) : Prop :=
  exchange_returns f a out out_len inb in_len w :
    vt_exchange v = Some f -> is_Some (f a out out_len inb in_len w).

(** ** Lemmas *)

Lemma ticking_laws_reads (w : ticking) :
  let '((sec, nsec), w') := clock_gettime w in
  0 <= sec /\ 0 <= nsec < 1000000000 /\ sec * 1000000000 + nsec < 2 ^ 62 /\
  Z.max 0 (Z.min w.1 (2 ^ 62 - 1)) <= sec * 1000000000 + nsec <= Z.max 0 (Z.min w'.1 (2 ^ 62 - 1)).
Proof. destruct w as [now step]. unfold clock_gettime, ticking_clock; simpl. mach. Qed.

#[export] Instance ticking_laws : ClockLaws ticking := {|
  clock_ns w := Z.max 0 (Z.min w.1 (2 ^ 62 - 1));
  clock_world _ _ := I;
  clock_reads := ticking_laws_reads
|}.

(** The clock in microseconds, as [plc_now_us] reads it. *)
Lemma now_us_world {W} `{ClockLaws W} w : world_ok w -> world_ok (plc_now_us w).2.
Proof.
  unfold plc_now_us. intros Hw%clock_world. by destruct (clock_gettime w) as [[s n] w'].
Qed.

Lemma now_us_reads {W} `{ClockLaws W} w :
  let '(t, w') := plc_now_us w in
  clock_ns w / 1000 <= t <= clock_ns w' / 1000 /\ 0 <= t < 2 ^ 62 /\ clock_ns w <= clock_ns w'.
Proof.
  unfold plc_now_us. pose proof (clock_reads w) as Hr. destruct (clock_gettime w) as [[s n] w'].
  destruct Hr as (Hs & Hn & Hb & Hm).
  replace (u64 (u64 (s * 1000000) + n / 1000)) with ((s * 1000000000 + n) / 1000).
  - split; [|split; [|lia]].
    + split; apply Z.div_le_mono; lia.
    + mach.
  - rewrite (u64_small (s * 1000000)) by mach.
    replace (s * 1000000000 + n) with ((s * 1000000) * 1000 + n) by lia.
    rewrite Z.div_add_l by lia. rewrite u64_small; [done|mach].
Qed.

Lemma age_world {W} `{ClockLaws W} st opened (w : W) : world_ok w -> world_ok (plc_staleness_age_us st opened w).2.
Proof.
  intros Hw. pose proof (now_us_world w Hw). unfold plc_staleness_age_us. destruct st; [|done].
  by destruct (plc_now_us w).
Qed.

Lemma apply_failsafe_image policy i g len :
  0 <= len -> len = zlen i -> len <= zlen g ->
  plc_adapter_apply_failsafe policy (Some i) (Some g) len
    = Some match policy with PLC_FAILSAFE_CLEAR => zeros len | PLC_FAILSAFE_HOLD => bslice 0 len g end.
Proof.
  intros H0 -> Hg. unfold plc_adapter_apply_failsafe.
  assert (forall src, zlen src = zlen i -> bwrite 0 src i = src) as Hw.
  { intros src Hs. unfold bwrite, zlen in *. simpl. rewrite drop_ge by lia. apply app_nil_r. }
  destruct (Z.eqb_spec (zlen i) 0) as [E|E].
  - assert (i = []) as -> by (destruct i; [done|unfold zlen in E; simpl in E; lia]).
    by destruct policy.
  - destruct policy; f_equal; apply Hw; [apply zlen_bslice; lia|by apply zlen_zeros].
Qed.

Lemma zlen_failsafe_image policy window age held len :
  0 <= len <= zlen held -> zlen (failsafe_image policy window age held len) = len.
Proof.
  intros. unfold failsafe_image. destruct policy; [apply zlen_bslice; lia|].
  split_if; [apply zlen_zeros; lia|apply zlen_bslice; lia].
Qed.

Arguments plc_adapter_apply_failsafe : simpl never.
Arguments plc_staleness_age_us : simpl never.
Arguments plc_staleness_mark_fresh : simpl never.
Arguments plc_now_us : simpl never.
Arguments failsafe_image : simpl never.
