(* ===== verification/Loopback.v ===== *)
(** * The loopback adapter

    [src/adapters/loopback/loopback_adapter.c], the in-process reference
    adapter: it mirrors outputs into inputs, and can be told to miss a number
    of exchanges.  It discharges the adapter contract, and the theorems give
    its exchange on every branch. *)

From Stdlib Require Import ZArith Lia.
From stdpp Require Import base list strings tactics.
From S2P Require Import Prelude PlcTypes Adapter.

Definition LOOPBACK_DEFAULT_BYTES : Z := 32.
Definition LOOPBACK_MAX_BYTES : Z := 512.

Record loopback_impl : Type := Loopback {
  lb_caps_ : plc_adapter_caps;
  lb_stats_ : plc_adapter_stats;
  lb_state_ : plc_adapter_state;
  lb_stale : plc_staleness;
  lb_opened_us : Z;
  lb_last_good : list Z;
  lb_mirror : list Z;
  lb_force_timeouts : Z  (** fault injection *)
}.
#[export] Instance eta_loopback_impl : Eta loopback_impl := fun r =>
  Loopback (lb_caps_ r) (lb_stats_ r) (lb_state_ r) (lb_stale r) (lb_opened_us r)
    (lb_last_good r) (lb_mirror r) (lb_force_timeouts r).

Section Loopback.
Context {W : Type} `{Clock W}.
Implicit Types (w : W) (impl : loopback_impl).

Definition lb_open (impl : loopback_impl) (cfg : plc_adapter_config) (w : W)
    : plc_status * loopback_impl * W :=
  if negb (bool_decide (lb_state_ impl = PLC_ADAPTER_CLOSED)) then (PLC_ERR_STATE, impl, w)
  else
    let inn := if cfg_input_bytes cfg =? 0 then LOOPBACK_DEFAULT_BYTES else cfg_input_bytes cfg in
    let out := if cfg_output_bytes cfg =? 0 then LOOPBACK_DEFAULT_BYTES else cfg_output_bytes cfg in
    if (inn >? LOOPBACK_MAX_BYTES) || (out >? LOOPBACK_MAX_BYTES) then (PLC_ERR_INVAL, impl, w)
    else
      let impl := impl <| lb_stats_ := stats_zero |>
                       <| lb_last_good := zeros LOOPBACK_MAX_BYTES |>
                       <| lb_mirror := zeros LOOPBACK_MAX_BYTES |> in
      let c := caps_zero
        <| cap_abi_version := PLC_ADAPTER_ABI_VERSION |>
        <| cap_name := snprintf_s PLC_ADAPTER_NAME_MAX (default "loop0" (cfg_name cfg)) |>
        <| cap_protocol := snprintf_s PLC_ADAPTER_PROTOCOL_MAX "loopback" |>
        <| cap_input_bytes := inn |>
        <| cap_output_bytes := out |>
        <| cap_failsafe_policy := cfg_failsafe_policy cfg |>
        <| cap_exchange_timeout_us :=
             if cfg_exchange_timeout_us cfg =? 0 then 1000 else cfg_exchange_timeout_us cfg |>
        <| cap_failsafe_timeout_us :=
             if cfg_failsafe_timeout_us cfg =? 0 then 30000 else cfg_failsafe_timeout_us cfg |>
        <| cap_flags := 0 |>
        <| cap_point_override_capacity := 0 |> in
      let '(now, w) := plc_now_us w in
      (PLC_OK, impl <| lb_caps_ := c |> <| lb_opened_us := now |> <| lb_stale := Staleness 0 false |>
                    <| lb_state_ := PLC_ADAPTER_ONLINE |>, w).

Definition lb_close (impl : loopback_impl) (w : W) : plc_status * loopback_impl * W :=
  (PLC_OK, impl <| lb_state_ := PLC_ADAPTER_CLOSED |>, w).

(** The branch taken while timeouts are injected. *)
Definition lb_timeout (impl : loopback_impl) (inb : option (list Z)) (in_len : Z) (w : W)
    : plc_status * loopback_impl * option (list Z) * W :=
  let impl := impl <| lb_force_timeouts := lb_force_timeouts impl - 1 |> in
  let impl := impl <| lb_stats_ := lb_stats_ impl
                        <| sta_timeouts := u64 (sta_timeouts (lb_stats_ impl) + 1) |> |> in
  let '(age, w) := plc_staleness_age_us (Some (lb_stale impl)) (lb_opened_us impl) w in
  let impl := impl <| lb_stats_ := lb_stats_ impl <| sta_stale_for_us := age |> |> in
  if age >=? cap_failsafe_timeout_us (lb_caps_ impl) then
    let impl :=
      if bool_decide (lb_state_ impl = PLC_ADAPTER_FAULTED) then impl
      else impl <| lb_state_ := PLC_ADAPTER_FAULTED |>
                <| lb_stats_ := lb_stats_ impl <| sta_failsafe_activations :=
                     u64 (sta_failsafe_activations (lb_stats_ impl) + 1) |> |> in
    (PLC_ERR_TIMEOUT, impl,
     plc_adapter_apply_failsafe (cap_failsafe_policy (lb_caps_ impl)) inb (Some (lb_last_good impl)) in_len, w)
  else
    let impl := impl <| lb_state_ := PLC_ADAPTER_DEGRADED |> in
    (PLC_ERR_TIMEOUT, impl,
     plc_adapter_apply_failsafe PLC_FAILSAFE_HOLD inb (Some (lb_last_good impl)) in_len, w).

Definition lb_exchange (impl : loopback_impl) (out : option (list Z)) (out_len : Z)
    (inb : option (list Z)) (in_len : Z) (w : W)
    : option (plc_status * loopback_impl * option (list Z) * W) :=
  if bool_decide (lb_state_ impl = PLC_ADAPTER_CLOSED) then Some (PLC_ERR_STATE, impl, inb, w)
  else if (out_len >? cap_output_bytes (lb_caps_ impl)) || (in_len >? cap_input_bytes (lb_caps_ impl))
  then Some (PLC_ERR_INVAL, impl, inb, w)
  else if negb (lb_force_timeouts impl =? 0) then Some (lb_timeout impl inb in_len w)
  else
    let impl := match out with
                | Some o => if out_len =? 0 then impl
                            else impl <| lb_mirror := bwrite 0 (take (Z.to_nat out_len) o) (lb_mirror impl) |>
                | None => impl
                end in
    let '(impl, inb) :=
      match inb with
      | Some i => if in_len =? 0 then (impl, inb)
                  else let i := bwrite 0 (bslice 0 in_len (lb_mirror impl)) i in
                       (impl <| lb_last_good := bwrite 0 (bslice 0 in_len i) (lb_last_good impl) |>, Some i)
      | None => (impl, inb)
      end in
    let impl := impl <| lb_stats_ := lb_stats_ impl
                          <| sta_exchanges := u64 (sta_exchanges (lb_stats_ impl) + 1) |> |> in
    let '(stale, w) := plc_staleness_mark_fresh (Some (lb_stale impl)) w in
    let impl := impl <| lb_stale := default (lb_stale impl) stale |> in
    let impl := impl <| lb_stats_ := lb_stats_ impl <| sta_stale_for_us := 0 |> |> in
    Some (PLC_OK, impl <| lb_state_ := PLC_ADAPTER_ONLINE |>, inb, w).

Definition lb_caps (impl : loopback_impl) (out : plc_adapter_caps) : plc_status * plc_adapter_caps :=
  (PLC_OK, lb_caps_ impl).
Definition lb_stats (impl : loopback_impl) (out : plc_adapter_stats) : plc_status * plc_adapter_stats :=
  (PLC_OK, lb_stats_ impl).
Definition lb_state (impl : loopback_impl) : plc_adapter_state := lb_state_ impl.

Definition kLoopbackVtbl : plc_adapter_vtbl W loopback_impl :=
  Vtbl (Some lb_open) (Some lb_close) (Some lb_exchange) (Some lb_caps) (Some lb_stats) (Some lb_state).
End Loopback.

(** The object [calloc] gives [lb_create]. *)
Definition loopback_zero : loopback_impl :=
  Loopback caps_zero stats_zero PLC_ADAPTER_CLOSED (Staleness 0 false) 0
           (zeros LOOPBACK_MAX_BYTES) (zeros LOOPBACK_MAX_BYTES) 0.

(** [calloc_a] and [calloc_impl]: whether the two allocations succeed. *)
Definition lb_create {W} `{Clock W} (calloc_a calloc_impl : bool)
    : option (plc_protocol_adapter W loopback_impl) :=
  if negb calloc_a || negb calloc_impl then None
  else Some (Adapter (Some kLoopbackVtbl) (loopback_zero <| lb_state_ := PLC_ADAPTER_CLOSED |>)).

(** What is left of the world: the adapter is closed, its memory freed. *)
Definition lb_destroy {W} (a : option (plc_protocol_adapter W loopback_impl)) (w : W) : W :=
  match a with
  | None => w
  | Some a => (lb_close (ad_impl a) w).2
  end.

Definition plc_loopback_force_timeouts {W} (a : option (plc_protocol_adapter W loopback_impl)) (n : Z)
    : option (plc_protocol_adapter W loopback_impl) :=
  on_ptr (fun a => Adapter (ad_vtbl a) (ad_impl a <| lb_force_timeouts := n |>)) a.

(** ** Invariant *)

Definition lb_inv (impl : loopback_impl) : Prop :=
  0 <= cap_input_bytes (lb_caps_ impl) <= LOOPBACK_MAX_BYTES /\
  0 <= cap_output_bytes (lb_caps_ impl) <= LOOPBACK_MAX_BYTES /\
  zlen (lb_last_good impl) = LOOPBACK_MAX_BYTES /\ zlen (lb_mirror impl) = LOOPBACK_MAX_BYTES /\
  bytes (lb_last_good impl) /\ bytes (lb_mirror impl).

(** ** Lemmas *)

Lemma bwrite_whole src i : zlen src = zlen i -> bwrite 0 src i = src.
Proof. unfold bwrite, zlen. simpl. intros. rewrite drop_ge by lia. apply app_nil_r. Qed.

Lemma bslice_bwrite_prefix src l : zlen src <= zlen l -> bslice 0 (zlen src) (bwrite 0 src l) = src.
Proof. intros. apply bslice_bwrite_same; lia. Qed.

Lemma zlen_take_le {T} n (l : list T) : 0 <= n <= zlen l -> zlen (take (Z.to_nat n) l) = n.
Proof. unfold zlen. intros. rewrite length_take. lia. Qed.

Section Laws.
Context {W : Type} `{ClockLaws W}.

(** The two branches of an exchange, once its guards have passed. *)
Lemma lb_timeout_spec impl i in_len w st impl' inb' (w' : W) :
  lb_inv impl -> in_len = zlen i -> in_len <= cap_input_bytes (lb_caps_ impl) ->
  lb_timeout impl (Some i) in_len w = (st, impl', inb', w') ->
  st = PLC_ERR_TIMEOUT /\ lb_inv impl' /\ lb_caps_ impl' = lb_caps_ impl /\
  lb_last_good impl' = lb_last_good impl /\
  let age := (plc_staleness_age_us (Some (lb_stale impl)) (lb_opened_us impl) w).1 in
  let caps := lb_caps_ impl in
  inb' = Some (failsafe_image (cap_failsafe_policy caps) (cap_failsafe_timeout_us caps) age
                 (lb_last_good impl) in_len) /\
  lb_state_ impl' = (if cap_failsafe_timeout_us caps <=? age then PLC_ADAPTER_FAULTED else PLC_ADAPTER_DEGRADED) /\
  sta_failsafe_activations (lb_stats_ impl')
    = (if (cap_failsafe_timeout_us caps <=? age) && negb (bool_decide (lb_state_ impl = PLC_ADAPTER_FAULTED))
       then u64 (sta_failsafe_activations (lb_stats_ impl) + 1)
       else sta_failsafe_activations (lb_stats_ impl)) /\
  lb_force_timeouts impl' = lb_force_timeouts impl - 1.
Proof.
  intros (Hi & Ho & Hg & Hm & Hbg & Hbm) Hlen Hle. unfold lb_timeout. cbv zeta. simpl lb_stale; simpl lb_opened_us.
  destruct (plc_staleness_age_us (Some (lb_stale impl)) (lb_opened_us impl) w) as [age w1].
  pose proof (zlen_nonneg i). simpl. rewrite Z.geb_leb. unfold failsafe_image.
  destruct (cap_failsafe_timeout_us (lb_caps_ impl) <=? age) eqn:E; simpl;
    [destruct (bool_decide (lb_state_ impl = PLC_ADAPTER_FAULTED)) eqn:Ef; simpl|];
    rewrite apply_failsafe_image by (unfold LOOPBACK_MAX_BYTES in *; lia); intros [= <- <- <- <-];
    (do 4 (split; [done|])); (split; [by destruct (cap_failsafe_policy (lb_caps_ impl))|]); simpl;
    (split; [try done; by apply bool_decide_eq_true in Ef|]); done.
Qed.

Lemma lb_timeout_world impl inb in_len w st impl' inb' (w' : W) :
  world_ok w -> lb_timeout impl inb in_len w = (st, impl', inb', w') -> world_ok w'.
Proof.
  intros Hw. unfold lb_timeout. cbv zeta. simpl.
  pose proof (age_world (Some (lb_stale impl)) (lb_opened_us impl) w Hw) as Ha.
  destruct (plc_staleness_age_us _ _ w) as [age w1]. simpl in *. split_ifs; by intros [= <- <- <- <-].
Qed.

(** The mirror after an exchange of [out]. *)
Definition mirrored (impl : loopback_impl) (out : option (list Z)) (out_len : Z) : list Z :=
  match out with
  | Some o => if out_len =? 0 then lb_mirror impl
              else bwrite 0 (take (Z.to_nat out_len) o) (lb_mirror impl)
  | None => lb_mirror impl
  end.

Lemma mirrored_ok impl out out_len :
  lb_inv impl -> 0 <= out_len <= cap_output_bytes (lb_caps_ impl) ->
  (forall l, out = Some l -> out_len <= zlen l /\ bytes l) ->
  zlen (mirrored impl out out_len) = LOOPBACK_MAX_BYTES /\ bytes (mirrored impl out out_len).
Proof.
  intros (Hi & Ho & Hg & Hm & Hbg & Hbm) Hl Hz. unfold mirrored. destruct out as [o|]; [|done].
  destruct (Hz o eq_refl) as [Hzo Hbo]. split_if; [done|].
  split; [rewrite zlen_bwrite; rewrite ?zlen_take_le; lia|]. apply bytes_bwrite; [by apply Forall_take|done].
Qed.

Lemma lb_exchange_fresh impl out out_len i (w : W) :
  lb_inv impl -> lb_state_ impl <> PLC_ADAPTER_CLOSED -> lb_force_timeouts impl = 0 ->
  0 <= out_len <= cap_output_bytes (lb_caps_ impl) -> zlen i <= cap_input_bytes (lb_caps_ impl) ->
  (forall l, out = Some l -> out_len <= zlen l /\ bytes l) -> world_ok w ->
  exists impl' w',
    let image := bslice 0 (zlen i) (mirrored impl out out_len) in
    lb_exchange impl out out_len (Some i) (zlen i) w = Some (PLC_OK, impl', Some image, w') /\
    lb_inv impl' /\ lb_caps_ impl' = lb_caps_ impl /\ lb_state_ impl' = PLC_ADAPTER_ONLINE /\
    lb_mirror impl' = mirrored impl out out_len /\ bslice 0 (zlen i) (lb_last_good impl') = image /\
    lb_force_timeouts impl' = 0 /\ stl_have_good (lb_stale impl') = true /\ world_ok w'.
Proof.
  intros Hinv Hst Hf Hol Hil Hz Hw. apply now_us_world in Hw. pose proof Hinv as (Hi & Ho & Hg & Hm & Hbg & Hbm).
  destruct (mirrored_ok impl out out_len Hinv Hol Hz) as [HM HB]. pose proof (zlen_nonneg i).
  assert (zlen (bslice 0 (zlen i) (mirrored impl out out_len)) = zlen i) as HI
    by (apply zlen_bslice; unfold LOOPBACK_MAX_BYTES in *; lia).
  unfold lb_exchange. rewrite bool_decide_eq_false_2 by done. rewrite Hf.
  destruct (Z.gtb_spec out_len (cap_output_bytes (lb_caps_ impl))); [lia|].
  destruct (Z.gtb_spec (zlen i) (cap_input_bytes (lb_caps_ impl))); [lia|]. simpl.
  set (impl1 := match out with Some _ => _ | None => _ end).
  assert (impl1 = impl <| lb_mirror := mirrored impl out out_len |>) as ->.
  { subst impl1. unfold mirrored. destruct impl, out; simpl; [|done]. by destruct (out_len =? 0). }
  simpl. destruct (Z.eqb_spec (zlen i) 0) as [E|E]; simpl;
    (destruct (plc_staleness_mark_fresh _ w) as [stale w'] eqn:Es); cbn zeta;
    unfold plc_staleness_mark_fresh in Es; destruct (plc_now_us w) as [now w1]; injection Es as <- <-;
    simpl; eexists _, _.
  - assert (i = []) as -> by (destruct i; [done|unfold zlen in E; simpl in E; lia]).
    done.
  - rewrite (bwrite_whole (bslice 0 (zlen i) (mirrored impl out out_len)) i HI).
    assert (bslice 0 (zlen i) (bslice 0 (zlen i) (mirrored impl out out_len))
            = bslice 0 (zlen i) (mirrored impl out out_len)) as ->
      by (apply bslice_bslice; lia).
    split; [done|]. split; [|do 3 (split; [done|])]; simpl.
    + do 2 (split; [done|]). split; [|split; [done|split; [|done]]]; simpl;
        [|by apply bytes_bwrite; [apply bytes_bslice|]]. rewrite zlen_bwrite; unfold LOOPBACK_MAX_BYTES in *; lia.
    + split; [|done]. rewrite <- HI at 1. apply bslice_bwrite_prefix. unfold LOOPBACK_MAX_BYTES in *; lia.
Qed.

Lemma lb_exchange_law impl out inb w st impl' inb' (w' : W) :
  lb_inv impl -> world_ok w ->
  lb_exchange impl out (cap_output_bytes (lb_caps_ impl)) (Some inb) (cap_input_bytes (lb_caps_ impl)) w
    = Some (st, impl', inb', w') ->
  zlen inb = cap_input_bytes (lb_caps_ impl) -> bytes inb ->
  (forall l, out = Some l -> cap_output_bytes (lb_caps_ impl) <= zlen l /\ bytes l) ->
  lb_inv impl' /\ lb_caps_ impl' = lb_caps_ impl /\ world_ok w' /\
  exists i, inb' = Some i /\ zlen i = zlen inb /\ bytes i /\
    if bool_decide (lb_state_ impl = PLC_ADAPTER_CLOSED)
    then st = PLC_ERR_STATE /\ lb_state_ impl' = PLC_ADAPTER_CLOSED /\ lb_last_good impl' = lb_last_good impl /\
         i = inb
    else lb_state_ impl' <> PLC_ADAPTER_CLOSED /\
         (st = PLC_OK /\ (lb_state_ impl' = PLC_ADAPTER_ONLINE \/ lb_state_ impl' = PLC_ADAPTER_DEGRADED) /\
             bslice 0 (zlen inb) (lb_last_good impl') = i \/
          st <> PLC_OK /\ lb_last_good impl' = lb_last_good impl /\
          (i = bslice 0 (zlen inb) (lb_last_good impl) \/
           cap_failsafe_policy (lb_caps_ impl) = PLC_FAILSAFE_CLEAR /\ i = zeros (zlen inb))).
Proof.
  intros Hinv Hw Hx Hlen Hbi Hz. pose proof Hinv as (Hi & Ho & Hg & Hm & Hbg & Hbm). rewrite <- Hlen in Hx.
  destruct (decide (lb_state_ impl = PLC_ADAPTER_CLOSED)) as [Hc|Hc].
  { unfold lb_exchange in Hx. rewrite bool_decide_eq_true_2 in * by done.
    injection Hx as <- <- <- <-. split; [done|split; [done|split; [done|]]]. by exists inb. }
  rewrite (bool_decide_eq_false_2 (lb_state_ impl = PLC_ADAPTER_CLOSED)) by done.
  destruct (decide (lb_force_timeouts impl = 0)) as [Hf|Hf].
  - destruct (lb_exchange_fresh impl out (cap_output_bytes (lb_caps_ impl)) inb w)
      as (impl1 & w1 & Hx' & Hinv' & Hcap & Hst & _ & Hlg & _ & _ & Hw'); [done|done|done|lia|lia|done|done|].
    rewrite Hx' in Hx. injection Hx as <- <- <- <-. split; [done|split; [done|split; [done|]]].
    destruct (mirrored_ok impl out (cap_output_bytes (lb_caps_ impl))) as [HM HB]; [done|lia|done|].
    eexists. split; [done|]. split; [apply zlen_bslice; unfold LOOPBACK_MAX_BYTES in *; lia|].
    split; [by apply bytes_bslice|].
    rewrite Hst. split; [done|]. left. auto.
  - unfold lb_exchange in Hx. rewrite bool_decide_eq_false_2 in Hx by done.
    destruct (Z.gtb_spec (cap_output_bytes (lb_caps_ impl)) (cap_output_bytes (lb_caps_ impl))); [lia|].
    destruct (Z.gtb_spec (zlen inb) (cap_input_bytes (lb_caps_ impl))); [lia|]. simpl in Hx.
    rewrite (proj2 (Z.eqb_neq _ _) Hf) in Hx. simpl in Hx. injection Hx as Hx.
    destruct (lb_timeout_spec impl inb (zlen inb) w st impl' inb' w') as (-> & Hinv' & Hcap & Hlg & -> & Hst & _);
      [done|done|lia|done|].
    split; [done|split; [done|split; [by eapply lb_timeout_world|]]]. eexists. split; [done|].
    split; [apply zlen_failsafe_image; unfold LOOPBACK_MAX_BYTES in *; lia|].
    split; [unfold failsafe_image; destruct (cap_failsafe_policy (lb_caps_ impl)); try split_if; auto with plc|].
    split; [rewrite Hst; by split_if|]. right. split; [done|split; [done|]]. unfold failsafe_image.
    destruct (cap_failsafe_policy (lb_caps_ impl)); [by left|]. split_if; [by right|by left].
Qed.

(** The loopback table fulfils the contract, and its exchange always returns. *)
#[export] Instance loopback_laws : AdapterLaws (W := W) kLoopbackVtbl.
Proof.
  refine {| ad_inv := lb_inv; ad_caps := lb_caps_; ad_state := lb_state_; ad_held := lb_last_good |}.
  - intros. by exists lb_caps.
  - intros. by exists lb_state.
  - exists lb_exchange. split; [done|]. intros a out inb w st a' inb' w' Hinv Hw _.
    by apply lb_exchange_law.
Defined.

#[export] Instance loopback_returns : AdapterReturns (W := W) kLoopbackVtbl.
Proof.
  intros f impl out out_len inb in_len w [= <-]. unfold lb_exchange.
  repeat split_if; try (by eexists); destruct out, inb; simpl; try destruct (out_len =? 0);
    try destruct (in_len =? 0); simpl; repeat match goal with
      |- context [plc_staleness_mark_fresh ?s ?w] => destruct (plc_staleness_mark_fresh s w) end; by eexists.
Qed.

Lemma lb_open_inv impl cfg w impl' (w' : W) :
  0 <= cfg_input_bytes cfg < 2 ^ 32 -> 0 <= cfg_output_bytes cfg < 2 ^ 32 ->
  lb_open impl cfg w = (PLC_OK, impl', w') ->
  lb_inv impl' /\ lb_state_ impl' = PLC_ADAPTER_ONLINE.
Proof.
  intros Hi Ho Hx. unfold lb_open in Hx. split_if; [done|]. cbv zeta in Hx.
  match type of Hx with context [if ?b then _ else _] => destruct b eqn:E end; [done|].
  destruct (plc_now_us w) as [now w1]. injection Hx as <- <-. split; [|done].
  apply orb_false_iff in E as [E1 E2]. unfold LOOPBACK_MAX_BYTES, LOOPBACK_DEFAULT_BYTES in *.
  split; [|split; [|split; [done|split; [done|split; apply bytes_zeros]]]];
    simpl; split_ifs; unfold LOOPBACK_MAX_BYTES; lia.
Qed.
End Laws.

(** ** Properties *)

(** The adapter the application opens by default. *)
Definition loopback_example : loopback_impl :=
  (lb_open loopback_zero (Config (Some "loop0") None 4 4 PLC_FAILSAFE_CLEAR 0 5) (1000000, 1000) : plc_status * loopback_impl * ticking).1.2.

Lemma loopback_example_inv : lb_inv loopback_example.
Proof.
  apply (lb_open_inv loopback_zero (Config (Some "loop0") None 4 4 PLC_FAILSAFE_CLEAR 0 5)
           (1000000, 1000) _ (1001000, 1000)); [simpl; lia|simpl; lia|reflexivity].
Qed.

(** The same with one miss injected and an image to hold. *)
Definition loopback_missing : loopback_impl :=
  loopback_example <| lb_force_timeouts := 1 |>
                   <| lb_last_good := bwrite 0 [9; 8; 7; 6] (zeros LOOPBACK_MAX_BYTES) |>.

Lemma loopback_missing_inv : lb_inv loopback_missing.
Proof.
  destruct loopback_example_inv as (Hi & Ho & Hg & Hm & Hbg & Hbm).
  split; [done|split; [done|split; [reflexivity|split; [done|split; [|done]]]]].
  apply bytes_bwrite; [repeat constructor; vm_compute; congruence|apply bytes_zeros].
Qed.

(** [C27] A missed exchange applies one failsafe rule.  With an exchange
    missed, the loopback adapter returns [PLC_ERR_TIMEOUT], keeps its last good
    image, and presents exactly the rule's image for the age of that image:
    held inside the window whatever the policy, zeroed after it under CLEAR
    only.  It is DEGRADED inside the window and FAULTED after it, and a
    failsafe activation is counted exactly on the transition into FAULTED. *)
Theorem loopback_failsafe_rule {W : Type} `{Clock W} (impl : loopback_impl) (out : option (list Z))
    (out_len : Z) (i : list Z) (w : W)
    (Hinv : lb_inv impl) (Hopen : lb_state_ impl <> PLC_ADAPTER_CLOSED)
    (Hmiss : 0 < lb_force_timeouts impl)
    (Hout : 0 <= out_len <= cap_output_bytes (lb_caps_ impl))
    (Hin : zlen i <= cap_input_bytes (lb_caps_ impl)) :
  let caps := lb_caps_ impl in
  let age := (plc_staleness_age_us (Some (lb_stale impl)) (lb_opened_us impl) w).1 in
  let expired := cap_failsafe_timeout_us caps <=? age in
  exists impl' w',
    lb_exchange impl out out_len (Some i) (zlen i) w
      = Some (PLC_ERR_TIMEOUT, impl',
              Some (failsafe_image (cap_failsafe_policy caps) (cap_failsafe_timeout_us caps) age
                      (lb_last_good impl) (zlen i)), w') /\
    lb_inv impl' /\ lb_last_good impl' = lb_last_good impl /\
    lb_state_ impl' = (if expired then PLC_ADAPTER_FAULTED else PLC_ADAPTER_DEGRADED) /\
    sta_failsafe_activations (lb_stats_ impl')
      = (if expired && negb (bool_decide (lb_state_ impl = PLC_ADAPTER_FAULTED))
         then u64 (sta_failsafe_activations (lb_stats_ impl) + 1)
         else sta_failsafe_activations (lb_stats_ impl)) /\
    lb_force_timeouts impl' = lb_force_timeouts impl - 1.
Proof.
  intros caps age expired. pose proof Hinv as (Hi & Ho & Hg & Hm & Hbg & Hbm).
  unfold lb_exchange. rewrite bool_decide_eq_false_2 by done.
  destruct (Z.gtb_spec out_len (cap_output_bytes (lb_caps_ impl))); [lia|].
  destruct (Z.gtb_spec (zlen i) (cap_input_bytes (lb_caps_ impl))); [lia|]. simpl.
  destruct (Z.eqb_spec (lb_force_timeouts impl) 0); [lia|]. simpl.
  destruct (lb_timeout impl (Some i) (zlen i) w) as [[[st impl'] inb'] w'] eqn:E.
  destruct (lb_timeout_spec impl i (zlen i) w st impl' inb' w') as (-> & Hinv' & _ & Hlg & -> & ?); [done..|].
  by exists impl', w'.
Qed.

Lemma loopback_failsafe_rule_witness :
  exists impl' w',
    lb_exchange loopback_missing (Some [1; 2; 3; 4]) 4 (Some [0; 0; 0; 0]) 4 (2000000, 1000)
      = Some (PLC_ERR_TIMEOUT, impl', Some [0; 0; 0; 0], w') /\
    lb_state_ impl' = PLC_ADAPTER_FAULTED.
Proof.
  destruct (loopback_failsafe_rule loopback_missing (Some [1; 2; 3; 4]) 4 [0; 0; 0; 0] (2000000, 1000))
    as (impl' & w' & Hx & _ & _ & Hs & _);
    [exact loopback_missing_inv|vm_compute; congruence|vm_compute; congruence
    |vm_compute; split; congruence|vm_compute; congruence|].
  exists impl', w'. split; [exact Hx|exact Hs].
Defined.

(** Mirroring.  An exchange that is not missed returns [PLC_OK] with the
    adapter ONLINE, and the inputs are the first bytes of the outputs, the
    older mirror contents after them; what it handed over is what a later miss
    holds. *)
Theorem loopback_mirrors {W : Type} `{ClockLaws W} (impl : loopback_impl) (out i : list Z) (w : W)
    (Hinv : lb_inv impl) (Hopen : lb_state_ impl <> PLC_ADAPTER_CLOSED)
    (Hok : lb_force_timeouts impl = 0) (Hw : world_ok w) (Hb : bytes out)
    (Hout : zlen out <= cap_output_bytes (lb_caps_ impl))
    (Hin : zlen i <= cap_input_bytes (lb_caps_ impl)) :
  exists impl' w',
    let image := bslice 0 (zlen i) (bwrite 0 out (lb_mirror impl)) in
    lb_exchange impl (Some out) (zlen out) (Some i) (zlen i) w = Some (PLC_OK, impl', Some image, w') /\
    lb_inv impl' /\ lb_state_ impl' = PLC_ADAPTER_ONLINE /\
    bslice 0 (zlen i) (lb_last_good impl') = image /\
    (zlen i <= zlen out -> image = bslice 0 (zlen i) out).
Proof.
  destruct (lb_exchange_fresh impl (Some out) (zlen out) i w) as (impl' & w' & Hx & Hinv' & _ & Hs & _ & Hlg & _);
    [done|done|done|split; [apply zlen_nonneg|done]|done|by intros l [= ->]|done|].
  assert (mirrored impl (Some out) (zlen out) = bwrite 0 out (lb_mirror impl)) as Hm.
  { unfold mirrored. destruct (Z.eqb_spec (zlen out) 0) as [E|E].
    - assert (out = []) as -> by (destruct out; [done|unfold zlen in E; simpl in E; lia]). done.
    - unfold zlen. by rewrite Nat2Z.id, take_ge by lia. }
  rewrite Hm in *. exists impl', w'. split; [done|split; [done|split; [done|split; [done|]]]].
  intros Hle. unfold bslice, bwrite, zlen in *. simpl. rewrite !drop_0. rewrite take_app_le by lia. done.
Qed.

Lemma loopback_mirrors_witness :
  exists impl' w',
    lb_exchange loopback_example (Some [1; 2; 3]) 3 (Some [0; 0; 0; 0]) 4 (2000000, 1000)
      = Some (PLC_OK, impl', Some [1; 2; 3; 0], w') /\ lb_state_ impl' = PLC_ADAPTER_ONLINE.
Proof.
  destruct (loopback_mirrors loopback_example [1; 2; 3] [0; 0; 0; 0] (2000000, 1000))
    as (impl' & w' & Hx & _ & Hs & _);
    [exact loopback_example_inv|vm_compute; congruence|reflexivity|exact I|repeat constructor; vm_compute; congruence|vm_compute; congruence|vm_compute; congruence|].
  exists impl', w'. split; [exact Hx|exact Hs].
Defined.
