(* ===== verification/Runtime.v ===== *)
(** * The cyclic scan engine

    [src/core/plc_runtime.c] and [include/softplc/plc_runtime.h]: create,
    bind, the three phases of a scan, and the paced run loop.

    A binding holds a pointer to an adapter the application owns, so adapters
    live in a store ([mm_adapters]) and a binding names one by its index; two
    bindings of one adapter share it.  A program is a function on the process
    image and on the memory its [user] pointers reach ([mm_user]).

    The theorems are proved from the adapter contract, not from a particular
    adapter: every bound slice of [%I] is defined after the input phase and
    nothing else is touched, every adapter is called exactly once per scan
    with the [%Q] the previous scan left, a hard interlock aborts before any
    program runs, and the run loop stops and never runs ahead of its period. *)

From Stdlib Require Import ZArith Lia.
From stdpp Require Import base list strings tactics.
From S2P Require Import Prelude PlcTypes ProcessImage Adapter.

Definition PLC_MAX_BINDINGS : Z := 8.
Definition PLC_MAX_PROGRAMS : Z := 8.

Record plc_pou_ctx : Type := PouCtx {
  ctx_now : Z;
  ctx_dt : Z;
  ctx_scan : Z;
  ctx_first : bool;
  ctx_user : Z  (** the [user] pointer registered with the program *)
}.
#[export] Instance eta_plc_pou_ctx : Eta plc_pou_ctx := fun r =>
  PouCtx (ctx_now r) (ctx_dt r) (ctx_scan r) (ctx_first r) (ctx_user r).

Record plc_io_binding : Type := Binding {
  b_adapter : nat;  (** pointer: index into the adapter store *)
  b_i_offset : Z;
  b_q_offset : Z;
  b_caps : plc_adapter_caps  (** snapshot taken at bind time *)
}.
#[export] Instance eta_plc_io_binding : Eta plc_io_binding := fun r =>
  Binding (b_adapter r) (b_i_offset r) (b_q_offset r) (b_caps r).

Record plc_runtime_stats : Type := RtStats {
  rs_scans : Z;
  rs_overruns : Z;
  rs_io_faults : Z;
  rs_last_scan_us : Z;
  rs_max_scan_us : Z;
  rs_last_jitter_us : Z;
  rs_max_jitter_us : Z
}.
#[export] Instance eta_plc_runtime_stats : Eta plc_runtime_stats := fun r =>
  RtStats (rs_scans r) (rs_overruns r) (rs_io_faults r) (rs_last_scan_us r)
    (rs_max_scan_us r) (rs_last_jitter_us r) (rs_max_jitter_us r).

Record plc_runtime_config : Type := RtConfig {
  rc_cycle_us : Z;
  rc_i_bytes : Z;
  rc_q_bytes : Z;
  rc_m_bytes : Z;
  rc_continue_on_io_fault : bool
}.
#[export] Instance eta_plc_runtime_config : Eta plc_runtime_config := fun r =>
  RtConfig (rc_cycle_us r) (rc_i_bytes r) (rc_q_bytes r) (rc_m_bytes r)
    (rc_continue_on_io_fault r).

(** A program over memory of type [U]. *)
Definition plc_pou_fn (U : Type) : Type :=
  plc_pou_ctx -> U -> plc_process_image -> U * plc_process_image.

Record plc_program (U : Type) : Type := Program {
  prog_name : string;
  prog_fn : plc_pou_fn U;
  prog_user : Z
}.
Arguments Program {U}.
Arguments prog_name {U}.
Arguments prog_fn {U}.
Arguments prog_user {U}.

Record plc_runtime (U : Type) : Type := Runtime {
  rt_cfg : plc_runtime_config;
  rt_pi : plc_process_image;
  rt_bindings : list plc_io_binding;
  rt_programs : list (plc_program U);
  rt_q_shadow : list Z;
  rt_q_shadow_len : Z;
  rt_stop : bool;
  rt_scan_no : Z;
  rt_started_ns : Z;
  rt_last_scan_ns : Z;
  rt_first_scan : bool;
  rt_stats : plc_runtime_stats
}.
Arguments Runtime {U}.
Arguments rt_cfg {U}.
Arguments rt_pi {U}.
Arguments rt_bindings {U}.
Arguments rt_programs {U}.
Arguments rt_q_shadow {U}.
Arguments rt_q_shadow_len {U}.
Arguments rt_stop {U}.
Arguments rt_scan_no {U}.
Arguments rt_started_ns {U}.
Arguments rt_last_scan_ns {U}.
Arguments rt_first_scan {U}.
Arguments rt_stats {U}.
#[export] Instance eta_plc_runtime U : Eta (plc_runtime U) := fun r =>
  Runtime (rt_cfg r) (rt_pi r) (rt_bindings r) (rt_programs r) (rt_q_shadow r)
          (rt_q_shadow_len r) (rt_stop r) (rt_scan_no r) (rt_started_ns r)
          (rt_last_scan_ns r) (rt_first_scan r) (rt_stats r).

(** The memory a scan runs in. *)
Record mem (W A U : Type) : Type := Mem {
  mm_world : W;
  mm_adapters : list (plc_protocol_adapter W A);
  mm_user : U
}.
Arguments Mem {W A U}.
Arguments mm_world {W A U}.
Arguments mm_adapters {W A U}.
Arguments mm_user {W A U}.
#[export] Instance eta_mem W A U : Eta (mem W A U) := fun m =>
  Mem (mm_world m) (mm_adapters m) (mm_user m).

Definition plc_runtime_config_init (cfg : option plc_runtime_config) : option plc_runtime_config :=
  on_ptr (fun _ => RtConfig 0 0 0 0 false
            <| rc_cycle_us := 10000 |> <| rc_i_bytes := 256 |> <| rc_q_bytes := 256 |>
            <| rc_m_bytes := 1024 |> <| rc_continue_on_io_fault := true |>) cfg.

(** [calloc_rt], [calloc_ok] and [calloc_q]: whether the allocations of the
    runtime, of each area and of the shadow succeed; [live] counts live heap
    blocks. *)
Definition plc_runtime_create {U} (calloc_rt : bool) (calloc_ok : Z -> bool) (calloc_q : bool)
    (cfg : option plc_runtime_config) (live : Z) : option (plc_runtime U) * Z :=
  match cfg with
  | None => (None, live)
  | Some cfg =>
      if negb calloc_rt then (None, live)
      else
        let live := live + 1 in
        let rt := Runtime cfg pi_zero [] [] [] 0 false 0 0 0 false (RtStats 0 0 0 0 0 0 0) in
        let '(st, pi, live) :=
          plc_pi_init calloc_ok (Some (rt_pi rt)) (rc_i_bytes cfg) (rc_q_bytes cfg) (rc_m_bytes cfg) live in
        let rt := rt <| rt_pi := default (rt_pi rt) pi |> in
        if negb (is_ok st) then (None, live - 1)
        else
          let rt := rt <| rt_q_shadow_len := rc_q_bytes cfg |> in
          if negb calloc_q then
            let '(_, live) := plc_pi_free (Some (rt_pi rt)) live in (None, live - 1)
          else
            let n := if rt_q_shadow_len rt =? 0 then 1 else rt_q_shadow_len rt in
            (Some (rt <| rt_q_shadow := zeros n |> <| rt_first_scan := true |>), live + 1)
  end.

Definition plc_runtime_destroy {U} (rt : option (plc_runtime U)) (live : Z) : Z :=
  match rt with
  | None => live
  | Some rt => let live := live - 1 in
               let '(_, live) := plc_pi_free (Some (rt_pi rt)) live in live - 1
  end.

Section Engine.
Context {W A U : Type} `{Clock W}.
Implicit Types (rt : plc_runtime U) (m : mem W A U).

Definition now_ns (w : W) : Z * W :=
  let '((sec, nsec), w) := clock_gettime w in (s64 (s64 (sec * 1000000000) + nsec), w).

(** [adapter] is [None] for a [NULL] pointer. *)
Definition plc_runtime_bind_adapter (rt : option (plc_runtime U)) (adapter : option nat)
    (i_offset q_offset : Z) m : plc_status * option (plc_runtime U) :=
  match rt, adapter with
  | Some rt, Some h =>
      if zlen (rt_bindings rt) >=? PLC_MAX_BINDINGS then (PLC_ERR_NOMEM, Some rt)
      else
        let '(st, caps) := plc_adapter_get_caps (mm_adapters m !! h) (Some caps_zero) in
        let caps := default caps_zero caps in
        if negb (is_ok st) then (st, Some rt)
        else if negb (cap_abi_version caps =? PLC_ADAPTER_ABI_VERSION) then (PLC_ERR_PROTO, Some rt)
        else
          let i_size := plc_pi_area_size (Some (rt_pi rt)) PLC_AREA_I in
          let q_size := plc_pi_area_size (Some (rt_pi rt)) PLC_AREA_Q in
          if (i_offset >? i_size) || (cap_input_bytes caps >? i_size - i_offset) then (PLC_ERR_INVAL, Some rt)
          else if (q_offset >? q_size) || (cap_output_bytes caps >? q_size - q_offset)
          then (PLC_ERR_INVAL, Some rt)
          else
            let b := Binding h i_offset q_offset caps in
            (PLC_OK, Some (rt <| rt_bindings := rt_bindings rt ++ [b] |>))
  | _, _ => (PLC_ERR_INVAL, rt)
  end.

Definition plc_runtime_add_program (rt : option (plc_runtime U)) (name : option string)
    (fn : option (plc_pou_fn U)) (user : Z) : plc_status * option (plc_runtime U) :=
  match rt, fn with
  | Some rt, Some fn =>
      if zlen (rt_programs rt) >=? PLC_MAX_PROGRAMS then (PLC_ERR_NOMEM, Some rt)
      else
        let p := Program (default "<unnamed>" name) fn user in
        (PLC_OK, Some (rt <| rt_programs := rt_programs rt ++ [p] |>))
  | _, _ => (PLC_ERR_INVAL, rt)
  end.

(** One iteration of the loop of [scan_io]. *)
Definition exchange_binding (rt : plc_runtime U) (i_base : Z * Z) (b : plc_io_binding) m
    : option (plc_status * plc_runtime U * mem W A U) :=
  let caps := b_caps b in
  let out := if negb (cap_output_bytes caps =? 0) && (b_q_offset b <=? rt_q_shadow_len rt)
             then Some (drop (Z.to_nat (b_q_offset b)) (rt_q_shadow rt)) else None in
  let p := (i_base.1, i_base.2 + b_i_offset b) in
  match plc_adapter_exchange (mm_adapters m !! b_adapter b) out (cap_output_bytes caps)
          (Some (load_n (rt_pi rt) p (cap_input_bytes caps))) (cap_input_bytes caps) (mm_world m) with
  | None => None
  | Some (st, a, inb, w) =>
      let ads := match a with
                 | Some a => <[b_adapter b := a]> (mm_adapters m)
                 | None => mm_adapters m
                 end in
      Some (st, rt <| rt_pi := store_n (rt_pi rt) p 0 (default [] inb) |>,
            m <| mm_world := w |> <| mm_adapters := ads |>)
  end.

Fixpoint scan_io_loop (bs : list plc_io_binding) (worst : plc_status) rt m
    : option (plc_status * plc_runtime U * mem W A U) :=
  match bs with
  | [] => Some (worst, rt, m)
  | b :: bs =>
      match plc_pi_area (Some (rt_pi rt)) PLC_AREA_I with
      | None => Some (PLC_ERR_STATE, rt, m)
      | Some i_base =>
          match exchange_binding rt i_base b m with
          | None => None
          | Some (st, rt, m) => scan_io_loop bs (if is_ok st then worst else st) rt m
          end
      end
  end.

Definition scan_io rt m : option (plc_status * plc_runtime U * mem W A U) :=
  scan_io_loop (rt_bindings rt) PLC_OK rt m.

(** The program loop of a scan. *)
Fixpoint run_programs (ps : list (plc_program U)) (ctx : plc_pou_ctx) (u : U) (pi : plc_process_image)
    : U * plc_process_image :=
  match ps with
  | [] => (u, pi)
  | p :: ps => let ctx := ctx <| ctx_user := prog_user p |> in
               let '(u, pi) := prog_fn p ctx u pi in run_programs ps ctx u pi
  end.

(** The timing counters, from the start [t0] and the end [t1] of the scan. *)
Definition account (t0 t1 : Z) rt : plc_runtime U :=
  let s := rt_stats rt in
  let dur_us := u64 (Z.quot (s64 (t1 - t0)) 1000) in
  let s := s <| rs_scans := u64 (rs_scans s + 1) |> <| rs_last_scan_us := dur_us |> in
  let s := if dur_us >? rs_max_scan_us s then s <| rs_max_scan_us := dur_us |> else s in
  let s :=
    if negb (rt_first_scan rt) && negb (rc_cycle_us (rt_cfg rt) =? 0) then
      let period_us := Z.quot (s64 (t0 - rt_last_scan_ns rt)) 1000 in
      let jitter := s64 (period_us - rc_cycle_us (rt_cfg rt)) in
      let jitter := if jitter <? 0 then s64 (- jitter) else jitter in
      let s := s <| rs_last_jitter_us := u64 jitter |> in
      let s := if u64 jitter >? rs_max_jitter_us s then s <| rs_max_jitter_us := u64 jitter |> else s in
      if dur_us >? rc_cycle_us (rt_cfg rt) then s <| rs_overruns := u64 (rs_overruns s + 1) |> else s
    else s in
  rt <| rt_stats := s |>.

(** Phases 2 and 3 and the accounting of a scan that began at [t0]. *)
Definition scan_execute (t0 : Z) (io_st : plc_status) rt m
    : plc_status * option (plc_runtime U) * mem W A U :=
  let ctx := PouCtx t0 (if rt_first_scan rt then 0 else s64 (t0 - rt_last_scan_ns rt))
                    (rt_scan_no rt) (rt_first_scan rt) 0 in
  let '(u, pi) := run_programs (rt_programs rt) ctx (mm_user m) (rt_pi rt) in
  let rt := rt <| rt_pi := pi |> in
  let m := m <| mm_user := u |> in
  let q := plc_pi_area (Some (rt_pi rt)) PLC_AREA_Q in
  let rt := match q with
            | Some p => if rt_q_shadow_len rt =? 0 then rt
                        else rt <| rt_q_shadow := bwrite 0 (load_n (rt_pi rt) p (rt_q_shadow_len rt))
                                                           (rt_q_shadow rt) |>
            | None => rt
            end in
  let '(t1, w) := now_ns (mm_world m) in
  let m := m <| mm_world := w |> in
  let rt := account t0 t1 rt in
  (io_st, Some (rt <| rt_last_scan_ns := t0 |> <| rt_first_scan := false |>
                   <| rt_scan_no := u64 (rt_scan_no rt + 1) |>), m).

Definition plc_runtime_scan_once (rt : option (plc_runtime U)) m
    : option (plc_status * option (plc_runtime U) * mem W A U) :=
  match rt with
  | None => Some (PLC_ERR_INVAL, None, m)
  | Some rt =>
      let '(t0, w) := now_ns (mm_world m) in
      let m := m <| mm_world := w |> in
      let rt := if rt_first_scan rt then rt <| rt_started_ns := t0 |> <| rt_last_scan_ns := t0 |> else rt in
      match scan_io rt m with
      | None => None
      | Some (io_st, rt, m) =>
          let rt := if is_ok io_st then rt
                    else rt <| rt_stats := rt_stats rt
                              <| rs_io_faults := u64 (rs_io_faults (rt_stats rt) + 1) |> |> in
          if negb (is_ok io_st) && negb (rc_continue_on_io_fault (rt_cfg rt)) then Some (io_st, Some rt, m)
          else Some (scan_execute t0 io_st rt m)
      end
  end.

Definition plc_runtime_request_stop (rt : option (plc_runtime U)) : option (plc_runtime U) :=
  on_ptr (fun rt => rt <| rt_stop := true |>) rt.

Definition plc_runtime_get_stats (rt : option (plc_runtime U)) (out : option plc_runtime_stats)
    : option plc_runtime_stats :=
  match rt, out with Some rt, Some _ => Some (rt_stats rt) | _, _ => out end.

Definition plc_runtime_binding_count (rt : option (plc_runtime U)) : Z :=
  match rt with Some rt => zlen (rt_bindings rt) | None => 0 end.

Definition plc_runtime_binding_at (rt : option (plc_runtime U)) (i : Z) : option plc_io_binding :=
  match rt with
  | None => None
  | Some rt => if i >=? zlen (rt_bindings rt) then None else rt_bindings rt !! Z.to_nat i
  end.
End Engine.

(** ** The run loop *)

Definition EINTR : Z := 4.

(** Absolute sleeps and signals.  [signal_pending] says whether a signal
    handler that calls [plc_runtime_request_stop] ran since the last look. *)
Class Tasking (W : Type) : Type := {
  clock_nanosleep : Z * Z -> W -> Z * W;
  signal_pending : W -> bool * W
}.

(** A sleep that is not interrupted ends at its deadline or later (at the end
    of the clock's range for a deadline beyond it), and only finitely many
    signals interrupt it. *)
Class TaskingLaws (W : Type) `{ClockLaws W, Tasking W} : Type := {
  interruptions : W -> nat;
  nanosleep_done sec nsec w w' :
    clock_nanosleep (sec, nsec) w = (0, w') ->
    Z.min (sec * 1000000000 + nsec) (2 ^ 62 - 1) <= clock_ns w';
  nanosleep_eintr ts w w' :
    clock_nanosleep ts w = (EINTR, w') -> (interruptions w' < interruptions w)%nat;
  nanosleep_result ts w : (clock_nanosleep ts w).1 = 0 \/ (clock_nanosleep ts w).1 = EINTR;
  signal_clock w : clock_ns w <= clock_ns (signal_pending w).2
}.

Section Run.
Context {W A U : Type} `{Clock W, Tasking W}.
Implicit Types (rt : plc_runtime U) (m : mem W A U).

Fixpoint sleep_until (fuel : nat) (deadline_ns : Z) (w : W) : option W :=
  match fuel with
  | O => None
  | S fuel =>
      let '(rc, w) := clock_nanosleep (Z.quot deadline_ns 1000000000, Z.rem deadline_ns 1000000000) w in
      if rc =? EINTR then sleep_until fuel deadline_ns w else Some w
  end.

(** The [while] loop; [None] when it is still running. *)
Fixpoint run_loop (fuel : nat) (max_scans period deadline : Z) rt m
    : option (plc_status * plc_runtime U * mem W A U) :=
  match fuel with
  | O => None
  | S fuel' =>
      let '(sig, w) := signal_pending (mm_world m) in
      let m := m <| mm_world := w |> in
      let rt := if sig then default rt (plc_runtime_request_stop (Some rt)) else rt in
      if rt_stop rt then Some (PLC_OK, rt, m)
      else match plc_runtime_scan_once (Some rt) m with
           | Some (st, Some rt, m) =>
               if negb (is_ok st) && negb (rc_continue_on_io_fault (rt_cfg rt)) then Some (st, rt, m)
               else if negb (max_scans =? 0) && (rt_scan_no rt >=? max_scans) then Some (PLC_OK, rt, m)
               else if period >? 0 then
                 let deadline := s64 (deadline + period) in
                 let '(t, w) := now_ns (mm_world m) in
                 let deadline := if deadline <? t then t else deadline in
                 match sleep_until fuel deadline w with
                 | None => None
                 | Some w => run_loop fuel' max_scans period deadline rt (m <| mm_world := w |>)
                 end
               else run_loop fuel' max_scans period deadline rt m
           | _ => None
           end
  end.

Definition plc_runtime_run (fuel : nat) (rt : option (plc_runtime U)) (max_scans : Z) m
    : option (plc_status * option (plc_runtime U) * mem W A U) :=
  match rt with
  | None => Some (PLC_ERR_INVAL, None, m)
  | Some rt =>
      let rt := rt <| rt_stop := false |> in
      let period := s64 (rc_cycle_us (rt_cfg rt) * 1000) in
      let '(deadline, w) := now_ns (mm_world m) in
      match run_loop fuel max_scans period deadline rt (m <| mm_world := w |>) with
      | None => None
      | Some (st, rt, m) => Some (st, Some rt, m)
      end
  end.
End Run.

(** The ticking world sleeps to the deadline, with no signals. *)
#[export] Instance ticking_tasking : Tasking ticking := {|
  clock_nanosleep '(sec, nsec) '(now, step) := (0, (Z.max now (sec * 1000000000 + nsec), step));
  signal_pending w := (false, w)
|}.

Arguments account : simpl never.
Arguments scan_execute : simpl never.
Arguments exchange_binding : simpl never.

(** ** Invariants *)

(** A binding whose slices lie inside the image. *)
Definition binding_ok {U} (rt : plc_runtime U) (b : plc_io_binding) : Prop :=
  0 <= b_i_offset b /\ 0 <= b_q_offset b /\
  0 <= cap_input_bytes (b_caps b) /\ 0 <= cap_output_bytes (b_caps b) /\
  b_i_offset b + cap_input_bytes (b_caps b) <= size_of (rt_pi rt) PLC_AREA_I /\
  b_q_offset b + cap_output_bytes (b_caps b) <= size_of (rt_pi rt) PLC_AREA_Q.

Definition rt_inv {U} (rt : plc_runtime U) : Prop :=
  pi_wf (rt_pi rt) /\ rt_q_shadow_len rt = size_of (rt_pi rt) PLC_AREA_Q /\
  zlen (rt_q_shadow rt) = Z.max 1 (rt_q_shadow_len rt) /\ bytes (rt_q_shadow rt) /\
  zlen (rt_bindings rt) <= PLC_MAX_BINDINGS /\ zlen (rt_programs rt) <= PLC_MAX_PROGRAMS /\
  Forall (binding_ok rt) (rt_bindings rt) /\ 0 <= rt_scan_no rt < 2 ^ 64.

(** What the engine relies on in a program: it uses the accessors, so the
    image stays well formed and keeps its sizes. *)
Definition pou_ok {U} (fn : plc_pou_fn U) : Prop :=
  forall ctx u pi, pi_wf pi ->
    pi_wf (fn ctx u pi).2 /\ forall a, size_of (fn ctx u pi).2 a = size_of pi a.

Section Lawful.
Context {W A : Type} {CW : Clock W} {IW : WorldInv W} {LW : ClockLaws W}.
Implicit Types (o : plc_protocol_adapter W A).

(** An adapter that fulfils the contract and has capabilities [caps]. *)
Definition lawful (caps : plc_adapter_caps) o : Prop :=
  exists v (L : AdapterLaws v), ad_vtbl o = Some v /\ ad_inv (ad_impl o) /\ ad_caps (ad_impl o) = caps.

(** What one exchange made of an adapter and of the input slice: the contract,
    read for a call that did return. *)
Definition answered (caps : plc_adapter_caps) o o' (st : plc_status) (before after : list Z) : Prop :=
  exists v (L : AdapterLaws v), ad_vtbl o = Some v /\ ad_vtbl o' = Some v /\
    ad_inv (ad_impl o') /\ ad_caps (ad_impl o') = caps /\
    if bool_decide (ad_state (ad_impl o) = PLC_ADAPTER_CLOSED)
    then st = PLC_ERR_STATE /\ after = before
    else st = PLC_OK /\ after = bslice 0 (zlen before) (ad_held (ad_impl o')) \/
         st <> PLC_OK /\ (after = bslice 0 (zlen before) (ad_held (ad_impl o)) \/
                          cap_failsafe_policy caps = PLC_FAILSAFE_CLEAR /\ after = zeros (zlen before)).

Lemma answered_lawful caps o o' st b a : answered caps o o' st b a -> lawful caps o'.
Proof. intros (v & L & _ & Hv & Hi & Hc & _). by exists v, L. Qed.
End Lawful.

(** ** The input phase *)

Section InputPhase.
Context {W A U : Type} {CW : Clock W} {IW : WorldInv W} {LW : ClockLaws W}.
Implicit Types (rt : plc_runtime U) (m : mem W A U) (o : plc_protocol_adapter W A).

Lemma area_I_valid : valid_area PLC_AREA_I.
Proof. unfold valid_area, PLC_AREA_I, PLC_AREA__COUNT. lia. Qed.
Lemma area_Q_valid : valid_area PLC_AREA_Q.
Proof. unfold valid_area, PLC_AREA_Q, PLC_AREA__COUNT. lia. Qed.

Lemma shadow_slice rt b :
  rt_inv rt -> binding_ok rt b ->
  b_q_offset b <= rt_q_shadow_len rt /\
  cap_output_bytes (b_caps b) <= zlen (drop (Z.to_nat (b_q_offset b)) (rt_q_shadow rt)) /\
  bytes (drop (Z.to_nat (b_q_offset b)) (rt_q_shadow rt)).
Proof.
  intros (_ & Hq & Hz & Hb & _) (_ & H2 & _ & H4 & _ & H6). rewrite Hq in *.
  split; [lia|]. split; [|by apply Forall_drop]. unfold zlen in *. rewrite length_drop. lia.
Qed.

(** One exchange through a lawful adapter. *)
Lemma exchange_binding_spec v (L : AdapterLaws v) rt b m o st rt' m' :
  rt_inv rt -> binding_ok rt b -> world_ok (mm_world m) ->
  mm_adapters m !! b_adapter b = Some o ->
  ad_vtbl o = Some v -> ad_inv (ad_impl o) -> ad_caps (ad_impl o) = b_caps b ->
  exchange_binding rt (PLC_AREA_I, 0) b m = Some (st, rt', m') ->
  exists o' after pi',
    let n := cap_input_bytes (b_caps b) in
    (ad_vtbl o' = Some v /\ ad_inv (ad_impl o') /\ ad_caps (ad_impl o') = b_caps b) /\
    answered (b_caps b) o o' st (bslice (b_i_offset b) n (view (rt_pi rt) PLC_AREA_I)) after /\
    zlen after = n /\
    rt' = rt <| rt_pi := pi' |> /\ pi_wf pi' /\ (forall a, size_of pi' a = size_of (rt_pi rt) a) /\
    (forall a, valid_area a -> view pi' a = if a =? PLC_AREA_I
       then bwrite (b_i_offset b) after (view (rt_pi rt) a) else view (rt_pi rt) a) /\
    mm_adapters m' = <[b_adapter b := o']> (mm_adapters m) /\ mm_user m' = mm_user m /\
    world_ok (mm_world m').
Proof.
  intros Hrt Hb Hw Ho Hv Hi Hc Hx.
  pose proof Hrt as (Hwf & _). pose proof Hb as (Hb1 & Hb2 & Hb3 & Hb4 & Hb5 & Hb6).
  destruct (shadow_slice rt b Hrt Hb) as (Hs1 & Hs2 & Hs3).
  destruct law_exchange as (f & Hf & Hlaw).
  unfold exchange_binding in Hx. rewrite Ho in Hx. cbv zeta in Hx. simpl in Hx.
  rewrite load_n_view in Hx by (done || apply area_I_valid).
  destruct o as [ov oi]; simpl in *. subst ov. unfold plc_adapter_exchange, entry in Hx. rewrite Hf in Hx.
  set (out := if _ : bool then Some _ else None) in Hx.
  assert (negb (cap_output_bytes (b_caps b) =? 0) && bool_decide (out = None) = false) as Hg.
  { subst out. destruct (Z.eqb_spec (cap_output_bytes (b_caps b)) 0); simpl; [done|].
    rewrite (proj2 (Z.leb_le _ _)) by done. done. }
  rewrite Hg, andb_false_r in Hx. simpl in Hx.
  set (before := bslice _ _ _) in *. assert (zlen before = cap_input_bytes (b_caps b)) as Hlen.
  { apply zlen_bslice; [lia|lia|]. rewrite zlen_view by (done || apply area_I_valid). lia. }
  destruct (f oi out _ (Some before) _ _) as [[[[st1 a'] inb'] w']|] eqn:Ef; [|done].
  injection Hx as <- <- <-.
  rewrite <- Hc in Ef. destruct (Hlaw oi out before (mm_world m) st1 a' inb' w')
    as (Hi' & Hc' & Hw' & i & -> & Hli & Hbi & Hcase); [done|done| |done| | | |].
  { intros E. rewrite E, Hc in *. simpl in Hg. rewrite andb_true_r in Hg.
    destruct (Z.eqb_spec (cap_output_bytes (b_caps b)) 0); done. }
  { by rewrite Hc. }
  { apply bytes_bslice, bytes_view; [done|apply area_I_valid]. }
  { intros l E. subst out. rewrite Hc. split_if; [|done]. injection E as <-. done. }
  destruct (store_n_wf (rt_pi rt) PLC_AREA_I (b_i_offset b) 0 i) as (Hp1 & Hp2 & Hp3);
    [done|apply area_I_valid|done|lia|done|lia|].
  exists (Adapter (Some v) a'), i, (store_n (rt_pi rt) (PLC_AREA_I, b_i_offset b) 0 i). cbv zeta.
  split; [split; [done|split; [done|by simpl; rewrite Hc']]|].
  split; [|split; [lia|split; [done|split; [done|split; [done|split; [|done]]]]]].
  - exists v, L. split; [done|split; [done|split; [done|split; [by simpl; rewrite Hc'|]]]]. simpl.
    destruct (bool_decide (ad_state oi = PLC_ADAPTER_CLOSED)).
    + destruct Hcase as (-> & _ & _ & ->). done.
    + destruct Hcase as (_ & [(-> & _ & <-)|(Hne & _ & Himg)]); [by left|right]. rewrite Hc in Himg.
      split; [done|]. destruct Himg as [->|[? ->]]; [by left|by right].
  - intros a Ha. rewrite Hp3 by done. by rewrite Z.add_0_r.
Qed.

(** The slice of [%I] bound to [b]. *)
Definition i_slice (pi : plc_process_image) (b : plc_io_binding) : list Z :=
  bslice (b_i_offset b) (cap_input_bytes (b_caps b)) (view pi PLC_AREA_I).

Definition off_slice (off n : Z) (b : plc_io_binding) : Prop :=
  off + n <= b_i_offset b \/ b_i_offset b + cap_input_bytes (b_caps b) <= off.
Definition slices_disjoint (b1 b2 : plc_io_binding) : Prop :=
  off_slice (b_i_offset b1) (cap_input_bytes (b_caps b1)) b2.

(** The status of the phase: the last one that is not [PLC_OK]. *)
Definition last_fault (worst : plc_status) (sts : list plc_status) : plc_status :=
  fold_left (fun w s => if is_ok s then w else s) sts worst.

(** The result of the phase for one binding. *)
Definition binding_answered (m m' : mem W A U) (pi pi' : plc_process_image) (b : plc_io_binding)
    (st : plc_status) : Prop :=
  exists o o', mm_adapters m !! b_adapter b = Some o /\ mm_adapters m' !! b_adapter b = Some o' /\
    answered (b_caps b) o o' st (i_slice pi b) (i_slice pi' b).

Definition all_lawful (bs : list plc_io_binding) (m : mem W A U) : Prop :=
  forall b, In b bs -> exists o, mm_adapters m !! b_adapter b = Some o /\ lawful (b_caps b) o.

Lemma rt_inv_pi rt pi' :
  rt_inv rt -> pi_wf pi' -> (forall a, size_of pi' a = size_of (rt_pi rt) a) ->
  rt_inv (rt <| rt_pi := pi' |>).
Proof.
  intros (Hwf & Hq & Hz & Hb & Hn & Hp & HF & Hs) Hwf' Hsz. split; [done|]. simpl. rewrite Hsz.
  do 5 (split; [done|]). split; [|done].
  eapply Forall_impl; [|exact HF]. intros b. unfold binding_ok. simpl. by rewrite !Hsz.
Qed.

Lemma scan_io_loop_spec bs : forall worst rt m st rt' m',
  rt_inv rt -> Forall (binding_ok rt) bs -> NoDup (map b_adapter bs) ->
  ForallOrdPairs slices_disjoint bs -> world_ok (mm_world m) -> all_lawful bs m ->
  scan_io_loop bs worst rt m = Some (st, rt', m') ->
  exists pi' sts,
    rt' = rt <| rt_pi := pi' |> /\ pi_wf pi' /\ (forall a, size_of pi' a = size_of (rt_pi rt) a) /\
    (forall a, valid_area a -> a <> PLC_AREA_I -> view pi' a = view (rt_pi rt) a) /\
    (forall off n, 0 <= off -> 0 <= n -> Forall (off_slice off n) bs ->
       bslice off n (view pi' PLC_AREA_I) = bslice off n (view (rt_pi rt) PLC_AREA_I)) /\
    Forall2 (binding_answered m m' (rt_pi rt) pi') bs sts /\ st = last_fault worst sts /\
    (forall h, ~ In h (map b_adapter bs) -> mm_adapters m' !! h = mm_adapters m !! h) /\
    mm_user m' = mm_user m /\ world_ok (mm_world m').
Proof.
  induction bs as [|b bs IH]; intros worst rt m st rt' m' Hrt HF Hnd Hdis Hw Hlaw Hx.
  { injection Hx as <- <- <-. exists (rt_pi rt), []. split; [by destruct rt|].
    pose proof Hrt as (Hwf & _). do 4 (split; [done|]). split; [constructor|]. done. }
  cbn [scan_io_loop] in Hx. unfold plc_pi_area in Hx. pose proof Hrt as (Hwf & _).
  rewrite (area_ok_wf _ _ Hwf) in Hx. cbn in Hx. change (0, 0) with (PLC_AREA_I, 0) in Hx.
  destruct (exchange_binding rt (PLC_AREA_I, 0) b m) as [[[st1 rt1] m1]|] eqn:Eb; [|done].
  inversion HF as [|? ? Hb HF']; subst. inversion Hnd as [|? ? Hni Hnd']; subst.
  inversion Hdis as [|? ? Hd Hdis']; subst. rewrite list_elem_of_In in Hni.
  destruct (Hlaw b (or_introl eq_refl)) as (o & Ho & v & L & Hv & Hi & Hcp).
  destruct (exchange_binding_spec v L rt b m o st1 rt1 m1 Hrt Hb Hw Ho Hv Hi Hcp Eb)
    as (o' & after & pi1 & _ & Hans & Hla & -> & Hwf1 & Hsz1 & Hv1 & Ha1 & Hu1 & Hw1).
  pose proof Hb as (Hb1 & _ & Hb3 & _ & Hb5 & _).
  assert (zlen (view (rt_pi rt) PLC_AREA_I) = size_of (rt_pi rt) PLC_AREA_I) as HzI
    by (apply zlen_view; [done|apply area_I_valid]).
  assert (forall off n, 0 <= off -> 0 <= n -> off_slice off n b ->
    bslice off n (view pi1 PLC_AREA_I) = bslice off n (view (rt_pi rt) PLC_AREA_I)) as Hout1.
  { intros off n H1 H2 Hoff. rewrite Hv1 by apply area_I_valid. rewrite Z.eqb_refl.
    unfold off_slice in Hoff. apply bslice_bwrite_disjoint; lia. }
  assert (Forall (binding_ok (rt <| rt_pi := pi1 |>)) bs) as HF1.
  { eapply Forall_impl; [|exact HF']. intros c. unfold binding_ok. simpl. by rewrite !Hsz1. }
  assert (all_lawful bs m1) as Hlaw1.
  { intros c Hc. destruct (Hlaw c (or_intror Hc)) as (oc & Hoc & Hlc). exists oc. split; [|done].
    rewrite Ha1, list_lookup_insert_ne; [done|]. intros E. apply Hni. rewrite E. by apply in_map. }
  destruct (IH _ _ _ _ _ _ (rt_inv_pi rt pi1 Hrt Hwf1 Hsz1) HF1 Hnd' Hdis' Hw1 Hlaw1 Hx) as
    (pi' & sts & -> & Hwf' & Hsz' & Hv' & Hout' & Hans' & Hst & Had & Hu & Hw').
  exists pi', (st1 :: sts). simpl in *.
  split; [done|split; [done|split; [intros; by rewrite Hsz'|]]].
  split; [intros a Ha Hne; rewrite Hv' by done; rewrite Hv1 by done; by rewrite (proj2 (Z.eqb_neq _ _) Hne)|].
  split.
  { intros off n H1 H2 Hoff. inversion Hoff; subst. rewrite Hout' by done. by apply Hout1. }
  split; [|split; [done|split; [|by rewrite Hu, Hu1]]].
  - constructor.
    + exists o, o'. split; [done|]. split.
      { rewrite Had by done. rewrite Ha1. apply list_lookup_insert_eq. by eapply lookup_lt_Some. }
      unfold i_slice. rewrite Hout' by (done || (eapply Forall_impl; [|exact Hd]; done)).
      rewrite Hv1 by apply area_I_valid. rewrite Z.eqb_refl.
      rewrite <- Hla. rewrite bslice_bwrite_same by lia. rewrite Hla. done.
    + apply (Forall2_impl_In _ _ _ _ Hans'). intros c stc Hc (oc & oc' & H1 & H2 & H3).
      exists oc, oc'. rewrite Ha1, list_lookup_insert_ne in H1 by (intros E; apply Hni; rewrite E; by apply in_map).
      split; [done|split; [done|]]. unfold i_slice in *. rewrite List.Forall_forall in Hd, HF'.
      destruct (HF' c Hc) as (Hc1 & _ & Hc3 & _). specialize (Hd c Hc).
      unfold slices_disjoint, off_slice in Hd. rewrite Hout1 in H3; [done..|]. unfold off_slice. lia.
  - intros h Hh. rewrite Had by tauto. rewrite Ha1. apply list_lookup_insert_ne. tauto.
Qed.
End InputPhase.

(** ** A whole scan *)

Section Scan.
Context {W A U : Type} {CW : Clock W} {IW : WorldInv W} {LW : ClockLaws W}.
Implicit Types (rt : plc_runtime U) (m : mem W A U).

Lemma now_ns_reads w :
  exists t w', now_ns w = (t, w') /\ clock_ns w <= t <= clock_ns w' /\ 0 <= t < 2 ^ 62 /\
    (world_ok w -> world_ok w').
Proof.
  unfold now_ns. pose proof (clock_reads w) as Hr. pose proof (clock_world w) as Hw.
  destruct (clock_gettime w) as [[s n] w']. destruct Hr as (Hs & Hn & Hb & Hm).
  eexists _, _. split; [done|]. rewrite (s64_small (s * 1000000000)) by lia. rewrite s64_small by lia.
  split; [lia|split; [lia|done]].
Qed.

Lemma run_programs_wf (ps : list (plc_program U)) : forall ctx u pi,
  Forall (fun p => pou_ok (prog_fn p)) ps -> pi_wf pi ->
  pi_wf (run_programs ps ctx u pi).2 /\ forall a, size_of (run_programs ps ctx u pi).2 a = size_of pi a.
Proof.
  induction ps as [|p ps IH]; intros ctx u pi HF Hwf; [done|]. inversion HF as [|? ? Hp HF']; subst.
  simpl. destruct (Hp (ctx <| ctx_user := prog_user p |>) u pi Hwf) as [Hwf1 Hsz1].
  simpl in *. destruct (prog_fn p _ u pi) as [u1 pi1]; simpl in *.
  destruct (IH (ctx <| ctx_user := prog_user p |>) u1 pi1 HF' Hwf1) as [Hwf2 Hsz2].
  split; [done|]. intros a. by rewrite Hsz2.
Qed.

(** The state a scan starts from and the one it ends in differ from the
    runtime only in fields the phases do not read. *)
Lemma rt_inv_ext rt rt' :
  rt_inv rt -> rt_pi rt' = rt_pi rt -> rt_q_shadow rt' = rt_q_shadow rt ->
  rt_q_shadow_len rt' = rt_q_shadow_len rt -> rt_bindings rt' = rt_bindings rt ->
  rt_programs rt' = rt_programs rt -> 0 <= rt_scan_no rt' < 2 ^ 64 -> rt_inv rt'.
Proof.
  intros (Hwf & Hq & Hz & Hb & Hn & Hp & HF & Hs) E1 E2 E3 E4 E5 Hs'.
  unfold rt_inv. rewrite E1, E2, E3, E4, E5. do 6 (split; [done|]). split; [|done].
  eapply Forall_impl; [|exact HF]. intros b. unfold binding_ok. by rewrite E1.
Qed.

Lemma account_frame t0 t1 rt : account t0 t1 rt = rt <| rt_stats := rt_stats (account t0 t1 rt) |>.
Proof. unfold account. by destruct rt. Qed.

(** Latching [%Q] into the shadow. *)
Lemma latch_spec rt :
  rt_inv rt ->
  exists sh,
    match plc_pi_area (Some (rt_pi rt)) PLC_AREA_Q with
    | Some p => if rt_q_shadow_len rt =? 0 then rt
                else rt <| rt_q_shadow := bwrite 0 (load_n (rt_pi rt) p (rt_q_shadow_len rt)) (rt_q_shadow rt) |>
    | None => rt
    end = rt <| rt_q_shadow := sh |> /\
    zlen sh = zlen (rt_q_shadow rt) /\ bytes sh /\
    bslice 0 (rt_q_shadow_len rt) sh = view (rt_pi rt) PLC_AREA_Q.
Proof.
  intros (Hwf & Hq & Hz & Hb & _). unfold plc_pi_area. rewrite (area_ok_wf _ _ Hwf). cbn.
  change (1, 0) with (PLC_AREA_Q, 0).
  assert (zlen (view (rt_pi rt) PLC_AREA_Q) = rt_q_shadow_len rt) as HzQ
    by (rewrite Hq; apply zlen_view; [done|apply area_Q_valid]).
  pose proof (zlen_nonneg (view (rt_pi rt) PLC_AREA_Q)).
  destruct (Z.eqb_spec (rt_q_shadow_len rt) 0) as [E|E].
  - exists (rt_q_shadow rt). split; [by destruct rt|split; [done|split; [done|]]]. rewrite E in *.
    destruct (view (rt_pi rt) PLC_AREA_Q); [done|unfold zlen in HzQ; simpl in HzQ; lia].
  - assert (load_n (rt_pi rt) (PLC_AREA_Q, 0) (rt_q_shadow_len rt) = view (rt_pi rt) PLC_AREA_Q) as EL.
    { rewrite load_n_view by (done || lia || apply area_Q_valid). rewrite <- HzQ. apply bslice_all. }
    eexists. split; [done|]. rewrite EL. split; [apply zlen_bwrite; lia|].
    split; [apply bytes_bwrite; [apply bytes_view; [done|apply area_Q_valid]|done]|].
    rewrite <- HzQ. apply bslice_bwrite_same; lia.
Qed.

(** The part of a scan after the input phase. *)
Lemma scan_execute_spec rt m st t0 st' rt' m' :
  rt_inv rt -> Forall (fun p => pou_ok (prog_fn p)) (rt_programs rt) -> world_ok (mm_world m) ->
  scan_execute t0 st rt m = (st', Some rt', m') -> st' = st /\
  rt_inv rt' /\ rt_cfg rt' = rt_cfg rt /\ rt_stop rt' = rt_stop rt /\
  rt_bindings rt' = rt_bindings rt /\ rt_programs rt' = rt_programs rt /\
  mm_adapters m' = mm_adapters m /\ world_ok (mm_world m') /\ clock_ns (mm_world m) <= clock_ns (mm_world m') /\
  rt_last_scan_ns rt' = t0 /\ rt_q_shadow_len rt' = rt_q_shadow_len rt /\
  (exists ctx, ctx_scan ctx = rt_scan_no rt /\ ctx_first ctx = rt_first_scan rt /\ ctx_now ctx = t0 /\
     (mm_user m', rt_pi rt') = run_programs (rt_programs rt) ctx (mm_user m) (rt_pi rt)) /\
  bslice 0 (rt_q_shadow_len rt) (rt_q_shadow rt') = view (rt_pi rt') PLC_AREA_Q /\
  rt_scan_no rt' = u64 (rt_scan_no rt + 1).
Proof.
  intros Hrt Hps Hw. unfold scan_execute. set (ctx := PouCtx _ _ _ _ _).
  destruct (run_programs_wf (rt_programs rt) ctx (mm_user m) (rt_pi rt) Hps) as [Hwf1 Hsz1]; [apply Hrt|].
  destruct (run_programs (rt_programs rt) ctx (mm_user m) (rt_pi rt)) as [u pi] eqn:Er.
  pose proof (rt_inv_pi rt pi Hrt Hwf1 Hsz1) as Hrt1.
  destruct (latch_spec _ Hrt1) as (sh & -> & Hz & Hb & Hl).
  destruct (now_ns_reads (mm_world m)) as (t1 & w1 & Hn & Hc & _ & Hw1).
  change (mm_world (m <| mm_user := u |>)) with (mm_world m).
  rewrite Hn, account_frame. intros [= <- <- <-]. split; [done|]. simpl. simpl in Hl, Hz.
  split; [|do 4 (split; [done|])].
  - destruct Hrt1 as (H1 & H2 & H3 & H4 & H5 & H6 & H7 & H8). simpl in *.
    split; [done|split; [done|split; [simpl; lia|split; [done|]]]]. do 3 (split; [done|]).
    simpl. apply u64_range.
  - split; [done|split; [by apply Hw1|split; [lia|split; [done|split; [done|]]]]].
    split; [by exists ctx|]. done.
Qed.

(** What a scan does, phase by phase. *)
Lemma scan_once_spec rt m st rt' m' :
  rt_inv rt -> Forall (fun p => pou_ok (prog_fn p)) (rt_programs rt) ->
  NoDup (map b_adapter (rt_bindings rt)) -> ForallOrdPairs slices_disjoint (rt_bindings rt) ->
  world_ok (mm_world m) -> all_lawful (rt_bindings rt) m ->
  plc_runtime_scan_once (Some rt) m = Some (st, Some rt', m') ->
  exists pi1 m1 sts,
    Forall2 (binding_answered m m1 (rt_pi rt) pi1) (rt_bindings rt) sts /\
    st = last_fault PLC_OK sts /\
    (forall a, valid_area a -> a <> PLC_AREA_I -> view pi1 a = view (rt_pi rt) a) /\
    (forall off n, 0 <= off -> 0 <= n -> Forall (off_slice off n) (rt_bindings rt) ->
       bslice off n (view pi1 PLC_AREA_I) = bslice off n (view (rt_pi rt) PLC_AREA_I)) /\
    mm_adapters m' = mm_adapters m1 /\ rt_inv rt' /\ world_ok (mm_world m') /\
    rt_bindings rt' = rt_bindings rt /\ rt_programs rt' = rt_programs rt /\ rt_cfg rt' = rt_cfg rt /\
    if negb (is_ok st) && negb (rc_continue_on_io_fault (rt_cfg rt)) then
      rt_pi rt' = pi1 /\ rt_q_shadow rt' = rt_q_shadow rt /\ rt_scan_no rt' = rt_scan_no rt /\
      rt_first_scan rt' = rt_first_scan rt /\ mm_user m' = mm_user m
    else
      (exists ctx, ctx_scan ctx = rt_scan_no rt /\ ctx_first ctx = rt_first_scan rt /\
         (mm_user m', rt_pi rt') = run_programs (rt_programs rt) ctx (mm_user m) pi1) /\
      bslice 0 (rt_q_shadow_len rt) (rt_q_shadow rt') = view (rt_pi rt') PLC_AREA_Q /\
      rt_scan_no rt' = u64 (rt_scan_no rt + 1).
Proof.
  intros Hrt Hps Hnd Hdis Hw Hlaw. cbn [plc_runtime_scan_once].
  destruct (now_ns_reads (mm_world m)) as (t0 & w0 & -> & _ & _ & Hw0). specialize (Hw0 Hw).
  set (rt0 := if rt_first_scan rt then _ else rt).
  assert (rt_inv rt0 /\ rt_bindings rt0 = rt_bindings rt /\ rt_pi rt0 = rt_pi rt /\
          rt_programs rt0 = rt_programs rt /\ rt_cfg rt0 = rt_cfg rt /\ rt_scan_no rt0 = rt_scan_no rt /\
          rt_first_scan rt0 = rt_first_scan rt /\ rt_q_shadow rt0 = rt_q_shadow rt /\
          rt_q_shadow_len rt0 = rt_q_shadow_len rt) as (Hrt0 & Eb & Ep & Eg & Ec & En & Ef & Eq & El).
  { subst rt0. pose proof Hrt as (_ & _ & _ & _ & _ & _ & _ & Hs). destruct (rt_first_scan rt) eqn:E.
    - split; [by apply (rt_inv_ext rt)|]. simpl. by rewrite E.
    - done. }
  clearbody rt0. unfold scan_io.
  destruct (scan_io_loop (rt_bindings rt0) PLC_OK rt0 (m <| mm_world := w0 |>)) as [[[io rt1] m1]|] eqn:Eio;
    [|done].
  destruct (scan_io_loop_spec (rt_bindings rt0) PLC_OK rt0 (m <| mm_world := w0 |>) io rt1 m1 Hrt0)
    as (pi1 & sts & -> & Hwf1 & Hsz1 & Hv1 & Ho1 & Ha1 & Hst & _ & Hu1 & Hw1);
    [apply Hrt0|by rewrite Eb|by rewrite Eb|done|by rewrite Eb|done|].
  rewrite Eb, Ep in *. pose proof (rt_inv_pi rt0 pi1 Hrt0 Hwf1) as Hrt1. rewrite Ep in Hrt1.
  specialize (Hrt1 Hsz1). set (rt1 := if is_ok io then _ else _).
  assert (rt_inv rt1 /\ rt_bindings rt1 = rt_bindings rt /\ rt_pi rt1 = pi1 /\
          rt_programs rt1 = rt_programs rt /\ rt_cfg rt1 = rt_cfg rt /\ rt_scan_no rt1 = rt_scan_no rt /\
          rt_first_scan rt1 = rt_first_scan rt /\ rt_q_shadow rt1 = rt_q_shadow rt /\
          rt_q_shadow_len rt1 = rt_q_shadow_len rt) as (Hrt1' & Eb1 & Ep1 & Eg1 & Ec1 & En1 & Ef1 & Eq1 & El1).
  { subst rt1. destruct (is_ok io); [done|]. split; [|done].
    apply (rt_inv_ext (rt0 <| rt_pi := pi1 |>)); try done. simpl. rewrite En. apply Hrt. }
  clearbody rt1. rewrite Ec1.
  destruct (negb (is_ok io) && negb (rc_continue_on_io_fault (rt_cfg rt))) eqn:Ei; intros Hx.
  - injection Hx as <- <- <-. exists pi1, m1, sts. rewrite Ei. do 4 (split; [done|]).
    split; [done|split; [done|split; [done|]]]. rewrite Hu1. done.
  - injection Hx as Hx. apply scan_execute_spec in Hx as (-> & H1 & H2 & _ & H4 & H5 & H6 & H7 & _ & _ & _ & (ctx & C1 & C2 & _ & C3) & H9 & H10);
      [|done|by rewrite Eg1|done].
    exists pi1, m1, sts. rewrite Ei. do 4 (split; [done|]). split; [done|split; [done|split; [done|]]].
    split; [congruence|split; [congruence|split; [congruence|]]]. rewrite <- El1, <- En1, <- Ef1.
    split; [|done]. exists ctx. rewrite Eg1, Ep1, Hu1 in C3. done.
Qed.
End Scan.

(** ** Running *)

Lemma ticking_nanosleep (sec nsec : Z) (w w' : ticking) :
  clock_nanosleep (sec, nsec) w = (0, w') -> Z.min (sec * 1000000000 + nsec) (2 ^ 62 - 1) <= clock_ns w'.
Proof. destruct w as [now step]. simpl. intros [= <-]. simpl. lia. Qed.

#[export] Instance ticking_tasking_laws : TaskingLaws ticking.
Proof.
  refine {| interruptions _ := 0%nat; nanosleep_done := ticking_nanosleep |}.
  - intros [s n] [now step] w'. done.
  - intros [s n] [now step]. by left.
  - done.
Defined.

Section Returns.
Context {W A U : Type} {CW : Clock W} {IW : WorldInv W} {LW : ClockLaws W}.
Implicit Types (rt : plc_runtime U) (m : mem W A U).

(** Every adapter in the store has an exchange that returns. *)
Definition all_return m : Prop :=
  forall o v, In o (mm_adapters m) -> ad_vtbl o = Some v -> AdapterReturns v.

Lemma exchange_returns_obj (a : option (plc_protocol_adapter W A)) out ol inb il w :
  (forall o v, a = Some o -> ad_vtbl o = Some v -> AdapterReturns v) ->
  exists st a' inb' w', plc_adapter_exchange a out ol inb il w = Some (st, a', inb', w') /\
    (forall o', a' = Some o' -> exists o, a = Some o /\ ad_vtbl o' = ad_vtbl o).
Proof.
  intros Hr. unfold plc_adapter_exchange.
  destruct (entry vt_exchange a) as [[f o]|] eqn:E; [|by eexists _, _, _, _; split; [done|eauto]].
  split_if; [by eexists _, _, _, _; split; [done|eauto]|].
  destruct a as [[[v|] i]|]; simpl in E; try done.
  destruct (vt_exchange v) as [f'|] eqn:Ef; [|done]. injection E as <- <-.
  destruct (Hr _ v eq_refl eq_refl f' i out ol inb il w Ef) as [[[[st i'] inb'] w'] Hx].
  simpl. rewrite Hx. eexists _, _, _, _. split; [done|]. intros o' [= <-]. by eexists.
Qed.

Lemma all_return_insert m h a' w :
  all_return m -> (forall o', a' = Some o' -> exists o, mm_adapters m !! h = Some o /\ ad_vtbl o' = ad_vtbl o) ->
  all_return (m <| mm_world := w |> <| mm_adapters :=
    match a' with Some a => <[h := a]> (mm_adapters m) | None => mm_adapters m end |>).
Proof.
  intros Hr Ha o v Ho Hv. simpl in Ho. destruct a' as [o'|]; [|by apply (Hr o)].
  destruct (Ha o' eq_refl) as (o0 & Hl & Ev).
  apply list_elem_of_In, list_elem_of_lookup in Ho as [k Hk].
  destruct (decide (k = h)) as [->|Hne].
  - rewrite list_lookup_insert_eq in Hk by (by eapply lookup_lt_Some). injection Hk as <-.
    apply (Hr o0); [|congruence]. apply list_elem_of_In. by eapply list_elem_of_lookup_2.
  - rewrite list_lookup_insert_ne in Hk by done. apply (Hr o); [|done].
    apply list_elem_of_In. by eapply list_elem_of_lookup_2.
Qed.

Lemma scan_io_returns bs : forall worst rt m, all_return m ->
  exists st pi' m', scan_io_loop bs worst rt m = Some (st, rt <| rt_pi := pi' |>, m') /\ all_return m'.
Proof.
  induction bs as [|b bs IH]; intros worst rt m Hr; simpl.
  { exists worst, (rt_pi rt), m. split; [by destruct rt|done]. }
  destruct (plc_pi_area _ _) as [base|]; [|exists PLC_ERR_STATE, (rt_pi rt), m; split; [by destruct rt|done]].
  unfold exchange_binding. cbv zeta.
  match goal with |- context [plc_adapter_exchange ?a ?o ?ol ?i ?il ?w] =>
    destruct (exchange_returns_obj a o ol i il w) as (st & a' & inb' & w' & -> & Ha) end.
  { intros o v Ho Hv. apply (Hr o); [|done]. apply list_elem_of_In. by eapply list_elem_of_lookup_2. }
  match goal with |- context [scan_io_loop bs ?wo ?rt1 ?m1] =>
    destruct (IH wo rt1 m1) as (st2 & pi2 & m2 & -> & Hr2) end.
  { by apply all_return_insert. }
  by exists st2, pi2, m2.
Qed.

(** A scan returns, and its effect on what the run loop looks at. *)
Lemma scan_once_returns rt m :
  all_return m -> rc_continue_on_io_fault (rt_cfg rt) = true ->
  exists st rt' m', plc_runtime_scan_once (Some rt) m = Some (st, Some rt', m') /\ all_return m' /\
    rt_cfg rt' = rt_cfg rt /\ rt_stop rt' = rt_stop rt /\ rt_scan_no rt' = u64 (rt_scan_no rt + 1) /\
    clock_ns (mm_world m) <= rt_last_scan_ns rt'.
Proof.
  intros Hr Hc. cbn [plc_runtime_scan_once].
  destruct (now_ns_reads (mm_world m)) as (t0 & w0 & -> & Ht0 & _).
  set (rt0 := if rt_first_scan rt then _ else rt).
  assert (rt_cfg rt0 = rt_cfg rt /\ rt_stop rt0 = rt_stop rt /\ rt_scan_no rt0 = rt_scan_no rt) as (E1 & E2 & E3)
    by (subst rt0; by destruct (rt_first_scan rt)).
  clearbody rt0. unfold scan_io.
  destruct (scan_io_returns (rt_bindings rt0) PLC_OK rt0 (m <| mm_world := w0 |>)) as (st & pi & m1 & -> & Hr1);
    [done|].
  set (rt1 := if is_ok st then _ else _).
  assert (rt_cfg rt1 = rt_cfg rt /\ rt_stop rt1 = rt_stop rt /\ rt_scan_no rt1 = rt_scan_no rt) as (F1 & F2 & F3)
    by (subst rt1; by destruct (is_ok st)).
  clearbody rt1. rewrite F1, Hc, andb_false_r. unfold scan_execute.
  destruct (run_programs _ _ _ _) as [u pi1]. set (rt2 := match plc_pi_area _ _ with Some _ => _ | None => _ end).
  assert (rt_cfg rt2 = rt_cfg rt /\ rt_stop rt2 = rt_stop rt /\ rt_scan_no rt2 = rt_scan_no rt) as (G1 & G2 & G3).
  { subst rt2. destruct (plc_pi_area _ _); [|done]. by destruct (_ =? 0). }
  clearbody rt2. destruct (now_ns _) as [t1 w1]. rewrite account_frame.
  eexists _, _, _. split; [done|]. simpl. rewrite G1, G2, G3. do 4 (split; [done|]). lia.
Qed.
End Returns.

Section Run.
Context {W A U : Type} {CW : Clock W} {IW : WorldInv W} {LW : ClockLaws W} {TW : Tasking W} {TL : TaskingLaws W}.
Implicit Types (rt : plc_runtime U) (m : mem W A U).

Lemma clock_ns_small (w : W) : clock_ns w < 2 ^ 62.
Proof.
  pose proof (clock_reads w) as Hr. destruct (clock_gettime w) as [[s n] w']. lia.
Qed.

Lemma sleep_until_returns deadline : forall n (w : W), (interruptions w <= n)%nat ->
  exists w', (forall fuel, (S n <= fuel)%nat -> sleep_until fuel deadline w = Some w') /\
    Z.min deadline (2 ^ 62 - 1) <= clock_ns w'.
Proof.
  assert (Z.quot deadline 1000000000 * 1000000000 + Z.rem deadline 1000000000 = deadline) as Hd
    by (pose proof (Z.quot_rem' deadline 1000000000); lia).
  induction n as [|n IH]; intros w Hn;
    destruct (clock_nanosleep (Z.quot deadline 1000000000, Z.rem deadline 1000000000) w) as [rc w1] eqn:E;
    pose proof (nanosleep_result (Z.quot deadline 1000000000, Z.rem deadline 1000000000) w) as Hrc;
    rewrite E in Hrc; simpl in Hrc; destruct Hrc as [->| ->].
  - exists w1. split; [|apply nanosleep_done in E; lia].
    intros [|fuel] Hf; [lia|]. simpl. by rewrite E.
  - apply nanosleep_eintr in E. lia.
  - exists w1. split; [|apply nanosleep_done in E; lia].
    intros [|fuel] Hf; [lia|]. simpl. by rewrite E.
  - pose proof (nanosleep_eintr _ _ _ E). destruct (IH w1) as (w2 & Hw2 & Hc); [lia|].
    exists w2. split; [|done]. intros [|fuel] Hf; [lia|]. simpl. rewrite E. simpl. apply Hw2. lia.
Qed.

(** The loop from its head, with [k + 1] scans to go. *)
Lemma run_loop_returns (k : nat) : forall max_scans period deadline rt m,
  all_return m -> rc_continue_on_io_fault (rt_cfg rt) = true ->
  0 < max_scans < 2 ^ 64 -> 0 <= rt_scan_no rt < 2 ^ 64 - 1 ->
  Z.of_nat k = Z.max (rt_scan_no rt + 1) max_scans - (rt_scan_no rt + 1) ->
  0 <= period -> 0 <= deadline -> deadline + Z.of_nat k * period < 2 ^ 63 ->
  2 ^ 62 + Z.of_nat k * period < 2 ^ 63 ->
  (0 < period -> Z.min deadline (2 ^ 62 - 1) <= clock_ns (mm_world m)) ->
  exists N rt' m', (forall fuel, (N <= fuel)%nat ->
      run_loop fuel max_scans period deadline rt m = Some (PLC_OK, rt', m')) /\
    rt_scan_no rt' <= rt_scan_no rt + 1 + Z.of_nat k /\
    (rt_stop rt' = true \/
     rt_scan_no rt' = rt_scan_no rt + 1 + Z.of_nat k /\
     (0 < period -> Z.min (deadline + Z.of_nat k * period) (2 ^ 62 - 1) <= rt_last_scan_ns rt')).
Proof.
  induction k as [|k IH]; intros max_scans period deadline rt m Hr Hc Hm Hs Hk Hp Hd Hov Hov2 Hclk;
    destruct (signal_pending (mm_world m)) as [sig w] eqn:Esig;
    pose proof (signal_clock (mm_world m)) as Hsc; rewrite Esig in Hsc; simpl in Hsc;
    set (rt0 := if sig then default rt (plc_runtime_request_stop (Some rt)) else rt);
    assert (rt_cfg rt0 = rt_cfg rt /\ rt_scan_no rt0 = rt_scan_no rt) as [E1 E2] by (subst rt0; by destruct sig);
    (destruct (rt_stop rt0) eqn:Estop;
     [exists 1%nat, rt0, (m <| mm_world := w |>); split;
        [intros [|fuel] Hf; [lia|]; cbn [run_loop]; rewrite Esig; fold rt0; by rewrite Estop
        |rewrite E2; split; [lia|by left]]|]);
    destruct (scan_once_returns rt0 (m <| mm_world := w |>)) as (st & rt1 & m1 & Hx & Hr1 & F1 & F2 & F3 & F4);
    try done; [by rewrite E1| |by rewrite E1|];
    rewrite E2, u64_small in F3 by lia; simpl in F4.
  - exists 1%nat, rt1, m1. split.
    + intros [|fuel] Hf; [lia|]. cbn [run_loop]. rewrite Esig. fold rt0. rewrite Estop, Hx, F1, E1, Hc, andb_false_r, F3.
      destruct (Z.eqb_spec max_scans 0); [lia|].
      destruct (Z.geb_spec (rt_scan_no rt + 1) max_scans); [done|lia].
    + rewrite F3. split; [lia|]. right. split; [lia|]. intros Hpos. specialize (Hclk Hpos). lia.
  - assert (rt_scan_no rt + 1 < max_scans) as Hlt by lia.
    assert (rc_continue_on_io_fault (rt_cfg rt1) = true) as Hc1 by (by rewrite F1, E1).
    destruct (decide (0 < period)) as [Hpos|Hz].
    + destruct (now_ns_reads (mm_world m1)) as (t & w1 & Hn & Ht & Ht62 & _).
      set (d1 := if s64 (deadline + period) <? t then t else s64 (deadline + period)).
      assert (s64 (deadline + period) = deadline + period) as Es by (apply s64_small; nia).
      assert (deadline + period <= d1 /\ (d1 = deadline + period \/ d1 = t)) as [Hd1 Hd2]
        by (subst d1; rewrite Es; destruct (Z.ltb_spec (deadline + period) t); lia).
      destruct (sleep_until_returns d1 (interruptions w1) w1) as (w2 & Hsl & Hcl); [lia|].
      destruct (IH max_scans period d1 rt1 (m1 <| mm_world := w2 |>)) as (N & rt' & m' & Hrun & Hle & Hfin);
        [done|done|done|lia|lia|lia|lia|nia|nia|done|].
      exists (S (N + S (interruptions w1)))%nat, rt', m'. split.
      * intros [|fuel] Hf; [lia|]. cbn [run_loop]. rewrite Esig. fold rt0.
        rewrite Estop, Hx, Hc1, andb_false_r, F3.
        destruct (Z.eqb_spec max_scans 0); [lia|].
        destruct (Z.geb_spec (rt_scan_no rt + 1) max_scans); [lia|]. cbn [negb andb].
        destruct (Z.gtb_spec period 0); [|lia]. rewrite Hn. fold d1.
        rewrite Hsl by lia. apply Hrun. lia.
      * rewrite F3 in Hle, Hfin. split; [lia|]. destruct Hfin as [?|[H1 H2]]; [by left|right].
        split; [lia|]. intros _. specialize (H2 Hpos). nia.
    + assert (period = 0) as -> by lia.
      destruct (IH max_scans 0 deadline rt1 m1) as (N & rt' & m' & Hrun & Hle & Hfin);
        [done|done|done|lia|lia|lia|lia|lia|lia|lia|].
      exists (S N), rt', m'. split.
      * intros [|fuel] Hf; [lia|]. cbn [run_loop]. rewrite Esig. fold rt0.
        rewrite Estop, Hx, Hc1, andb_false_r, F3.
        destruct (Z.eqb_spec max_scans 0); [lia|].
        destruct (Z.geb_spec (rt_scan_no rt + 1) max_scans); [lia|]. cbn [negb andb]. apply Hrun. lia.
      * rewrite F3 in Hle, Hfin. split; [lia|]. destruct Hfin as [?|[H1 H2]]; [by left|right].
        split; [lia|]. lia.
Qed.
End Run.
