(* ===== verification/RuntimeProps.v ===== *)
(** * What the scan engine guarantees

    The theorems about [src/core/plc_runtime.c], proved from the adapter
    contract: binding, the phases of a scan, the scan of latency between
    computing and transmitting an output, allocation, and the paced run
    loop.  [recording] wraps any adapter so that the calls it receives can be
    counted; the examples run the engine on the loopback adapter. *)

From Stdlib Require Import ZArith Lia.
From stdpp Require Import base list strings tactics.
From S2P Require Import Prelude PlcTypes ProcessImage Adapter Loopback Runtime.

(** ** Recording adapters

    [recording v] is the table [v] with every call of [exchange] logged: the
    bytes it was handed. *)

Section Recording.
Context {W A U : Type} {CW : Clock W} {IW : WorldInv W} {LW : ClockLaws W}.

Definition recording (v : plc_adapter_vtbl W A) : plc_adapter_vtbl W (A * list (list Z)) :=
  Vtbl (option_map (fun f a cfg w => let '(st, i, w) := f a.1 cfg w in (st, (i, a.2), w)) (vt_open v))
       (option_map (fun f a w => let '(st, i, w) := f a.1 w in (st, (i, a.2), w)) (vt_close v))
       (option_map (fun f a out out_len inb in_len w =>
          match f a.1 out out_len inb in_len w with
          | None => None
          | Some (st, i, inb, w) =>
              Some (st, (i, a.2 ++ [take (Z.to_nat out_len) (default [] out)]), inb, w)
          end) (vt_exchange v))
       (option_map (fun f a => f a.1) (vt_get_caps v))
       (option_map (fun f a => f a.1) (vt_get_stats v))
       (option_map (fun f a => f a.1) (vt_state v)).

#[export] Instance recording_laws v (L : AdapterLaws v) : AdapterLaws (recording v).
Proof.
  refine {| ad_inv a := ad_inv a.1; ad_caps a := ad_caps a.1; ad_state a := ad_state a.1; ad_held a := ad_held a.1 |}.
  - intros [a tr] out. destruct (law_caps a out) as (f & Hf & E). simpl. rewrite Hf. simpl. by eexists.
  - intros [a tr]. destruct (law_state a) as (f & Hf & E). simpl. rewrite Hf. simpl. by eexists.
  - destruct law_exchange as (f & Hf & Hl). simpl. rewrite Hf. simpl. eexists. split; [done|].
    intros [a tr] out inb w st [a' tr'] inb' w' Hi Hw Ho Hx Hz Hb Hl1. simpl in *.
    destruct (f a out _ _ _ w) as [[[[st1 a1] inb1] w1]|] eqn:E; [|done]. injection Hx as <- <- <- <- <-.
    destruct (Hl a out inb w st1 a1 inb1 w1 Hi Hw Ho E Hz Hb Hl1) as (H1 & H2 & H3 & i & H4 & H5 & H6 & H7).
    split; [done|split; [done|split; [done|]]]. exists i. split; [done|split; [done|split; [done|]]].
    done.
Defined.

(** A lawful adapter under the recorder, and its log. *)
Definition recorded (caps : plc_adapter_caps) (o : plc_protocol_adapter W (A * list (list Z))) : Prop :=
  exists v (L : AdapterLaws v), ad_vtbl o = Some (recording v) /\ ad_inv (ad_impl o).1 /\ ad_caps (ad_impl o).1 = caps.
Definition log_of (m : mem W (A * list (list Z)) U) (b : plc_io_binding) : list (list Z) :=
  match mm_adapters m !! b_adapter b with Some o => (ad_impl o).2 | None => [] end.

Lemma recorded_lawful caps o : recorded caps o -> lawful caps o.
Proof. intros (v & L & Hv & Hi & Hc). by exists (recording v), (recording_laws v L). Qed.

Lemma exchange_binding_log (rt : plc_runtime U) b m o st rt' m' :
  rt_inv rt -> binding_ok rt b -> mm_adapters m !! b_adapter b = Some o -> recorded (b_caps b) o ->
  exchange_binding rt (PLC_AREA_I, 0) b m = Some (st, rt', m') ->
  log_of m' b = log_of m b ++ [bslice (b_q_offset b) (cap_output_bytes (b_caps b)) (rt_q_shadow rt)].
Proof.
  intros Hrt Hb Ho (v & L & Hv & _ & _) Hx. destruct (shadow_slice rt b Hrt Hb) as (Hs1 & _ & _).
  destruct law_exchange as (f & Hf & _). unfold exchange_binding in Hx. rewrite Ho in Hx.
  destruct o as [ov oi]; simpl in *. subst ov. unfold plc_adapter_exchange, entry in Hx.
  simpl in Hx. rewrite Hf in Hx. simpl in Hx. rewrite andb_false_r, orb_false_r in Hx.
  set (out := if _ : bool then Some _ else None) in Hx.
  assert (negb (cap_output_bytes (b_caps b) =? 0) && bool_decide (out = None) = false) as Hg.
  { subst out. destruct (Z.eqb_spec (cap_output_bytes (b_caps b)) 0); simpl; [done|].
    rewrite (proj2 (Z.leb_le _ _)) by done. done. }
  rewrite Hg in Hx. destruct (f _ _ _ _ _ _) as [[[[st1 i1] inb1] w1]|]; [|done]. simpl in Hx.
  injection Hx as <- <- <-. unfold log_of. simpl. rewrite Ho.
  rewrite list_lookup_insert_eq by (by eapply lookup_lt_Some). simpl.
  do 2 f_equal. unfold bslice. subst out. destruct (Z.eqb_spec (cap_output_bytes (b_caps b)) 0) as [->|]; simpl; [done|].
  by rewrite (proj2 (Z.leb_le _ _)).
Qed.

Lemma scan_io_log bs : forall worst (rt : plc_runtime U) m st rt' m',
  rt_inv rt -> Forall (binding_ok rt) bs -> NoDup (map b_adapter bs) -> world_ok (mm_world m) ->
  (forall b, In b bs -> exists o, mm_adapters m !! b_adapter b = Some o /\ recorded (b_caps b) o) ->
  scan_io_loop bs worst rt m = Some (st, rt', m') ->
  (forall b, In b bs -> log_of m' b
     = log_of m b ++ [bslice (b_q_offset b) (cap_output_bytes (b_caps b)) (rt_q_shadow rt)]) /\
  (forall h, ~ In h (map b_adapter bs) -> mm_adapters m' !! h = mm_adapters m !! h) /\
  (forall b, In b bs -> exists o, mm_adapters m' !! b_adapter b = Some o /\ recorded (b_caps b) o).
Proof.
  induction bs as [|b bs IH]; intros worst rt m st rt' m' Hrt HF Hnd Hw Hrec Hx.
  { injection Hx as <- <- <-. done. }
  cbn [scan_io_loop] in Hx. unfold plc_pi_area in Hx. pose proof Hrt as (Hwf & _).
  rewrite (area_ok_wf _ _ Hwf) in Hx. cbn in Hx. change (0, 0) with (PLC_AREA_I, 0) in Hx.
  destruct (exchange_binding rt (PLC_AREA_I, 0) b m) as [[[st1 rt1] m1]|] eqn:Eb; [|done].
  inversion HF as [|? ? Hb HF']; subst. inversion Hnd as [|? ? Hni Hnd']; subst. rewrite list_elem_of_In in Hni.
  destruct (Hrec b (or_introl eq_refl)) as (o & Ho & Hr).
  pose proof (exchange_binding_log rt b m o st1 rt1 m1 Hrt Hb Ho Hr Eb) as Hlog.
  destruct Hr as (v & L & Hv & Hi & Hcp).
  destruct (exchange_binding_spec (recording v) (recording_laws v L) rt b m o st1 rt1 m1 Hrt Hb Hw Ho Hv Hi Hcp Eb)
    as (o' & after & pi1 & (Hv' & Hi' & Hcp') & _ & _ & -> & Hwf1 & Hsz1 & _ & Ha1 & _ & Hw1).
  assert (forall c, In c bs -> b_adapter b <> b_adapter c) as Hne.
  { intros c Hc E. apply Hni. rewrite E. by apply in_map. }
  destruct (IH (if is_ok st1 then worst else st1) (rt <| rt_pi := pi1 |>) m1 st rt' m') as (IH1 & IH2 & IH3);
    [by apply rt_inv_pi| |done|done| |done|].
  { eapply Forall_impl; [|exact HF']. intros c. unfold binding_ok. simpl. by rewrite !Hsz1. }
  { intros c Hc. rewrite Ha1, list_lookup_insert_ne by (by apply Hne). apply Hrec. by right. }
  assert (log_of m' b = log_of m1 b) as Elog by (unfold log_of; by rewrite IH2).
  split; [|split].
  - intros c [<-|Hc]; [by rewrite Elog|]. rewrite IH1 by done. unfold log_of.
    by rewrite Ha1, list_lookup_insert_ne by (by apply Hne).
  - intros h Hh. simpl in Hh. rewrite IH2, Ha1 by tauto. apply list_lookup_insert_ne. tauto.
  - intros c [<-|Hc]; [|by apply IH3]. rewrite IH2 by done. rewrite Ha1.
    rewrite list_lookup_insert_eq by (by eapply lookup_lt_Some). eexists. split; [done|].
    by exists v, L.
Qed.
End Recording.

(** ** An example configuration

    Two loopback adapters and a program that copies an input byte, plus one,
    to an output byte. *)

Definition inc_pou : plc_pou_fn unit := fun ctx u pi =>
  (u, default pi (plc_pi_set_byte (Some pi) PLC_AREA_Q 1
                    (u8 (plc_pi_get_byte (Some pi) PLC_AREA_I 0 + 1)))).

Definition ex_config : plc_runtime_config := RtConfig 10000 8 8 4 true.

Definition ex_adapter : plc_protocol_adapter ticking loopback_impl :=
  Adapter (Some kLoopbackVtbl) loopback_example.

Definition ex_mem : mem ticking loopback_impl unit := Mem (2000000, 1000) [ex_adapter; ex_adapter] tt.

Definition ex_rt0 : plc_runtime unit :=
  default (Runtime ex_config pi_zero [] [] [] 0 false 0 0 0 false (RtStats 0 0 0 0 0 0 0))
          (plc_runtime_create true (fun _ => true) true (Some ex_config) 0).1.

Definition ex_caps : plc_adapter_caps := lb_caps_ loopback_example.
Definition ex_bindings : list plc_io_binding := [Binding 0 0 0 ex_caps; Binding 1 4 4 ex_caps].
Definition ex_rt : plc_runtime unit :=
  ex_rt0 <| rt_bindings := ex_bindings |> <| rt_programs := [Program "inc" inc_pou 0] |>.

Lemma inc_pou_ok : pou_ok inc_pou.
Proof.
  intros ctx u pi Hwf. unfold inc_pou.
  destruct (set_byte_writes pi PLC_AREA_Q 1 (u8 (plc_pi_get_byte (Some pi) PLC_AREA_I 0 + 1)))
    as (pi1 & -> & Hwf1 & Hsz & _); [done|lia|apply u8_range|]. done.
Qed.

(** ** Properties *)

Lemma rt_inv_created {U} (pi : plc_process_image) cfg :
  pi_wf pi -> size_of pi PLC_AREA_Q = rc_q_bytes cfg -> 0 <= rc_q_bytes cfg ->
  rt_inv (Runtime (U := U) cfg pi [] [] (zeros (if rc_q_bytes cfg =? 0 then 1 else rc_q_bytes cfg))
            (rc_q_bytes cfg) false 0 0 0 true (RtStats 0 0 0 0 0 0 0)).
Proof.
  intros Hwf Hq Hp. split; [done|split; [done|split; [|split; [apply bytes_zeros|]]]]; simpl.
  - rewrite zlen_zeros; split_ifs; lia.
  - split; [done|split; [done|split; [constructor|lia]]].
Qed.

(** What creating a runtime gives, for programs over any memory. *)
Lemma runtime_created {U} (calloc_rt calloc_q : bool) (calloc_ok : Z -> bool) (cfg : plc_runtime_config) (live : Z) :
  0 <= rc_i_bytes cfg < 2 ^ 64 -> 0 <= rc_q_bytes cfg < 2 ^ 64 -> 0 <= rc_m_bytes cfg < 2 ^ 64 ->
  let '(p, live') := plc_runtime_create calloc_rt calloc_ok calloc_q (Some cfg) live in
  match p with
  | Some rt => calloc_rt && calloc_q && (calloc_ok 0 && calloc_ok 1 && calloc_ok 2) = true /\
               rt_inv (U := U) rt /\ rt_first_scan rt = true /\ rt_cfg rt = cfg /\
               (forall a, valid_area a -> view (rt_pi rt) a = zeros (size_of (rt_pi rt) a)) /\
               plc_runtime_destroy (Some rt) live' = live /\
               size_of (rt_pi rt) PLC_AREA_I = rc_i_bytes cfg /\ size_of (rt_pi rt) PLC_AREA_Q = rc_q_bytes cfg /\
               rt_bindings rt = [] /\ rt_programs rt = [] /\ rt_scan_no rt = 0
  | None => calloc_rt && calloc_q && (calloc_ok 0 && calloc_ok 1 && calloc_ok 2) = false /\ live' = live
  end.
Proof.
  intros Hi Hq Hm. unfold plc_runtime_create. destruct calloc_rt; [|done]. cbn [negb andb].
  cbn [rt_pi default]. unfold plc_pi_init. cbn [pi_init_loop]. change (0 + 1) with 1. change (1 + 1) with 2.
  destruct (pi_init_wf (rc_i_bytes cfg) (rc_q_bytes cfg) (rc_m_bytes cfg) (live + 1) Hi Hq Hm)
    as (pi & E & Hwf & Hown & Hsi & Hsq & _ & Hz & _).
  unfold plc_pi_init in E. cbn [pi_init_loop] in E. injection E as E. 
  destruct (calloc_ok 0), (calloc_ok 1), (calloc_ok 2); cbn -[plc_pi_free];
    try (rewrite andb_false_r; split; [done|simpl; lia]).
  change (negb (is_ok PLC_OK)) with false. cbv iota.
  destruct calloc_q; cbn -[plc_pi_free]; [|split; [done|]].
  - split; [done|]. split; [|split; [done|split; [done|split; [|split; [|subst pi; done]]]]].
    + apply (rt_inv_created (U := U) pi cfg) in Hsq; [|done|lia]. subst pi. exact Hsq.
    + subst pi. exact Hz.
    + unfold plc_runtime_destroy. simpl. lia.
  - simpl. lia.
Qed.

(** Creating a runtime never leaks and starts from the invariant.  When
    every allocation succeeds the runtime satisfies the engine's invariant,
    its image is zero, the first-scan flag is set, and destroying it frees
    exactly what creating it allocated; when any allocation fails [NULL] is
    returned and everything allocated on the way has been freed. *)
Theorem runtime_create_no_leak (calloc_rt calloc_q : bool) (calloc_ok : Z -> bool)
    (cfg : plc_runtime_config) (live : Z)
    (Hi : 0 <= rc_i_bytes cfg < 2 ^ 64) (Hq : 0 <= rc_q_bytes cfg < 2 ^ 64)
    (Hm : 0 <= rc_m_bytes cfg < 2 ^ 64) :
  let '(p, live') := plc_runtime_create calloc_rt calloc_ok calloc_q (Some cfg) live in
  match p with
  | Some rt => calloc_rt && calloc_q && (calloc_ok 0 && calloc_ok 1 && calloc_ok 2) = true /\
               rt_inv (U := unit) rt /\ rt_first_scan rt = true /\ rt_cfg rt = cfg /\
               (forall a, valid_area a -> view (rt_pi rt) a = zeros (size_of (rt_pi rt) a)) /\
               plc_runtime_destroy (Some rt) live' = live
  | None => calloc_rt && calloc_q && (calloc_ok 0 && calloc_ok 1 && calloc_ok 2) = false /\ live' = live
  end.
Proof.
  pose proof (runtime_created (U := unit) calloc_rt calloc_q calloc_ok cfg live Hi Hq Hm) as Hc.
  destruct (plc_runtime_create _ _ _ _ _) as [[rt|] live']; [|exact Hc].
  destruct Hc as (H1 & H2 & H3 & H4 & H5 & H6 & _). done.
Qed.

Lemma runtime_create_no_leak_witness :
  plc_runtime_create (U := unit) true (fun a => a <? 2) true (Some ex_config) 7 = (None, 7) /\
  rt_inv ex_rt0.
Proof.
  split.
  - pose proof (runtime_create_no_leak true true (fun a => a <? 2) ex_config 7) as H.
    destruct (plc_runtime_create true (fun a => a <? 2) true (Some ex_config) 7) as [[rt|] l] eqn:E.
    + vm_compute in E. discriminate.
    + f_equal. apply H; simpl; lia.
  - pose proof (runtime_create_no_leak true true (fun _ => true) ex_config 0) as H.
    unfold ex_rt0. destruct (plc_runtime_create true (fun _ => true) true (Some ex_config) 0) as [[rt|] l] eqn:E.
    + simpl. apply H; simpl; lia.
    + vm_compute in E. discriminate.
Defined.

(** What binding decides from the capabilities and the offsets. *)
Definition bind_status {U} (rt : plc_runtime U) (caps : plc_adapter_caps) (i_offset q_offset : Z) : plc_status :=
  if PLC_MAX_BINDINGS <=? zlen (rt_bindings rt) then PLC_ERR_NOMEM
  else if negb (cap_abi_version caps =? PLC_ADAPTER_ABI_VERSION) then PLC_ERR_PROTO
  else if (i_offset + cap_input_bytes caps <=? size_of (rt_pi rt) PLC_AREA_I) &&
          (q_offset + cap_output_bytes caps <=? size_of (rt_pi rt) PLC_AREA_Q) then PLC_OK
  else PLC_ERR_INVAL.

Lemma bind_spec {W A U} `{ClockLaws W} (rt : plc_runtime U) (m : mem W A U) h o caps i_off q_off :
  rt_inv rt -> mm_adapters m !! h = Some o -> lawful caps o ->
  0 <= cap_input_bytes caps -> 0 <= cap_output_bytes caps -> 0 <= i_off -> 0 <= q_off ->
  plc_runtime_bind_adapter (Some rt) (Some h) i_off q_off m =
    (bind_status rt caps i_off q_off,
     Some (if is_ok (bind_status rt caps i_off q_off)
           then rt <| rt_bindings := rt_bindings rt ++ [Binding h i_off q_off caps] |> else rt)).
Proof.
  intros Hrt Ho (v & L & Hv & _ & Hc) Hci Hco Hi Hq. pose proof Hrt as (Hwf & _).
  unfold plc_runtime_bind_adapter, bind_status. rewrite Z.geb_leb.
  destruct (PLC_MAX_BINDINGS <=? zlen (rt_bindings rt)); [done|].
  destruct (law_caps (ad_impl o) caps_zero) as (f & Hf & Ef).
  rewrite Ho. destruct o as [ov oi]; simpl in *. subst ov.
  unfold plc_adapter_get_caps, entry. rewrite Hf. simpl. rewrite Ef. simpl. rewrite Hc.
  destruct (cap_abi_version caps =? PLC_ADAPTER_ABI_VERSION); [|done]. simpl.
  unfold plc_pi_area_size. rewrite !(area_ok_wf _ _ Hwf). simpl.
  change (size_of (rt_pi rt) 0) with (size_of (rt_pi rt) PLC_AREA_I).
  set (si := size_of (rt_pi rt) PLC_AREA_I). set (sq := size_of (rt_pi rt) PLC_AREA_Q).
  destruct (Z.leb_spec (i_off + cap_input_bytes caps) si), (Z.leb_spec (q_off + cap_output_bytes caps) sq);
    destruct (Z.gtb_spec i_off si), (Z.gtb_spec (cap_input_bytes caps) (si - i_off)); simpl; try lia; try done;
    destruct (Z.gtb_spec q_off sq), (Z.gtb_spec (cap_output_bytes caps) (sq - q_off)); simpl; try lia; done.
Qed.

(** Binding is checked at configuration time.  Binding an adapter that
    fulfils the contract returns exactly the documented status (out of slots,
    foreign ABI, slice outside the image, or success), a refused binding leaves
    the runtime as it was, and an accepted one keeps the engine's invariant, so
    every slice the scan later touches lies inside the image. *)
Theorem runtime_bind_checked {W A U : Type} `{ClockLaws W} (rt : plc_runtime U) (m : mem W A U)
    (h : nat) (o : plc_protocol_adapter W A) (caps : plc_adapter_caps) (i_offset q_offset : Z)
    (Hrt : rt_inv rt) (Ho : mm_adapters m !! h = Some o) (Hl : lawful caps o)
    (Hci : 0 <= cap_input_bytes caps) (Hco : 0 <= cap_output_bytes caps)
    (Hi : 0 <= i_offset) (Hq : 0 <= q_offset) :
  exists rt', plc_runtime_bind_adapter (Some rt) (Some h) i_offset q_offset m
                = (bind_status rt caps i_offset q_offset, Some rt') /\ rt_inv rt' /\
    (bind_status rt caps i_offset q_offset <> PLC_OK -> rt' = rt) /\
    (bind_status rt caps i_offset q_offset = PLC_OK ->
       rt' = rt <| rt_bindings := rt_bindings rt ++ [Binding h i_offset q_offset caps] |>).
Proof.
  rewrite (bind_spec rt m h o caps) by done. eexists. split; [done|].
  unfold is_ok. destruct (decide (bind_status rt caps i_offset q_offset = PLC_OK)) as [E|E].
  - rewrite bool_decide_eq_true_2 by done. split; [|done]. unfold bind_status in E. repeat split_if; try done.
    destruct Hrt as (Hwf & Hsl & Hzl & Hbs & Hnb & Hnp & HF & Hn).
    do 4 (split; [done|]). simpl. rewrite zlen_app. split; [change (zlen [_]) with 1; lia|].
    split; [done|split; [|done]]. apply Forall_app_2; [done|]. constructor; [|constructor].
    unfold binding_ok. simpl. lia.
  - rewrite bool_decide_eq_false_2 by done. done.
Qed.

Lemma ex_adapter_lawful : lawful (lb_caps_ loopback_example) ex_adapter.
Proof. exists kLoopbackVtbl, loopback_laws. split; [done|split; [exact loopback_example_inv|done]]. Qed.

Lemma ex_rt0_inv : rt_inv ex_rt0.
Proof.
  destruct (pi_init_wf 8 8 4 1) as (pi & E & Hwf & _ & _ & Hsq & _); [lia..|].
  pose proof (rt_inv_created (U := unit) pi ex_config Hwf Hsq) as H. unfold ex_rt0, plc_runtime_create, plc_pi_init in *.
  cbn [pi_init_loop] in E. injection E as E. subst pi. apply H. simpl. lia.
Qed.

Lemma runtime_bind_checked_witness :
  exists rt', plc_runtime_bind_adapter (Some ex_rt0) (Some 0%nat) 0 0 ex_mem = (PLC_OK, Some rt') /\
    rt_inv rt' /\ map b_adapter (rt_bindings rt') = [0%nat].
Proof.
  destruct (runtime_bind_checked ex_rt0 ex_mem 0 ex_adapter (lb_caps_ loopback_example) 0 0)
    as (rt' & Hb & Hinv & _ & Hok);
    [exact ex_rt0_inv|reflexivity|exact ex_adapter_lawful|vm_compute; congruence|vm_compute; congruence|lia|lia|].
  exists rt'. split; [exact Hb|split; [exact Hinv|]].
  rewrite Hok by (vm_compute; reflexivity). vm_compute. reflexivity.
Defined.

(** The engine's configuration in the examples is in order. *)
Definition wired {W A U} `{ClockLaws W} (rt : plc_runtime U) (m : mem W A U) : Prop :=
  rt_inv rt /\ Forall (fun p => pou_ok (prog_fn p)) (rt_programs rt) /\
  NoDup (map b_adapter (rt_bindings rt)) /\ ForallOrdPairs slices_disjoint (rt_bindings rt) /\
  world_ok (mm_world m) /\ all_lawful (rt_bindings rt) m.

(** [C11] Every bound input is defined after a scan, and nothing else of the
    image is touched by the input phase.  Whatever the adapters answered, with
    the image [pi1] the programs ran on: each bound slice of [%I] is the fresh
    image of its adapter, its last good image, or zeros where the policy is
    CLEAR (its old bytes only for an adapter that is closed); the rest of
    [%I], all of [%Q] and all of [%M] are as they were; and the scan reports
    the last status that was not [PLC_OK]. *)
Theorem scan_inputs_defined {W A U : Type} `{ClockLaws W} (rt rt' : plc_runtime U) (m m' : mem W A U)
    (st : plc_status)
    (Hw : wired rt m) (Hx : plc_runtime_scan_once (Some rt) m = Some (st, Some rt', m')) :
  exists pi1 m1 sts,
    Forall2 (binding_answered m m1 (rt_pi rt) pi1) (rt_bindings rt) sts /\
    st = last_fault PLC_OK sts /\
    (forall off n, 0 <= off -> 0 <= n -> Forall (off_slice off n) (rt_bindings rt) ->
       bslice off n (view pi1 PLC_AREA_I) = bslice off n (view (rt_pi rt) PLC_AREA_I)) /\
    view pi1 PLC_AREA_Q = view (rt_pi rt) PLC_AREA_Q /\ view pi1 PLC_AREA_M = view (rt_pi rt) PLC_AREA_M /\
    (st <> PLC_OK -> rc_continue_on_io_fault (rt_cfg rt) = false -> rt_pi rt' = pi1) /\
    (st = PLC_OK \/ rc_continue_on_io_fault (rt_cfg rt) = true ->
       exists ctx, (mm_user m', rt_pi rt') = run_programs (rt_programs rt) ctx (mm_user m) pi1).
Proof.
  destruct Hw as (Hrt & Hps & Hnd & Hdis & Hwd & Hlaw).
  destruct (scan_once_spec rt m st rt' m' Hrt Hps Hnd Hdis Hwd Hlaw Hx)
    as (pi1 & m1 & sts & Ha & Hst & Hv & Ho & _ & _ & _ & _ & _ & _ & Hcase).
  exists pi1, m1, sts. split; [done|split; [done|split; [done|]]].
  split; [by apply Hv; [apply area_Q_valid|]|split; [by apply Hv; unfold valid_area, PLC_AREA_M, PLC_AREA__COUNT; [lia|]|]].
  unfold is_ok in Hcase. split.
  - intros Hne Hc. rewrite bool_decide_eq_false_2, Hc in Hcase by done. by destruct Hcase.
  - intros Hor. destruct (bool_decide (st = PLC_OK)) eqn:E; simpl in Hcase.
    + destruct Hcase as ((ctx & _ & _ & Hr) & _). by exists ctx.
    + apply bool_decide_eq_false in E. destruct Hor as [?|Hc]; [done|]. rewrite Hc in Hcase.
      destruct Hcase as ((ctx & _ & _ & Hr) & _). by exists ctx.
Qed.

Lemma ex_bindings_ok : Forall (binding_ok ex_rt0) ex_bindings.
Proof. repeat constructor; vm_compute; congruence. Qed.

Lemma ex_rt_inv : rt_inv ex_rt.
Proof.
  destruct ex_rt0_inv as (H1 & H2 & H3 & H4 & _).
  split; [exact H1|split; [exact H2|split; [exact H3|split; [exact H4|]]]].
  split; [unfold ex_rt, PLC_MAX_BINDINGS; simpl; unfold zlen; simpl; lia|].
  split; [unfold ex_rt, PLC_MAX_PROGRAMS; simpl; unfold zlen; simpl; lia|].
  split; [exact ex_bindings_ok|]. unfold ex_rt. simpl. vm_compute; split; congruence.
Qed.

Lemma ex_wired : wired ex_rt ex_mem.
Proof.
  split; [exact ex_rt_inv|]. split; [constructor; [apply inc_pou_ok|constructor]|].
  split; [apply (bool_decide_unpack (NoDup [0; 1]%nat)); vm_compute; exact I|].
  split.
  { apply FOP_cons; [constructor; [left; vm_compute; congruence|constructor]|].
    apply FOP_cons; [constructor|constructor]. }
  split; [exact I|]. intros b [<-|[<-|[]]]; exists ex_adapter; (split; [reflexivity|exact ex_adapter_lawful]).
Qed.

(** What the witnesses look at in the result of a scan. *)
Definition scan_summary {W A U} (r : option (plc_status * option (plc_runtime U) * mem W A U))
    : option (plc_status * Z * list Z * list Z) :=
  match r with
  | Some (st, Some rt, _) => Some (st, rt_scan_no rt, view (rt_pi rt) PLC_AREA_Q, rt_q_shadow rt)
  | _ => None
  end.

Lemma scan_summary_inv {W A U} (r : option (plc_status * option (plc_runtime U) * mem W A U)) st n q sh :
  scan_summary r = Some (st, n, q, sh) ->
  exists rt m, r = Some (st, Some rt, m) /\ rt_scan_no rt = n /\ view (rt_pi rt) PLC_AREA_Q = q /\ rt_q_shadow rt = sh.
Proof. destruct r as [[[s [rt|]] m]|]; try done. intros [= <- <- <- <-]. by exists rt, m. Qed.

Lemma scan_inputs_defined_witness :
  exists rt' m' pi1 m1 sts,
    plc_runtime_scan_once (Some ex_rt) ex_mem = Some (PLC_OK, Some rt', m') /\
    Forall2 (binding_answered ex_mem m1 (rt_pi ex_rt) pi1) (rt_bindings ex_rt) sts /\
    PLC_OK = last_fault PLC_OK sts /\ view (rt_pi rt') PLC_AREA_Q = [0; 1; 0; 0; 0; 0; 0; 0].
Proof.
  destruct (scan_summary_inv (plc_runtime_scan_once (Some ex_rt) ex_mem)
              PLC_OK 1 [0; 1; 0; 0; 0; 0; 0; 0] [0; 1; 0; 0; 0; 0; 0; 0]) as (rt' & m' & Hx & _ & Hq & _);
    [vm_compute; reflexivity|].
  destruct (scan_inputs_defined ex_rt rt' ex_mem m' PLC_OK ex_wired Hx) as (pi1 & m1 & sts & Ha & Hs & _).
  exists rt', m', pi1, m1, sts. split; [exact Hx|split; [exact Ha|split; [exact Hs|exact Hq]]].
Defined.

(** [C10] A scan that goes through latches its outputs and keeps the invariant;
    a scan stopped by the hard interlock runs no program.  When the inputs were
    in order, or the configuration says to continue, the shadow is the [%Q] the
    programs left and the scan counter has advanced; otherwise no program has
    run, the shadow, the counter and the first-scan flag are unchanged, and the
    fault is returned.  Either way the engine's invariant, its bindings and its
    adapters' capabilities survive. *)
Theorem scan_latch_or_interlock {W A U : Type} `{ClockLaws W} (rt rt' : plc_runtime U) (m m' : mem W A U)
    (st : plc_status)
    (Hw : wired rt m) (Hx : plc_runtime_scan_once (Some rt) m = Some (st, Some rt', m')) :
  wired rt' m' /\ rt_bindings rt' = rt_bindings rt /\ rt_cfg rt' = rt_cfg rt /\
  if negb (is_ok st) && negb (rc_continue_on_io_fault (rt_cfg rt)) then
    rt_q_shadow rt' = rt_q_shadow rt /\ rt_scan_no rt' = rt_scan_no rt /\
    rt_first_scan rt' = rt_first_scan rt /\ mm_user m' = mm_user m /\
    view (rt_pi rt') PLC_AREA_Q = view (rt_pi rt) PLC_AREA_Q
  else
    bslice 0 (rt_q_shadow_len rt) (rt_q_shadow rt') = view (rt_pi rt') PLC_AREA_Q /\
    rt_scan_no rt' = u64 (rt_scan_no rt + 1).
Proof.
  destruct Hw as (Hrt & Hps & Hnd & Hdis & Hwd & Hlaw).
  destruct (scan_once_spec rt m st rt' m' Hrt Hps Hnd Hdis Hwd Hlaw Hx)
    as (pi1 & m1 & sts & Ha & Hst & Hv & Ho & Had & Hrt' & Hw' & Hb & Hp & Hc & Hcase).
  split; [|split; [done|split; [done|]]].
  - split; [done|]. rewrite Hb, Hp. do 4 (split; [done|]). intros b Hin. rewrite Had.
    apply list_elem_of_In, list_elem_of_lookup in Hin as [k Hk].
    destruct (Forall2_lookup_l _ _ _ k b Ha Hk) as (stb & _ & o & o' & _ & Ho' & Hans). exists o'. split; [done|]. by eapply answered_lawful.
  - split_if; [|by destruct Hcase]. destruct Hcase as (Hpi & H1' & H2' & H3' & H4').
    do 4 (split; [done|]). rewrite Hpi. by apply Hv; [apply area_Q_valid|].
Qed.

(** The same plant with a hard interlock and a field that has stopped
    answering. *)
Definition ex_hard : plc_runtime unit := ex_rt <| rt_cfg := ex_config <| rc_continue_on_io_fault := false |> |>.
Definition ex_mem_dead : mem ticking loopback_impl unit :=
  ex_mem <| mm_adapters := [Adapter (Some kLoopbackVtbl) loopback_missing; ex_adapter] |>.

Lemma ex_dead_wired : wired ex_hard ex_mem_dead.
Proof.
  destruct ex_wired as (Hi & Hp & Hn & Hd & _ & Hl).
  split; [exact Hi|split; [exact Hp|split; [exact Hn|split; [exact Hd|split; [exact I|]]]]].
  intros b [<-|[<-|[]]]; [exists (Adapter (Some kLoopbackVtbl) loopback_missing)|exists ex_adapter].
  - split; [reflexivity|]. exists kLoopbackVtbl, loopback_laws.
    split; [done|split; [exact loopback_missing_inv|reflexivity]].
  - split; [reflexivity|exact ex_adapter_lawful].
Qed.

Lemma scan_latch_or_interlock_witness :
  exists rt' m', plc_runtime_scan_once (Some ex_hard) ex_mem_dead = Some (PLC_ERR_TIMEOUT, Some rt', m') /\
    wired rt' m' /\ rt_scan_no rt' = 0 /\ rt_q_shadow rt' = zeros 8.
Proof.
  destruct (scan_summary_inv (plc_runtime_scan_once (Some ex_hard) ex_mem_dead) PLC_ERR_TIMEOUT 0 (zeros 8) (zeros 8))
    as (rt' & m' & Hx & _); [vm_compute; reflexivity|].
  destruct (scan_latch_or_interlock ex_hard rt' ex_mem_dead m' PLC_ERR_TIMEOUT ex_dead_wired Hx)
    as (Hw & _ & _ & Hsh & Hn & _).
  exists rt', m'. split; [exact Hx|split; [exact Hw|split; [exact Hn|exact Hsh]]].
Defined.

(** ** One call per scan, one scan of latency *)

Section Latency.
Context {W A U : Type} {CW : Clock W} {IW : WorldInv W} {LW : ClockLaws W}.
Implicit Types (rt : plc_runtime U) (m : mem W (A * list (list Z)) U).

Definition all_recorded (bs : list plc_io_binding) m : Prop :=
  forall b, In b bs -> exists o, mm_adapters m !! b_adapter b = Some o /\ recorded (b_caps b) o.

Lemma scan_execute_adapters t0 st rt m : mm_adapters (scan_execute t0 st rt m).2 = mm_adapters m.
Proof. unfold scan_execute. destruct (run_programs _ _ _ _). by destruct (now_ns _). Qed.

Lemma scan_once_log rt m st (ort : option (plc_runtime U)) m' :
  rt_inv rt -> NoDup (map b_adapter (rt_bindings rt)) -> world_ok (mm_world m) ->
  all_recorded (rt_bindings rt) m ->
  plc_runtime_scan_once (Some rt) m = Some (st, ort, m') ->
  all_recorded (rt_bindings rt) m' /\
  forall b, In b (rt_bindings rt) -> log_of m' b
    = log_of m b ++ [bslice (b_q_offset b) (cap_output_bytes (b_caps b)) (rt_q_shadow rt)].
Proof.
  intros Hrt Hnd Hw Hrec. cbn [plc_runtime_scan_once].
  destruct (now_ns_reads (mm_world m)) as (t0 & w0 & -> & _ & _ & Hw0). specialize (Hw0 Hw).
  set (rt0 := if rt_first_scan rt then _ else rt).
  assert (rt_inv rt0 /\ rt_bindings rt0 = rt_bindings rt /\ rt_q_shadow rt0 = rt_q_shadow rt) as (Hrt0 & Eb & Eq).
  { subst rt0. destruct (rt_first_scan rt); [|done]. split; [|done].
    apply (rt_inv_ext rt); try done. apply Hrt. }
  clearbody rt0. unfold scan_io.
  destruct (scan_io_loop (rt_bindings rt0) PLC_OK rt0 (m <| mm_world := w0 |>)) as [[[io rt1] m1]|] eqn:Eio;
    [|done].
  rewrite Eb in Eio. destruct (scan_io_log (rt_bindings rt) PLC_OK rt0 (m <| mm_world := w0 |>) io rt1 m1 Hrt0)
    as (Hlog & _ & Hrec1); [rewrite <- Eb; apply Hrt0|done|done|done|done|]. rewrite Eq in Hlog.
  split_if; intros Hx; [by injection Hx as <- <- <-|]. injection Hx as Hx.
  match type of Hx with scan_execute ?t ?s ?r ?mm = _ => pose proof (scan_execute_adapters t s r mm) as Ea end.
  rewrite Hx in Ea. simpl in Ea. unfold all_recorded, log_of in *. by rewrite Ea.
Qed.
End Latency.

(** [C2] Outputs reach the field one scan after they are computed, and every
    adapter is called exactly once per scan.  Let a scan go through, and
    another scan follow: between the two, each bound adapter's log grows by
    exactly one call, and the bytes that call carries are the adapter's slice
    of the [%Q] the first scan's programs left, whatever the second scan
    computes and whatever the adapters answer. *)
Theorem outputs_one_scan_late {W A U : Type} `{ClockLaws W} (rt rt1 rt2 : plc_runtime U)
    (m m1 m2 : mem W (A * list (list Z)) U) (st1 st2 : plc_status) (b : plc_io_binding)
    (Hw : wired rt m) (Hrec : all_recorded (rt_bindings rt) m)
    (Hscan1 : plc_runtime_scan_once (Some rt) m = Some (st1, Some rt1, m1))
    (Hthrough : st1 = PLC_OK \/ rc_continue_on_io_fault (rt_cfg rt) = true)
    (Hscan2 : plc_runtime_scan_once (Some rt1) m1 = Some (st2, Some rt2, m2))
    (Hb : In b (rt_bindings rt)) :
  length (log_of m1 b) = S (length (log_of m b)) /\
  log_of m2 b = log_of m1 b ++
    [bslice (b_q_offset b) (cap_output_bytes (b_caps b)) (view (rt_pi rt1) PLC_AREA_Q)].
Proof.
  destruct Hw as (Hrt & Hps & Hnd & Hdis & Hwd & Hlaw).
  destruct (scan_once_spec rt m st1 rt1 m1 Hrt Hps Hnd Hdis Hwd Hlaw Hscan1)
    as (pi1 & m1' & sts & _ & _ & _ & _ & _ & Hrt1 & Hw1 & Eb & _ & _ & Hcase).
  destruct (scan_once_log rt m st1 (Some rt1) m1 Hrt Hnd Hwd Hrec Hscan1) as [Hrec1 Hlog1].
  destruct (scan_once_log rt1 m1 st2 (Some rt2) m2 Hrt1) as [_ Hlog2]; [by rewrite Eb|done|by rewrite Eb|done|].
  split; [rewrite Hlog1, length_app by done; simpl; lia|]. rewrite Hlog2 by (by rewrite Eb). do 2 f_equal.
  assert (negb (is_ok st1) && negb (rc_continue_on_io_fault (rt_cfg rt)) = false) as Hgo.
  { unfold is_ok. destruct Hthrough as [->|E]; [done|]. rewrite E. apply andb_false_r. }
  rewrite Hgo in Hcase. destruct Hcase as (_ & <- & _).
  pose proof Hrt as (_ & Hq & _ & _ & _ & _ & HF & _). rewrite List.Forall_forall in HF.
  destruct (HF b Hb) as (_ & H2' & _ & H4' & _ & H6'). rewrite bslice_bslice by lia. done.
Qed.

(** Two recorded loopback adapters under the example engine. *)
Definition ex_recorded : plc_protocol_adapter ticking (loopback_impl * list (list Z)) :=
  Adapter (Some (recording kLoopbackVtbl)) (loopback_example, []).
Definition ex_rmem : mem ticking (loopback_impl * list (list Z)) unit :=
  Mem (2000000, 1000) [ex_recorded; ex_recorded] tt.

Lemma ex_recorded_all : all_recorded (rt_bindings ex_rt) ex_rmem.
Proof.
  intros b [<-|[<-|[]]]; exists ex_recorded; (split; [reflexivity|]);
    exists kLoopbackVtbl, loopback_laws; (split; [done|split; [exact loopback_example_inv|done]]).
Qed.

Lemma ex_recorded_wired : wired ex_rt ex_rmem.
Proof.
  destruct ex_wired as (Hi & Hp & Hn & Hd & _ & _).
  do 4 (split; [assumption|]). split; [exact I|].
  intros b Hb. destruct (ex_recorded_all b Hb) as (o & Ho & Hr). exists o. split; [done|].
  by apply recorded_lawful.
Qed.

Lemma outputs_one_scan_late_witness :
  exists rt1 m1 rt2 m2,
    plc_runtime_scan_once (Some ex_rt) ex_rmem = Some (PLC_OK, Some rt1, m1) /\
    plc_runtime_scan_once (Some rt1) m1 = Some (PLC_OK, Some rt2, m2) /\
    log_of m2 (Binding 0 0 0 ex_caps) = log_of m1 (Binding 0 0 0 ex_caps) ++ [[0; 1; 0; 0]].
Proof.
  destruct (scan_summary_inv (plc_runtime_scan_once (Some ex_rt) ex_rmem)
              PLC_OK 1 [0; 1; 0; 0; 0; 0; 0; 0] [0; 1; 0; 0; 0; 0; 0; 0]) as (rt1 & m1 & Hx1 & _ & Hq & _);
    [vm_compute; reflexivity|].
  assert (scan_summary (plc_runtime_scan_once (Some rt1) m1)
            = Some (PLC_OK, 2, [0; 1; 0; 0; 0; 0; 0; 0], [0; 1; 0; 0; 0; 0; 0; 0])) as Hs.
  { transitivity (scan_summary (match plc_runtime_scan_once (Some ex_rt) ex_rmem with
                                | Some (_, Some rt, m) => plc_runtime_scan_once (Some rt) m
                                | _ => None end)); [rewrite Hx1; reflexivity|vm_compute; reflexivity]. }
  destruct (scan_summary_inv _ _ _ _ _ Hs) as (rt2 & m2 & Hx2 & _).
  exists rt1, m1, rt2, m2. split; [exact Hx1|split; [exact Hx2|]].
  destruct (outputs_one_scan_late ex_rt rt1 rt2 ex_rmem m1 m2 PLC_OK PLC_OK (Binding 0 0 0 ex_caps)
              ex_recorded_wired ex_recorded_all Hx1 (or_introl eq_refl) Hx2) as [_ Hl]; [left; reflexivity|].
  rewrite Hl, Hq. reflexivity.
Defined.

(** ** The run loop *)

(** The loop from its entry. *)
Lemma runtime_runs {W A U : Type} `{ClockLaws W, !Tasking W, !TaskingLaws W}
    (rt : plc_runtime U) (m : mem W A U) (max_scans : Z)
    (Hret : all_return m) (Hcont : rc_continue_on_io_fault (rt_cfg rt) = true)
    (Hmax : 0 < max_scans < 2 ^ 64) (Hscan : 0 <= rt_scan_no rt < 2 ^ 64 - 1)
    (Hcyc : 0 <= rc_cycle_us (rt_cfg rt) < 2 ^ 32)
    (Hlife : max_scans * (rc_cycle_us (rt_cfg rt) * 1000) < 2 ^ 62) :
  let n := Z.max max_scans (rt_scan_no rt + 1) - rt_scan_no rt in
  exists N rt' m', (forall fuel, (N <= fuel)%nat ->
      plc_runtime_run fuel (Some rt) max_scans m = Some (PLC_OK, Some rt', m')) /\
    rt_scan_no rt' <= rt_scan_no rt + n /\
    (rt_stop rt' = true \/
     rt_scan_no rt' = rt_scan_no rt + n /\
     (0 < rc_cycle_us (rt_cfg rt) ->
        Z.min (clock_ns (mm_world m) + (n - 1) * (rc_cycle_us (rt_cfg rt) * 1000)) (2 ^ 62 - 1)
          <= rt_last_scan_ns rt')).
Proof.
  intros n. set (p := rc_cycle_us (rt_cfg rt) * 1000) in *.
  destruct (now_ns_reads (mm_world m)) as (d & w & Hn & Hd & Hd62 & _).
  assert (s64 p = p) as Hp by (apply s64_small; lia).
  destruct (run_loop_returns (Z.to_nat (n - 1)) max_scans p d (rt <| rt_stop := false |>) (m <| mm_world := w |>))
    as (N & rt' & m' & Hrun & Hle & Hfin); try done; simpl; try lia.
  { subst n. nia. } { subst n. nia. }
  exists N, rt', m'. split.
  - intros fuel Hf. unfold plc_runtime_run. rewrite Hn. simpl. fold p. rewrite Hp. by rewrite Hrun.
  - simpl in *. split; [lia|]. destruct Hfin as [?|[Hs Hc]]; [by left|right].
    split; [lia|]. intros Hpos. specialize (Hc ltac:(lia)). nia.
Qed.

(** [C12] The run loop of a fresh engine stops after N scans and never runs
    ahead of its period.  With adapters that return, faults tolerated and
    [max_scans > 0], [plc_runtime_run] on an engine that has not scanned yet
    returns [PLC_OK] for every sufficiently large number of steps, after exactly
    [max_scans] scans unless a stop was requested before; and with a non-zero
    period the last scan starts no earlier than [max_scans - 1] periods after the
    call, whatever overruns came between.  The monotonic clock is taken to stay
    below 2^62 ns (146 years), and the scans asked for to take less than that. *)
Theorem runtime_run_paced {W A U : Type} `{ClockLaws W, !Tasking W, !TaskingLaws W}
    (rt : plc_runtime U) (m : mem W A U) (max_scans : Z)
    (Hret : all_return m) (Hcont : rc_continue_on_io_fault (rt_cfg rt) = true)
    (Hfresh : rt_scan_no rt = 0) (Hmax : 0 < max_scans < 2 ^ 64)
    (Hcyc : 0 <= rc_cycle_us (rt_cfg rt) < 2 ^ 32)
    (Hlife : max_scans * (rc_cycle_us (rt_cfg rt) * 1000) < 2 ^ 62) :
  exists N rt' m', (forall fuel, (N <= fuel)%nat ->
      plc_runtime_run fuel (Some rt) max_scans m = Some (PLC_OK, Some rt', m')) /\
    rt_scan_no rt' <= max_scans /\
    (rt_stop rt' = true \/
     rt_scan_no rt' = max_scans /\
     (0 < rc_cycle_us (rt_cfg rt) ->
        Z.min (clock_ns (mm_world m) + (max_scans - 1) * (rc_cycle_us (rt_cfg rt) * 1000)) (2 ^ 62 - 1)
          <= rt_last_scan_ns rt')).
Proof.
  pose proof (runtime_runs rt m max_scans Hret Hcont Hmax) as Hr. cbv zeta in Hr. rewrite Hfresh in Hr.
  replace (Z.max max_scans (0 + 1) - 0) with max_scans in Hr by lia. apply Hr; lia.
Qed.

Lemma ex_all_return : all_return ex_mem.
Proof.
  intros o v [<-|[<-|[]]] [= <-]; apply loopback_returns.
Qed.

Lemma runtime_run_paced_witness :
  exists N rt' m', (forall fuel, (N <= fuel)%nat ->
      plc_runtime_run fuel (Some ex_rt) 5 ex_mem = Some (PLC_OK, Some rt', m')) /\
    rt_scan_no rt' <= 5.
Proof.
  destruct (runtime_run_paced ex_rt ex_mem 5 ex_all_return) as (N & rt' & m' & Hrun & Hle & _);
    [reflexivity|reflexivity|lia|vm_compute; split; congruence|vm_compute; reflexivity|].
  exists N, rt', m'. split; [exact Hrun|exact Hle].
Defined.

(** Running an engine again counts from its start: after a run of three
    scans, a second call that asks to stop after three scans executes one. *)
Theorem second_run_scans_once :
  match plc_runtime_run 10 (Some ex_rt) 3 ex_mem with
  | Some (PLC_OK, Some rt, m) =>
      rt_scan_no rt = 3 /\
      match plc_runtime_run 10 (Some rt) 3 m with
      | Some (PLC_OK, Some rt', _) => rt_scan_no rt' = 4
      | _ => False
      end
  | _ => False
  end.
Proof. vm_compute. split; reflexivity. Qed.
