(* ===== verification/Demo.v ===== *)
(** * The example program

    [examples/demo_program.c]: a conveyor interlock written against the
    runtime, [%IX0.0] START, [%IX0.1] STOP wired normally closed, [%IX0.2]
    PART_SENSE; [%QX0.0] MOTOR, [%QX0.1] LAMP, [%QW2] PART_COUNT.

    The theorems say when the motor runs, for every history of scans: it
    needs START held for 500 ms while STOP is not pressed, STOP (or a broken
    STOP wire) drops it in the same scan, and it does not come back before
    START has been released and held again.  The program also discharges what
    the scan engine asks of a program. *)

From Stdlib Require Import ZArith Lia.
From stdpp Require Import base list strings tactics.
From S2P Require Import Prelude PlcTypes StdFb ProcessImage Adapter Runtime.

Record demo_state : Type := Demo {
  ds_start_delay : plc_ton;
  ds_start_edge : plc_r_trig;
  ds_lamp_pulse : plc_tp;
  ds_part_edge : plc_r_trig;
  ds_part_counter : plc_ctu;
  ds_running : plc_rs
}.
#[export] Instance eta_demo_state : Eta demo_state := fun r =>
  Demo (ds_start_delay r) (ds_start_edge r) (ds_lamp_pulse r) (ds_part_edge r)
    (ds_part_counter r) (ds_running r).

Definition PLC_TIME_MS (x : Z) : Z := s64 (x * 1000000).

(** The statements of [demo_program] between reading the inputs and writing
    the outputs. *)
Definition demo_logic (dt : Z) (start stop_nc part_sense : bool) (st : demo_state) : demo_state :=
  let stop_pressed := negb stop_nc in
  let st := st <| ds_start_delay := ton_body dt (ds_start_delay st <| ton_IN := start |>
                                                   <| ton_PT := PLC_TIME_MS 500 |>) |> in
  let st := st <| ds_start_edge := r_trig_body (ds_start_edge st <| rt_CLK := ton_Q (ds_start_delay st) |>) |> in
  let st := st <| ds_running := rs_body (ds_running st <| rs_S := rt_Q (ds_start_edge st) |>
                                           <| rs_R1 := stop_pressed |>) |> in
  let st := st <| ds_part_edge := r_trig_body (ds_part_edge st <| rt_CLK := part_sense |>) |> in
  let st := st <| ds_lamp_pulse := tp_body dt (ds_lamp_pulse st <| tp_IN := rt_Q (ds_part_edge st) |>
                                                 <| tp_PT := PLC_TIME_MS 200 |>) |> in
  st <| ds_part_counter := ctu_body (ds_part_counter st <| ctu_CU := rt_Q (ds_part_edge st) |>
                                       <| ctu_R := stop_pressed |> <| ctu_PV := 1000 |>) |>.

(** [user] is [NULL] for 0, otherwise a pointer to the [user - 1]-th state. *)
Definition demo_program : plc_pou_fn (list demo_state) := fun ctx mem pi =>
  if ctx_user ctx =? 0 then (mem, pi)
  else match mem !! Z.to_nat (ctx_user ctx - 1) with
       | None => (mem, pi)
       | Some st =>
           let start := plc_pi_get_bit (Some pi) PLC_AREA_I 0 0 in
           let stop_nc := plc_pi_get_bit (Some pi) PLC_AREA_I 0 1 in
           let part_sense := plc_pi_get_bit (Some pi) PLC_AREA_I 0 2 in
           let st := demo_logic (ctx_dt ctx) start stop_nc part_sense st in
           let p := plc_pi_set_bit (Some pi) PLC_AREA_Q 0 0 (rs_Q1 (ds_running st)) in
           let p := plc_pi_set_bit p PLC_AREA_Q 0 1 (tp_Q (ds_lamp_pulse st)) in
           let p := plc_pi_set_word p PLC_AREA_Q 2 (u16 (ctu_CV (ds_part_counter st))) in
           (<[Z.to_nat (ctx_user ctx - 1) := st]> mem, default pi p)
       end.

(** ** Histories

    One scan: the elapsed time and the three inputs. *)

Record scan_input : Type := ScanIn {
  si_dt : Z;
  si_start : bool;
  si_stop_nc : bool;
  si_part : bool
}.

Definition demo_scan (st : demo_state) (x : scan_input) : demo_state :=
  demo_logic (si_dt x) (si_start x) (si_stop_nc x) (si_part x) st.

(** The state [calloc] or static initialisation gives it. *)
Definition demo_zero : demo_state :=
  Demo (TON false false 0 0) (RTrig false false false) (TP false false 0 0 false)
       (RTrig false false false) (CTU false false false 0 0 false) (RS false false false).

Definition demo_run (xs : list scan_input) : demo_state := fold_left demo_scan xs demo_zero.

(** START has been held for 500 ms. *)
Definition starts (xs : list scan_input) : list (bool * Z) := map (fun x => (si_start x, si_dt x)) xs.
Definition reached (xs : list scan_input) : bool :=
  match held (starts xs) with Some t => t >=? 500000000 | None => false end.

(** Parts seen since the last scan with STOP pressed; the level before a
    history is low. *)
Definition part_step (s : bool * Z) (x : scan_input) : bool * Z :=
  (si_part x,
   if si_stop_nc x then s.2 + (if si_part x && negb s.1 then 1 else 0) else 0).
Definition parts (xs : list scan_input) : bool * Z := fold_left part_step xs (false, 0).

(** ** Lemmas *)

Lemma exists_last_cases {A} (l : list A) : l = [] \/ exists l' x, l = l' ++ [x].
Proof. destruct l as [|x l _] using rev_ind; [by left|right; by exists l, x]. Qed.

Definition dt_ok (x : scan_input) : Prop := 500000000 + si_dt x <= INT64_MAX.

Lemma demo_run_snoc xs x : demo_run (xs ++ [x]) = demo_scan (demo_run xs) x.
Proof. apply fold_left_snoc. Qed.

Lemma starts_snoc xs x : starts (xs ++ [x]) = starts xs ++ [(si_start x, si_dt x)].
Proof. unfold starts. by rewrite map_app. Qed.

Lemma reached_snoc xs x :
  reached (xs ++ [x]) = si_start x && (default 0 (held (starts xs)) + dt_pos (si_dt x) >=? 500000000).
Proof.
  unfold reached, held. rewrite starts_snoc, fold_left_snoc. unfold held_step at 1. simpl.
  by destruct (si_start x).
Qed.

(** The blocks that decide about the motor. *)
Lemma demo_motor_state xs :
  Forall dt_ok xs ->
  let st := demo_run xs in
  ton_ET (ds_start_delay st) = match held (starts xs) with None => 0 | Some t => Z.min 500000000 t end /\
  ton_Q (ds_start_delay st) = reached xs /\ rt_m_prev (ds_start_edge st) = reached xs.
Proof.
  induction xs as [|x xs IH] using rev_ind; intros HF; [done|].
  apply Forall_app in HF as [HF Hx]. inversion Hx as [|? ? Hd _]; subst. specialize (IH HF).
  cbv zeta in *. destruct IH as (IE & IQ & IP). rewrite demo_run_snoc, reached_snoc.
  pose proof (held_nonneg (starts xs)) as Hnn. unfold dt_ok in Hd.
  unfold demo_scan, demo_logic, held. rewrite starts_snoc, fold_left_snoc. fold (held (starts xs)).
  unfold held_step. simpl. unfold ton_body. simpl. destruct (si_start x); simpl; [|done].
  change (PLC_TIME_MS 500) with 500000000. rewrite IE.
  assert (0 <= match held (starts xs) with Some t => Z.min 500000000 t | None => 0 end) as H0
    by (destruct (held (starts xs)); [specialize (Hnn _ eq_refl)|]; lia).
  rewrite accumulate_spec by (unfold INT64_MAX in *; lia).
  assert (Z.min 500000000 (match held (starts xs) with Some t => Z.min 500000000 t | None => 0 end + dt_pos (si_dt x))
          = Z.min 500000000 (default 0 (held (starts xs)) + dt_pos (si_dt x))) as ->
    by (unfold dt_pos; destruct (held (starts xs)); simpl; lia).
  split; [done|].
  assert ((Z.min 500000000 (default 0 (held (starts xs)) + dt_pos (si_dt x)) >=? 500000000)
          = (default 0 (held (starts xs)) + dt_pos (si_dt x) >=? 500000000)) as ->; [|done].
  destruct (Z.geb_spec (Z.min 500000000 (default 0 (held (starts xs)) + dt_pos (si_dt x))) 500000000),
    (Z.geb_spec (default 0 (held (starts xs)) + dt_pos (si_dt x)) 500000000); lia || done.
Qed.

Lemma demo_motor_step xs x :
  Forall dt_ok (xs ++ [x]) ->
  rs_Q1 (ds_running (demo_run (xs ++ [x])))
    = si_stop_nc x && ((reached (xs ++ [x]) && negb (reached xs)) || rs_Q1 (ds_running (demo_run xs))).
Proof.
  intros HF. destruct (demo_motor_state (xs ++ [x]) HF) as (_ & HQ & _).
  apply Forall_app in HF as [HF _]. destruct (demo_motor_state xs HF) as (_ & _ & HP).
  rewrite demo_run_snoc in *. rewrite <- HQ, <- HP. unfold demo_scan, demo_logic, rs_body, r_trig_body. simpl.
  rewrite negb_involutive. done.
Qed.

Lemma demo_parts_state xs :
  let st := demo_run xs in
  rt_m_prev (ds_part_edge st) = (parts xs).1 /\
  ctu_CV (ds_part_counter st) = Z.min INT16_MAX (parts xs).2 /\ 0 <= (parts xs).2 /\
  ctu_m_prev (ds_part_counter st) = rt_Q (ds_part_edge st) /\ (rt_Q (ds_part_edge st) = true -> (parts xs).1 = true).
Proof.
  induction xs as [|x xs IH] using rev_ind; [done|].
  cbv zeta in *. destruct IH as (IP & IC & IN & IM & IQ).
  assert (parts (xs ++ [x]) = part_step (parts xs) x) as -> by apply fold_left_snoc.
  rewrite demo_run_snoc. unfold demo_scan, demo_logic, ctu_body, r_trig_body, part_step. simpl.
  rewrite IP, IC, IM. destruct (parts xs) as [lvl n]; simpl in *.
  split; [by destruct (si_stop_nc x); simpl; split_ifs|].
  destruct (si_stop_nc x); simpl.
  - destruct (si_part x) eqn:Ep, lvl eqn:El; simpl; try (split_ifs; simpl; split; [lia|split; [lia|done]]).
    destruct (rt_Q (ds_part_edge (demo_run xs))); [by specialize (IQ eq_refl)|]. simpl.
    destruct (Z.ltb_spec (Z.min INT16_MAX n) INT16_MAX); simpl; unfold INT16_MAX in *;
      rewrite ?s16_small by (unfold INT16_MIN, INT16_MAX; lia); (split; [lia|split; [lia|done]]).
  - split; [done|split; [lia|split; [done|]]]. by destruct (si_part x).
Qed.

(** The writes of the program's last three statements. *)
Lemma demo_outputs pi motor lamp count :
  pi_wf pi -> 4 <= size_of pi PLC_AREA_Q -> 0 <= count < 2 ^ 16 ->
  exists pi',
    plc_pi_set_word (plc_pi_set_bit (plc_pi_set_bit (Some pi) PLC_AREA_Q 0 0 motor) PLC_AREA_Q 0 1 lamp)
      PLC_AREA_Q 2 count = Some pi' /\
    pi_wf pi' /\ (forall a, size_of pi' a = size_of pi a) /\
    (forall a, valid_area a -> a <> PLC_AREA_Q -> view pi' a = view pi a) /\
    plc_pi_get_bit (Some pi') PLC_AREA_Q 0 0 = motor /\ plc_pi_get_bit (Some pi') PLC_AREA_Q 0 1 = lamp /\
    plc_pi_get_word (Some pi') PLC_AREA_Q 2 = count.
Proof.
  intros Hwf Hsz Hc.
  assert (valid_area PLC_AREA_Q) as HQ by (apply area_Q_valid).
  pose proof (get_bit_set_bit pi PLC_AREA_Q 0 0 motor PLC_AREA_Q 0 0 Hwf ltac:(lia) ltac:(lia) HQ ltac:(lia) ltac:(lia)) as Hg0.
  destruct (set_bit_writes pi PLC_AREA_Q 0 0 motor) as (p1 & E1 & Hwf1 & Hs1 & Hv1); [done|lia|lia|].
  rewrite E1 in *.
  pose proof (get_bit_set_bit p1 PLC_AREA_Q 0 1 lamp PLC_AREA_Q 0 0 Hwf1 ltac:(lia) ltac:(lia) HQ ltac:(lia) ltac:(lia)) as Hg1.
  pose proof (get_bit_set_bit p1 PLC_AREA_Q 0 1 lamp PLC_AREA_Q 0 1 Hwf1 ltac:(lia) ltac:(lia) HQ ltac:(lia) ltac:(lia)) as Hg2.
  destruct (set_bit_writes p1 PLC_AREA_Q 0 1 lamp) as (p2 & E2 & Hwf2 & Hs2 & Hv2); [done|lia|lia|].
  rewrite E2 in *.
  destruct (set_word_writes p2 PLC_AREA_Q 2 count) as (p3 & E3 & Hwf3 & Hs3 & Hv3); [done|lia|done|].
  assert (in_range pi PLC_AREA_Q 0 1 = true /\ in_range p1 PLC_AREA_Q 0 1 = true /\
          in_range p2 PLC_AREA_Q 2 2 = true /\ in_range p3 PLC_AREA_Q 0 1 = true /\
          in_range p3 PLC_AREA_Q 2 2 = true) as (R0 & R1 & R2 & R3 & R4).
  { unfold in_range. rewrite !Hs3, !Hs2, !Hs1. unfold PLC_AREA_Q, PLC_AREA__COUNT in *. simpl. lia. }
  rewrite R0 in Hg0. rewrite R1 in Hg1, Hg2.
  cbn -[plc_pi_get_bit] in Hg0, Hg1, Hg2.
  exists p3. split; [done|split; [done|]]. split; [intros; by rewrite Hs3, Hs2, Hs1|]. split.
  { intros a Ha Hne. apply Z.eqb_neq in Hne.
    rewrite (Hv3 a Ha), Hne, andb_false_r, (Hv2 a Ha), Hne, andb_false_r, (Hv1 a Ha), Hne, andb_false_r. done. }
  assert (zlen (view p2 PLC_AREA_Q) = size_of p2 PLC_AREA_Q) as Hz by (by apply zlen_view).
  assert (zlen (le_bytes 2 count) = 2) as Hl2 by (unfold zlen; by rewrite length_le_bytes).
  assert (view p3 PLC_AREA_Q = bwrite 2 (le_bytes 2 count) (view p2 PLC_AREA_Q)) as Hvw.
  { rewrite Hv3, Hl2, R2, Z.eqb_refl by done. done. }
  assert (byte_at (view p3 PLC_AREA_Q) 0 = byte_at (view p2 PLC_AREA_Q) 0) as Hb0.
  { unfold byte_at. rewrite !nth_lookup, Hvw. rewrite lookup_bwrite_outside; [done|lia| |left; simpl; lia].
    rewrite Hl2, Hz, Hs2, Hs1. lia. }
  rewrite !get_bit_reads, R3, Hb0 by (done || lia).
  rewrite get_bit_reads in Hg1, Hg2 by (done || lia).
  assert (in_range p2 PLC_AREA_Q 0 1 = true) as R5 by (unfold in_range; rewrite Hs2, Hs1; unfold PLC_AREA_Q, PLC_AREA__COUNT in *; simpl; lia).
  rewrite R5 in Hg1, Hg2. cbn [andb] in *. split; [congruence|split; [exact Hg2|]].
  rewrite get_word_reads, R4, Hvw by (done || lia).
  pose proof (bslice_bwrite_same 2 (le_bytes 2 count) (view p2 PLC_AREA_Q)) as Hr. rewrite Hl2 in Hr.
  rewrite Hr by (rewrite ?Hz, ?Hs2, ?Hs1; lia).
  rewrite le_value_bytes. apply Z.mod_small. done.
Qed.

(** The program is one the scan engine accepts. *)
Lemma demo_pou_ok : pou_ok demo_program.
Proof.
  intros ctx u pi Hwf. unfold demo_program. split_if; [done|].
  destruct (u !! _) as [st|]; [|done]. cbv zeta. cbn [snd].
  set (st' := demo_logic _ _ _ _ st). generalize (rs_Q1 (ds_running st')) (tp_Q (ds_lamp_pulse st')).
  intros motor lamp. assert (0 <= u16 (ctu_CV (ds_part_counter st')) < 2 ^ 16) as Hc by (apply Z.mod_pos_bound; lia).
  destruct (set_bit_writes pi PLC_AREA_Q 0 0 motor) as (p1 & -> & Hwf1 & Hs1 & _); [done|lia|lia|].
  destruct (set_bit_writes p1 PLC_AREA_Q 0 1 lamp) as (p2 & -> & Hwf2 & Hs2 & _); [done|lia|lia|].
  destruct (set_word_writes p2 PLC_AREA_Q 2 (u16 (ctu_CV (ds_part_counter st')))) as (p3 & -> & Hwf3 & Hs3 & _);
    [done|lia|done|]. simpl. split; [done|]. intros a. by rewrite Hs3, Hs2, Hs1.
Qed.

(** ** Properties *)

(** When the motor runs.  After any history of scans of a zero-initialised
    state, the motor is on exactly when at some scan START completed 500 ms of
    being held (it had not at the scan before), and neither at that scan nor at
    any scan since was STOP pressed.  So a stop is never undone by a START that
    is merely still held: only a fresh completion of the delay sets the latch. *)
Theorem demo_motor_on_iff (xs : list scan_input) (Hdt : Forall dt_ok xs) :
  rs_Q1 (ds_running (demo_run xs)) = true <->
  exists pre x post, xs = pre ++ x :: post /\
    reached (pre ++ [x]) = true /\ reached pre = false /\
    Forall (fun y => si_stop_nc y = true) (x :: post).
Proof.
  induction xs as [|x xs IH] using rev_ind.
  { split; [done|]. intros (pre & x & post & E & _). by destruct pre. }
  rewrite demo_motor_step by done. apply Forall_app in Hdt as [HF _]. specialize (IH HF).
  rewrite andb_true_iff, orb_true_iff, andb_true_iff, negb_true_iff, IH. split.
  - intros (Hs & [[H1 H2]|(pre & y & post & -> & H1 & H2 & H3)]).
    + exists xs, x, []. split; [done|split; [done|split; [done|by constructor]]].
    + exists pre, y, (post ++ [x]). split; [by rewrite <- app_assoc|split; [done|split; [done|]]].
      rewrite app_comm_cons. apply Forall_app_2; [done|by constructor].
  - intros (pre & y & post & E & H1 & H2 & H3).
    destruct (exists_last_cases post) as [->|(post' & z & ->)].
    + apply app_inj_tail in E as [<- <-]. inversion H3; subst. split; [done|by left].
    + rewrite app_comm_cons, app_assoc in E. apply app_inj_tail in E as [-> ->].
      rewrite app_comm_cons in H3. apply Forall_app in H3 as [H3 Hz]. inversion Hz; subst.
      split; [done|]. right. by exists pre, y, post'.
Qed.

Definition demo_history : list scan_input :=
  [ScanIn 10000000 true true false; ScanIn 300000000 true true false; ScanIn 300000000 true true true;
   ScanIn 10000000 true false false; ScanIn 10000000 true true false; ScanIn 900000000 true true false].

Lemma demo_history_ok : Forall dt_ok demo_history.
Proof. repeat constructor; unfold dt_ok; vm_compute; congruence. Qed.

Lemma demo_motor_on_iff_witness :
  rs_Q1 (ds_running (demo_run (take 3 demo_history))) = true /\
  rs_Q1 (ds_running (demo_run demo_history)) = false /\
  ~ exists pre x post, demo_history = pre ++ x :: post /\
      reached (pre ++ [x]) = true /\ reached pre = false /\ Forall (fun y => si_stop_nc y = true) (x :: post).
Proof.
  split; [reflexivity|split; [reflexivity|]]. intros H.
  apply (demo_motor_on_iff demo_history demo_history_ok) in H. vm_compute in H. discriminate.
Defined.

(** The part count.  After any history the counter holds the number of
    rising edges of PART_SENSE since the last scan with STOP pressed, stopped
    at 32767, although the program feeds an edge detector into a counter that
    detects edges itself. *)
Theorem demo_counts_parts (xs : list scan_input) :
  ctu_CV (ds_part_counter (demo_run xs)) = Z.min INT16_MAX (parts xs).2.
Proof. apply demo_parts_state. Qed.

(** What the program writes.  On any well-formed image with four bytes of
    [%Q] and any state behind a non-[NULL] user pointer, MOTOR, LAMP and
    PART_COUNT read back as the new state's, the inputs and markers are
    untouched, and when the STOP input reads 0, as it does with a broken
    wire, the motor is off and the count is zero whatever the state was. *)
Theorem demo_program_outputs (ctx : plc_pou_ctx) (u : list demo_state) (pi : plc_process_image) (st : demo_state)
    (Hwf : pi_wf pi) (Hq : 4 <= size_of pi PLC_AREA_Q)
    (Huser : 0 < ctx_user ctx) (Hst : u !! Z.to_nat (ctx_user ctx - 1) = Some st) :
  let bit := plc_pi_get_bit (Some pi) PLC_AREA_I 0 in
  let st' := demo_logic (ctx_dt ctx) (bit 0) (bit 1) (bit 2) st in
  exists pi', demo_program ctx u pi = (<[Z.to_nat (ctx_user ctx - 1) := st']> u, pi') /\
    pi_wf pi' /\ (forall a, valid_area a -> a <> PLC_AREA_Q -> view pi' a = view pi a) /\
    plc_pi_get_bit (Some pi') PLC_AREA_Q 0 0 = rs_Q1 (ds_running st') /\
    plc_pi_get_bit (Some pi') PLC_AREA_Q 0 1 = tp_Q (ds_lamp_pulse st') /\
    plc_pi_get_word (Some pi') PLC_AREA_Q 2 = u16 (ctu_CV (ds_part_counter st')) /\
    (bit 1 = false -> plc_pi_get_bit (Some pi') PLC_AREA_Q 0 0 = false /\
                      plc_pi_get_word (Some pi') PLC_AREA_Q 2 = 0).
Proof.
  intros bit st'. unfold demo_program. destruct (Z.eqb_spec (ctx_user ctx) 0); [lia|]. rewrite Hst.
  fold bit. fold st'. cbv zeta. fold (bit 0) (bit 1) (bit 2). fold st'.
  destruct (demo_outputs pi (rs_Q1 (ds_running st')) (tp_Q (ds_lamp_pulse st')) (u16 (ctu_CV (ds_part_counter st'))))
    as (pi' & -> & Hwf' & _ & Hv & H0 & H1 & H2); [done|done|apply Z.mod_pos_bound; lia|].
  exists pi'. split; [done|split; [done|split; [done|split; [done|split; [done|split; [done|]]]]]].
  intros Hb. rewrite H0, H2. subst st'. rewrite Hb. split; [done|]. unfold demo_logic, ctu_body. simpl. done.
Qed.

Lemma demo_program_outputs_witness :
  exists u' pi', demo_program (PouCtx 0 10000000 0 true 1) [demo_run (take 3 demo_history)] pi_example = (u', pi') /\
    plc_pi_get_bit (Some pi') PLC_AREA_Q 0 0 = false.
Proof.
  destruct (demo_program_outputs (PouCtx 0 10000000 0 true 1) [demo_run (take 3 demo_history)] pi_example
              (demo_run (take 3 demo_history))) as (pi' & Hp & _ & _ & _ & _ & _ & Hstop);
    [exact pi_example_wf|vm_compute; congruence|simpl; lia|reflexivity|].
  eexists _, pi'. split; [exact Hp|]. apply Hstop. vm_compute. reflexivity.
Defined.
