(* ===== verification/Registry.v ===== *)
(** * The adapter registry and the deployment roles

    [src/core/adapter_registry.c] and [src/adapters/builtins.c]: the fixed
    table of factories, looked up by protocol name, the factories a build
    registers, and the roles that name an adapter list.  Build options are
    booleans.

    The table is a finite map of at most sixteen entries that keeps the order
    of registration, and every role a build offers names a protocol the same
    build registers. *)

From Stdlib Require Import ZArith Lia.
From stdpp Require Import base list strings tactics.
From S2P Require Import Prelude PlcTypes.

Definition PLC_ADAPTER_REGISTRY_MAX : Z := 16.

(** A factory: an entry that is [NULL] is [None].  [O] is what it makes, [W] the
    world it is made in; the two answers are those of its two allocations. *)
Record plc_adapter_factory (W O : Type) : Type := Factory {
  fa_protocol : option string;
  fa_description : string;
  fa_create : option (bool -> bool -> option O);
  fa_destroy : option (O -> W -> W)
}.
Arguments Factory {W O}.
Arguments fa_protocol {W O}.
Arguments fa_description {W O}.
Arguments fa_create {W O}.
Arguments fa_destroy {W O}.

Section Registry.
Context {W O : Type}.
Implicit Types (g : list (plc_adapter_factory W O)) (f : plc_adapter_factory W O).

(** [g] is the first [g_count] entries of [g_factories].  [strcmp] with a
    stored protocol, which [add] checked is not [NULL]. *)
Definition protocol_is (p : string) f : bool := bool_decide (fa_protocol f = Some p).

Fixpoint registry_scan (p : string) g : option (plc_adapter_factory W O) :=
  match g with
  | [] => None
  | f :: g => if protocol_is p f then Some f else registry_scan p g
  end.

Definition plc_adapter_registry_find (protocol : option string) g : option (plc_adapter_factory W O) :=
  match protocol with None => None | Some p => registry_scan p g end.

Definition plc_adapter_registry_add (f : option (plc_adapter_factory W O)) g
    : plc_status * list (plc_adapter_factory W O) :=
  match f with
  | Some (Factory (Some p) d (Some c) e) =>
      match plc_adapter_registry_find (Some p) g with
      | Some _ => (PLC_ERR_STATE, g)
      | None => if zlen g >=? PLC_ADAPTER_REGISTRY_MAX then (PLC_ERR_NOMEM, g)
                else (PLC_OK, g ++ [Factory (Some p) d (Some c) e])
      end
  | _ => (PLC_ERR_INVAL, g)
  end.

Definition plc_adapter_registry_count g : Z := zlen g.

Definition plc_adapter_registry_at (index : Z) g : option (plc_adapter_factory W O) :=
  if index <? zlen g then g !! Z.to_nat index else None.

Definition plc_adapter_registry_reset g : list (plc_adapter_factory W O) := [].

(** The factories of the build, which [builtins.c] names as externs. *)
Definition plc_adapter_register_builtins (with_eip with_scanner : bool)
    (loopback eip scanner : plc_adapter_factory W O) g : list (plc_adapter_factory W O) :=
  let g := (plc_adapter_registry_add (Some loopback) g).2 in
  let g := if with_eip then (plc_adapter_registry_add (Some eip) g).2 else g in
  if with_scanner then (plc_adapter_registry_add (Some scanner) g).2 else g.

(** ** Well-formed tables *)

Definition factory_ok f : Prop := is_Some (fa_protocol f) /\ is_Some (fa_create f).
Definition registry_wf g : Prop :=
  Forall factory_ok g /\ NoDup (map fa_protocol g) /\ zlen g <= PLC_ADAPTER_REGISTRY_MAX.
End Registry.

(** ** Roles *)

Definition kRoles (with_eip with_scanner : bool) : list (string * string) :=
  [("none", "loopback")] ++
  (if with_eip then [("adapter", "ethernet-ip")] else []) ++
  (if with_scanner then [("scanner", "ethernet-ip-scanner")] else []).

Fixpoint role_scan (role : string) (rs : list (string * string)) : option string :=
  match rs with
  | [] => None
  | (r, a) :: rs => if bool_decide (r = role) then Some a else role_scan role rs
  end.

Definition plc_adapter_role_adapters (with_eip with_scanner : bool) (role : option string) : option string :=
  match role with None => None | Some r => role_scan r (kRoles with_eip with_scanner) end.

Definition plc_adapter_role_at (with_eip with_scanner : bool) (index : Z) : option string :=
  if index <? zlen (kRoles with_eip with_scanner)
  then fst <$> kRoles with_eip with_scanner !! Z.to_nat index else None.

(** ** Lemmas *)

Section Lemmas.
Context {W O : Type}.
Implicit Types (g : list (plc_adapter_factory W O)) (f : plc_adapter_factory W O).

Lemma registry_scan_some p g f : registry_scan p g = Some f -> In f g /\ fa_protocol f = Some p.
Proof.
  induction g as [|x g IH]; simpl; [done|]. unfold protocol_is. destruct (bool_decide _) eqn:E.
  - intros [= ->]. split; [by left|]. by apply bool_decide_eq_true in E.
  - intros H. destruct (IH H). split; [by right|done].
Qed.

Lemma registry_scan_none p g : registry_scan p g = None <-> ~ In (Some p) (map fa_protocol g).
Proof.
  induction g as [|x g IH]; simpl; [tauto|]. unfold protocol_is. destruct (bool_decide _) eqn:E.
  - apply bool_decide_eq_true in E. split; [done|]. intros H. exfalso. apply H. by left.
  - apply bool_decide_eq_false in E. rewrite IH. tauto.
Qed.

Lemma registry_scan_snoc p g f :
  registry_scan p (g ++ [f]) = match registry_scan p g with
                               | Some x => Some x
                               | None => if protocol_is p f then Some f else None
                               end.
Proof. induction g as [|x g IH]; simpl; [done|]. by destruct (protocol_is p x). Qed.

Lemma registry_wf_snoc g f :
  registry_wf g -> factory_ok f -> ~ In (fa_protocol f) (map fa_protocol g) ->
  zlen g < PLC_ADAPTER_REGISTRY_MAX -> registry_wf (g ++ [f]).
Proof.
  intros (HF & Hnd & Hl) Hf Hni Hlt. split; [by apply Forall_app_2; [|constructor]|].
  split; [|rewrite zlen_app; change (zlen [f]) with 1; lia].
  rewrite map_app. simpl. apply list.NoDup_app. split; [done|]. split; [|apply NoDup_singleton].
  intros x Hx ->%list_elem_of_singleton. apply Hni. by apply list_elem_of_In.
Qed.
End Lemmas.

(** ** Properties *)

(** The registry is a bounded finite map.  On a well-formed table (every
    entry usable, no protocol twice, at most sixteen), adding a factory returns
    the documented status, keeps the table well-formed, changes the result of a
    lookup for its own protocol only and only when it was accepted, and puts
    the new factory at the next index. *)
Theorem registry_refines_map {W O : Type} (g : list (plc_adapter_factory W O)) (p d : string)
    (c : bool -> bool -> option O) (e : option (O -> W -> W)) (q : string)
    (Hwf : registry_wf g) :
  let f := Factory (Some p) d (Some c) e in
  let '(st, g') := plc_adapter_registry_add (Some f) g in
  st = match plc_adapter_registry_find (Some p) g with
       | Some _ => PLC_ERR_STATE
       | None => if zlen g =? PLC_ADAPTER_REGISTRY_MAX then PLC_ERR_NOMEM else PLC_OK
       end /\
  registry_wf g' /\
  plc_adapter_registry_find (Some q) g'
    = (if is_ok st && bool_decide (q = p) then Some f else plc_adapter_registry_find (Some q) g) /\
  (st = PLC_OK -> plc_adapter_registry_at (plc_adapter_registry_count g) g' = Some f) /\
  (forall i, 0 <= i < zlen g -> plc_adapter_registry_at i g' = plc_adapter_registry_at i g) /\
  (st <> PLC_OK -> g' = g).
Proof.
  intros f. pose proof Hwf as (_ & _ & Hl). unfold plc_adapter_registry_add, f. simpl.
  destruct (registry_scan p g) as [x|] eqn:E; [done|].
  destruct (Z.geb_spec (zlen g) PLC_ADAPTER_REGISTRY_MAX), (Z.eqb_spec (zlen g) PLC_ADAPTER_REGISTRY_MAX); try lia;
    [done|]. fold f. apply registry_scan_none in E as Hni.
  split; [done|split; [|split; [|split; [|split; [|done]]]]].
  - apply registry_wf_snoc; [done|by split; eexists|done|lia].
  - rewrite registry_scan_snoc. unfold protocol_is. simpl.
    destruct (decide (q = p)) as [->|Hne].
    + rewrite E, !bool_decide_eq_true_2 by done. done.
    + rewrite (bool_decide_eq_false_2 (q = p)), (bool_decide_eq_false_2 (Some p = Some q)) by congruence.
      by destruct (registry_scan q g).
  - intros _. unfold plc_adapter_registry_at, plc_adapter_registry_count. rewrite zlen_app. change (zlen [f]) with 1.
    rewrite (proj2 (Z.ltb_lt _ _)) by lia. unfold zlen. rewrite Nat2Z.id. by rewrite lookup_app_r, Nat.sub_diag.
  - intros i Hi. unfold plc_adapter_registry_at. rewrite zlen_app. change (zlen [f]) with 1.
    rewrite !(proj2 (Z.ltb_lt _ _)) by lia. apply lookup_app_l. unfold zlen in Hi. lia.
Qed.

Definition example_factory (p : string) : plc_adapter_factory unit unit :=
  Factory (Some p) "an example" (Some (fun _ _ => Some tt)) (Some (fun _ w => w)).

Lemma registry_refines_map_witness :
  let '(st, g') := plc_adapter_registry_add (Some (example_factory "ethernet-ip")) [example_factory "loopback"] in
  st = PLC_OK /\ plc_adapter_registry_find (Some "loopback") g' = Some (example_factory "loopback").
Proof.
  assert (registry_wf [example_factory "loopback"]) as Hwf.
  { split; [repeat constructor; eexists; reflexivity|split; [|vm_compute; congruence]].
    apply (bool_decide_unpack (NoDup [Some "loopback"])). vm_compute. exact I. }
  pose proof (registry_refines_map [example_factory "loopback"] "ethernet-ip" "an example"
                (fun _ _ => Some tt) (Some (fun _ w => w)) "loopback" Hwf) as (Hst & _ & Hf & _).
  split; [exact Hst|exact Hf].
Defined.

(** Every role works in its build.  For each combination of build options
    and each role [plc_adapter_role_at] lists, the role resolves to the name of
    a protocol that [plc_adapter_register_builtins] of the same build has
    registered; a role of a protocol that was compiled out is unknown. *)
Theorem roles_are_registered {W O : Type} (with_eip with_scanner : bool) (c1 c2 c3 : bool -> bool -> option O)
    (e1 e2 e3 : option (O -> W -> W))
    (d1 d2 d3 role : string) :
  let g := plc_adapter_register_builtins with_eip with_scanner
             (Factory (Some "loopback") d1 (Some c1) e1) (Factory (Some "ethernet-ip") d2 (Some c2) e2)
             (Factory (Some "ethernet-ip-scanner") d3 (Some c3) e3) [] in
  match plc_adapter_role_adapters with_eip with_scanner (Some role) with
  | Some a => is_Some (plc_adapter_registry_find (Some a) g)
  | None => forall i, plc_adapter_role_at with_eip with_scanner i <> Some role
  end.
Proof.
  assert (forall rs i (a : string * string), rs !! Z.to_nat i = Some a -> role_scan role rs = None -> a.1 <> role) as Hno.
  { intros rs. induction rs as [|[r b] rs IH]; intros i a Hi Hn; [done|]. simpl in Hn.
    destruct (bool_decide (r = role)) eqn:E; [done|]. apply bool_decide_eq_false in E.
    destruct (Z.to_nat i) as [|n] eqn:En; simpl in Hi; [by injection Hi as <-|].
    apply (IH (Z.of_nat n)); [by rewrite Nat2Z.id|done]. }
  intros g. unfold plc_adapter_role_adapters.
  destruct (role_scan role (kRoles with_eip with_scanner)) as [a|] eqn:E.
  - subst g. destruct with_eip, with_scanner; cbn in E |- *; repeat case_bool_decide; simplify_eq; by eexists.
  - intros i Hi. unfold plc_adapter_role_at in Hi. split_if; [|done].
    apply fmap_Some in Hi as (x & Hx & Hr). by apply (Hno _ _ _ Hx E).
Qed.
