(* ===== verification/Config.v ===== *)
(** * The settings file

    [src/core/plc_config.c] and [include/softplc/plc_config.h]: the INI-style
    parser, the table it fills, and the lookups that put the environment
    before the file and the file before the built-in default.

    A C string is the list of its characters before the terminator.  The file
    system and the environment are parameters: [fopen] and [fread] are a
    function from paths to [file], [getenv] a function from names to values.
    A diagnostic is a value that says what the message says.

    The theorems: whatever the text, a table is a map with distinct qualified
    keys within its bounds; a printed table parses back to itself; a lookup
    depends on the setting and not on how its name was spelled; and numeric
    lookups accept exactly what they print. *)

From Stdlib Require Import ZArith Lia Ascii.
From stdpp Require Import base list strings tactics.
From S2P Require Import Prelude PlcTypes.

Definition cstr : Type := list ascii.
Definition txt (s : string) : cstr := String.list_ascii_of_string s.

Definition PLC_CONFIG_MAX_ENTRIES : Z := 64.
Definition PLC_CONFIG_KEY_MAX : Z := 64.
Definition PLC_CONFIG_VALUE_MAX : Z := 256.
Definition CONFIG_MAX_BYTES : Z := 65536.
Definition PLC_CONFIG_DEFAULT_PATH : cstr := txt "/etc/softplc/softplc.conf".

Definition ch_tab : ascii := "009"%char.
Definition ch_nl : ascii := "010"%char.
Definition ch_vt : ascii := "011"%char.
Definition ch_ff : ascii := "012"%char.
Definition ch_cr : ascii := "013"%char.
Definition ch_dq : ascii := "034"%char.
Definition ch_sq : ascii := "039"%char.

Definition ceq (a b : ascii) : bool := Ascii.eqb a b.
Definition code (c : ascii) : Z := Z.of_nat (nat_of_ascii c).

(** [<ctype.h>] in the C locale. *)
Definition islower (c : ascii) : bool := (97 <=? code c) && (code c <=? 122).
Definition isupper (c : ascii) : bool := (65 <=? code c) && (code c <=? 90).
Definition isdigit (c : ascii) : bool := (48 <=? code c) && (code c <=? 57).
Definition isspace (c : ascii) : bool := (code c =? 32) || ((9 <=? code c) && (code c <=? 13)).
Definition toupper (c : ascii) : ascii := if islower c then ascii_of_nat (nat_of_ascii c - 32) else c.

(** ** Lexing *)

Definition blank (c : ascii) : bool := ceq c " " || ceq c ch_tab || ceq c ch_cr.

Fixpoint drop_blanks (s : cstr) : cstr :=
  match s with c :: s' => if blank c then drop_blanks s' else s | [] => [] end.

Definition trim (s : cstr) : cstr := rev (drop_blanks (rev (drop_blanks s))).

(** [quote] is the open quote, [prev] the character before, [None] at the
    start of the line. *)
Fixpoint strip_from (quote prev : option ascii) (s : cstr) : cstr :=
  match s with
  | [] => []
  | c :: s =>
      match quote with
      | Some q => c :: strip_from (if ceq c q then None else Some q) (Some c) s
      | None =>
          if ceq c ch_dq || ceq c ch_sq then c :: strip_from (Some c) (Some c) s
          else if (ceq c "#" || ceq c ";") &&
                  match prev with None => true | Some p => ceq p " " || ceq p ch_tab end
          then []
          else c :: strip_from None (Some c) s
      end
  end.
Definition strip_comment (line : cstr) : cstr := strip_from None None line.

Definition unquote (s : cstr) : cstr :=
  match s with
  | q :: (_ :: _) as rest =>
      if (ceq q ch_dq || ceq q ch_sq) && ceq (List.last rest q) q then removelast rest else s
  | _ => s
  end.

Definition fold_char (c : ascii) : ascii :=
  if ceq c "-" || ceq c "." || ceq c " " then "_"%char else if islower c then toupper c else c.
Definition key_char (c : ascii) : bool := isupper c || isdigit c || ceq c "_".

(** The loop of [normalise] from the [n]-th output position. *)
Fixpoint normalise_from (out_len n : Z) (s : cstr) : plc_status * cstr :=
  match s with
  | [] => (PLC_OK, [])
  | c :: s =>
      let c := fold_char c in
      if negb (key_char c) then (PLC_ERR_INVAL, [])
      else if n + 1 >=? out_len then (PLC_ERR_NOMEM, [])
      else let '(st, out) := normalise_from out_len (n + 1) s in (st, c :: out)
  end.
Definition normalise (out_len : Z) (s : cstr) : plc_status * cstr :=
  let '(st, out) := normalise_from out_len 0 s in
  if is_ok st then ((if bool_decide (out = []) then PLC_ERR_INVAL else PLC_OK), out) else (st, []).

Definition strncmp_prefix (p s : cstr) : bool := bool_decide (take (length p) s = p).

(** [section] is [None] for [NULL]. *)
Definition qualify (out_len : Z) (section : option cstr) (key : cstr) : plc_status * cstr :=
  let '(st, k) := normalise PLC_CONFIG_KEY_MAX key in
  if negb (is_ok st) then (st, [])
  else if strncmp_prefix (txt "SOFTPLC_") k then
    if zlen k <? out_len then (PLC_OK, k) else (PLC_ERR_NOMEM, [])
  else
    let '(st, s) :=
      match section with
      | Some (c :: sec) =>
          let '(st, s) := normalise PLC_CONFIG_KEY_MAX (c :: sec) in
          (st, if bool_decide (s = txt "CORE") || bool_decide (s = txt "SOFTPLC") then [] else s)
      | _ => (PLC_OK, [])
      end in
    if negb (is_ok st) then (st, [])
    else
      let q := if bool_decide (s = []) then txt "SOFTPLC_" ++ k else txt "SOFTPLC_" ++ s ++ txt "_" ++ k in
      if zlen q <? out_len then (PLC_OK, q) else (PLC_ERR_NOMEM, []).

(** ** Parsing *)

Record entry : Type := Entry {
  e_key : cstr;
  e_value : cstr
}.
#[export] Instance eta_entry : Eta entry := fun r =>
  Entry (e_key r) (e_value r).

Record cfg_table : Type := Table {
  ct_entries : list entry;
  ct_path : cstr  (** [g_path] *)
}.
#[export] Instance eta_cfg_table : Eta cfg_table := fun r =>
  Table (ct_entries r) (ct_path r).

Definition find (es : list entry) (qualified_key : cstr) : option entry :=
  List.find (fun e => bool_decide (e_key e = qualified_key)) es.

(** What [fail] reports, with the line it names. *)
Inductive complaint : Type :=
| LineTooLong
| MalformedSection
| BadSection (name : cstr)
| NotAnAssignment (s : cstr)
| BadKey (key : cstr)
| ValueTooLong (qualified : cstr)
| AlreadySet (qualified : cstr)
| TooManySettings.

(** [char line[PLC_CONFIG_VALUE_MAX + PLC_CONFIG_KEY_MAX + 8]]. *)
Definition LINE_SIZE : Z := PLC_CONFIG_VALUE_MAX + PLC_CONFIG_KEY_MAX + 8.

(** [strchr(s, c)]: the text before and after the first [c]. *)
Fixpoint split_at (c : ascii) (s : cstr) : option (cstr * cstr) :=
  match s with
  | [] => None
  | x :: s => if ceq x c then Some ([], s)
              else match split_at c s with Some (a, b) => Some (x :: a, b) | None => None end
  end.

(** The body of the [while] loop for one line; the state is the section and
    the entries. *)
Definition parse_line (line : cstr) (section : cstr) (es : list entry)
    : (cstr * list entry) + complaint :=
  if zlen line >=? LINE_SIZE then inr LineTooLong
  else
    let s := trim (strip_comment line) in
    match s with
    | [] => inl (section, es)
    | c :: body =>
        if ceq c "[" then
          match split_at "]" body with
          | None => inr MalformedSection
          | Some (name, after) =>
              if negb (bool_decide (trim after = [])) then inr MalformedSection
              else
                let name := trim name in
                let '(st, sec) := normalise PLC_CONFIG_KEY_MAX name in
                if is_ok st then inl (sec, es) else inr (BadSection name)
          end
        else
          match split_at "=" s with
          | None => inr (NotAnAssignment s)
          | Some (key, val) =>
              let key := trim key in
              let val := unquote (trim val) in
              let '(st, qualified) := qualify PLC_CONFIG_KEY_MAX (Some section) key in
              if negb (is_ok st) then inr (BadKey key)
              else if zlen val >=? PLC_CONFIG_VALUE_MAX then inr (ValueTooLong qualified)
              else match find es qualified with
                   | Some _ => inr (AlreadySet qualified)
                   | None =>
                       if zlen es =? PLC_CONFIG_MAX_ENTRIES then inr TooManySettings
                       else inl (section, es ++ [Entry qualified val])
                   end
          end
    end.

(** The lines the [while] loop sees: a trailing newline starts no line. *)
Fixpoint lines_from (cur : cstr) (s : cstr) : list cstr :=
  match s with
  | [] => if bool_decide (cur = []) then [] else [rev cur]
  | c :: s => if ceq c ch_nl then rev cur :: lines_from [] s else lines_from (c :: cur) s
  end.
Definition lines (text : cstr) : list cstr := lines_from [] text.

Fixpoint parse_lines (lineno : Z) (ls : list cstr) (section : cstr) (es : list entry)
    : plc_status * list entry * option (Z * complaint) :=
  match ls with
  | [] => (PLC_OK, es, None)
  | l :: ls =>
      let lineno := lineno + 1 in
      match parse_line l section es with
      | inr e => (PLC_ERR_INVAL, es, Some (lineno, e))
      | inl (section, es) => parse_lines lineno ls section es
      end
  end.

Definition plc_config_parse (text : option cstr) (t : cfg_table)
    : plc_status * cfg_table * option (Z * complaint) :=
  match text with
  | None => (PLC_ERR_INVAL, t, None)
  | Some text =>
      let '(st, es, e) := parse_lines 0 (lines text) [] [] in
      (st, t <| ct_entries := es |>, e)
  end.

(** What opening and reading a path gives. *)
Inductive file : Type :=
| FileMissing  (** [fopen] fails with [ENOENT] *)
| FileUnopenable
| FileUnreadable  (** [ferror] after [fread] *)
| FileData (contents : cstr).

Fixpoint until_nul (s : cstr) : cstr :=
  match s with [] => [] | c :: s => if ceq c zero then [] else c :: until_nul s end.

Definition plc_config_load (fs : cstr -> file) (malloc_ok : bool) (path : option cstr) (t : cfg_table)
    : plc_status * cfg_table :=
  match path with
  | None | Some [] => (PLC_ERR_INVAL, t)
  | Some path =>
      match fs path with
      | FileMissing => (PLC_ERR_NOTFOUND, t)
      | FileUnopenable => (PLC_ERR_IO, t)
      | f =>
          if negb malloc_ok then (PLC_ERR_NOMEM, t)
          else match f with
               | FileData contents =>
                   let buf := take (Z.to_nat (CONFIG_MAX_BYTES - 1)) contents in
                   let too_big := zlen contents >=? CONFIG_MAX_BYTES - 1 in
                   if too_big then (PLC_ERR_INVAL, t)
                   else
                     let '(st, t, _) := plc_config_parse (Some (until_nul buf)) t in
                     if negb (is_ok st) then (st, t <| ct_entries := [] |> <| ct_path := [] |>)
                     else (PLC_OK, t <| ct_path := take 511 path |>)
               | _ => (PLC_ERR_IO, t)
               end
      end
  end.

Definition plc_config_init (getenv : cstr -> option cstr) (fs : cstr -> file) (malloc_ok : bool) (t : cfg_table)
    : plc_status * cfg_table :=
  match getenv (txt "SOFTPLC_CONFIG") with
  | Some (c :: p) => plc_config_load fs malloc_ok (Some (c :: p)) t
  | _ =>
      let '(st, t) := plc_config_load fs malloc_ok (Some PLC_CONFIG_DEFAULT_PATH) t in
      if bool_decide (st = PLC_ERR_NOTFOUND) then (PLC_OK, t) else (st, t)
  end.

Definition plc_config_reset (t : cfg_table) : cfg_table := t <| ct_entries := [] |> <| ct_path := [] |>.
Definition plc_config_path (t : cfg_table) : cstr := ct_path t.
Definition plc_config_source (t : cfg_table) : cstr :=
  if zlen (ct_entries t) =? 0 then txt "environment only" else ct_path t.
Definition plc_config_count (t : cfg_table) : Z := zlen (ct_entries t).
Definition plc_config_entry_at (i : Z) (t : cfg_table) : plc_status * option entry :=
  if i >=? zlen (ct_entries t) then (PLC_ERR_NOTFOUND, None)
  else (PLC_OK, ct_entries t !! Z.to_nat i).

(** ** Lookup *)

Definition plc_cfg_str (getenv : cstr -> option cstr) (t : cfg_table) (key fallback : option cstr)
    : option cstr :=
  match key with
  | None => fallback
  | Some key =>
      let '(st, qualified) := qualify PLC_CONFIG_KEY_MAX None key in
      if negb (is_ok st) then fallback
      else match getenv qualified with
           | Some (c :: v) => Some (c :: v)
           | _ => match find (ct_entries t) qualified with
                  | Some (Entry _ (c :: v)) => Some (c :: v)
                  | _ => fallback
                  end
           end
  end.

Fixpoint skip_spaces (s : cstr) : cstr :=
  match s with c :: s' => if isspace c then skip_spaces s' else s | [] => [] end.

(** The digits at the front of [s]: how many, their value, what is left. *)
Fixpoint digits (acc : Z) (s : cstr) : bool * Z * cstr :=
  match s with
  | c :: s' => if isdigit c then let '(_, v, r) := digits (acc * 10 + (code c - 48)) s' in (true, v, r)
               else (false, acc, s)
  | [] => (false, acc, [])
  end.

Definition ULONG_MAX : Z := UINT64_MAX.

(** [strtoul(v, &end, 10)] with [errno] cleared before: the value, whether
    [end] is still [v], whether [errno] is [ERANGE], and the text at [end]. *)
Definition strtoul (v : cstr) : Z * bool * bool * cstr :=
  let s := skip_spaces v in
  let '(neg, s) := match s with
                   | c :: s' => if ceq c "-" then (true, s') else if ceq c "+" then (false, s') else (false, s)
                   | [] => (false, [])
                   end in
  let '(some, n, rest) := digits 0 s in
  if negb some then (0, true, false, v)
  else if n >? ULONG_MAX then (ULONG_MAX, false, true, rest)
  else ((if neg then u64 (- n) else n), false, false, rest).

Fixpoint skip_space_tab (s : cstr) : cstr :=
  match s with c :: s' => if ceq c " " || ceq c ch_tab then skip_space_tab s' else s | [] => [] end.

Definition plc_cfg_u32 (getenv : cstr -> option cstr) (t : cfg_table) (key : option cstr) (fallback : Z) : Z :=
  match plc_cfg_str getenv t key None with
  | None => fallback
  | Some v =>
      let '(n, no_digits, erange, rest) := strtoul v in
      if no_digits || erange || (n =? 0) || (n >? UINT32_MAX) then fallback
      else match skip_space_tab rest with [] => u32 n | _ => fallback end
  end.

Definition strcasecmp_eq (a b : cstr) : bool := bool_decide (map toupper a = map toupper b).

Definition plc_cfg_bool (getenv : cstr -> option cstr) (t : cfg_table) (key : option cstr) (fallback : Z) : Z :=
  match plc_cfg_str getenv t key None with
  | None => fallback
  | Some v =>
      if strcasecmp_eq v (txt "1") || strcasecmp_eq v (txt "true") ||
         strcasecmp_eq v (txt "yes") || strcasecmp_eq v (txt "on") then 1
      else if strcasecmp_eq v (txt "0") || strcasecmp_eq v (txt "false") ||
              strcasecmp_eq v (txt "no") || strcasecmp_eq v (txt "off") then 0
      else fallback
  end.

(** The exit decision of every entry point. *)
Definition plc_config_bootstrap (getenv : cstr -> option cstr) (fs : cstr -> file) (malloc_ok : bool)
    (t : cfg_table) : Z * cfg_table :=
  let '(st, t) := plc_config_init getenv fs malloc_ok t in ((if is_ok st then 0 else -1), t).

(** ** Lemmas on characters and names *)

Definition all_ascii : list ascii := map ascii_of_nat (seq 0 256).

Lemma all_ascii_complete c : In c all_ascii.
Proof.
  apply in_map_iff. exists (nat_of_ascii c). split; [apply ascii_nat_embedding|].
  apply in_seq. pose proof (nat_ascii_bounded c). lia.
Qed.

(** A fact about every character, by checking all of them. *)
Lemma ascii_check (P : ascii -> bool) : forallb P all_ascii = true -> forall c, P c = true.
Proof. rewrite forallb_forall. intros H c. apply H, all_ascii_complete. Qed.

Lemma ceq_spec a b : reflect (a = b) (ceq a b).
Proof. apply Ascii.eqb_spec. Qed.

Lemma ceq_refl a : ceq a a = true.
Proof. apply Ascii.eqb_refl. Qed.

Lemma key_char_fold c : key_char c = true -> fold_char c = c.
Proof.
  intros H. pose proof (ascii_check (fun c => negb (key_char c) || ceq (fold_char c) c) eq_refl c) as Hc.
  simpl in Hc. rewrite H in Hc. simpl in Hc. by destruct (ceq_spec (fold_char c) c).
Qed.

(** Characters of a key mean nothing to the parser. *)
Lemma key_char_plain c :
  key_char c = true ->
  blank c = false /\ ceq c ch_dq = false /\ ceq c ch_sq = false /\ ceq c "#" = false /\ ceq c ";" = false /\
  ceq c "=" = false /\ ceq c "[" = false /\ ceq c ch_nl = false.
Proof.
  intros H. pose proof (ascii_check (fun c => negb (key_char c) ||
    (negb (blank c) && negb (ceq c ch_dq) && negb (ceq c ch_sq) && negb (ceq c "#") && negb (ceq c ";") &&
     negb (ceq c "=") && negb (ceq c "[") && negb (ceq c ch_nl))) eq_refl c) as Hc.
  simpl in Hc. rewrite H in Hc. simpl in Hc. rewrite !andb_true_iff, !negb_true_iff in Hc. tauto.
Qed.

Definition key_chars (s : cstr) : Prop := Forall (fun c => key_char c = true) s.

Lemma normalise_from_spec out_len s : forall n,
  0 <= n < out_len ->
  let '(st, out) := normalise_from out_len n s in
  st = PLC_OK -> out = map fold_char s /\ key_chars out /\ n + zlen out < out_len.
Proof.
  induction s as [|c s IH]; intros n Hn; simpl.
  { intros _. split; [done|split; [constructor|]]. change (zlen []) with 0. lia. }
  destruct (key_char (fold_char c)) eqn:Ek; simpl; [|done].
  destruct (Z.geb_spec (n + 1) out_len); [done|].
  specialize (IH (n + 1) ltac:(lia)). destruct (normalise_from out_len (n + 1) s) as [st out].
  intros E. destruct (IH E) as (-> & Hk & Hl). split; [done|split; [by constructor|]].
  unfold zlen in *. simpl. lia.
Qed.

Lemma normalise_ok out_len s out :
  0 < out_len -> normalise out_len s = (PLC_OK, out) ->
  out = map fold_char s /\ key_chars out /\ zlen out < out_len /\ out <> [].
Proof.
  intros Hp. unfold normalise. pose proof (normalise_from_spec out_len s 0 ltac:(lia)) as H.
  destruct (normalise_from out_len 0 s) as [st o]. unfold is_ok.
  destruct (bool_decide (st = PLC_OK)) eqn:E; [|apply bool_decide_eq_false in E; congruence].
  apply bool_decide_eq_true in E. destruct (H E) as (-> & Hk & Hl).
  case_bool_decide as En; [done|]. intros [= <-]. done.
Qed.

Lemma normalise_from_key out_len s : forall n,
  key_chars s -> n + zlen s < out_len -> normalise_from out_len n s = (PLC_OK, s).
Proof.
  induction s as [|c s IH]; intros n Hk Hl; [done|]. inversion Hk; subst. simpl.
  rewrite key_char_fold by done. replace (key_char c) with true by done. simpl.
  pose proof (zlen_nonneg s). unfold zlen in *. simpl in Hl.
  destruct (Z.geb_spec (n + 1) out_len); [lia|]. rewrite IH; [done|done|lia].
Qed.

Lemma normalise_key out_len s :
  key_chars s -> s <> [] -> zlen s < out_len -> normalise out_len s = (PLC_OK, s).
Proof.
  intros Hk Hn Hl. unfold normalise. rewrite normalise_from_key by (done || lia). simpl.
  by case_bool_decide.
Qed.

(** A fully qualified key. *)
Definition key_ok (q : cstr) : Prop :=
  key_chars q /\ zlen q < PLC_CONFIG_KEY_MAX /\ take 8 q = txt "SOFTPLC_" /\ q <> [].

Lemma key_chars_app a b : key_chars a -> key_chars b -> key_chars (a ++ b).
Proof. apply Forall_app_2. Qed.

Lemma key_chars_prefix : key_chars (txt "SOFTPLC_").
Proof. repeat constructor. Qed.

Lemma qualify_ok section key q :
  qualify PLC_CONFIG_KEY_MAX section key = (PLC_OK, q) -> key_ok q.
Proof.
  unfold qualify. destruct (normalise PLC_CONFIG_KEY_MAX key) as [st k] eqn:En. unfold is_ok.
  destruct (bool_decide (st = PLC_OK)) eqn:Es; cbn [negb];
    [apply bool_decide_eq_true in Es; subst|apply bool_decide_eq_false in Es; congruence].
  apply normalise_ok in En as (_ & Hk & Hl & Hne); [|unfold PLC_CONFIG_KEY_MAX; lia].
  destruct (strncmp_prefix (txt "SOFTPLC_") k) eqn:Ep.
  - destruct (Z.ltb_spec (zlen k) PLC_CONFIG_KEY_MAX); [|done]. intros [= <-].
    unfold strncmp_prefix in Ep. case_bool_decide; done.
  - set (sec := match section with Some (c :: s) => _ | _ => _ end).
    assert (sec.1 = PLC_OK -> key_chars sec.2) as Hsec.
    { subst sec. destruct section as [[|c s]|]; [constructor| |constructor].
      destruct (normalise PLC_CONFIG_KEY_MAX (c :: s)) as [st' s'] eqn:Es'. simpl. intros ->.
      apply normalise_ok in Es' as (_ & Hs' & _); [|unfold PLC_CONFIG_KEY_MAX; lia].
      destruct (_ || _); [constructor|done]. }
    destruct sec as [st s]. simpl in Hsec. destruct (bool_decide (st = PLC_OK)) eqn:E; cbn [negb];
      [apply bool_decide_eq_true in E; subst|apply bool_decide_eq_false in E; congruence].
    set (q' := if bool_decide (s = []) then _ else txt "SOFTPLC_" ++ s ++ txt "_" ++ k).
    assert (key_chars q' /\ take 8 q' = txt "SOFTPLC_" /\ q' <> []) as (H1 & H2 & H3).
    { subst q'. case_bool_decide.
      - split; [by apply key_chars_app; [apply key_chars_prefix|]|done].
      - split; [|done]. apply key_chars_app; [apply key_chars_prefix|].
        apply key_chars_app; [by apply Hsec|]. by apply key_chars_app; [repeat constructor|]. }
    destruct (Z.ltb_spec (zlen q') PLC_CONFIG_KEY_MAX); [|done]. intros [= <-]. done.
Qed.

(** A qualified key is left alone, in any section. *)
Lemma qualify_key section q : key_ok q -> qualify PLC_CONFIG_KEY_MAX section q = (PLC_OK, q).
Proof.
  intros (Hk & Hl & Hp & Hne). unfold qualify. rewrite normalise_key by done. simpl.
  unfold strncmp_prefix. case_bool_decide; [|done].
  by rewrite (proj2 (Z.ltb_lt _ _) Hl).
Qed.

(** ** The table *)

Definition entry_ok (e : entry) : Prop := key_ok (e_key e) /\ zlen (e_value e) < PLC_CONFIG_VALUE_MAX.

Definition table_ok (es : list entry) : Prop :=
  Forall entry_ok es /\ NoDup (map e_key es) /\ zlen es <= PLC_CONFIG_MAX_ENTRIES.

Lemma find_none es q : find es q = None <-> ~ In q (map e_key es).
Proof.
  induction es as [|e es IH]; simpl; [tauto|]. case_bool_decide as E.
  - split; [done|]. intros H. exfalso. apply H. by left.
  - rewrite IH. tauto.
Qed.

Lemma find_some es e : NoDup (map e_key es) -> In e es -> find es (e_key e) = Some e.
Proof.
  induction es as [|x es IH]; intros Hnd Hin; [done|]. simpl in *. inversion Hnd as [|? ? Hni Hnd']; subst.
  case_bool_decide as E.
  - destruct Hin as [->|Hin]; [done|]. exfalso. apply Hni. rewrite E. apply list_elem_of_In. by apply in_map.
  - destruct Hin as [->|Hin]; [done|]. by apply IH.
Qed.

Lemma table_ok_snoc es e :
  table_ok es -> entry_ok e -> find es (e_key e) = None -> zlen es <> PLC_CONFIG_MAX_ENTRIES ->
  table_ok (es ++ [e]).
Proof.
  intros (HF & Hnd & Hl) He Hf Hn. split; [by apply Forall_app_2; [|constructor]|].
  split; [|rewrite zlen_app; change (zlen [e]) with 1; lia]. rewrite map_app. simpl.
  apply list.NoDup_app. split; [done|]. split; [|apply NoDup_singleton].
  intros x Hx ->%list_elem_of_singleton. apply find_none in Hf. apply Hf. by apply list_elem_of_In.
Qed.

(** A line keeps the table in order, and only appends to it. *)
Lemma parse_line_ok line sec es sec' es' :
  table_ok es -> parse_line line sec es = inl (sec', es') ->
  table_ok es' /\ exists k, es' = es ++ k.
Proof.
  intros Ht. unfold parse_line. split_if; [done|].
  destruct (trim (strip_comment line)) as [|c body]; [intros [= _ <-]; split; [done|exists []; by rewrite app_nil_r]|].
  destruct (ceq c "[").
  - destruct (split_at "]" body) as [[name after]|]; [|done]. case_bool_decide; [|done]. cbn [negb].
    destruct (normalise _ _) as [st s]. destruct (is_ok st); [|done].
    intros [= _ <-]. split; [done|exists []; by rewrite app_nil_r].
  - destruct (split_at "=" (c :: body)) as [[key val]|]; [|done].
    destruct (qualify _ _ _) as [st q] eqn:Eq. unfold is_ok. case_bool_decide as Est; [|done]. cbn [negb]. subst st.
    apply qualify_ok in Eq. destruct (Z.geb_spec (zlen (unquote (trim val))) PLC_CONFIG_VALUE_MAX); [done|].
    destruct (find es q) eqn:Ef; [done|]. destruct (Z.eqb_spec (zlen es) PLC_CONFIG_MAX_ENTRIES); [done|].
    intros [= _ <-]. split; [|by eexists]. apply table_ok_snoc; [done|by split|done|done].
Qed.

Lemma parse_lines_ok ls : forall n sec es,
  table_ok es -> let '(st, es', e) := parse_lines n ls sec es in
  table_ok es' /\ (exists k, es' = es ++ k) /\ (st = PLC_OK <-> e = None) /\
  (st <> PLC_OK -> exists line c, e = Some (line, c) /\ n < line <= n + zlen ls).
Proof.
  induction ls as [|l ls IH]; intros n sec es Ht; simpl.
  { split; [done|split; [exists []; by rewrite app_nil_r|done]]. }
  assert (zlen (l :: ls) = 1 + zlen ls) as Hz by (unfold zlen; simpl; lia). pose proof (zlen_nonneg ls).
  destruct (parse_line l sec es) as [[sec' es']|c] eqn:E.
  - destruct (parse_line_ok _ _ _ _ _ Ht E) as (Ht' & k & ->).
    specialize (IH (n + 1) sec' (es ++ k) Ht'). destruct (parse_lines (n + 1) ls sec' (es ++ k)) as [[st es2] e].
    destruct IH as (H1 & (k2 & ->) & H3 & H4). split; [done|]. split; [exists (k ++ k2); by rewrite app_assoc|].
    split; [done|]. intros Hst. destruct (H4 Hst) as (line & c & -> & Hl). exists line, c. split; [done|lia].
  - split; [done|split; [exists []; by rewrite app_nil_r|split; [done|]]]. intros _. eexists _, _. split; [done|lia].
Qed.

(** ** Printing *)

Definition print_entry (e : entry) : cstr := e_key e ++ txt "=" ++ [ch_dq] ++ e_value e ++ [ch_dq].
Definition print_table (es : list entry) : cstr := concat (map (fun e => print_entry e ++ [ch_nl]) es).

(** Values a quoted line can carry. *)
Definition printable (e : entry) : Prop :=
  Forall (fun c => ceq c ch_dq = false /\ ceq c ch_nl = false) (e_value e).

Lemma lines_from_app l rest : forall cur,
  Forall (fun c => ceq c ch_nl = false) l ->
  lines_from cur (l ++ ch_nl :: rest) = (rev cur ++ l) :: lines rest.
Proof.
  induction l as [|c l IH]; intros cur HF; simpl.
  - by rewrite app_nil_r.
  - inversion HF as [|? ? Hc HF']; subst. rewrite Hc, IH by done. simpl. by rewrite <- app_assoc.
Qed.

Lemma drop_blanks_id c s : blank c = false -> drop_blanks (c :: s) = c :: s.
Proof. intros H. simpl. by rewrite H. Qed.

Lemma trim_id c s d : blank c = false -> blank d = false -> trim (c :: s ++ [d]) = c :: s ++ [d].
Proof.
  intros Hc Hd. unfold trim. rewrite drop_blanks_id by done.
  assert (rev (c :: s ++ [d]) = d :: rev (c :: s)) as E by (by rewrite app_comm_cons, rev_app_distr).
  rewrite E, drop_blanks_id by done. rewrite <- E. apply rev_involutive.
Qed.

Lemma trim_key k : key_chars k -> trim k = k.
Proof.
  intros Hk. assert (forall s, key_chars s -> drop_blanks s = s) as H.
  { intros [|c s] Hs; [done|]. inversion Hs; subst. apply drop_blanks_id. by apply key_char_plain. }
  unfold trim. rewrite (H k) by done. rewrite (H (rev k)) by (by apply Forall_rev). apply rev_involutive.
Qed.

Lemma strip_from_key k rest : forall prev,
  key_chars k -> strip_from None prev (k ++ rest)
    = k ++ strip_from None (match rev k with [] => prev | c :: _ => Some c end) rest.
Proof.
  induction k as [|c k IH]; intros prev Hk; [done|]. inversion Hk as [|? ? Hc Hk']; subst.
  destruct (key_char_plain c Hc) as (_ & H1 & H2 & H3 & H4 & _). simpl. rewrite H1, H2, H3, H4. simpl.
  f_equal. rewrite IH by done. do 2 f_equal. destruct (rev k) eqn:E; simpl; [done|].
  done.
Qed.

Lemma strip_from_quoted q v rest : forall prev,
  Forall (fun c => ceq c q = false) v ->
  strip_from (Some q) prev (v ++ q :: rest) = v ++ q :: strip_from None (Some q) rest.
Proof.
  induction v as [|c v IH]; intros prev HF; simpl; [by rewrite ceq_refl|].
  inversion HF as [|? ? Hc HF']; subst. rewrite Hc. f_equal. by apply IH.
Qed.

Lemma split_at_key c k rest :
  Forall (fun x => ceq x c = false) k -> split_at c (k ++ c :: rest) = Some (k, rest).
Proof.
  induction k as [|x k IH]; intros HF; simpl; [by rewrite ceq_refl|].
  inversion HF as [|? ? Hx HF']; subst. by rewrite Hx, IH.
Qed.

Lemma unquote_dq v : unquote (ch_dq :: v ++ [ch_dq]) = v.
Proof.
  unfold unquote. destruct (v ++ [ch_dq]) as [|x l] eqn:E; [by destruct v|]. rewrite <- E.
  rewrite last_last, removelast_last. rewrite ceq_refl. done.
Qed.

Lemma print_entry_line e : key_ok (e_key e) -> printable e -> Forall (fun c => ceq c ch_nl = false) (print_entry e).
Proof.
  intros (Hk & _) Hp. unfold print_entry. apply Forall_app_2.
  - eapply Forall_impl; [|exact Hk]. intros c Hc. by apply key_char_plain.
  - simpl. constructor; [done|constructor; [done|]]. apply Forall_app_2; [|by constructor].
    eapply Forall_impl; [|exact Hp]. intros c Hc. apply Hc.
Qed.

Lemma strip_print e : key_ok (e_key e) -> printable e -> strip_comment (print_entry e) = print_entry e.
Proof.
  intros (Hk & _) Hp. unfold strip_comment, print_entry. rewrite strip_from_key by done. f_equal. simpl.
  do 2 f_equal. rewrite strip_from_quoted; [done|].
  eapply Forall_impl; [|exact Hp]. intros c Hc. apply Hc.
Qed.

(** A printed entry is read back. *)
Lemma parse_print_entry e es :
  entry_ok e -> printable e -> find es (e_key e) = None -> zlen es < PLC_CONFIG_MAX_ENTRIES ->
  parse_line (print_entry e) [] es = inl ([], es ++ [e]).
Proof.
  intros [Hkey Hval] Hp Hf Hn. pose proof Hkey as (Hk & Hl & _ & Hne). unfold parse_line.
  assert (zlen (print_entry e) < LINE_SIZE) as Hlen.
  { unfold print_entry, LINE_SIZE, PLC_CONFIG_VALUE_MAX, PLC_CONFIG_KEY_MAX, zlen in *.
    rewrite !length_app. simpl. lia. }
  destruct (Z.geb_spec (zlen (print_entry e)) LINE_SIZE); [lia|]. rewrite strip_print by done.
  destruct (e_key e) as [|c k] eqn:Ek; [done|]. inversion Hk as [|? ? Hc Hk']; subst.
  destruct (key_char_plain c Hc) as (Hb & _ & _ & _ & _ & _ & Hbr & _).
  assert (trim (print_entry e) = print_entry e) as ->.
  { unfold print_entry. rewrite Ek. simpl.
    change (c :: k ++ "="%char :: ch_dq :: e_value e ++ [ch_dq])
      with (c :: k ++ (("="%char :: ch_dq :: e_value e) ++ [ch_dq])). rewrite app_assoc. by apply trim_id. }
  unfold print_entry at 1 2. rewrite Ek. cbn [app]. rewrite Hbr.
  change (c :: k ++ txt "=" ++ ch_dq :: e_value e ++ [ch_dq])
    with ((c :: k) ++ "="%char :: (ch_dq :: e_value e ++ [ch_dq])).
  rewrite split_at_key by (eapply Forall_impl; [|exact Hk]; intros x Hx; by apply key_char_plain).
  rewrite trim_key by done. rewrite trim_id by done. rewrite unquote_dq.
  rewrite qualify_key by done. change (is_ok PLC_OK) with true. cbn [negb].
  destruct (Z.geb_spec (zlen (e_value e)) PLC_CONFIG_VALUE_MAX); [lia|]. rewrite Hf.
  destruct (Z.eqb_spec (zlen es) PLC_CONFIG_MAX_ENTRIES); [lia|]. rewrite <- Ek. by destruct e.
Qed.

Lemma lines_print es :
  Forall (fun e => key_ok (e_key e) /\ printable e) es -> lines (print_table es) = map print_entry es.
Proof.
  induction es as [|e es IH]; intros HF; [done|]. inversion HF as [|? ? [H1 H2] HF']; subst.
  unfold print_table. simpl. rewrite <- app_assoc. simpl. unfold lines.
  rewrite lines_from_app by (by apply print_entry_line). simpl. f_equal. by apply IH.
Qed.

Lemma parse_lines_print es : forall n done_,
  table_ok (done_ ++ es) -> Forall printable es ->
  parse_lines n (map print_entry es) [] done_ = (PLC_OK, done_ ++ es, None).
Proof.
  induction es as [|e es IH]; intros n dn Ht Hp; simpl; [by rewrite app_nil_r|].
  inversion Hp as [|? ? Hpe Hp']; subst. pose proof Ht as (HF & Hnd & Hl).
  apply Forall_app in HF as [_ HF]. inversion HF as [|? ? He _]; subst.
  rewrite zlen_app in Hl. unfold zlen in Hl at 2. simpl in Hl. rewrite map_app in Hnd. simpl in Hnd.
  rewrite parse_print_entry; [|done|done| |lia].
  - rewrite IH; [by rewrite <- app_assoc|by rewrite <- app_assoc|done].
  - apply find_none. intros Hin. apply list.NoDup_app in Hnd as (_ & Hd & _).
    apply (Hd (e_key e)); [by apply list_elem_of_In|by left].
Qed.

(** ** Properties *)

(** [C31] Whatever the text, parsing leaves a well-formed table: at most 64
    entries, no key twice, every key fully qualified and shorter than 64
    characters, every value shorter than 256.  Parsing fails exactly when it
    reports a complaint, which names a line of the text. *)
Theorem config_table_ok (text : cstr) (t : cfg_table) :
  let '(st, t', e) := plc_config_parse (Some text) t in
  table_ok (ct_entries t') /\ (st = PLC_OK <-> e = None) /\
  (st <> PLC_OK -> st = PLC_ERR_INVAL /\ exists line c, e = Some (line, c) /\ 1 <= line <= zlen (lines text)).
Proof.
  unfold plc_config_parse.
  assert (table_ok []) as H0 by (split; [constructor|split; [constructor|vm_compute; congruence]]).
  pose proof (parse_lines_ok (lines text) 0 [] [] H0) as H.
  assert (forall ls n sec es, (parse_lines n ls sec es).1.1 = PLC_OK \/ (parse_lines n ls sec es).1.1 = PLC_ERR_INVAL) as Hst.
  { intros ls. induction ls as [|l ls IH]; intros n sec es; simpl; [by left|].
    destruct (parse_line l sec es) as [[sec' es']|c]; [apply IH|by right]. }
  specialize (Hst (lines text) 0 [] []).
  destruct (parse_lines 0 (lines text) [] []) as [[st es] e]. destruct H as (H1 & _ & H3 & H4). simpl in *.
  split; [done|split; [done|]]. intros Hne. split; [by destruct Hst|].
  destruct (H4 Hne) as (line & c & -> & Hl). exists line, c. split; [done|lia].
Qed.

(** [C32] Print and parse.  A well-formed table whose values hold no double
    quote and no newline, written one [KEY="VALUE"] per line, parses back to
    itself, comment characters, blanks and equals signs in the values
    included. *)
Theorem config_print_parse (es : list entry) (t : cfg_table)
    (Hok : table_ok es) (Hp : Forall printable es) :
  plc_config_parse (Some (print_table es)) t = (PLC_OK, t <| ct_entries := es |>, None).
Proof.
  unfold plc_config_parse. rewrite lines_print.
  - by rewrite (parse_lines_print es 0 []).
  - destruct Hok as [HF _]. rewrite List.Forall_forall in *. intros e He. split; [by apply HF|by apply Hp].
Qed.

Definition config_example : list entry :=
  [Entry (txt "SOFTPLC_ROLE") (txt "adapter"); Entry (txt "SOFTPLC_EIP_INTERFACE") (txt " eth0 # not = a; comment ")].

Lemma config_example_ok : table_ok config_example.
Proof.
  split; [repeat constructor; vm_compute; congruence|split; [|vm_compute; congruence]].
  apply (bool_decide_unpack (NoDup (map e_key config_example))). vm_compute. exact I.
Qed.

Lemma config_print_parse_witness :
  plc_config_parse (Some (print_table config_example)) (Table [] []) = (PLC_OK, Table config_example [], None).
Proof.
  apply (config_print_parse config_example (Table [] []));
    [exact config_example_ok|repeat constructor; reflexivity].
Defined.

(** A lookup depends on the setting, not on its spelling, and the order
    is environment, file, default.  For any key that qualifies to [q]:
    looking up [q] itself gives the same result; a non-empty environment
    variable [q] wins; otherwise the non-empty value the file gave [q];
    otherwise the caller's default. *)
Theorem config_lookup_precedence (getenv : cstr -> option cstr) (t : cfg_table) (k q : cstr) (fallback : option cstr)
    (Hq : qualify PLC_CONFIG_KEY_MAX None k = (PLC_OK, q)) (Ht : table_ok (ct_entries t)) :
  let unset := getenv q = None \/ getenv q = Some [] in
  plc_cfg_str getenv t (Some q) fallback = plc_cfg_str getenv t (Some k) fallback /\
  (forall v, getenv q = Some v -> v <> [] -> plc_cfg_str getenv t (Some k) fallback = Some v) /\
  (forall e, unset -> In e (ct_entries t) -> e_key e = q ->
     plc_cfg_str getenv t (Some k) fallback = if bool_decide (e_value e = []) then fallback else Some (e_value e)) /\
  (unset -> ~ In q (map e_key (ct_entries t)) -> plc_cfg_str getenv t (Some k) fallback = fallback).
Proof.
  intros unset. assert (forall k', qualify PLC_CONFIG_KEY_MAX None k' = (PLC_OK, q) ->
    plc_cfg_str getenv t (Some k') fallback
      = match getenv q with
        | Some (c :: v) => Some (c :: v)
        | _ => match find (ct_entries t) q with Some (Entry _ (c :: v)) => Some (c :: v) | _ => fallback end
        end) as Hs by (intros k' E; unfold plc_cfg_str; by rewrite E).
  rewrite (Hs k Hq), (Hs q) by (apply qualify_key; by eapply qualify_ok). split; [done|split; [|split]].
  - intros [|c v] -> Hv; [done|]. done.
  - intros e Hu Hin He. destruct Ht as (_ & Hnd & _). subst q. rewrite (find_some _ _ Hnd Hin).
    assert (forall x : option cstr, (getenv (e_key e) = None \/ getenv (e_key e) = Some []) ->
      match getenv (e_key e) with Some (c :: v) => Some (c :: v) | _ => x end = x) as Hx by (by intros x [-> | ->]).
    rewrite Hx by done. destruct e as [ek ev]; simpl. by destruct ev.
  - intros Hu Hni. apply find_none in Hni. rewrite Hni. by destruct Hu as [-> | ->].
Qed.

Lemma config_lookup_precedence_witness :
  plc_cfg_str (fun _ => None) (Table config_example []) (Some (txt "eip.interface")) None
    = Some (txt " eth0 # not = a; comment ").
Proof.
  apply (config_lookup_precedence (fun _ => None) (Table config_example []) (txt "eip.interface")
           (txt "SOFTPLC_EIP_INTERFACE") None) with
    (e := Entry (txt "SOFTPLC_EIP_INTERFACE") (txt " eth0 # not = a; comment "));
    [reflexivity|exact config_example_ok|by left|right; left; reflexivity|reflexivity].
Defined.

(** ** Numbers *)

Definition digit_char (d : Z) : ascii := ascii_of_nat (Z.to_nat (48 + d)).
(** Decimal text, most significant digit first; [fuel] digits are enough for a
    number below [10 ^ fuel]. *)
Fixpoint decimal (fuel : nat) (n : Z) : cstr :=
  match fuel with
  | O => []
  | S fuel => if n <? 10 then [digit_char n] else decimal fuel (n / 10) ++ [digit_char (n mod 10)]
  end.

Definition digit_value (acc : Z) (s : cstr) : Z := fold_left (fun a c => a * 10 + (code c - 48)) s acc.

Lemma digit_char_ok d : 0 <= d < 10 -> isdigit (digit_char d) = true /\ code (digit_char d) - 48 = d.
Proof.
  intros Hd. assert (d = 0 \/ d = 1 \/ d = 2 \/ d = 3 \/ d = 4 \/ d = 5 \/ d = 6 \/ d = 7 \/ d = 8 \/ d = 9) as H by lia.
  repeat destruct H as [->|H]; try (vm_compute; done). subst. by vm_compute.
Qed.

Lemma digits_all s : forall acc,
  Forall (fun c => isdigit c = true) s -> s <> [] -> digits acc s = (true, digit_value acc s, []).
Proof.
  induction s as [|c s IH]; intros acc HF Hne; [done|]. inversion HF as [|? ? Hc HF']; subst. simpl. rewrite Hc.
  destruct s as [|c' s]; [done|]. by rewrite IH.
Qed.

Lemma decimal_ok fuel : forall n, 0 <= n < 10 ^ Z.of_nat fuel -> (0 < fuel)%nat ->
  Forall (fun c => isdigit c = true) (decimal fuel n) /\ decimal fuel n <> [] /\ digit_value 0 (decimal fuel n) = n.
Proof.
  induction fuel as [|fuel IH]; intros n Hn Hf; [lia|]. cbn [decimal].
  destruct (Z.ltb_spec n 10).
  - destruct (digit_char_ok n) as [H1 H2]; [lia|]. split; [by constructor|split; [done|]]. unfold digit_value. simpl. lia.
  - assert (0 < fuel)%nat as Hf'. { destruct fuel; [simpl in Hn; lia|lia]. }
    replace (Z.of_nat (S fuel)) with (Z.of_nat fuel + 1) in Hn by lia. rewrite Z.pow_add_r in Hn by lia.
    destruct (IH (n / 10)) as (H1 & H2 & H3); [split; [apply Z.div_pos; lia|apply Z.div_lt_upper_bound; lia]|done|].
    destruct (digit_char_ok (n mod 10)) as [H4 H5]; [apply Z.mod_pos_bound; lia|].
    split; [by apply Forall_app_2; [|constructor]|]. split; [by destruct (decimal fuel (n / 10))|].
    unfold digit_value in *. rewrite fold_left_app. simpl. rewrite H3, H5. pose proof (Z.div_mod n 10 ltac:(lia)). lia.
Qed.

Lemma digit_not_special c : isdigit c = true -> isspace c = false /\ ceq c "-" = false /\ ceq c "+" = false.
Proof.
  intros H. pose proof (ascii_check (fun c => negb (isdigit c) ||
    (negb (isspace c) && negb (ceq c "-") && negb (ceq c "+"))) eq_refl c) as Hc.
  simpl in Hc. rewrite H in Hc. simpl in Hc. rewrite !andb_true_iff, !negb_true_iff in Hc. tauto.
Qed.

Lemma strtoul_decimal n : 0 <= n <= UINT64_MAX -> strtoul (decimal 20 n) = (n, false, false, []).
Proof.
  intros Hn. destruct (decimal_ok 20 n) as (HF & Hne & Hv); [unfold UINT64_MAX in Hn; lia|lia|].
  unfold strtoul. destruct (decimal 20 n) as [|c s] eqn:E; [done|]. pose proof (Forall_inv HF) as Hc.
  destruct (digit_not_special c Hc) as (H1 & H2 & H3). simpl skip_spaces. rewrite H1, H2, H3.
  rewrite digits_all by done. rewrite Hv. cbn [negb].
  destruct (Z.gtb_spec n ULONG_MAX); [unfold ULONG_MAX in *; lia|done].
Qed.

Lemma cfg_u32_range getenv table key fallback :
  0 <= fallback < 2 ^ 32 -> 0 <= plc_cfg_u32 getenv table key fallback < 2 ^ 32.
Proof.
  intros Hf. unfold plc_cfg_u32. destruct (plc_cfg_str _ _ _ _); [|done].
  destruct (strtoul _) as [[[n a] b] rest]. split_if; [done|]. destruct (skip_space_tab rest); [apply u32_range|done].
Qed.

(** Numeric settings.  Every decimal number between 1 and [UINT32_MAX] is
    read back exactly; whatever the text, the result is the caller's default or
    lies in that range, so a setting is never read as zero. *)
Theorem config_u32_exact (getenv : cstr -> option cstr) (t : cfg_table) (key : option cstr) (fallback n : Z) (v : cstr)
    (Hv : plc_cfg_str getenv t key None = Some v) (Hn : 1 <= n <= UINT32_MAX) :
  (v = decimal 20 n -> plc_cfg_u32 getenv t key fallback = n) /\
  (plc_cfg_u32 getenv t key fallback = fallback \/ 1 <= plc_cfg_u32 getenv t key fallback <= UINT32_MAX).
Proof.
  unfold plc_cfg_u32. rewrite Hv. split.
  - intros ->. rewrite strtoul_decimal by (unfold UINT32_MAX, UINT64_MAX in *; lia). cbn [orb].
    destruct (Z.eqb_spec n 0); [lia|]. destruct (Z.gtb_spec n UINT32_MAX); [lia|]. cbn [orb skip_space_tab].
    apply u32_small. unfold UINT32_MAX in *. lia.
  - assert (0 <= (strtoul v).1.1.1) as H0.
    { unfold strtoul. destruct (match skip_spaces v with c :: s' => _ | [] => _ end) as [neg s].
      assert (forall s acc, 0 <= acc -> 0 <= (digits acc s).1.2) as Hd.
      { clear. intros s. induction s as [|c s IH]; intros acc Ha; simpl; [done|].
        destruct (isdigit c) eqn:E; [|done]. specialize (IH (acc * 10 + (code c - 48))).
        destruct (digits _ s) as [[b x] r]. simpl in *. apply IH. unfold isdigit in E. lia. }
      specialize (Hd s 0 ltac:(lia)). destruct (digits 0 s) as [[some x] rest]. simpl in Hd.
      repeat split_if; simpl; try lia; [vm_compute; congruence|apply u64_range]. }
    destruct (strtoul v) as [[[x nd] er] rest]. simpl in H0.
    destruct (nd || er || (x =? 0) || (x >? UINT32_MAX)) eqn:E; [by left|].
    rewrite !orb_false_iff in E. destruct E as [[[_ _] E0] E1].
    destruct (skip_space_tab rest); [right|by left].
    rewrite u32_small; unfold UINT32_MAX in *; lia.
Qed.

Lemma config_u32_exact_witness :
  plc_cfg_u32 (fun _ => Some (txt "4294967295")) (Table [] []) (Some (txt "eip_input_bytes")) 32 = 4294967295.
Proof.
  apply (config_u32_exact (fun _ => Some (txt "4294967295")) (Table [] []) (Some (txt "eip_input_bytes")) 32
           4294967295 (txt "4294967295")); [reflexivity|unfold UINT32_MAX; lia|reflexivity].
Defined.

(** A negative number is not refused: [strtoul] wraps it, so the text
    ["-18446744073709551615"] is read as the setting 1. *)
Theorem config_u32_wraps_negative :
  plc_cfg_u32 (fun _ => Some (txt "-18446744073709551615")) (Table [] []) (Some (txt "cycle_us")) 10000 = 1.
Proof. reflexivity. Qed.

(** A settings file of exactly [CONFIG_MAX_BYTES - 1] bytes is refused,
    although it fits the buffer and the diagnostic says it must be larger than
    [CONFIG_MAX_BYTES] for that. *)
Theorem config_file_size_off_by_one (contents : cstr) (t : cfg_table)
    (Hlen : zlen contents = CONFIG_MAX_BYTES - 1) :
  plc_config_load (fun _ => FileData contents) true (Some (txt "/etc/softplc.conf")) t = (PLC_ERR_INVAL, t).
Proof.
  unfold plc_config_load. simpl. rewrite Hlen. destruct (Z.geb_spec (CONFIG_MAX_BYTES - 1) (CONFIG_MAX_BYTES - 1)); [done|lia].
Qed.

(** A table filled by [plc_config_parse] has no path, so
    [plc_config_source], which is documented never to be empty, is. *)
Theorem config_source_empty_after_parse :
  let '(st, t, _) := plc_config_parse (Some (txt "role = none")) (Table [] []) in
  st = PLC_OK /\ plc_config_source t = [].
Proof. vm_compute. done. Qed.
