(* ===== verification/Shm.v ===== *)
(** * Shared memory and semaphores

    [src/ipc/shm.c] and [include/softplc/ipc/shm.h] over a model of the part
    of POSIX they use: named regions, advisory locks that die with their
    descriptor, mappings, named semaphores, the monotonic clock.

    What other processes do is a script.  Every system call, and every access
    to memory another process can reach, first consumes one [event]: how much
    time has gone by, what the others have changed, and the error the call is
    to report if it is one that can fail.  A theorem about all scripts is
    therefore one about all interleavings and all failures; a script that has
    run out means that nobody else does anything any more.

    A region's contents have a type [M] of their own, the C structure its
    owner maps. *)

From Stdlib Require Import ZArith Lia.
From stdpp Require Import base gmap list strings tactics.
From S2P Require Import Prelude PlcTypes Adapter.

(** ** The kernel *)

Definition ENOENT : Z := 2.
Definition EINTR : Z := 4.
Definition EAGAIN : Z := 11.
Definition EWOULDBLOCK : Z := EAGAIN.
Definition EEXIST : Z := 17.
Definition ENOSPC : Z := 28.
Definition EMFILE : Z := 24.
Definition EBADF : Z := 9.
Definition EINVAL : Z := 22.
Definition ETIMEDOUT : Z := 110.
Definition SEM_VALUE_MAX : Z := 2147483647.

(** The C structure a region holds: its all-zero value, its size, and what is
    true of it whatever bytes it contains. *)
Class Region (M : Type) : Type := {
  m_zero : M;
  m_bytes : Z;
  m_ok : M -> Prop;
  m_zero_ok : m_ok m_zero;
  m_bytes_pos : 0 < m_bytes
}.

Record inode (M : Type) : Type := Inode {
  ino_size : Z;
  ino_data : M;
  ino_lock : option (Z * Z)  (** the process and descriptor holding the lock *)
}.
Arguments Inode {M}.
Arguments ino_size {M}.
Arguments ino_data {M}.
Arguments ino_lock {M}.
#[export] Instance eta_inode {M} : Eta (inode M) := fun r =>
  Inode (ino_size r) (ino_data r) (ino_lock r).

Record kernel (M : Type) : Type := Kernel {
  k_names : gmap string Z;  (** region name -> inode *)
  k_inodes : gmap Z (inode M);
  k_fds : gmap (Z * Z) Z;  (** (process, descriptor) -> inode *)
  k_maps : gmap (Z * Z) Z;  (** (process, address) -> inode *)
  k_semnames : gmap string Z;
  k_sems : gmap Z Z;  (** semaphore values *)
  k_next : Z  (** the next number nothing uses yet *)
}.
Arguments Kernel {M}.
Arguments k_names {M}.
Arguments k_inodes {M}.
Arguments k_fds {M}.
Arguments k_maps {M}.
Arguments k_semnames {M}.
Arguments k_sems {M}.
Arguments k_next {M}.
#[export] Instance eta_kernel {M} : Eta (kernel M) := fun r =>
  Kernel (k_names r) (k_inodes r) (k_fds r) (k_maps r) (k_semnames r) (k_sems r)
    (k_next r).

Record event (M : Type) : Type := Event {
  ev_ns : Z;  (** time that has passed *)
  ev_move : option (kernel M -> kernel M);  (** what the others have done *)
  ev_errno : Z  (** the error to report, 0 for none *)
}.
Arguments Event {M}.
Arguments ev_ns {M}.
Arguments ev_move {M}.
Arguments ev_errno {M}.
#[export] Instance eta_event {M} : Eta (event M) := fun r =>
  Event (ev_ns r) (ev_move r) (ev_errno r).

Record world (M : Type) : Type := World {
  w_k : kernel M;
  w_ns : Z;
  w_script : list (event M)
}.
Arguments World {M}.
Arguments w_k {M}.
Arguments w_ns {M}.
Arguments w_script {M}.
#[export] Instance eta_world {M} : Eta (world M) := fun r =>
  World (w_k r) (w_ns r) (w_script r).

(** Time, and what a call finds when it gets to run. *)
Definition pause {M} (w : world M) : Z * world M :=
  match w_script w with
  | [] => (0, w)
  | e :: s => (ev_errno e,
               World (match ev_move e with Some f => f (w_k w) | None => w_k w end)
                     (w_ns w + Z.max 0 (ev_ns e)) s)
  end.

Definition in_kernel {M T} (f : kernel M -> T * kernel M) (w : world M) : T * world M :=
  let '(t, k) := f (w_k w) in (t, w <| w_k := k |>).

#[export] Instance world_clock {M} : Clock (world M) := fun w =>
  let '(_, w) := pause w in
  let t := Z.max 0 (Z.min (w_ns w) (2 ^ 62 - 1)) in
  ((t / 1000000000, t mod 1000000000), w).

(** ** System calls

    A call returns its value, [errno], and the world after it.  An event
    cannot make a call report an error that the state of the objects decides:
    [fails err own] leaves [own] out. *)

Definition fails (err own : Z) : bool := negb (err =? 0) && negb (err =? own).

Section Calls.
Context {M : Type} `{Region M} (pid : Z).
Implicit Types (w : world M) (k : kernel M).

Definition k_open k (i : Z) : Z * kernel M :=
  let fd := k_next k in
  (fd, k <| k_fds := <[(pid, fd) := i]> (k_fds k) |> <| k_next := fd + 1 |>).

(** [shm_open(name, O_RDWR, 0)]. *)
Definition shm_open w (name : string) : Z * Z * world M :=
  let '(err, w) := pause w in
  if fails err ENOENT then (-1, err, w)
  else match k_names (w_k w) !! name with
       | None => (-1, ENOENT, w)
       | Some i => let '(fd, w) := in_kernel (fun k => k_open k i) w in (fd, 0, w)
       end.

(** [shm_open(name, O_CREAT | O_EXCL | O_RDWR, ..)]. *)
Definition shm_open_excl w (name : string) : Z * Z * world M :=
  let '(err, w) := pause w in
  if fails err EEXIST then (-1, err, w)
  else match k_names (w_k w) !! name with
       | Some _ => (-1, EEXIST, w)
       | None =>
           let '(fd, w) := in_kernel (fun k =>
             let i := k_next k in
             k_open (k <| k_names := <[name := i]> (k_names k) |>
                       <| k_inodes := <[i := Inode 0 m_zero None]> (k_inodes k) |>
                       <| k_next := i + 1 |>) i) w in
           (fd, 0, w)
       end.

Definition shm_unlink w (name : string) : world M :=
  let '(err, w) := pause w in
  if negb (err =? 0) then w
  else w <| w_k := (w_k w) <| k_names := delete name (k_names (w_k w)) |> |>.

(** The inode behind a descriptor, and a change to it. *)
Definition fd_inode k (fd : Z) : option (Z * inode M) :=
  match k_fds k !! (pid, fd) with
  | None => None
  | Some i => match k_inodes k !! i with Some o => Some (i, o) | None => None end
  end.
Definition k_set_inode k (i : Z) (o : inode M) : kernel M :=
  k <| k_inodes := <[i := o]> (k_inodes k) |>.

(** [flock(fd, LOCK_EX | LOCK_NB)]: 0, or the error. *)
Definition flock w (fd : Z) : Z * world M :=
  let '(err, w) := pause w in
  if fails err EWOULDBLOCK then (err, w)
  else match fd_inode (w_k w) fd with
       | None => (EBADF, w)
       | Some (i, o) =>
           if bool_decide (ino_lock o = None \/ ino_lock o = Some (pid, fd))
           then (0, w <| w_k := k_set_inode (w_k w) i (o <| ino_lock := Some (pid, fd) |>) |>)
           else (EWOULDBLOCK, w)
       end.

(** The last descriptor of a lock takes the lock with it. *)
Definition close w (fd : Z) : world M :=
  let '(_, w) := pause w in
  let k := w_k w in
  let k := match fd_inode k fd with
           | Some (i, o) => if bool_decide (ino_lock o = Some (pid, fd))
                            then k_set_inode k i (o <| ino_lock := None |>) else k
           | None => k
           end in
  w <| w_k := k <| k_fds := delete (pid, fd) (k_fds k) |> |>.

Definition ftruncate w (fd size : Z) : Z * world M :=
  let '(err, w) := pause w in
  if negb (err =? 0) then (err, w)
  else match fd_inode (w_k w) fd with
       | None => (EBADF, w)
       | Some (i, o) => (0, w <| w_k := k_set_inode (w_k w) i (o <| ino_size := size |>) |>)
       end.

Definition posix_fallocate w (fd size : Z) : Z * world M :=
  let '(err, w) := pause w in
  if negb (err =? 0) then (err, w)
  else match fd_inode (w_k w) fd with
       | None => (EBADF, w)
       | Some (i, o) =>
           (0, w <| w_k := k_set_inode (w_k w) i (o <| ino_size := Z.max (ino_size o) size |>) |>)
       end.

(** [None] is [MAP_FAILED]. *)
Definition mmap w (size fd : Z) : option Z * world M :=
  let '(err, w) := pause w in
  if negb (err =? 0) then (None, w)
  else match k_fds (w_k w) !! (pid, fd) with
       | None => (None, w)
       | Some i =>
           let k := w_k w in
           (Some (k_next k), w <| w_k := k <| k_maps := <[(pid, k_next k) := i]> (k_maps k) |>
                                           <| k_next := k_next k + 1 |> |>)
       end.

Definition munmap w (base : Z) : world M :=
  let '(_, w) := pause w in
  w <| w_k := (w_k w) <| k_maps := delete (pid, base) (k_maps (w_k w)) |> |>.

(** [st.st_size], or a failure. *)
Definition fstat w (fd : Z) : option Z * world M :=
  let '(err, w) := pause w in
  if negb (err =? 0) then (None, w)
  else (match fd_inode (w_k w) fd with Some (_, o) => Some (ino_size o) | None => None end, w).

(** Memory of a mapping.  An access to memory the peer shares lets the peer
    run first; [mem_set] is a write before the region has been announced. *)
Definition deref k (base : Z) : M :=
  match k_maps k !! (pid, base) with
  | None => m_zero
  | Some i => match k_inodes k !! i with Some o => ino_data o | None => m_zero end
  end.
Definition k_store k (base : Z) (m : M) : kernel M :=
  match k_maps k !! (pid, base) with
  | None => k
  | Some i => match k_inodes k !! i with
              | Some o => k_set_inode k i (o <| ino_data := m |>)
              | None => k
              end
  end.
Definition mem_set w (base : Z) (f : M -> M) : world M :=
  w <| w_k := k_store (w_k w) base (f (deref (w_k w) base)) |>.
Definition mem_op {T} w (base : Z) (f : M -> T * M) : T * world M :=
  let '(_, w) := pause w in
  let '(t, m) := f (deref (w_k w) base) in (t, w <| w_k := k_store (w_k w) base m |>).

(** Semaphores: [None] is [SEM_FAILED]. *)
Definition sem_unlink w (name : string) : world M :=
  let '(err, w) := pause w in
  if negb (err =? 0) then w
  else w <| w_k := (w_k w) <| k_semnames := delete name (k_semnames (w_k w)) |> |>.
Definition sem_open w (name : string) : option Z * Z * world M :=
  let '(err, w) := pause w in
  if fails err ENOENT then (None, err, w)
  else match k_semnames (w_k w) !! name with
       | Some s => (Some s, 0, w)
       | None => (None, ENOENT, w)
       end.
Definition sem_open_excl w (name : string) (value : Z) : option Z * Z * world M :=
  let '(err, w) := pause w in
  if fails err EEXIST then (None, err, w)
  else match k_semnames (w_k w) !! name with
       | Some _ => (None, EEXIST, w)
       | None =>
           let k := w_k w in
           let s := k_next k in
           (Some s, 0, w <| w_k := k <| k_semnames := <[name := s]> (k_semnames k) |>
                                     <| k_sems := <[s := value]> (k_sems k) |>
                                     <| k_next := s + 1 |> |>)
       end.
Definition sem_value k (s : Z) : Z := default 0 (k_sems k !! s).
Definition sem_set k (s v : Z) : kernel M := k <| k_sems := <[s := v]> (k_sems k) |>.
Definition sem_post w (s : Z) : world M :=
  let '(_, w) := pause w in
  let v := sem_value (w_k w) s in
  if v >=? SEM_VALUE_MAX then w else w <| w_k := sem_set (w_k w) s (v + 1) |>.
Definition sem_close w (s : Z) : world M := (pause w).2.

(** 0, or the error. *)
Definition sem_trywait w (s : Z) : Z * world M :=
  let '(err, w) := pause w in
  if fails err EAGAIN then (err, w)
  else let v := sem_value (w_k w) s in
       if v >? 0 then (0, w <| w_k := sem_set (w_k w) s (v - 1) |>) else (EAGAIN, w).

(** [sem_clockwait(sem, CLOCK_MONOTONIC, deadline)].  The event a wait
    consumes is everything that happens until it returns: a post, a signal
    ([EINTR]) or nothing, in which case it returns at the deadline. *)
Definition sem_clockwait w (s : Z) (deadline : Z * Z) : Z * world M :=
  let '(err, w) := pause w in
  let v := sem_value (w_k w) s in
  if negb ((0 <=? deadline.2) && (deadline.2 <? 1000000000)) then (EINVAL, w)
  else if v >? 0 then (0, w <| w_k := sem_set (w_k w) s (v - 1) |>)
  else if fails err ETIMEDOUT then (err, w)
  else (ETIMEDOUT, w <| w_ns := Z.max (w_ns w) (deadline.1 * 1000000000 + deadline.2) |>).
End Calls.

(** ** Regions *)

Definition PLC_SHM_NAME_BYTES : Z := 128.

Record plc_shm : Type := Shm {
  shm_name : string;
  shm_fd : Z;
  shm_base : option Z;  (** [NULL] is [None] *)
  shm_size : Z;
  shm_owner : bool  (** created it, so responsible for unlinking *)
}.
#[export] Instance eta_plc_shm : Eta plc_shm := fun r =>
  Shm (shm_name r) (shm_fd r) (shm_base r) (shm_size r) (shm_owner r).

Definition shm_zero : plc_shm := Shm "" 0 None 0 false.

Section Shm.
Context {M : Type} `{Region M} (pid : Z).
Implicit Types (w : world M) (shm : plc_shm).

(** [close(shm->fd); shm->fd = -1; shm_unlink(name)], the way every failure
    after the descriptor exists is undone. *)
Definition create_undo shm (name : string) w : plc_shm * world M :=
  let w := close pid w (shm_fd shm) in
  let shm := shm <| shm_fd := -1 |> in
  (shm, shm_unlink w name).

(** The part after the name has been found free or stale. *)
Definition create_fresh shm (name : string) (size : Z) w : plc_status * plc_shm * world M :=
  let w := shm_unlink w name in
  let '(fd, _, w) := shm_open_excl pid w name in
  let shm := shm <| shm_fd := fd |> in
  if shm_fd shm <? 0 then (PLC_ERR_IO, shm, w)
  else
    let '(rc, w) := flock pid w (shm_fd shm) in
    if negb (rc =? 0) then let '(shm, w) := create_undo shm name w in (PLC_ERR_IO, shm, w)
    else
      let '(rc, w) := ftruncate pid w (shm_fd shm) size in
      if negb (rc =? 0) then let '(shm, w) := create_undo shm name w in (PLC_ERR_IO, shm, w)
      else
        let '(falloc, w) := posix_fallocate pid w (shm_fd shm) size in
        if negb (falloc =? 0) then let '(shm, w) := create_undo shm name w in (PLC_ERR_IO, shm, w)
        else
          let '(base, w) := mmap pid w size (shm_fd shm) in
          match base with
          | None => let shm := shm <| shm_base := None |> in
                    let '(shm, w) := create_undo shm name w in (PLC_ERR_NOMEM, shm, w)
          | Some base =>
              let shm := shm <| shm_base := Some base |> in
              let w := mem_set pid w base (fun _ => m_zero) in
              (PLC_OK, shm <| shm_size := size |> <| shm_owner := true |>, w)
          end.

Definition plc_shm_create (shm : option plc_shm) (name : option string) (size : Z) w
    : plc_status * option plc_shm * world M :=
  match shm, name with
  | Some shm, Some name =>
      if size =? 0 then (PLC_ERR_INVAL, Some shm, w)
      else
        let shm := shm_zero <| shm_name := snprintf_s PLC_SHM_NAME_BYTES name |> in
        let '(probe, _, w) := shm_open pid w name in
        if probe >=? 0 then
          let '(err, w) := flock pid w probe in
          let w := close pid w probe in
          if negb (err =? 0)
          then ((if err =? EWOULDBLOCK then PLC_ERR_STATE else PLC_ERR_IO), Some shm, w)
          else let '(st, shm, w) := create_fresh shm name size w in (st, Some shm, w)
        else let '(st, shm, w) := create_fresh shm name size w in (st, Some shm, w)
  | _, _ => (PLC_ERR_INVAL, shm, w)
  end.

Definition plc_shm_attach (shm : option plc_shm) (name : option string) (size : Z) w
    : plc_status * option plc_shm * world M :=
  match shm, name with
  | Some shm, Some name =>
      if size =? 0 then (PLC_ERR_INVAL, Some shm, w)
      else
        let shm := shm_zero <| shm_name := snprintf_s PLC_SHM_NAME_BYTES name |> in
        let '(fd, err, w) := shm_open pid w name in
        let shm := shm <| shm_fd := fd |> in
        if shm_fd shm <? 0
        then ((if err =? ENOENT then PLC_ERR_NOTFOUND else PLC_ERR_IO), Some (shm <| shm_fd := -1 |>), w)
        else
          let '(st_size, w) := fstat pid w (shm_fd shm) in
          if match st_size with None => true | Some n => n <? size end then
            let w := close pid w (shm_fd shm) in (PLC_ERR_PROTO, Some (shm <| shm_fd := -1 |>), w)
          else
            let '(base, w) := mmap pid w size (shm_fd shm) in
            match base with
            | None =>
                let shm := shm <| shm_base := None |> in
                let w := close pid w (shm_fd shm) in (PLC_ERR_NOMEM, Some (shm <| shm_fd := -1 |>), w)
            | Some base =>
                (PLC_OK, Some (shm <| shm_base := Some base |> <| shm_size := size |> <| shm_owner := false |>), w)
            end
  | _, _ => (PLC_ERR_INVAL, shm, w)
  end.

Definition plc_shm_close (shm : option plc_shm) w : option plc_shm * world M :=
  match shm with
  | None => (None, w)
  | Some shm =>
      let w := match shm_base shm with Some base => munmap pid w base | None => w end in
      let w := if shm_fd shm >=? 0 then close pid w (shm_fd shm) else w in
      let w := if shm_owner shm && negb (bool_decide (shm_name shm = ""))
               then shm_unlink w (shm_name shm) else w in
      (Some (shm_zero <| shm_fd := -1 |>), w)
  end.
End Shm.

(** ** Semaphores *)

Section Sem.
Context {M : Type} `{Region M}.
Implicit Types (w : world M).

Definition plc_sem_create (name : option string) w : plc_status * option Z * world M :=
  match name with
  | None => (PLC_ERR_INVAL, None, w)
  | Some name =>
      let w := sem_unlink w name in
      let '(sem, _, w) := sem_open_excl w name 0 in
      match sem with
      | None => (PLC_ERR_IO, None, w)
      | Some s => (PLC_OK, Some s, w)
      end
  end.

Definition plc_sem_attach (name : option string) w : plc_status * option Z * world M :=
  match name with
  | None => (PLC_ERR_INVAL, None, w)
  | Some name =>
      let '(sem, err, w) := sem_open w name in
      match sem with
      | None => ((if err =? ENOENT then PLC_ERR_NOTFOUND else PLC_ERR_IO), None, w)
      | Some s => (PLC_OK, Some s, w)
      end
  end.

Definition plc_sem_close (sem : option Z) (name : option string) (owner : bool) w : world M :=
  let w := match sem with Some s => sem_close w s | None => w end in
  match name with Some name => if owner then sem_unlink w name else w | None => w end.

(** [for (;;)] around a call that a signal may interrupt.  Each round consumes
    an event, and without one there is no signal, so one round more than the
    script has events is enough. *)
Fixpoint retry_eintr (fuel : nat) (call : world M -> Z * world M) w : Z * world M :=
  match fuel with
  | O => (EINTR, w)
  | S fuel => let '(rc, w) := call w in
              if rc =? EINTR then retry_eintr fuel call w else (rc, w)
  end.

Definition plc_sem_trywait (sem : option Z) w : plc_status * world M :=
  match sem with
  | None => (PLC_ERR_INVAL, w)
  | Some s =>
      let '(rc, w) := retry_eintr (S (length (w_script w))) (fun w => sem_trywait w s) w in
      if rc =? 0 then (PLC_OK, w)
      else ((if rc =? EAGAIN then PLC_ERR_AGAIN else PLC_ERR_IO), w)
  end.

(** The deadline of a wait, in seconds and nanoseconds. *)
Definition wait_deadline (now : Z * Z) (timeout_us : Z) : Z * Z :=
  let '(tv_sec, tv_nsec) := now in
  let tv_nsec := tv_nsec + (timeout_us mod 1000000) * 1000 in
  let tv_sec := tv_sec + timeout_us / 1000000 in
  if tv_nsec >=? 1000000000 then (tv_sec + 1, tv_nsec - 1000000000) else (tv_sec, tv_nsec).

(** The build where the C library has [sem_clockwait]. *)
Definition plc_sem_wait_timeout (sem : option Z) (timeout_us : Z) w : plc_status * world M :=
  match sem with
  | None => (PLC_ERR_INVAL, w)
  | Some s =>
      if timeout_us =? 0 then plc_sem_trywait sem w
      else
        let '(now, w) := clock_gettime w in
        let deadline := wait_deadline now timeout_us in
        let '(rc, w) := retry_eintr (S (length (w_script w))) (fun w => sem_clockwait w s deadline) w in
        if rc =? 0 then (PLC_OK, w)
        else ((if rc =? ETIMEDOUT then PLC_ERR_TIMEOUT else PLC_ERR_IO), w)
  end.

(** [while (plc_sem_trywait(sem) == PLC_OK)]; [None] when the posts have not
    run out within [fuel] rounds. *)
Fixpoint plc_sem_drain (fuel : nat) (sem : option Z) w : option (world M) :=
  match sem with
  | None => Some w
  | Some _ =>
      match fuel with
      | O => None
      | S fuel => let '(st, w) := plc_sem_trywait sem w in
                  if is_ok st then plc_sem_drain fuel sem w else Some w
      end
  end.
End Sem.

Arguments plc_sem_trywait : simpl never.
Arguments plc_sem_wait_timeout : simpl never.
Arguments plc_sem_create : simpl never.
Arguments mem_set : simpl never.
Arguments k_store : simpl never.

(** ** What holds of every world *)

(** The contents of every region have their structure's shape, now and after
    whatever the others do. *)
Definition kernel_ok {M} `{Region M} (k : kernel M) : Prop :=
  map_Forall (fun _ o => m_ok (ino_data o)) (k_inodes k).
Definition event_ok {M} `{Region M} (e : event M) : Prop :=
  match ev_move e with Some f => forall k, kernel_ok k -> kernel_ok (f k) | None => True end.
#[export] Instance world_inv {M} `{Region M} : WorldInv (world M) := fun w =>
  0 <= w_ns w /\ kernel_ok (w_k w) /\ Forall event_ok (w_script w).

(** The time by which the script will have run out if nothing waits. *)
Fixpoint delays {M} (s : list (event M)) : Z :=
  match s with [] => 0 | e :: s => Z.max 0 (ev_ns e) + delays s end.
Definition horizon {M} (w : world M) : Z := w_ns w + delays (w_script w).

(** Nothing is done by others; calls may still fail. *)
Definition quiet {M} (w : world M) : Prop := Forall (fun e => ev_move e = None) (w_script w).

(** The numbers in use are below [k_next]. *)
Definition kernel_fresh {M} (k : kernel M) : Prop :=
  0 <= k_next k /\
  map_Forall (fun '(_, fd) i => fd < k_next k /\ i < k_next k) (k_fds k) /\
  map_Forall (fun '(_, a) i => a < k_next k /\ i < k_next k) (k_maps k) /\
  map_Forall (fun i o => i < k_next k /\ forall p fd, ino_lock o = Some (p, fd) -> fd < k_next k) (k_inodes k) /\
  map_Forall (fun _ i => i < k_next k) (k_names k).

(** The kernel after process [pid] has created region [name]. *)
Definition kernel_created {M} `{Region M} (pid : Z) (name : string) (size : Z) (k : kernel M) : kernel M :=
  let n := k_next k in
  Kernel (<[name := n]> (delete name (k_names k)))
         (<[n := Inode size m_zero (Some (pid, n + 1))]> (k_inodes k))
         (<[(pid, n + 1) := n]> (k_fds k)) (<[(pid, n + 1 + 1) := n]> (k_maps k))
         (k_semnames k) (k_sems k) (n + 1 + 1 + 1).

(** Whether a live process holds the region of that name. *)
Definition region_owned {M} (k : kernel M) (name : string) : bool :=
  match k_names k !! name with
  | Some i => match k_inodes k !! i with
              | Some o => negb (bool_decide (ino_lock o = None))
              | None => false
              end
  | None => false
  end.

(** The inode a process reaches through an address. *)
Definition mapped_inode {M} (k : kernel M) (pid base : Z) : option (inode M) :=
  match k_maps k !! (pid, base) with Some i => k_inodes k !! i | None => None end.

(** ** Lemmas *)

Section Lemmas.
Context {M : Type} `{Region M}.
Implicit Types (w : world M) (k : kernel M).

Lemma pause_world w : world_ok w -> world_ok (pause w).2.
Proof.
  intros (Ht & Hk & Hs). unfold pause. destruct w as [k t s]; simpl in *. destruct Hs as [|e s He Hs]; [done|].
  simpl. split; [simpl; lia|split; [|done]]. simpl. unfold event_ok in He.
  destruct (ev_move e); [by apply He|done].
Qed.

Lemma pause_horizon w : horizon (pause w).2 = horizon w /\ w_ns w <= w_ns (pause w).2.
Proof. unfold horizon, pause. destruct w as [k t [|e s]]; simpl; lia. Qed.

Lemma pause_script w : length (w_script (pause w).2) = pred (length (w_script w)).
Proof. by destruct w as [k t [|e s]]. Qed.

Lemma pause_silent w : w_script w = [] -> pause w = (0, w).
Proof. unfold pause. by intros ->. Qed.

Lemma pause_quiet w : quiet w -> w_k (pause w).2 = w_k w /\ quiet (pause w).2.
Proof.
  unfold quiet, pause. destruct w as [k t s]; simpl. intros [|e s' He Hs]; [done|]. simpl. by rewrite He.
Qed.

Lemma kernel_ok_set k i o : kernel_ok k -> m_ok (ino_data o) -> kernel_ok (k_set_inode k i o).
Proof. intros Hk Ho. by apply map_Forall_insert_2. Qed.

Lemma deref_ok pid k base : kernel_ok k -> m_ok (deref pid k base).
Proof.
  intros Hk. unfold deref. destruct (k_maps k !! _) as [i|]; [|apply m_zero_ok].
  destruct (k_inodes k !! i) eqn:E; [by eapply Hk|apply m_zero_ok].
Qed.

Lemma k_store_ok pid k base m : kernel_ok k -> m_ok m -> kernel_ok (k_store pid k base m).
Proof.
  intros Hk Hm. unfold k_store. destruct (k_maps k !! _) as [i|]; [|done].
  destruct (k_inodes k !! i); [|done]. by apply kernel_ok_set.
Qed.

(** Storing and reading back. *)
Lemma deref_store pid k base m : is_Some (mapped_inode k pid base) -> deref pid (k_store pid k base m) base = m.
Proof.
  unfold mapped_inode, deref, k_store. intros [o Ho]. destruct (k_maps k !! _) as [i|] eqn:E; [|done].
  rewrite Ho. simpl. by rewrite E, lookup_insert_eq.
Qed.

Lemma deref_mapped pid k base o : mapped_inode k pid base = Some o -> deref pid k base = ino_data o.
Proof. unfold mapped_inode, deref. destruct (k_maps k !! _) as [i|]; [|done]. by intros ->. Qed.

Lemma k_store_semnames pid k base m :
  k_semnames (k_store pid k base m) = k_semnames k /\ k_sems (k_store pid k base m) = k_sems k.
Proof. unfold k_store. destruct (k_maps k !! _) as [i|]; [|done]. by destruct (k_inodes k !! i). Qed.

Lemma mem_op_world {T} pid w base (f : M -> T * M) :
  world_ok w -> (forall m, m_ok m -> m_ok (f m).2) -> world_ok (mem_op pid w base f).2.
Proof.
  intros Hw Hf. unfold mem_op. pose proof (pause_world w Hw) as Hp. destruct (pause w) as [e w1].
  destruct Hp as (Ht & Hk & Hs); simpl in *. specialize (Hf _ (deref_ok pid _ base Hk)).
  destruct (f (deref pid (w_k w1) base)) as [t m]. split; [done|split; [|done]]. by apply k_store_ok.
Qed.

Lemma mem_op_horizon {T} pid w base (f : M -> T * M) : horizon (mem_op pid w base f).2 = horizon w.
Proof.
  unfold mem_op. destruct (pause_horizon w) as [Hp _]. destruct (pause w) as [e w1]. by destruct (f _).
Qed.

Lemma mem_op_script {T} pid w base (f : M -> T * M) :
  length (w_script (mem_op pid w base f).2) = pred (length (w_script w)).
Proof. unfold mem_op. rewrite <- (pause_script w). destruct (pause w) as [e w1]. by destruct (f _). Qed.

Lemma sem_set_world w s v : world_ok w -> world_ok (w <| w_k := sem_set (w_k w) s v |>).
Proof. done. Qed.

Lemma sem_post_world w s : world_ok w -> world_ok (sem_post w s).
Proof.
  intros Hw. unfold sem_post. pose proof (pause_world w Hw). destruct (pause w) as [e w1]. by split_if.
Qed.

Lemma sem_post_horizon w s : horizon (sem_post w s) = horizon w.
Proof.
  unfold sem_post. destruct (pause_horizon w) as [Hp _]. destruct (pause w) as [e w1]. by split_if.
Qed.

Lemma sem_post_script w s : length (w_script (sem_post w s)) = pred (length (w_script w)).
Proof. unfold sem_post. rewrite <- (pause_script w). destruct (pause w) as [e w1]. by split_if. Qed.

Lemma sem_trywait_step w s :
  let '(rc, w') := sem_trywait w s in
  (world_ok w -> world_ok w') /\ horizon w' = horizon w /\
  length (w_script w') = pred (length (w_script w)) /\
  (w_script w = [] -> (rc = 0 /\ 0 < sem_value (w_k w) s /\ sem_value (w_k w') s = sem_value (w_k w) s - 1 \/
                       rc = EAGAIN /\ sem_value (w_k w) s <= 0 /\ w' = w)).
Proof.
  unfold sem_trywait. pose proof (pause_world w) as Hw. destruct (pause_horizon w) as [Hh _].
  pose proof (pause_script w) as Hl. pose proof (pause_silent w) as Hs.
  destruct (pause w) as [err w1]; simpl in *.
  destruct (fails err EAGAIN) eqn:F; [|destruct (Z.gtb_spec (sem_value (w_k w1) s) 0)];
    (split; [auto|split; [done|split; [done|intros E; specialize (Hs E); injection Hs as -> ->]]]).
  - done.
  - left. simpl. split; [done|split; [lia|]]. unfold sem_value at 1; simpl. by rewrite lookup_insert_eq.
  - right. auto.
Qed.

(** A retried call is one call that was not interrupted, made after whatever
    the interrupted ones have left. *)
Lemma retry_done (call : world M -> Z * world M) w n :
  (forall w, length (w_script (call w).2) = pred (length (w_script w)) /\ 
             (w_script w = [] -> (call w).1 <> EINTR)) ->
  (length (w_script w) < n)%nat ->
  exists w0, (length (w_script w0) <= length (w_script w))%nat /\
    retry_eintr n call w = call w0 /\ (call w0).1 <> EINTR /\
    (forall P : world M -> Prop,
       (forall w, P w -> (call w).1 = EINTR -> P (call w).2) -> P w -> P w0).
Proof.
  intros Hc. revert w. induction n as [|n IH]; intros w Hn; [lia|]. simpl. destruct (Hc w) as [Hl He].
  destruct (call w) as [rc w1] eqn:E; simpl in *. destruct (Z.eqb_spec rc EINTR) as [->|Hne].
  - destruct (IH w1) as (w0 & Hle & Hr & Hr' & HP).
    { destruct (w_script w) eqn:Es; [by specialize (He eq_refl)|simpl in *; lia]. }
    exists w0. split; [lia|split; [done|split; [done|]]]. intros P HPc Hw. apply HP; [done|].
    specialize (HPc w Hw). rewrite E in HPc. by apply HPc.
  - exists w. rewrite E. auto.
Qed.

Lemma sem_clockwait_step w s d :
  let '(rc, w') := sem_clockwait w s d in
  (world_ok w -> world_ok w') /\ length (w_script w') = pred (length (w_script w)) /\
  w_ns w <= w_ns w' /\
  (w_script w = [] -> rc <> EINTR) /\
  (rc <> ETIMEDOUT -> horizon w' = horizon w) /\
  (rc = ETIMEDOUT -> d.1 * 1000000000 + d.2 <= w_ns w' /\
     horizon w' <= Z.max (horizon w) (d.1 * 1000000000 + d.2 + (horizon w - w_ns w))).
Proof.
  unfold sem_clockwait. pose proof (pause_world w) as Hw. destruct (pause_horizon w) as [Hh Hm].
  pose proof (pause_script w) as Hl. pose proof (pause_silent w) as Hs.
  destruct (pause w) as [err w1]; simpl in *. split_if.
  { split; [auto|]. split; [done|]. split; [done|]. split; [discriminate|]. split; [done|discriminate]. }
  split_if.
  { split; [auto|]. split; [done|]. split; [done|]. split; [discriminate|]. split; [done|discriminate]. }
  destruct (fails err ETIMEDOUT) eqn:F.
  { split; [auto|]. split; [done|]. split; [done|]. split.
    - intros E. specialize (Hs E). injection Hs as -> _. done.
    - split; [done|]. intros ->. unfold fails in F. by rewrite Z.eqb_refl, andb_false_r in F. }
  split; [|split; [done|split; [simpl; lia|split; [discriminate|split; [done|]]]]].
  - intros Hx. destruct (Hw Hx) as (? & ? & ?). split; [simpl; lia|done].
  - intros _. unfold horizon in *; simpl in *. lia.
Qed.

Lemma sem_clockwait_ok w s d :
  w_script w = [] -> (sem_clockwait w s d).1 = 0 ->
  0 < sem_value (w_k w) s /\ sem_value (w_k (sem_clockwait w s d).2) s = sem_value (w_k w) s - 1.
Proof.
  intros E. unfold sem_clockwait. rewrite (pause_silent w E). split_if; [done|].
  destruct (Z.gtb_spec (sem_value (w_k w) s) 0); [|done]. intros _. split; [lia|].
  unfold sem_value at 1; simpl. by rewrite lookup_insert_eq.
Qed.

Lemma trywait_calls s w :
  length (w_script (sem_trywait w s).2) = pred (length (w_script w)) /\
  (w_script w = [] -> (sem_trywait w s).1 <> EINTR).
Proof.
  pose proof (sem_trywait_step w s) as Hs. destruct (sem_trywait w s) as [rc w']. simpl.
  destruct Hs as (_ & _ & Hl & Hq). split; [done|]. intros E. destruct (Hq E) as [(-> & _)|(-> & _)]; discriminate.
Qed.

Lemma clockwait_calls s d w :
  length (w_script (sem_clockwait w s d).2) = pred (length (w_script w)) /\
  (w_script w = [] -> (sem_clockwait w s d).1 <> EINTR).
Proof.
  pose proof (sem_clockwait_step w s d) as Hs. destruct (sem_clockwait w s d) as [rc w']. simpl.
  destruct Hs as (_ & Hl & _ & Hq & _). auto.
Qed.

(** What [plc_sem_trywait] does to the world around it; when the script has
    run out, a success takes one post. *)
Lemma trywait_spec sem w :
  let '(st, w') := plc_sem_trywait sem w in
  (world_ok w -> world_ok w') /\ horizon w' = horizon w /\
  (length (w_script w') <= pred (length (w_script w)) \/ sem = None)%nat /\
  (st = PLC_OK -> exists s, sem = Some s /\
     (w_script w = [] -> 0 < sem_value (w_k w) s /\ sem_value (w_k w') s = sem_value (w_k w) s - 1)).
Proof.
  unfold plc_sem_trywait. destruct sem as [s|]; [|split; [done|split; [done|split; [auto|done]]]].
  destruct (retry_done (fun w => sem_trywait w s) w (S (length (w_script w)))) as (w0 & Hle & Hr & Hne & HP);
    [apply trywait_calls|lia|].
  rewrite Hr.
  pose proof (HP (fun v => (world_ok w -> world_ok v) /\ horizon v = horizon w)) as HP1.
  assert (w_script w = [] -> w0 = w) as Hw0.
  { intros E. apply (HP (fun v => v = w)); [|done]. intros v -> Hc. 
    by destruct (trywait_calls s w) as [_ ?%(fun f => f E)]. }
  destruct HP1 as [Hok Hh]; [|done|].
  { intros v [Hv1 Hv2] _. pose proof (sem_trywait_step v s) as Hs. destruct (sem_trywait v s).
    destruct Hs as (? & ? & _). simpl. split; [auto|congruence]. }
  pose proof (sem_trywait_step w0 s) as Hs. destruct (sem_trywait w0 s) as [rc w']; simpl in *.
  destruct Hs as (Hs1 & Hs2 & Hs3 & Hs4).
  destruct (Z.eqb_spec rc 0) as [->|Hrc].
  - split; [auto|split; [congruence|split; [left; lia|]]]. intros _. exists s. split; [done|]. intros E.
    rewrite (Hw0 E) in *. destruct (Hs4 E) as [(_ & ? & ?)|([=] & _)]. auto.
  - split; [auto|split; [congruence|split; [left; lia|]]]. by destruct (rc =? EAGAIN).
Qed.

Lemma deadline_spec now timeout_us :
  0 <= timeout_us -> 0 <= now.2 < 1000000000 ->
  let d := wait_deadline now timeout_us in
  0 <= d.2 < 1000000000 /\ d.1 * 1000000000 + d.2 = now.1 * 1000000000 + now.2 + timeout_us * 1000.
Proof.
  destruct now as [sec nsec]; simpl. intros Ht Hn.
  destruct (Z.geb_spec (nsec + timeout_us mod 1000000 * 1000) 1000000000); simpl; mach.
Qed.

(** A wait takes at most its timeout beyond what the script lets pass, reports
    a timeout only once it is over, and never reports a signal. *)
Lemma wait_timeout_spec sem timeout_us w :
  0 <= timeout_us -> world_ok w ->
  let '(st, w') := plc_sem_wait_timeout sem timeout_us w in
  world_ok w' /\ horizon w' <= horizon w + timeout_us * 1000 /\
  (st <> PLC_ERR_TIMEOUT -> horizon w' = horizon w) /\
  (st = PLC_ERR_TIMEOUT -> Z.min (w_ns w) (2 ^ 62 - 1) + timeout_us * 1000 <= w_ns w') /\
  (length (w_script w') <= length (w_script w))%nat /\
  (st = PLC_OK ->
     (length (w_script w') < length (w_script w))%nat \/
     w_script w = [] /\ exists s, sem = Some s /\ 0 < sem_value (w_k w) s /\
       sem_value (w_k w') s = sem_value (w_k w) s - 1).
Proof.
  intros Ht Hw. unfold plc_sem_wait_timeout. destruct sem as [s|]; [|split; [done|split; [lia|done]]].
  destruct (Z.eqb_spec timeout_us 0) as [->|Ht0].
  { pose proof (trywait_spec (Some s) w) as Hs. destruct (plc_sem_trywait (Some s) w) as [st w'] eqn:E.
    destruct Hs as (? & ? & Hl & Hq). split; [auto|split; [lia|split; [done|split; [|split]]]].
    - intros ->. unfold plc_sem_trywait in E. destruct (retry_eintr _ _ w) as [rc v]. 
      destruct (rc =? 0); [done|]. by destruct (rc =? EAGAIN).
    - destruct Hl; [lia|done].
    - intros Hst. destruct (Hq Hst) as (s' & ? & Hv). destruct (w_script w) eqn:Es; [right|left].
      + simplify_eq. destruct (Hv eq_refl). eauto.
      + destruct Hl; [simpl in *; lia|done]. }
  unfold clock_gettime, world_clock. destruct (pause_horizon w) as [Hp1 Hp2].
  pose proof (pause_script w) as Hpl. pose proof (pause_world w) as Hpw. pose proof (pause_silent w) as Hps.
  destruct (pause w) as [err w1]; simpl in Hp1, Hp2, Hpl, Hpw, Hps. 
  set (t := Z.max 0 (Z.min (w_ns w1) (2 ^ 62 - 1))).
  destruct (deadline_spec (t / 1000000000, t mod 1000000000) timeout_us) as [_ Hd]; [done|simpl; mach|].
  set (d := wait_deadline _ _) in *. cbv zeta in Hd.
  assert (d.1 * 1000000000 + d.2 = t + timeout_us * 1000) as Hd' by (rewrite Hd; simpl; mach). clear Hd.
  destruct (retry_done (fun w => sem_clockwait w s d) w1 (S (length (w_script w1)))) as (w0 & Hle & Hr & Hne & HP);
    [apply clockwait_calls|lia|]. rewrite Hr. clear Hr.
  destruct (HP (fun v => (world_ok w -> world_ok v) /\ horizon v = horizon w /\ w_ns w1 <= w_ns v)) as (Hok & Hh & Hm);
    [|done|].
  { intros v (Hv1 & Hv2 & Hv3) Hi. pose proof (sem_clockwait_step v s d) as Hs. destruct (sem_clockwait v s d).
    simpl in *. subst. destruct Hs as (? & ? & ? & ? & Hz & _). rewrite Hz by discriminate. split; [auto|split; [done|lia]]. }
  assert (w_script w = [] -> w0 = w) as Hw0.
  { intros E. specialize (Hps E). injection Hps as _ ->. apply (HP (fun v => v = w)); [|done]. intros v -> Hc.
    by destruct (clockwait_calls s d w) as [_ ?%(fun f => f E)]. }
  pose proof (sem_clockwait_step w0 s d) as Hs. pose proof (sem_clockwait_ok w0 s d) as Hv.
  destruct (sem_clockwait w0 s d) as [rc w']; simpl in *.
  destruct Hs as (Hs1 & Hs2 & Hs3 & Hs4 & Hs5 & Hs6). pose proof (Hok Hw) as (H0 & _).
  destruct (Hpw Hw) as (H1 & _).
  destruct (Z.eqb_spec rc 0) as [->|Hrc].
  - rewrite Hs5 by discriminate. split; [auto|split; [lia|split; [done|split; [done|split; [lia|]]]]]. intros _.
    destruct (w_script w) eqn:Es; [right|left; simpl in *; lia]. rewrite (Hw0 eq_refl) in *.
    destruct (Hv Es eq_refl). eauto.
  - destruct (Z.eqb_spec rc ETIMEDOUT) as [->|Hrc2].
    + destruct (Hs6 eq_refl) as [Hd1 Hd2]. split; [auto|split; [lia|split; [done|split; [|split; [lia|done]]]]].
      intros _. lia.
    + rewrite Hs5 by done. split; [auto|split; [lia|split; [done|split; [done|split; [lia|done]]]]].
Qed.

(** ** What a call leaves of the script, and when it is over *)

Lemma pause_suffix w : w_script (pause w).2 `suffix_of` w_script w.
Proof. destruct w as [k t [|e s]]; simpl; [done|]. by apply suffix_cons_r. Qed.

Lemma delays_nonneg (s : list (event M)) : 0 <= delays s.
Proof. induction s; simpl; lia. Qed.

Lemma delays_suffix (s s' : list (event M)) : s' `suffix_of` s -> delays s' <= delays s.
Proof.
  intros [pre ->]. induction pre as [|e pre IH]; simpl; lia.
Qed.

Lemma mem_op_suffix {T} pid w base (f : M -> T * M) : w_script (mem_op pid w base f).2 `suffix_of` w_script w.
Proof. unfold mem_op. pose proof (pause_suffix w). destruct (pause w) as [e w1]. by destruct (f _). Qed.

Lemma sem_post_suffix w s : w_script (sem_post w s) `suffix_of` w_script w.
Proof. unfold sem_post. pose proof (pause_suffix w). destruct (pause w) as [e w1]. by split_if. Qed.

Lemma retry_suffix (call : world M -> Z * world M) n w :
  (forall w, w_script (call w).2 `suffix_of` w_script w) -> w_script (retry_eintr n call w).2 `suffix_of` w_script w.
Proof.
  intros Hc. revert w. induction n as [|n IH]; intros w; simpl; [done|]. specialize (Hc w). destruct (call w) as [rc w1].
  split_if; [etrans; [apply IH|]; done|done].
Qed.

Lemma sem_trywait_suffix s w : w_script (sem_trywait w s).2 `suffix_of` w_script w.
Proof. unfold sem_trywait. pose proof (pause_suffix w). destruct (pause w) as [e w1]. split_if; [done|]. by split_if. Qed.

Lemma sem_clockwait_suffix s d w : w_script (sem_clockwait w s d).2 `suffix_of` w_script w.
Proof. unfold sem_clockwait. pose proof (pause_suffix w). destruct (pause w) as [e w1]. repeat (split_if; [done|]). done. Qed.

Lemma trywait_suffix sem w : w_script (plc_sem_trywait sem w).2 `suffix_of` w_script w.
Proof.
  unfold plc_sem_trywait. destruct sem as [s|]; [|done].
  pose proof (retry_suffix (fun w => sem_trywait w s) (S (length (w_script w))) w (sem_trywait_suffix s)) as Hr.
  destruct (retry_eintr _ _ w). split_if; done.
Qed.

Lemma drain_suffix fuel sem w w' : plc_sem_drain fuel sem w = Some w' -> w_script w' `suffix_of` w_script w.
Proof.
  revert w. induction fuel as [|fuel IH]; intros w; destruct sem as [s|]; simpl; try (intros [= <-]; done).
  pose proof (trywait_suffix (Some s) w) as Ht. destruct (plc_sem_trywait (Some s) w) as [st w1]. simpl in Ht.
  destruct (is_ok st); [intros Hd%IH; by etrans|by intros [= <-]].
Qed.

(** A call that waits until [d] is over by then, or at a time reached without waiting. *)
Lemma clockwait_once_on_time s (d : Z * Z) w :
  let w' := (sem_clockwait w s d).2 in
  w_ns w' <= Z.max (horizon w - delays (w_script w')) (d.1 * 1000000000 + d.2).
Proof.
  unfold sem_clockwait. destruct (pause_horizon w) as [Hh _]. destruct (pause w) as [e w1]; simpl in Hh. rewrite <- Hh.
  assert (w_ns w1 <= horizon w1 - delays (w_script w1)) by (unfold horizon; lia).
  do 3 (split_if; [simpl; lia|]). simpl. lia.
Qed.

Lemma clockwait_on_time s (d : Z * Z) n w :
  let w' := (retry_eintr n (fun w => sem_clockwait w s d) w).2 in
  w_ns w' <= Z.max (horizon w - delays (w_script w')) (d.1 * 1000000000 + d.2).
Proof.
  cbv zeta. revert w. induction n as [|n IH]; intros w; simpl; [unfold horizon; lia|].
  pose proof (clockwait_once_on_time s d w) as H1. pose proof (sem_clockwait_step w s d) as H2.
  destruct (sem_clockwait w s d) as [rc w1]. destruct H2 as (_ & _ & _ & _ & Hh & _).
  destruct (Z.eqb_spec rc EINTR) as [->|]; [|done]. rewrite <- Hh by discriminate. apply IH.
Qed.

Lemma wait_suffix sem timeout_us w : w_script (plc_sem_wait_timeout sem timeout_us w).2 `suffix_of` w_script w.
Proof.
  unfold plc_sem_wait_timeout. destruct sem as [s|]; [|done]. split_if; [apply trywait_suffix|].
  unfold clock_gettime, world_clock. pose proof (pause_suffix w) as Hp. destruct (pause w) as [e w1]; simpl in Hp.
  pose proof (retry_suffix (fun w => sem_clockwait w s (wait_deadline (Z.max 0 (Z.min (w_ns w1) (2 ^ 62 - 1)) / 1000000000,
    Z.max 0 (Z.min (w_ns w1) (2 ^ 62 - 1)) mod 1000000000) timeout_us)) (S (length (w_script w1))) w1 (sem_clockwait_suffix s _)) as Hr.
  destruct (retry_eintr _ _ w1) as [rc w2]; simpl in Hr. assert (w_script w2 `suffix_of` w_script w) by (by etrans).
  by split_if.
Qed.

Lemma wait_on_time sem timeout_us w :
  0 <= timeout_us ->
  let w' := (plc_sem_wait_timeout sem timeout_us w).2 in
  w_ns w' <= Z.max (horizon w - delays (w_script w'))
                   (Z.max 0 (Z.min (w_ns (pause w).2) (2 ^ 62 - 1)) + timeout_us * 1000).
Proof.
  intros Ht. unfold plc_sem_wait_timeout. destruct sem as [s|]; [|simpl; unfold horizon; lia].
  destruct (Z.eqb_spec timeout_us 0) as [->|_]; cbv zeta.
  { pose proof (trywait_spec (Some s) w) as Hs. destruct (plc_sem_trywait (Some s) w) as [st w']. destruct Hs as (_ & Hh & _).
    simpl. rewrite <- Hh. unfold horizon. lia. }
  unfold clock_gettime, world_clock. destruct (pause_horizon w) as [Hp _]. destruct (pause w) as [err w1]; simpl in Hp.
  cbn [snd]. set (t := Z.max 0 (Z.min (w_ns w1) (2 ^ 62 - 1))).
  destruct (deadline_spec (t / 1000000000, t mod 1000000000) timeout_us) as [_ Hd]; [done|simpl; mach|].
  set (d := wait_deadline _ _) in *. cbv zeta in Hd.
  assert (d.1 * 1000000000 + d.2 = t + timeout_us * 1000) as Hd' by (rewrite Hd; simpl; mach).
  pose proof (clockwait_on_time s d (S (length (w_script w1))) w1) as Hc. cbv zeta in Hc. rewrite Hp in Hc.
  destruct (retry_eintr _ _ w1) as [rc w2]. split_if; simpl in *; lia.
Qed.

(** Signals alone never make a wait fail. *)
Lemma wait_timeout_signals s timeout_us w :
  0 < timeout_us < 2 ^ 32 -> Forall (fun e => ev_errno e = 0 \/ ev_errno e = EINTR) (w_script w) ->
  let st := (plc_sem_wait_timeout (Some s) timeout_us w).1 in st = PLC_OK \/ st = PLC_ERR_TIMEOUT.
Proof.
  intros Ht Hsig. unfold plc_sem_wait_timeout. destruct (Z.eqb_spec timeout_us 0); [lia|].
  assert (forall v : world M, Forall (fun e => ev_errno e = 0 \/ ev_errno e = EINTR) (w_script v) ->
    Forall (fun e => ev_errno e = 0 \/ ev_errno e = EINTR) (w_script (pause v).2) /\
    ((pause v).1 = 0 \/ (pause v).1 = EINTR)) as Hp.
  { intros [k t [|e sc]]; simpl; [auto|]. intros Hf. inversion Hf; subst. auto. }
  unfold clock_gettime, world_clock. destruct (Hp w Hsig) as [H1 _]. destruct (pause w) as [err w1]; simpl in H1.
  set (t := Z.max 0 _). destruct (deadline_spec (t / 1000000000, t mod 1000000000) timeout_us) as [Hd _];
    [lia|simpl; mach|]. set (d := wait_deadline _ _) in *. cbv zeta in Hd.
  destruct (retry_done (fun w => sem_clockwait w s d) w1 (S (length (w_script w1)))) as (w0 & _ & Hr & Hne & HP);
    [apply clockwait_calls|lia|]. rewrite Hr.
  assert (Forall (fun e => ev_errno e = 0 \/ ev_errno e = EINTR) (w_script w0)) as H0.
  { apply HP; [|done]. intros v Hv _. destruct (Hp v Hv) as [Hv1 _]. unfold sem_clockwait.
    destruct (pause v) as [e v1]; simpl in Hv1. split_if; [done|]. split_if; [done|]. by split_if. }
  revert Hne. unfold sem_clockwait. destruct (Hp w0 H0) as [_ He]. destruct (pause w0) as [e v1]; simpl in He.
  destruct (Z.leb_spec 0 d.2); [|lia]. destruct (Z.ltb_spec d.2 1000000000); [|lia]. simpl.
  split_if; [simpl; auto|]. destruct (fails e ETIMEDOUT) eqn:F; [|simpl; auto]. simpl.
  destruct He as [->| ->]; [done|]. done.
Qed.

(** Draining: what it does if it returns, and that it returns. *)
Lemma drain_some fuel sem w w' :
  plc_sem_drain fuel sem w = Some w' ->
  (world_ok w -> world_ok w') /\ horizon w' = horizon w /\ (length (w_script w') <= length (w_script w))%nat.
Proof.
  revert w. induction fuel as [|fuel IH]; intros w; destruct sem as [s|]; simpl; try (intros [= <-]; done).
  pose proof (trywait_spec (Some s) w) as Ht. destruct (plc_sem_trywait (Some s) w) as [st w1].
  destruct Ht as (Ht1 & Ht2 & [Ht3|[=]] & _). destruct (is_ok st).
  - intros (? & ? & ?)%IH. split; [auto|split; [congruence|lia]].
  - intros [= <-]. split; [auto|split; [congruence|lia]].
Qed.

Lemma drain_returns sem w : exists w', returns (fun n => plc_sem_drain n sem w) w'.
Proof.
  destruct sem as [s|]; [|exists w, 0%nat; by intros [|m] _].
  remember (length (w_script w)) as l eqn:El. revert w El. induction l as [l IH] using lt_wf_ind. intros w El.
  remember (Z.to_nat (sem_value (w_k w) s)) as v eqn:Ev. revert w El Ev. induction v as [v IHv] using lt_wf_ind.
  intros w El Ev. pose proof (trywait_spec (Some s) w) as Ht.
  destruct (plc_sem_trywait (Some s) w) as [st w1] eqn:E. destruct Ht as (_ & _ & [Hl|[=]] & Hq).
  assert (is_ok st = true -> exists w', returns (fun n => plc_sem_drain n (Some s) w1) w') as Hrec.
  { intros Hst%is_ok_true. destruct (Hq Hst) as (s' & [= <-] & Hv). destruct (w_script w) as [|e sc] eqn:Es.
    - destruct (Hv eq_refl) as [Hp Hm]. simpl in *. apply (IHv (Z.to_nat (sem_value (w_k w1) s))); [lia|lia|done].
    - simpl in *. apply (IH (length (w_script w1))); [lia|done]. }
  destruct (is_ok st) eqn:Est.
  - destruct (Hrec eq_refl) as (w' & n & Hn). exists w', (S n). intros [|m] Hm; [lia|]. simpl.
    rewrite E, Est. apply Hn. lia.
  - exists w1, 1%nat. intros [|m] Hm; [lia|]. simpl. by rewrite E, Est.
Qed.

(** ** Creating a region when nothing interferes *)

Lemma create_fresh_silent pid shm name size k t :
  kernel_fresh k -> 0 <= size ->
  create_fresh pid shm name size (World k t [])
    = (PLC_OK, Shm (shm_name shm) (k_next k + 1) (Some (k_next k + 1 + 1)) size true,
       World (kernel_created pid name size k) t []).
Proof.
  intros (Hn & Hf & Hm & Hi & Hnm) Hs. unfold create_fresh, shm_unlink, pause; simpl.
  unfold shm_open_excl, pause; simpl. rewrite lookup_delete_eq. simpl.
  destruct (Z.ltb_spec (k_next k + 1) 0); [lia|].
  unfold flock, pause, fd_inode; simpl. rewrite !lookup_insert_eq. simpl.
  unfold ftruncate, pause, fd_inode; simpl. rewrite !lookup_insert_eq. simpl.
  unfold posix_fallocate, pause, fd_inode; simpl. rewrite !lookup_insert_eq. simpl.
  unfold mmap, pause; simpl. rewrite !lookup_insert_eq. simpl.
  unfold mem_set, k_store; simpl. rewrite !lookup_insert_eq. simpl.
  unfold k_set_inode; simpl. rewrite !insert_insert_eq, Z.max_id. done.
Qed.

(** Probing a stale region leaves the kernel as it was, one number further. *)
Definition probed k (name : string) : kernel M :=
  match k_names k !! name with Some _ => k <| k_next := k_next k + 1 |> | None => k end.

Lemma fd_fresh pid k : kernel_fresh k -> k_fds k !! (pid, k_next k) = None.
Proof.
  intros (_ & Hf & _). destruct (k_fds k !! (pid, k_next k)) eqn:E; [|done].
  specialize (Hf (pid, k_next k) _ E). simpl in Hf. lia.
Qed.

Lemma kernel_eta k : Kernel (k_names k) (k_inodes k) (k_fds k) (k_maps k) (k_semnames k) (k_sems k) (k_next k) = k.
Proof. by destruct k. Qed.

Lemma probed_fresh k name :
  kernel_fresh k -> kernel_fresh (probed k name) /\ k_names (probed k name) = k_names k /\
  k_inodes (probed k name) = k_inodes k /\ k_next k <= k_next (probed k name).
Proof.
  intros Hk. unfold probed. destruct (k_names k !! name); [|split; [done|split; [done|split; [done|lia]]]].
  simpl. split; [|split; [done|split; [done|lia]]].
  destruct Hk as (A & B & C & D & E). split; [simpl; lia|]. simpl.
  split; [|split; [|split]].
  - intros [p fd] y Hxy. specialize (B _ y Hxy). simpl in *. lia.
  - intros [p fd] y Hxy. specialize (C _ y Hxy). simpl in *. lia.
  - intros x y Hxy. specialize (D x y Hxy). simpl in *. destruct D as [? Dl]. split; [lia|]. intros p fd Hl. specialize (Dl p fd Hl). lia.
  - intros x y Hxy. specialize (E x y Hxy). simpl in *. lia.
Qed.

Lemma create_silent pid h name size k t :
  kernel_fresh k -> 0 < size ->
  (forall i, k_names k !! name = Some i -> is_Some (k_inodes k !! i)) ->
  let shm := shm_zero <| shm_name := snprintf_s PLC_SHM_NAME_BYTES name |> in
  plc_shm_create pid (Some h) (Some name) size (World k t [])
    = if region_owned k name then (PLC_ERR_STATE, Some shm, World (probed k name) t [])
      else let '(st, shm, w) := create_fresh pid shm name size (World (probed k name) t []) in (st, Some shm, w).
Proof.
  intros Hk Hs Hin. pose proof Hk as (Hn & _). cbv zeta. unfold plc_shm_create.
  destruct (Z.eqb_spec size 0); [lia|]. unfold shm_open, pause, region_owned, probed. cbn [w_script fails].
  destruct (k_names k !! name) as [i|] eqn:E; [|by cbn; rewrite E].
  cbn. rewrite E. simpl. destruct (Z.geb_spec (k_next k) 0); [|lia].
  destruct (Hin i eq_refl) as [o Ho]. rewrite Ho.
  unfold flock, pause, fd_inode; simpl. rewrite lookup_insert_eq, Ho. simpl.
  pose proof (fd_fresh pid k Hk) as Hfd.
  assert (ino_lock o <> Some (pid, k_next k)) as Hl.
  { intros Hx. destruct Hk as (_ & _ & _ & Hi & _). destruct (Hi i o Ho) as [_ Hlk]. apply Hlk in Hx. lia. }
  case_bool_decide as Hc.
  - destruct Hc as [Hc|Hc]; [|done]. rewrite bool_decide_true by done. simpl.
    unfold close, pause, fd_inode; simpl. rewrite !lookup_insert_eq. simpl. rewrite bool_decide_true by done.
    simpl. rewrite insert_insert_eq, delete_insert_id by done.
    replace (<[i := _]> (k_inodes k)) with (k_inodes k). { done. }
    rewrite insert_id; [done|]. rewrite Ho. f_equal. destruct o; simpl in *; by subst.
  - rewrite bool_decide_false by naive_solver. simpl.
    unfold close, pause, fd_inode; simpl. rewrite !lookup_insert_eq, Ho. simpl. rewrite bool_decide_false by done.
    simpl. rewrite delete_insert_id by done. done.
Qed.

(** ** Calls that fail

    [keeps w w']: nobody else acted, and no descriptor or mapping was gained
    or lost between [w] and [w']. *)
Definition keeps (w w' : world M) : Prop :=
  quiet w' /\ k_fds (w_k w') = k_fds (w_k w) /\ k_maps (w_k w') = k_maps (w_k w).

Lemma keeps_trans w1 w2 w3 : keeps w1 w2 -> keeps w2 w3 -> keeps w1 w3.
Proof. intros (_ & ? & ?) (? & ? & ?). split; [done|split; congruence]. Qed.

Lemma pause_keeps w : quiet w -> keeps w (pause w).2.
Proof. intros Hq. destruct (pause_quiet w Hq) as [E Hq']. unfold keeps. by rewrite E. Qed.

Lemma shm_unlink_keeps w name : quiet w -> keeps w (shm_unlink w name).
Proof.
  intros Hq%pause_keeps. unfold shm_unlink. destruct (pause w) as [err w1]. by destruct (negb (err =? 0)).
Qed.

Lemma flock_keeps pid w fd : quiet w -> keeps w (flock pid w fd).2.
Proof.
  intros Hq%pause_keeps. unfold flock. destruct (pause w) as [err w1]. destruct (fails _ _); [done|].
  destruct (fd_inode _ _ _) as [[i o]|]; [|done]. by destruct (bool_decide _).
Qed.

Lemma ftruncate_keeps pid w fd size : quiet w -> keeps w (ftruncate pid w fd size).2.
Proof.
  intros Hq%pause_keeps. unfold ftruncate. destruct (pause w) as [err w1]. destruct (negb _); [done|].
  by destruct (fd_inode _ _ _) as [[i o]|].
Qed.

Lemma posix_fallocate_keeps pid w fd size : quiet w -> keeps w (posix_fallocate pid w fd size).2.
Proof.
  intros Hq%pause_keeps. unfold posix_fallocate. destruct (pause w) as [err w1]. destruct (negb _); [done|].
  by destruct (fd_inode _ _ _) as [[i o]|].
Qed.

Lemma mmap_none_keeps pid w size fd : quiet w -> (mmap pid w size fd).1 = None -> keeps w (mmap pid w size fd).2.
Proof.
  intros Hq%pause_keeps. unfold mmap. destruct (pause w) as [err w1]. destruct (negb _); [done|].
  by destruct (k_fds _ !! _).
Qed.

Lemma close_quiet pid w fd :
  quiet w -> quiet (close pid w fd) /\ k_fds (w_k (close pid w fd)) = delete (pid, fd) (k_fds (w_k w)) /\
  k_maps (w_k (close pid w fd)) = k_maps (w_k w).
Proof.
  intros (Hq & Hf & Hm)%pause_keeps. unfold close. destruct (pause w) as [err w1]; simpl in *.
  destruct (fd_inode _ _ _) as [[i o]|]; [destruct (bool_decide _)|]; simpl; by rewrite Hf, Hm.
Qed.

Lemma flock_next pid w fd : quiet w -> k_next (w_k (flock pid w fd).2) = k_next (w_k w).
Proof.
  intros [Hk _]%pause_quiet. unfold flock. destruct (pause w) as [err w1]; simpl in Hk. rewrite Hk.
  destruct (fails _ _); [simpl; by rewrite Hk|]. destruct (fd_inode _ _ _) as [[i o]|]; [|simpl; by rewrite Hk].
  destruct (bool_decide _); [done|simpl; by rewrite Hk].
Qed.

Lemma close_next pid w fd : quiet w -> k_next (w_k (close pid w fd)) = k_next (w_k w).
Proof.
  intros [Hk _]%pause_quiet. unfold close. destruct (pause w) as [err w1]; simpl in Hk. rewrite Hk.
  destruct (fd_inode _ _ _) as [[i o]|]; [|done]. by destruct (bool_decide _).
Qed.

(** Undoing gives the descriptor back. *)
Lemma create_undo_keeps pid shm name w0 w :
  quiet w -> k_fds (w_k w0) !! (pid, shm_fd shm) = None ->
  k_fds (w_k w) = <[(pid, shm_fd shm) := k_next (w_k w0)]> (k_fds (w_k w0)) -> k_maps (w_k w) = k_maps (w_k w0) ->
  let '(shm', w') := create_undo pid shm name w in
  keeps w0 w' /\ shm_fd shm' = -1 /\ shm_base shm' = shm_base shm /\ shm_owner shm' = shm_owner shm.
Proof.
  intros Hq Hn Hf Hm. unfold create_undo. destruct (close_quiet pid w (shm_fd shm) Hq) as (Hq1 & Hf1 & Hm1).
  destruct (shm_unlink_keeps (close pid w (shm_fd shm)) name Hq1) as (Hq2 & Hf2 & Hm2).
  split; [|done]. split; [done|]. rewrite Hf2, Hf1, Hf, Hm2, Hm1, Hm. by rewrite delete_insert_id.
Qed.

(** The descriptors in use are below [k_next]. *)
Definition fds_fresh k : Prop :=
  0 <= k_next k /\ map_Forall (fun '(_, fd) _ => fd < k_next k) (k_fds k).

(** Probing a region that turns out stale, or cannot be probed. *)
Lemma probe_keeps pid w name :
  fds_fresh (w_k w) -> quiet w ->
  let '(probe, _, w1) := shm_open pid w name in
  probe = -1 /\ keeps w w1 /\ fds_fresh (w_k w1) \/
  0 <= probe /\ let w2 := close pid (flock pid w1 probe).2 probe in keeps w w2 /\ fds_fresh (w_k w2).
Proof.
  intros [Hn Hf] Hq. unfold shm_open. destruct (pause_quiet w Hq) as [Hk Hq1].
  pose proof (pause_keeps w Hq) as Hp. destruct (pause w) as [err w1]; simpl in *.
  destruct (fails _ _). { left. rewrite Hk. done. }
  destruct (k_names _ !! _) as [i|]. 2:{ left. by rewrite Hk. }
  right. rewrite Hk. split; [lia|]. set (w1' := World _ _ _).
  destruct (flock_keeps pid w1' (k_next (w_k w))) as (Hq2 & Hf2 & Hm2); [done|].
  destruct (close_quiet pid _ (k_next (w_k w)) Hq2) as (Hq3 & Hf3 & Hm3). rewrite Hf2 in Hf3. rewrite Hm2 in Hm3.
  simpl in Hf3, Hm3. rewrite delete_insert_id in Hf3.
  2:{ destruct (k_fds (w_k w) !! (pid, k_next (w_k w))) eqn:E; [|done]. specialize (Hf _ _ E). simpl in Hf. lia. }
  split; [done|]. unfold fds_fresh. rewrite Hf3, close_next, flock_next by done. simpl. split; [lia|].
  intros [p fd] j Hj. specialize (Hf _ _ Hj). simpl in Hf. lia.
Qed.

Lemma shm_open_excl_quiet pid w name :
  quiet w -> let '(fd, _, w') := shm_open_excl pid w name in
  fd = -1 /\ keeps w w' \/
  fd = k_next (w_k w) + 1 /\ quiet w' /\ k_maps (w_k w') = k_maps (w_k w) /\
  k_fds (w_k w') = <[(pid, fd) := k_next (w_k w)]> (k_fds (w_k w)).
Proof.
  intros Hq. unfold shm_open_excl. destruct (pause_quiet w Hq) as [Hk Hq1].
  pose proof (pause_keeps w Hq) as Hp. destruct (pause w) as [err w1]; simpl in *.
  destruct (fails _ _); [auto|]. destruct (k_names _ !! _); [auto|]. right. simpl. by rewrite Hk.
Qed.

Lemma create_fresh_keeps pid shm name size w :
  fds_fresh (w_k w) -> quiet w -> shm_base shm = None -> shm_owner shm = false ->
  let '(st, shm', w') := create_fresh pid shm name size w in
  st <> PLC_OK -> keeps w w' /\ shm_fd shm' = -1 /\ shm_base shm' = None /\ shm_owner shm' = false.
Proof.
  intros Hk Hq Hb Ho. unfold create_fresh.
  pose proof (shm_unlink_keeps w name Hq) as Hu. 
  assert (k_next (w_k (shm_unlink w name)) = k_next (w_k w)) as Hnx.
  { unfold shm_unlink. destruct (pause_quiet w Hq) as [E _]. destruct (pause w) as [err w1]; simpl in E. 
    destruct (negb _); simpl; by rewrite E. }
  set (w1 := shm_unlink w name) in *. pose proof (shm_open_excl_quiet pid w1 name (proj1 Hu)) as Hop.
  destruct (shm_open_excl pid w1 name) as [[fd err] w2]. cbn [shm_fd setf] in *.
  destruct Hop as [(-> & Hop)|(Hfd & Hq2 & Hm2 & Hf2)].
  { intros _. simpl. split; [by eapply keeps_trans|done]. }
  assert ((fd <? 0) = false) as Hp by (destruct Hk; apply Z.ltb_ge; lia). simpl. rewrite Hp.
  assert (k_fds (w_k w) !! (pid, fd) = None) as Hnone.
  { destruct (k_fds (w_k w) !! (pid, fd)) eqn:E; [|done]. destruct Hk as (_ & Hf).
    specialize (Hf _ _ E). simpl in Hf. lia. }
  set (shm1 := Shm (shm_name shm) fd (shm_base shm) (shm_size shm) (shm_owner shm)).
  assert (forall v, keeps w2 v -> forall st, st <> PLC_OK -> 
    let '(shm', w') := create_undo pid shm1 name v in
    keeps w w' /\ shm_fd shm' = -1 /\ shm_base shm' = None /\ shm_owner shm' = false) as Hundo.
  { intros v (Hvq & Hvf & Hvm) st _. pose proof (create_undo_keeps pid shm1 name w v) as Hc.
    change (shm_fd shm1) with fd in Hc.
    destruct Hu as (_ & Hu1 & Hu2).
    rewrite Hvf, Hf2, Hu1, Hnx, Hvm, Hm2, Hu2 in Hc. specialize (Hc Hvq Hnone eq_refl eq_refl).
    destruct (create_undo pid shm1 name v). destruct Hc as (? & ? & Hc1 & Hc2).
    split; [done|split; [done|split; [by rewrite Hc1|by rewrite Hc2]]]. }
  pose proof (flock_keeps pid w2 fd Hq2) as H3. destruct (flock pid w2 fd) as [rc3 w3].
  destruct (negb (rc3 =? 0)). { exact (Hundo w3 H3 PLC_ERR_IO). }
  pose proof (ftruncate_keeps pid w3 fd size (proj1 H3)) as H4. destruct (ftruncate pid w3 fd size) as [rc4 w4].
  apply (keeps_trans _ _ _ H3) in H4.
  destruct (negb (rc4 =? 0)). { exact (Hundo w4 H4 PLC_ERR_IO). }
  pose proof (posix_fallocate_keeps pid w4 fd size (proj1 H4)) as H5.
  destruct (posix_fallocate pid w4 fd size) as [rc5 w5]. apply (keeps_trans _ _ _ H4) in H5.
  destruct (negb (rc5 =? 0)). { exact (Hundo w5 H5 PLC_ERR_IO). }
  pose proof (mmap_none_keeps pid w5 size fd (proj1 H5)) as H6.
  destruct (mmap pid w5 size fd) as [[base|] w6]; [done|].
  specialize (H6 eq_refl). apply (keeps_trans _ _ _ H5) in H6.
  specialize (Hundo w6 H6 PLC_ERR_NOMEM). subst shm1. rewrite Hb in Hundo. simpl in *. auto.
Qed.
End Lemmas.

Lemma mem_set_eq {M} `{Region M} pid (k : kernel M) t s base f :
  mem_set pid (World k t s) base f = World (k_store pid k base (f (deref pid k base))) t s.
Proof. done. Qed.

(** Creating a semaphore when nothing interferes. *)
Lemma sem_create_silent {M} `{Region M} name (k : kernel M) t :
  plc_sem_create (Some name) (World k t []) =
  (PLC_OK, Some (k_next k),
   World (Kernel (k_names k) (k_inodes k) (k_fds k) (k_maps k)
            (<[name := k_next k]> (delete name (k_semnames k))) (<[k_next k := 0]> (k_sems k)) (k_next k + 1)) t []).
Proof.
  unfold plc_sem_create, sem_unlink, pause; simpl. unfold sem_open_excl, pause; simpl. by rewrite lookup_delete_eq.
Qed.

#[export] Instance world_clock_laws {M} `{Region M} : ClockLaws (world M).
Proof.
  refine {| clock_ns w := Z.max 0 (Z.min (w_ns w) (2 ^ 62 - 1)) |}.
  - intros w Hw. unfold clock_gettime, world_clock. pose proof (pause_world w Hw). by destruct (pause w).
  - intros w. unfold clock_gettime, world_clock. destruct (pause_horizon w) as [_ Hm].
    destruct (pause w) as [e w1]; simpl in *. mach.
Defined.

(** ** Theorems *)

(** A region that holds one number, for the examples. *)
#[export] Instance cell_region : Region Z :=
  {| m_zero := 0; m_bytes := 8; m_ok _ := True; m_zero_ok := I; m_bytes_pos := eq_refl |}.

Definition kernel_empty {M} : kernel M := Kernel ∅ ∅ ∅ ∅ ∅ ∅ 3.

(** Process 7 owns [/a]; process 9 has died and left [/b] behind. *)
Definition kernel_two : kernel Z :=
  Kernel {["/a"%string := 3; "/b"%string := 6]}
         {[3 := Inode 8 41 (Some (7, 4)); 6 := Inode 8 17 None]}
         {[(7, 4) := 3]} {[(7, 5) := 3]} ∅ ∅ 9.

Lemma kernel_two_fresh : kernel_fresh kernel_two.
Proof.
  split; [done|]. split; [|split; [|split]]; intros k v; simpl; rewrite ?lookup_insert_Some, ?lookup_singleton_Some.
  - intros [<- <-]. lia.
  - intros [<- <-]. lia.
  - intros [[<- <-]|[_ [<- <-]]]; (split; [lia|]); simpl; [intros ? ? [= <- <-]; lia|done].
  - intros [[<- <-]|[_ [<- <-]]]; lia.
Qed.

(** [C29] Exclusive ownership.  When nothing interferes and nothing fails,
    creating a region whose creator is alive is refused with [PLC_ERR_STATE]
    and changes no name, region, descriptor or mapping; otherwise (the name is
    free, or left behind by a dead process) it succeeds with a new, zeroed,
    locked and mapped region of the requested size, and every other region,
    the stale one's contents included, is as it was for whoever still maps it. *)
Theorem shm_create_exclusive {M : Type} `{Region M} (pid : Z) (h : plc_shm) (name : string) (size : Z)
    (k : kernel M) (t : Z)
    (Hk : kernel_fresh k) (Hsize : 0 < size)
    (Hnames : forall i, k_names k !! name = Some i -> is_Some (k_inodes k !! i)) :
  let '(st, shm, w') := plc_shm_create pid (Some h) (Some name) size (World k t []) in
  let k' := w_k w' in
  if region_owned k name
  then st = PLC_ERR_STATE /\ k_names k' = k_names k /\ k_inodes k' = k_inodes k /\
       k_fds k' = k_fds k /\ k_maps k' = k_maps k
  else st = PLC_OK /\ exists i fd base,
       shm = Some (Shm (snprintf_s PLC_SHM_NAME_BYTES name) fd (Some base) size true) /\
       k_names k' !! name = Some i /\ k_inodes k !! i = None /\
       mapped_inode k' pid base = Some (Inode size m_zero (Some (pid, fd))) /\
       (forall j, j <> i -> k_inodes k' !! j = k_inodes k !! j) /\
       (forall n, n <> name -> k_names k' !! n = k_names k !! n).
Proof.
  rewrite create_silent by done. destruct (region_owned k name) eqn:Eo.
  { unfold probed. destruct (k_names k !! name); done. }
  set (k0 := probed k name).
  destruct (probed_fresh k name Hk) as (Hk0 & Hn0 & Hi0 & Hle). fold k0 in Hk0, Hn0, Hi0, Hle.
  rewrite create_fresh_silent by (done || lia). split; [done|].
  exists (k_next k0), (k_next k0 + 1), (k_next k0 + 1 + 1). simpl. split; [done|].
  split; [by rewrite lookup_insert_eq|]. split.
  { destruct (k_inodes k !! k_next k0) eqn:E; [|done]. destruct Hk as (_ & _ & _ & D & _).
    destruct (D _ _ E). lia. }
  split; [unfold mapped_inode; simpl; by rewrite !lookup_insert_eq|].
  split; [intros j Hj; by rewrite lookup_insert_ne, Hi0 by done|].
  intros n Hne. rewrite lookup_insert_ne, lookup_delete_ne by done. by rewrite Hn0.
Qed.

Lemma shm_create_exclusive_witness :
  (exists shm w', plc_shm_create 8 (Some shm_zero) (Some "/a"%string) 8 (World kernel_two 0 [])
     = (PLC_ERR_STATE, shm, w')) /\
  (exists shm w', plc_shm_create 8 (Some shm_zero) (Some "/b"%string) 8 (World kernel_two 0 [])
     = (PLC_OK, shm, w')).
Proof.
  split.
  - pose proof (shm_create_exclusive 8 shm_zero "/a" 8 kernel_two 0 kernel_two_fresh eq_refl) as Ht.
    destruct (plc_shm_create 8 (Some shm_zero) (Some "/a"%string) 8 (World kernel_two 0 [])) as [[st shm] w'].
    exists shm, w'. destruct Ht as [-> _]; [|done].
    intros i Hi. vm_compute in Hi. injection Hi as <-. eexists. reflexivity.
  - pose proof (shm_create_exclusive 8 shm_zero "/b" 8 kernel_two 0 kernel_two_fresh eq_refl) as Ht.
    destruct (plc_shm_create 8 (Some shm_zero) (Some "/b"%string) 8 (World kernel_two 0 [])) as [[st shm] w'].
    exists shm, w'. destruct Ht as [-> _]; [|done].
    intros i Hi. vm_compute in Hi. injection Hi as <-. eexists. reflexivity.
Defined.

(** A failed creation leaks nothing.  Whichever of its calls fails, and
    with whatever error, [plc_shm_create] leaves the process the descriptors
    and mappings it had, and a handle that owns and maps nothing. *)
Theorem shm_create_no_leak {M : Type} `{Region M} (pid : Z) (h : plc_shm) (name : string) (size : Z) (w : world M)
    (Hk : kernel_fresh (w_k w)) (Hq : quiet w) (Hsize : size <> 0) :
  let '(st, shm, w') := plc_shm_create pid (Some h) (Some name) size w in
  st <> PLC_OK ->
  k_fds (w_k w') = k_fds (w_k w) /\ k_maps (w_k w') = k_maps (w_k w) /\
  exists s, shm = Some s /\ shm_base s = None /\ shm_owner s = false.
Proof.
  assert (fds_fresh (w_k w)) as Hf.
  { destruct Hk as (A & B & _). split; [done|]. intros [p fd] i Hi. specialize (B _ _ Hi). simpl in B. lia. }
  unfold plc_shm_create. destruct (Z.eqb_spec size 0); [done|].
  set (shm := shm_zero <| _ := _ |>). pose proof (probe_keeps pid w name Hf Hq) as Hp.
  assert (forall w1, keeps w w1 -> fds_fresh (w_k w1) ->
    let '(st, s, w') := create_fresh pid shm name size w1 in
    st <> PLC_OK -> k_fds (w_k w') = k_fds (w_k w) /\ k_maps (w_k w') = k_maps (w_k w) /\
    exists s', Some s = Some s' /\ shm_base s' = None /\ shm_owner s' = false) as Hfresh.
  { intros w1 H1 Hf1. pose proof (create_fresh_keeps pid shm name size w1 Hf1 (proj1 H1) eq_refl eq_refl) as Hc.
    destruct (create_fresh pid shm name size w1) as [[st s] w']. intros Hst.
    destruct (Hc Hst) as (Hk1 & _ & ? & ?). destruct (keeps_trans _ _ _ H1 Hk1) as (_ & ? & ?). eauto 10. }
  destruct (shm_open pid w name) as [[probe err0] w1]. destruct Hp as [(-> & Hp1 & Hp2)|(Hpos & Hp1 & Hp2)].
  - simpl. specialize (Hfresh w1 Hp1 Hp2). by destruct (create_fresh _ _ _ _ _) as [[st s] w'].
  - destruct (Z.geb_spec probe 0); [|lia]. destruct (flock pid w1 probe) as [err w2]; simpl in Hp1, Hp2.
    destruct (negb (err =? 0)).
    + intros _. destruct Hp1 as (_ & ? & ?). eauto 10.
    + specialize (Hfresh _ Hp1 Hp2). by destruct (create_fresh _ _ _ _ _) as [[st s] w'].
Qed.

(** The probe finds [/b] stale, and [posix_fallocate] then finds no room. *)
Lemma shm_create_no_leak_witness :
  let no_space := [Event 0 None 0; Event 0 None 0; Event 0 None 0; Event 0 None 0; Event 0 None 0;
                   Event 0 None 0; Event 0 None 0; Event 0 None ENOSPC] in
  exists shm w', plc_shm_create 8 (Some shm_zero) (Some "/b"%string) 8 (World kernel_two 0 no_space)
      = (PLC_ERR_IO, shm, w') /\ k_fds (w_k w') = k_fds kernel_two.
Proof.
  intros no_space.
  pose proof (shm_create_no_leak 8 shm_zero "/b" 8 (World kernel_two 0 no_space) kernel_two_fresh) as Ht.
  assert ((plc_shm_create 8 (Some shm_zero) (Some "/b"%string) 8 (World kernel_two 0 no_space)).1.1 = PLC_ERR_IO)
    as Hst by (vm_compute; reflexivity).
  destruct (plc_shm_create 8 (Some shm_zero) (Some "/b"%string) 8 (World kernel_two 0 no_space)) as [[st shm] w'].
  simpl in Hst. subst st. exists shm, w'. split; [reflexivity|]. apply Ht; [|discriminate|discriminate].
  repeat constructor.
Defined.

(** Attaching shares the creator's memory.  When nothing interferes, a
    process that attaches to a region at least as large as it asks for gets
    [PLC_OK] and a mapping of the same memory: what either process stores, the
    other reads.  A smaller region is [PLC_ERR_PROTO] and a missing one
    [PLC_ERR_NOTFOUND], both without a descriptor or a mapping gained. *)
Theorem shm_attach_shares {M : Type} `{Region M} (p q bp : Z) (h : plc_shm) (name : string) (size i : Z)
    (o : inode M) (k : kernel M) (t : Z)
    (Hk : kernel_fresh k) (Hsize : 0 < size) (Ho : k_inodes k !! i = Some o)
    (Hp : k_maps k !! (p, bp) = Some i) (Hreg : k_names k !! name = Some i \/ k_names k !! name = None) :
  let '(st, shm, w') := plc_shm_attach q (Some h) (Some name) size (World k t []) in
  let k' := w_k w' in
  match k_names k !! name with
  | None => st = PLC_ERR_NOTFOUND /\ k' = k
  | Some _ =>
      if size <=? ino_size o
      then st = PLC_OK /\ exists s bq, shm = Some s /\ shm_base s = Some bq /\ shm_owner s = false /\
           (forall m, deref q (k_store p k' bp m) bq = m) /\
           (forall m, deref p (k_store q k' bq m) bp = m)
      else st = PLC_ERR_PROTO /\ k_fds k' = k_fds k /\ k_maps k' = k_maps k
  end.
Proof.
  unfold plc_shm_attach. destruct (Z.eqb_spec size 0); [lia|]. pose proof Hk as (Hn & _ & Hm & _).
  unfold shm_open, pause. cbn. destruct Hreg as [E|E]; rewrite E; simpl.
  2:{ done. }
  destruct (Z.ltb_spec (k_next k) 0); [lia|]. unfold fstat, pause, fd_inode; simpl. rewrite lookup_insert_eq, Ho.
  simpl. rewrite Z.ltb_antisym. destruct (Z.leb_spec size (ino_size o)); simpl.
  - unfold mmap, pause; simpl. rewrite lookup_insert_eq. simpl. split; [done|].
    eexists _, (k_next k + 1). split; [done|split; [done|split; [done|]]].
    assert ((p, bp) <> (q, k_next k + 1)) as Hne.
    { intros [= -> ->]. specialize (Hm _ _ Hp). simpl in Hm. lia. }
    split; intros m; unfold deref, k_store; simpl.
    + rewrite lookup_insert_ne, Hp, Ho by done. simpl. by rewrite !lookup_insert_eq.
    + rewrite lookup_insert_eq, Ho. simpl. rewrite lookup_insert_ne, Hp by done. by rewrite lookup_insert_eq.
  - unfold close, pause, fd_inode; simpl. rewrite lookup_insert_eq, Ho. split; [done|].
    case_bool_decide; simpl; rewrite delete_insert_id by (by apply fd_fresh); done.
Qed.

Lemma shm_attach_shares_witness :
  exists s w' bq, plc_shm_attach 8 (Some shm_zero) (Some "/a"%string) 8 (World kernel_two 0 []) = (PLC_OK, Some s, w') /\
    deref 8 (k_store 7 (w_k w') 5 99) bq = 99 /\ deref 7 (k_store 8 (w_k w') bq 55) 5 = 55.
Proof.
  pose proof (shm_attach_shares 7 8 5 shm_zero "/a" 8 3 (Inode 8 41 (Some (7, 4))) kernel_two 0
                kernel_two_fresh eq_refl eq_refl eq_refl (or_introl eq_refl)) as Ht.
  destruct (plc_shm_attach 8 (Some shm_zero) (Some "/a"%string) 8 (World kernel_two 0 [])) as [[st shm] w'].
  change (k_names kernel_two !! "/a"%string) with (Some 3) in Ht. simpl in Ht.
  destruct Ht as (-> & s & bq & -> & _ & _ & H1 & H2). exists s, w', bq. auto.
Defined.

(** The owner's close gives everything back.  Creating a region and
    closing it, with nothing interfering, leaves the process the descriptors
    and mappings it had and the name free: the next creator succeeds. *)
Theorem shm_close_releases {M : Type} `{Region M} (pid : Z) (h : plc_shm) (name : string) (size : Z)
    (k : kernel M) (t : Z)
    (Hk : kernel_fresh k) (Hsize : 0 < size) (Hfree : k_names k !! name = None)
    (Hname : name <> ""%string) (Hshort : snprintf_s PLC_SHM_NAME_BYTES name = name) :
  let '(st, shm, w1) := plc_shm_create pid (Some h) (Some name) size (World k t []) in
  let '(shm', w2) := plc_shm_close pid shm w1 in
  st = PLC_OK /\ shm' = Some (shm_zero <| shm_fd := -1 |>) /\
  k_names (w_k w2) = k_names k /\ k_fds (w_k w2) = k_fds k /\ k_maps (w_k w2) = k_maps k /\
  region_owned (w_k w2) name = false.
Proof.
  rewrite create_silent by (done || (intros ? Hx; by rewrite Hfree in Hx)).
  unfold region_owned at 1, probed. rewrite Hfree, create_fresh_silent by (done || lia).
  unfold plc_shm_close; simpl. rewrite Hshort. destruct Hk as (Hn & Hf & Hm & _).
  unfold munmap, pause; simpl. destruct (Z.geb_spec (k_next k + 1) 0); [|lia].
  unfold close, pause, fd_inode; simpl. rewrite lookup_insert_eq. simpl. rewrite lookup_insert_eq. simpl.
  rewrite (bool_decide_false (name = _)) by done. rewrite bool_decide_true by done. simpl.
  unfold shm_unlink, pause; simpl. split; [done|split; [done|]]. 
  assert (forall (m : gmap (Z * Z) Z) x, map_Forall (fun '(_, fd) i => fd < k_next k /\ i < k_next k) m ->
    k_next k < x -> m !! (pid, x) = None) as Hnone.
  { intros m x Hm0 Hx. destruct (m !! (pid, x)) eqn:E; [|done]. specialize (Hm0 _ _ E). simpl in Hm0. lia. }
  split; [by rewrite delete_insert_eq, delete_delete_eq, delete_id|].
  split; [by rewrite delete_insert_id by (apply Hnone; [done|lia])|].
  split; [by rewrite delete_insert_id by (apply Hnone; [done|lia])|].
  unfold region_owned; simpl. by rewrite lookup_delete_eq.
Qed.

Lemma shm_close_releases_witness :
  exists w1 w2 s, plc_shm_create 8 (Some shm_zero) (Some "/c"%string) 8 (World kernel_two 0 []) = (PLC_OK, s, w1) /\
    (plc_shm_close 8 s w1).2 = w2 /\ k_fds (w_k w2) = k_fds kernel_two.
Proof.
  pose proof (shm_close_releases 8 shm_zero "/c" 8 kernel_two 0 kernel_two_fresh eq_refl eq_refl) as Ht.
  destruct (plc_shm_create 8 (Some shm_zero) (Some "/c"%string) 8 (World kernel_two 0 [])) as [[st s] w1].
  destruct (plc_shm_close 8 s w1) as [s' w2] eqn:E. destruct Ht as (-> & _ & _ & Hf & _); [discriminate|reflexivity|].
  exists w1, w2, s. split; [reflexivity|split; [by rewrite E|exact Hf]].
Defined.

(** [C30] A wait has a deadline.  With a positive timeout, and interruption by
    signals the only way a call fails, [plc_sem_wait_timeout] returns [PLC_OK] or
    [PLC_ERR_TIMEOUT], never anything because of a signal, however many
    interrupt it; it reports a timeout only when the whole timeout has passed;
    and it adds at most the timeout to the time the rest of the system takes. *)
Theorem sem_wait_deadline {M : Type} `{Region M} (s timeout_us : Z) (w : world M)
    (Ht : 0 < timeout_us < 2 ^ 32) (Hw : world_ok w)
    (Hsig : Forall (fun e => ev_errno e = 0 \/ ev_errno e = EINTR) (w_script w)) :
  let '(st, w') := plc_sem_wait_timeout (Some s) timeout_us w in
  (st = PLC_OK \/ st = PLC_ERR_TIMEOUT) /\
  (st = PLC_ERR_TIMEOUT -> Z.min (w_ns w) (2 ^ 62 - 1) + timeout_us * 1000 <= w_ns w') /\
  horizon w' <= horizon w + timeout_us * 1000 /\ (st = PLC_OK -> horizon w' = horizon w).
Proof.
  pose proof (wait_timeout_spec (Some s) timeout_us w) as Hs.
  pose proof (wait_timeout_signals s timeout_us w Ht Hsig) as Hst.
  destruct (plc_sem_wait_timeout (Some s) timeout_us w) as [st w'].
  destruct Hs as (_ & Hh & He & Hd & _); [lia|done|]. simpl in Hst.
  split; [done|split; [done|split; [done|]]]. intros ->. by apply He.
Qed.

(** Two signals, then nothing. *)
Lemma sem_wait_deadline_witness :
  exists w', plc_sem_wait_timeout (Some 3) 5000
      (World (kernel_empty (M := Z)) 0 [Event 10 None 0; Event 10 None EINTR; Event 10 None EINTR])
    = (PLC_ERR_TIMEOUT, w') /\ 5000000 <= w_ns w' <= 5000030.
Proof.
  set (w := World _ _ _).
  pose proof (sem_wait_deadline 3 5000 w) as Ht.
  assert ((plc_sem_wait_timeout (Some 3) 5000 w).1 = PLC_ERR_TIMEOUT) as Hst by (vm_compute; reflexivity).
  destruct (plc_sem_wait_timeout (Some 3) 5000 w) as [st w'] eqn:E. simpl in Hst. subst st.
  exists w'. split; [reflexivity|]. destruct Ht as (_ & H1 & H2 & _); [lia|..].
  - split; [done|split; [by apply map_Forall_empty|repeat (constructor; [exact I|]); constructor]].
  - constructor; [by left|]. repeat (constructor; [by right|]). constructor.
  - specialize (H1 eq_refl). vm_compute in E. injection E as <-. simpl. lia.
Defined.

(** A creator that has run out of descriptors cannot probe the region, takes
    the failure for "not there", and unlinks the name of a live instance. *)
Theorem shm_create_unlinks_live_region :
  let '(st, _, w') := plc_shm_create 8 (Some shm_zero) (Some "/a"%string) 8
                        (World kernel_two 0 [Event 0 None EMFILE; Event 0 None 0; Event 0 None EMFILE]) in
  region_owned kernel_two "/a" = true /\ st = PLC_ERR_IO /\ k_names (w_k w') !! "/a"%string = None.
Proof. vm_compute. auto. Qed.
