(* ===== verification/IpcProxy.v ===== *)
(** * The core's side of an out-of-process adapter

    What [src/adapters/eip/eip_adapter_proxy.c] and
    [src/adapters/eip_scanner/eip_scanner_proxy.c] have in common, which is
    all but their set-up and their last few statements: the structure, the
    teardown, the handling of a missed exchange, and the request/reply round
    trip over the two rings of a mapped region.

    [Channel] says where a region's structure keeps the two rings.  Every
    access to them is one atomic step of [Shm]'s world, before which the peer
    may do anything; [SpscConc] is about the accesses inside such a step.

    The round trip contains two loops.  Both take [fuel]; the lemmas show that
    with enough of it they return, whatever the peer does, provided it does
    finitely much. *)

From Stdlib Require Import ZArith Lia.
From stdpp Require Import base gmap list strings tactics.
From S2P Require Import Prelude PlcTypes SpscRing Adapter Config Shm.

(** ** The two rings of a region *)

(** Any memory at all has this shape. *)
Definition ring_any (r : plc_spsc_ring) : Prop :=
  ring_shape r /\ Forall (fun f => bytes (fr_data f)) (rg_slots r).

Class Channel (M : Type) `{Region M} : Type := {
  ch_req : M -> plc_spsc_ring;
  ch_rsp : M -> plc_spsc_ring;
  ch_set_req : M -> plc_spsc_ring -> M;
  ch_set_rsp : M -> plc_spsc_ring -> M;
  ch_any m : m_ok m -> ring_any (ch_req m) /\ ring_any (ch_rsp m);
  ch_req_ok m r : m_ok m -> ring_any r -> m_ok (ch_set_req m r);
  ch_rsp_ok m r : m_ok m -> ring_any r -> m_ok (ch_set_rsp m r);
  ch_rsp_get m r : ch_rsp (ch_set_rsp m r) = r;
  ch_req_get m r : ch_req (ch_set_req m r) = r;
  ch_rsp_keeps m r : ch_req (ch_set_rsp m r) = ch_req m;
  ch_req_keeps m r : ch_rsp (ch_set_req m r) = ch_rsp m;
  ch_zero : rg_head (ch_rsp m_zero) = rg_tail (ch_rsp m_zero)
}.

(** [eip_proxy_t] and [scanner_proxy_t]. *)
Record ipc_proxy : Type := Proxy {
  px_caps : plc_adapter_caps;
  px_stats : plc_adapter_stats;
  px_state : plc_adapter_state;
  px_instance : string;
  px_shm : plc_shm;
  px_map : option Z;  (** [NULL] is [None] *)
  px_sem_req : option Z;
  px_sem_rsp : option Z;
  px_sem_req_name : string;
  px_sem_rsp_name : string;
  px_next_seq : Z;
  px_stale : plc_staleness;
  px_opened_us : Z;
  px_last_good : list Z;
  px_scratch : plc_ipc_frame
}.
#[export] Instance eta_ipc_proxy : Eta ipc_proxy := fun r =>
  Proxy (px_caps r) (px_stats r) (px_state r) (px_instance r) (px_shm r) (px_map r)
    (px_sem_req r) (px_sem_rsp r) (px_sem_req_name r) (px_sem_rsp_name r)
    (px_next_seq r) (px_stale r) (px_opened_us r) (px_last_good r) (px_scratch r).

(** The object [calloc] gives the two [create] functions. *)
Definition proxy_zero : ipc_proxy :=
  Proxy caps_zero stats_zero PLC_ADAPTER_CLOSED "" shm_zero None None None "" "" 0
        (Staleness 0 false) 0 (zeros PLC_IPC_MAX_FRAME_BYTES) frame_zero.

(** [cfg->endpoint], [cfg->name] or ["default"], whichever is given first. *)
Definition proxy_instance (cfg : plc_adapter_config) : string :=
  let given (s : option string) := match s with Some s => negb (bool_decide (s = "")) | None => false end in
  if given (cfg_endpoint cfg) then default "" (cfg_endpoint cfg)
  else if given (cfg_name cfg) then default "" (cfg_name cfg) else "default".

(** [x ? x : plc_cfg_u32(key, fallback)]. *)
Definition cfg_or (getenv : cstr -> option cstr) (table : cfg_table) (x : Z) (key : string) (fallback : Z) : Z :=
  if x =? 0 then plc_cfg_u32 getenv table (Some (txt key)) fallback else x.

Section Proxy.
Context {M : Type} `{Channel M} (pid : Z).
Implicit Types (w : world M) (p : ipc_proxy).

Definition proxy_teardown p w : ipc_proxy * world M :=
  let w := plc_sem_close (px_sem_req p) (Some (px_sem_req_name p)) true w in
  let w := plc_sem_close (px_sem_rsp p) (Some (px_sem_rsp_name p)) true w in
  let p := p <| px_sem_req := None |> <| px_sem_rsp := None |> in
  let '(shm, w) := plc_shm_close pid (Some (px_shm p)) w in
  (p <| px_shm := default (px_shm p) shm |> <| px_map := None |>, w).

Definition proxy_close p w : plc_status * ipc_proxy * world M :=
  if bool_decide (px_state p = PLC_ADAPTER_CLOSED) then (PLC_OK, p, w)
  else let '(p, w) := proxy_teardown p w in (PLC_OK, p <| px_state := PLC_ADAPTER_CLOSED |>, w).

Definition proxy_fail p (inb : option (list Z)) (in_len : Z) (reason : plc_status) w
    : plc_status * ipc_proxy * option (list Z) * world M :=
  let p := p <| px_stats := px_stats p <| sta_timeouts := u64 (sta_timeouts (px_stats p) + 1) |> |> in
  let '(age, w) := plc_staleness_age_us (Some (px_stale p)) (px_opened_us p) w in
  let p := p <| px_stats := px_stats p <| sta_stale_for_us := age |> |> in
  if age >=? cap_failsafe_timeout_us (px_caps p) then
    let p :=
      if bool_decide (px_state p = PLC_ADAPTER_FAULTED) then p
      else p <| px_state := PLC_ADAPTER_FAULTED |>
             <| px_stats := px_stats p <| sta_failsafe_activations :=
                  u64 (sta_failsafe_activations (px_stats p) + 1) |> |> in
    (reason, p,
     plc_adapter_apply_failsafe (cap_failsafe_policy (px_caps p)) inb (Some (px_last_good p)) in_len, w)
  else
    let p := if bool_decide (px_state p = PLC_ADAPTER_ONLINE) then p <| px_state := PLC_ADAPTER_DEGRADED |> else p in
    (reason, p, plc_adapter_apply_failsafe PLC_FAILSAFE_HOLD inb (Some (px_last_good p)) in_len, w).

(** The ring calls, on the mapped region. *)
Definition req_push (base seq : Z) (data : option (list Z)) (len : Z) w : plc_status * world M :=
  mem_op pid w base (fun m =>
    let '(st, r) := plc_spsc_push (Some (ch_req m)) seq data len in
    (st, ch_set_req m (default (ch_req m) r))).
Definition rsp_drain (base : Z) w : world M :=
  (mem_op pid w base (fun m =>
    (tt, ch_set_rsp m (default (ch_rsp m) (plc_spsc_drain (Some (ch_rsp m))))))).2.
Definition rsp_pop (base : Z) (out : plc_ipc_frame) w : plc_status * plc_ipc_frame * world M :=
  let '(res, w) := mem_op pid w base (fun m =>
    let '(st, r, o) := plc_spsc_pop (Some (ch_rsp m)) (Some out) PLC_IPC_MAX_FRAME_BYTES in
    ((st, default out o), ch_set_rsp m (default (ch_rsp m) r))) in
  (res, w).

Inductive reply : Type :=
| ReplyNone  (** nothing left queued *)
| ReplyBad  (** a malformed frame, or one from the future *)
| ReplyMatched.

Definition protocol_error p : ipc_proxy :=
  p <| px_stats := px_stats p <| sta_protocol_errors := u64 (sta_protocol_errors (px_stats p) + 1) |> |>.

(** The [for (;;)] around [plc_spsc_pop]. *)
Fixpoint pop_loop (fuel : nat) p (base seq : Z) w : option (reply * ipc_proxy * world M) :=
  match fuel with
  | O => None
  | S fuel =>
      let '(st, scratch, w) := rsp_pop base (px_scratch p) w in
      let p := p <| px_scratch := scratch |> in
      match st with
      | PLC_ERR_AGAIN => Some (ReplyNone, p, w)
      | PLC_OK =>
          if s32 (fr_seq (px_scratch p) - seq) <? 0 then pop_loop fuel p base seq w
          else if negb (fr_seq (px_scratch p) =? seq) then Some (ReplyBad, protocol_error p, w)
          else Some (ReplyMatched, p, w)
      | _ => Some (ReplyBad, protocol_error p, w)
      end
  end.

(** The [while (!matched)].  [Some reason] is a miss and its reason, [None] a
    matched reply in the scratch frame. *)
Fixpoint wait_loop (fuel : nat) p (base t0 seq : Z) w : option (option plc_status * ipc_proxy * world M) :=
  match fuel with
  | O => None
  | S fuel =>
      let budget := cap_exchange_timeout_us (px_caps p) in
      let '(now, w) := plc_now_us w in
      let spent := u64 (now - t0) in
      if spent >=? budget then Some (Some PLC_ERR_TIMEOUT, p, w)
      else
        let '(st, w) := plc_sem_wait_timeout (px_sem_rsp p) (u32 (budget - spent)) w in
        match st with
        | PLC_ERR_TIMEOUT => Some (Some PLC_ERR_TIMEOUT, p, w)
        | PLC_OK =>
            match pop_loop fuel p base seq w with
            | None => None
            | Some (ReplyBad, p, w) => Some (Some PLC_ERR_PROTO, p, w)
            | Some (ReplyMatched, p, w) => Some (None, p, w)
            | Some (ReplyNone, p, w) => wait_loop fuel p base t0 seq w
            end
        | _ => Some (Some PLC_ERR_IO, protocol_error p, w)
        end
  end.

(** From [plc_now_us] to the end of the wait: the start time, and how it ended. *)
Definition proxy_round_trip (fuel : nat) p (base : Z) (out : option (list Z)) (out_len : Z) w
    : option (Z * option plc_status * ipc_proxy * world M) :=
  let '(t0, w) := plc_now_us w in
  let seq := px_next_seq p in
  let p := p <| px_next_seq := u32 (px_next_seq p + 1) |> in
  let w := rsp_drain base w in
  match plc_sem_drain fuel (px_sem_rsp p) w with
  | None => None
  | Some w =>
      let '(st, w) := req_push base seq out (u32 out_len) w in
      if negb (is_ok st) then Some (t0, Some PLC_ERR_TIMEOUT, p, w)
      else
        let w := match px_sem_req p with Some s => sem_post w s | None => w end in
        match wait_loop fuel p base t0 seq w with
        | None => None
        | Some (miss, p, w) => Some (t0, miss, p, w)
        end
  end.

(** Copying a matched reply: short replies are extended with zeros. *)
Definition proxy_deliver p (inb : option (list Z)) (in_len : Z) : ipc_proxy * option (list Z) :=
  let got := if fr_len (px_scratch p) <? in_len then fr_len (px_scratch p) else in_len in
  match inb with
  | Some i =>
      if in_len =? 0 then (p, inb)
      else
        let i := if got =? 0 then i else bwrite 0 (bslice 0 got (fr_data (px_scratch p))) i in
        let i := if got <? in_len then bwrite got (zeros (in_len - got)) i else i in
        (p <| px_last_good := bwrite 0 (bslice 0 in_len i) (px_last_good p) |>, Some i)
  | None => (p, inb)
  end.

(** The statistics of a delivered reply. *)
Definition proxy_account p (t0 : Z) w : ipc_proxy * world M :=
  let '(now, w) := plc_now_us w in
  let rtt := u64 (now - t0) in
  let p := p <| px_stats := px_stats p <| sta_exchanges := u64 (sta_exchanges (px_stats p) + 1) |> |> in
  let '(stale, w) := plc_staleness_mark_fresh (Some (px_stale p)) w in
  let p := p <| px_stale := default (px_stale p) stale |> in
  let p := p <| px_stats := px_stats p <| sta_stale_for_us := 0 |> |> in
  let p := p <| px_stats := px_stats p <| sta_last_rtt_us := rtt |> |> in
  let p := if rtt >? sta_max_rtt_us (px_stats p)
           then p <| px_stats := px_stats p <| sta_max_rtt_us := rtt |> |> else p in
  (p, w).

Definition proxy_caps p (out : plc_adapter_caps) : plc_status * plc_adapter_caps := (PLC_OK, px_caps p).
Definition proxy_stats p (out : plc_adapter_stats) : plc_status * plc_adapter_stats := (PLC_OK, px_stats p).
Definition proxy_state p : plc_adapter_state := px_state p.
End Proxy.

(** ** Lemmas on settings and strings *)

Lemma cfg_or_range getenv table x key fallback :
  0 <= x < 2 ^ 32 -> 0 <= fallback < 2 ^ 32 -> 0 <= cfg_or getenv table x key fallback < 2 ^ 32.
Proof. intros. unfold cfg_or. split_if; [by apply cfg_u32_range|done]. Qed.

(** Strings: what [snprintf] keeps. *)
Lemma substring_all s : forall n, (String.length s <= n)%nat -> String.substring 0 n s = s.
Proof.
  induction s as [|c s IH]; intros [|n] Hn; simpl in *; try done; [lia|]. f_equal. apply IH. lia.
Qed.

Lemma length_substring s : forall n, String.length (String.substring 0 n s) = Nat.min n (String.length s).
Proof. induction s as [|c s IH]; intros [|n]; simpl; try done. by rewrite IH. Qed.

Lemma length_append a b : String.length (a +:+ b) = (String.length a + String.length b)%nat.
Proof. induction a as [|c a IH]; [done|]. change (S (String.length (a +:+ b)) = S (String.length a + String.length b)). by rewrite IH. Qed.

Lemma append_inj_r a : forall b s, a +:+ s = b +:+ s -> a = b.
Proof.
  induction a as [|c a IH]; intros [|d b] s E; [done|..].
  - apply (f_equal String.length) in E. rewrite !length_append in E. cbn [String.length] in E. lia.
  - apply (f_equal String.length) in E. rewrite !length_append in E. cbn [String.length] in E. lia.
  - change (String c (a +:+ s) = String d (b +:+ s)) in E. injection E as -> E. f_equal. by eapply IH.
Qed.

Lemma snprintf_id n s : Z.of_nat (String.length s) < n -> snprintf_s n s = s.
Proof. intros. apply substring_all. lia. Qed.

(** ** Lemmas on arbitrary rings *)

Lemma ring_zero_any : ring_any ring_zero.
Proof.
  split; [|repeat constructor; simpl; unfold is_byte; lia].
  split; [simpl; lia|split; [simpl; lia|split; [done|]]]. repeat constructor; simpl; lia.
Qed.


Definition frame_any (f : plc_ipc_frame) : Prop :=
  0 <= fr_len f <= PLC_IPC_MAX_FRAME_BYTES /\ zlen (fr_data f) = PLC_IPC_MAX_FRAME_BYTES /\ bytes (fr_data f).

Lemma pop_any r out :
  ring_any r -> frame_any out ->
  exists st r' out', plc_spsc_pop (Some r) (Some out) PLC_IPC_MAX_FRAME_BYTES = (st, Some r', Some out') /\
    ring_any r' /\ frame_any out' /\ rg_head r' = rg_head r /\
    (st = PLC_ERR_AGAIN /\ rg_tail r = rg_head r \/
     (st = PLC_OK \/ st = PLC_ERR_PROTO) /\ rg_tail r <> rg_head r /\ rg_tail r' = u32 (rg_tail r + 1)).
Proof.
  intros [Hsh Hby] (Hol & Hoz & Hob). rewrite pop_unfold by (unfold PLC_IPC_MAX_FRAME_BYTES; lia).
  destruct (Z.eqb_spec (rg_tail r) (rg_head r)) as [E|E].
  { eexists _, _, _. split; [done|]. split; [done|split; [done|split; [done|auto]]]. }
  cbv zeta. set (sl := slot_at r (rg_tail r)). destruct Hsh as (Hh & Ht & HL & HF).
  assert (In sl (rg_slots r)) as Hin by (apply nth_In; pose proof (slot_index_lt (rg_tail r)); lia).
  rewrite List.Forall_forall in HF. destruct (HF _ Hin) as [Hl Hd].
  assert (bytes (fr_data sl)) as Hb by (rewrite List.Forall_forall in Hby; by apply Hby).
  assert (ring_any (Ring (rg_head r) (u32 (rg_tail r + 1)) (rg_slots r))) as Hr'.
  { split; [|done]. split; [done|split; [apply u32_range|split; [done|by apply List.Forall_forall]]]. }
  destruct (Z.gtb_spec (fr_len sl) PLC_IPC_MAX_FRAME_BYTES); eexists _, _, _; (split; [done|]);
    (split; [done|]).
  - split; [done|split; [done|right]]. auto.
  - split; [|split; [done|right; auto]]. rewrite Z.min_l by lia. split; [simpl; lia|]. simpl.
    destruct (Z.eqb_spec (fr_len sl) 0); [done|].
    split; [rewrite zlen_bwrite; rewrite ?zlen_bslice; lia|auto with plc].
Qed.

Lemma drain_any r : ring_any r -> exists r', plc_spsc_drain (Some r) = Some r' /\ ring_any r'.
Proof. intros [(Hh & Ht & HL & HF) Hb]. eexists. split; [done|]. split; [|done]. done. Qed.

Lemma push_any r seq data len :
  ring_any r -> 0 <= len -> (forall l, data = Some l -> len <= zlen l /\ bytes l) -> 
  exists st r', plc_spsc_push (Some r) seq data len = (st, Some r') /\ ring_any r'.
Proof.
  intros [(Hh & Ht & HL & HF) Hb] Hlen Hd. unfold plc_spsc_push, plc_spsc_push_flagged.
  assert (ring_any r) as Hr by done.
  destruct ((len >? PLC_IPC_MAX_FRAME_BYTES) || _) eqn:G; [eauto|]. apply orb_false_iff in G as [G1 G2].
  destruct (_ >=? _); [eauto|]. simpl. eexists _, _. split; [done|].
  set (sl := slot_at r (rg_head r)).
  assert (In sl (rg_slots r)) as Hin by (apply nth_In; pose proof (slot_index_lt (rg_head r)); lia).
  rewrite List.Forall_forall in HF. destruct (HF _ Hin) as [_ Hz].
  rewrite List.Forall_forall in Hb. pose proof (Hb _ Hin) as Hbs. simpl in Hbs.
  destruct (Z.gtb_spec len PLC_IPC_MAX_FRAME_BYTES); [done|].
  assert (len <> 0 -> exists l, data = Some l) as Hdat.
  { intros Hne. destruct data as [l|]; [eauto|]. rewrite bool_decide_eq_true_2, andb_true_r in G2 by done.
    destruct (Z.eqb_spec len 0); done. }
  split; [split; [apply u32_range|split; [done|]]|]; simpl.
  - rewrite length_insert. split; [done|]. apply Forall_insert; [by apply List.Forall_forall|].
    destruct (Z.eqb_spec len 0) as [->|Hne]; simpl; [split; [lia|done]|].
    destruct (Hdat Hne) as [l ->]. destruct (Hd l eq_refl) as [Hl _].
    split; [unfold PLC_IPC_MAX_FRAME_BYTES in *; lia|].
    rewrite zlen_bwrite; unfold zlen in *; simpl; rewrite ?length_take; lia.
  - apply Forall_insert; [by apply List.Forall_forall|].
    destruct (Z.eqb_spec len 0) as [->|Hne]; simpl; [done|].
    destruct (Hdat Hne) as [l ->]. destruct (Hd l eq_refl) as [_ Hlb]. simpl.
    apply bytes_bwrite; [by apply Forall_take|done].
Qed.

(** ** The proxy's invariant, and what the round trip leaves of the proxy *)

Definition px_inv (p : ipc_proxy) : Prop :=
  0 <= cap_input_bytes (px_caps p) <= PLC_IPC_MAX_FRAME_BYTES /\
  0 <= cap_output_bytes (px_caps p) <= PLC_IPC_MAX_FRAME_BYTES /\
  0 <= cap_exchange_timeout_us (px_caps p) < 2 ^ 32 /\
  zlen (px_last_good p) = PLC_IPC_MAX_FRAME_BYTES /\ bytes (px_last_good p) /\
  frame_any (px_scratch p) /\ (px_state p <> PLC_ADAPTER_CLOSED -> is_Some (px_map p)).

(** The image a reply stands for: its payload, cut or extended with zeros. *)
Definition reply_image (f : plc_ipc_frame) (n : Z) : list Z :=
  bslice 0 (Z.min (fr_len f) n) (fr_data f) ++ zeros (n - Z.min (fr_len f) n).

(** The fields the two loops may touch are the counters and the scratch frame. *)
Definition px_same (p p' : ipc_proxy) : Prop :=
  px_caps p' = px_caps p /\ px_state p' = px_state p /\ px_map p' = px_map p /\
  px_sem_req p' = px_sem_req p /\ px_sem_rsp p' = px_sem_rsp p /\ px_stale p' = px_stale p /\
  px_opened_us p' = px_opened_us p /\ px_last_good p' = px_last_good p /\
  (frame_any (px_scratch p) -> frame_any (px_scratch p')).

Lemma px_same_refl p : px_same p p.
Proof. by split_and!. Qed.

Lemma px_same_trans p1 p2 p3 : px_same p1 p2 -> px_same p2 p3 -> px_same p1 p3.
Proof. unfold px_same. intros (?&?&?&?&?&?&?&?&?) (?&?&?&?&?&?&?&?&?). split_and!; [congruence..|auto]. Qed.

#[export] Hint Resolve px_same_refl : plc.

(** The reading of the clock at a moment, in microseconds. *)
Definition clock_us {M} (w : world M) : Z := Z.max 0 (Z.min (w_ns w) (2 ^ 62 - 1)) / 1000.

(** The microsecond from which the age of the last good image counts. *)
Definition since_of (p : ipc_proxy) : Z :=
  if stl_have_good (px_stale p) then stl_last_good_us (px_stale p) else px_opened_us p.

(** Microseconds since the last good image at [now]; [since] is zero when there is
    no time to count from. *)
Definition age_at (since now : Z) : Z := if negb (since =? 0) && (now >? since) then now - since else 0.

(** A missed exchange of [n] bytes that ended at [w']: the last good image inside
    the failsafe window, the policy's after it, and the state says which. *)
Definition missed {M} (p : ipc_proxy) (n : Z) (p' : ipc_proxy) (i' : list Z) (w' : world M) : Prop :=
  let age := age_at (since_of p) (clock_us w') in
  let caps := px_caps p in
  i' = failsafe_image (cap_failsafe_policy caps) (cap_failsafe_timeout_us caps) age (px_last_good p) n /\
  px_state p' = (if cap_failsafe_timeout_us caps <=? age then PLC_ADAPTER_FAULTED
                 else if bool_decide (px_state p = PLC_ADAPTER_ONLINE) then PLC_ADAPTER_DEGRADED else px_state p) /\
  px_last_good p' = px_last_good p /\ since_of p' = since_of p.

Section Lemmas.
Context {M : Type} `{Channel M} (pid : Z).
Implicit Types (w : world M) (p : ipc_proxy).

(** What an operation may do to the world: keep it well-formed, let no time
    pass but the script's, and consume events. *)
Definition calm (w w' : world M) : Prop :=
  (world_ok w -> world_ok w') /\ horizon w' = horizon w /\ w_script w' `suffix_of` w_script w.

Lemma calm_refl w : calm w w.
Proof. by split_and!. Qed.

Lemma calm_trans w1 w2 w3 : calm w1 w2 -> calm w2 w3 -> calm w1 w3.
Proof. unfold calm. intros (?&?&?) (?&?&?). split; [auto|split; [congruence|by etrans]]. Qed.

Lemma calm_length w w' : calm w w' -> (length (w_script w') <= length (w_script w))%nat.
Proof. intros (_ & _ & Hs). by apply suffix_length. Qed.

(** Time only moves forward. *)
Lemma calm_ns w w' : calm w w' -> w_ns w <= w_ns w'.
Proof. intros (_ & Hh & Hs). apply delays_suffix in Hs. unfold horizon in Hh. lia. Qed.


Lemma now_us_calm w : calm w (plc_now_us w).2.
Proof.
  unfold calm, plc_now_us, clock_gettime, world_clock. pose proof (pause_world w).
  destruct (pause_horizon w) as [? _]. pose proof (pause_suffix w). by destruct (pause w) as [e w1].
Qed.

(** A reading of the clock tells the time at which it returns. *)
Lemma world_now_us_reads w : (plc_now_us w).1 = clock_us (plc_now_us w).2.
Proof.
  unfold plc_now_us, clock_gettime, world_clock, clock_us. destruct (pause w) as [e w1]; simpl.
  set (t := Z.max 0 _). assert (0 <= t < 2 ^ 62) by lia. mach.
Qed.

Lemma age_reads p w :
  let '(age, w') := plc_staleness_age_us (Some (px_stale p)) (px_opened_us p) w in age = age_at (since_of p) (clock_us w').
Proof.
  unfold plc_staleness_age_us. pose proof (world_now_us_reads w) as Hn. destruct (plc_now_us w) as [now w1]; simpl in Hn. by rewrite Hn.
Qed.

Lemma mark_fresh_reads st w :
  let '(st', w') := plc_staleness_mark_fresh (Some st) w in st' = Some (Staleness (clock_us w') true).
Proof.
  unfold plc_staleness_mark_fresh. pose proof (world_now_us_reads w) as Hn. destruct (plc_now_us w) as [now w1]; simpl in Hn. by rewrite Hn.
Qed.

Lemma now_us_silent w : w_script w = [] -> (plc_now_us w).2 = w.
Proof. intros Hs. unfold plc_now_us, clock_gettime, world_clock. by rewrite pause_silent. Qed.

Lemma age_calm st t w : calm w (plc_staleness_age_us st t w).2.
Proof.
  unfold plc_staleness_age_us. destruct st; [|apply calm_refl]. pose proof (now_us_calm w). by destruct (plc_now_us w).
Qed.

Lemma mark_fresh_calm st w : calm w (plc_staleness_mark_fresh st w).2.
Proof.
  unfold plc_staleness_mark_fresh. destruct st; [|apply calm_refl]. pose proof (now_us_calm w). by destruct (plc_now_us w).
Qed.

Lemma mem_op_calm {T} w base (f : M -> T * M) :
  (forall m, m_ok m -> m_ok (f m).2) -> calm w (mem_op pid w base f).2.
Proof.
  intros Hf. split; [intros; by apply mem_op_world|]. rewrite mem_op_horizon. split; [done|apply mem_op_suffix].
Qed.

Lemma rsp_drain_calm base w : calm w (rsp_drain pid base w).
Proof.
  apply mem_op_calm. intros m Hm. cbn [snd]. destruct (ch_any m Hm) as [_ Hr].
  destruct (drain_any _ Hr) as (r' & -> & Hr'). by apply ch_rsp_ok.
Qed.

Lemma sem_drain_calm fuel sem w w' : plc_sem_drain fuel sem w = Some w' -> calm w w'.
Proof. intros Hd. destruct (drain_some _ _ _ _ Hd) as (? & ? & _). apply drain_suffix in Hd. done. Qed.

Lemma sem_post_calm w s : calm w (sem_post w s).
Proof. split; [apply sem_post_world|]. rewrite sem_post_horizon. split; [done|apply sem_post_suffix]. Qed.

Lemma req_push_calm base seq data len w :
  0 <= len -> (forall l, data = Some l -> len <= zlen l /\ bytes l) -> calm w (req_push pid base seq data len w).2.
Proof.
  intros Hl Hd. apply mem_op_calm. intros m Hm. destruct (ch_any m Hm) as [Hr _].
  destruct (push_any (ch_req m) seq data len Hr Hl Hd) as (st & r' & -> & Hr'). simpl. by apply ch_req_ok.
Qed.

Lemma rsp_pop_calm base out w : frame_any out -> calm w (rsp_pop pid base out w).2.
Proof.
  intros Ho. unfold rsp_pop. assert (forall m, m_ok m -> m_ok (let '(st, r, o) := plc_spsc_pop (Some (ch_rsp m)) (Some out)
      PLC_IPC_MAX_FRAME_BYTES in ((st, default out o), ch_set_rsp m (default (ch_rsp m) r))).2) as Hf.
  { intros m Hm. destruct (ch_any m Hm) as [_ Hr].
    destruct (pop_any (ch_rsp m) out Hr Ho) as (st & r' & o' & -> & Hr' & _). by apply ch_rsp_ok. }
  pose proof (mem_op_calm w base _ Hf) as Hc. by destruct (mem_op _ _ _ _).
Qed.

(** The state a pop works on: what the peer has made of the memory. *)
Lemma rsp_pop_result base out w :
  let m := deref pid (w_k (pause w).2) base in
  let '(st, r, o) := plc_spsc_pop (Some (ch_rsp m)) (Some out) PLC_IPC_MAX_FRAME_BYTES in
  rsp_pop pid base out w = ((st, default out o),
    (pause w).2 <| w_k := k_store pid (w_k (pause w).2) base (ch_set_rsp m (default (ch_rsp m) r)) |>).
Proof.
  unfold rsp_pop, mem_op. destruct (pause w) as [e w1]. cbn [snd]. by destruct (plc_spsc_pop _ _ _) as [[st r] o].
Qed.

Lemma rsp_pop_frame base out w :
  world_ok w -> frame_any out -> frame_any (rsp_pop pid base out w).1.2 /\
  ((rsp_pop pid base out w).1.1 = PLC_ERR_AGAIN \/ (rsp_pop pid base out w).1.1 = PLC_OK \/
   (rsp_pop pid base out w).1.1 = PLC_ERR_PROTO).
Proof.
  intros Hw Ho. pose proof (rsp_pop_result base out w) as Hr. cbv zeta in Hr.
  destruct (pause_world w Hw) as (_ & Hk & _).
  destruct (ch_any _ (deref_ok pid _ base Hk)) as [_ Hany].
  destruct (pop_any _ out Hany Ho) as (st & r' & o' & E & _ & Hf & _ & Hst). rewrite E in Hr. rewrite Hr. simpl.
  split; [done|]. destruct Hst as [[-> _]|[[->| ->] _]]; auto.
Qed.

Lemma px_same_scratch p f : frame_any f -> px_same p (p <| px_scratch := f |>).
Proof. intros. by split_and!. Qed.

Lemma px_same_error p : px_same p (protocol_error p).
Proof. by split_and!. Qed.

Lemma pop_loop_spec fuel p base seq w r p' w' :
  pop_loop pid fuel p base seq w = Some (r, p', w') -> world_ok w -> frame_any (px_scratch p) ->
  px_same p p' /\ calm w w' /\ (r = ReplyMatched -> fr_seq (px_scratch p') = seq).
Proof.
  revert p w. induction fuel as [|fuel IH]; intros p w; [done|]. cbn [pop_loop]. intros Hx Hw Hf.
  pose proof (rsp_pop_frame base (px_scratch p) w Hw Hf) as [Hf1 Hst].
  pose proof (rsp_pop_calm base (px_scratch p) w Hf) as Hc.
  destruct (rsp_pop pid base (px_scratch p) w) as [[st f1] w1]; cbn [fst snd] in *.
  pose proof (px_same_scratch p f1 Hf1) as Hp. pose proof (px_same_error (p <| px_scratch := f1 |>)) as He.
  destruct Hst as [->|[->| ->]].
  - by simplify_eq.
  - destruct (s32 _ <? 0).
    + apply IH in Hx as (? & ? & ?); [|by apply Hc|done]. split; [by eapply px_same_trans|].
      split; [by eapply calm_trans|done].
    + destruct (Z.eqb_spec (fr_seq (px_scratch (p <| px_scratch := f1 |>))) seq) as [E|E]; simpl in Hx; simplify_eq.
      * done.
      * split; [by eapply px_same_trans|done].
  - simplify_eq. split; [by eapply px_same_trans|done].
Qed.

Lemma wait_loop_spec fuel p base t0 seq w miss p' w' :
  wait_loop pid fuel p base t0 seq w = Some (miss, p', w') ->
  world_ok w -> frame_any (px_scratch p) -> 0 <= cap_exchange_timeout_us (px_caps p) < 2 ^ 32 ->
  px_same p p' /\ world_ok w' /\
  horizon w' <= horizon w + cap_exchange_timeout_us (px_caps p) * 1000 /\
  w_script w' `suffix_of` w_script w /\
  match miss with
  | None => fr_seq (px_scratch p') = seq /\ horizon w' = horizon w
  | Some st => st = PLC_ERR_TIMEOUT \/ st = PLC_ERR_IO \/ st = PLC_ERR_PROTO
  end.
Proof.
  revert p w. induction fuel as [|fuel IH]; intros p w; [done|]. cbn [wait_loop]. intros Hx Hw Hf Hb.
  pose proof (now_us_calm w) as Hn. destruct (plc_now_us w) as [now w1]; simpl in Hn.
  set (budget := cap_exchange_timeout_us (px_caps p)) in *. pose proof (u64_range (now - t0)) as Hsp.
  destruct (Z.geb_spec (u64 (now - t0)) budget) as [Hge|Hlt].
  { simplify_eq. destruct Hn as (? & ? & ?). split; [by eauto with plc|split; [auto|split; [lia|split; [done|auto]]]]. }
  rewrite u32_small in Hx by lia.
  pose proof (wait_timeout_spec (px_sem_rsp p) (budget - u64 (now - t0)) w1) as Hwt.
  pose proof (wait_suffix (px_sem_rsp p) (budget - u64 (now - t0)) w1) as Hl2.
  destruct (plc_sem_wait_timeout _ _ w1) as [st w2]; simpl in Hl2.
  destruct Hwt as (Hw2 & Hh2 & Hq2 & _); [lia|by apply Hn|]. destruct Hn as (Hn1 & Hn2 & Hn3).
  assert (w_script w2 `suffix_of` w_script w) as Hs2 by (by etrans).
  assert (forall ms pp, Some (ms, pp, w2) = Some (miss, p', w') -> px_same p pp ->
    (exists s, ms = Some s /\ (s = PLC_ERR_TIMEOUT \/ s = PLC_ERR_IO)) ->
    px_same p p' /\ world_ok w' /\ horizon w' <= horizon w + budget * 1000 /\
    w_script w' `suffix_of` w_script w /\
    match miss with
    | None => fr_seq (px_scratch p') = seq /\ horizon w' = horizon w
    | Some st => st = PLC_ERR_TIMEOUT \/ st = PLC_ERR_IO \/ st = PLC_ERR_PROTO
    end) as Hend.
  { intros ms pp [= -> -> ->] Hpp (s & -> & Hs). split; [done|split; [done|split; [lia|split; [done|]]]]. destruct Hs; auto. }
  destruct st; try (eapply Hend; [exact Hx|apply px_same_error|by eauto]).
  specialize (Hq2 ltac:(discriminate)).
  destruct (pop_loop pid fuel p base seq w2) as [[[r p2] w3]|] eqn:Ep; [|done].
  apply pop_loop_spec in Ep as (Hp2 & Hc & Hm); [|done|done]. destruct Hc as (Hc1 & Hc2 & Hc3).
  assert (w_script w3 `suffix_of` w_script w) as Hs3 by (by etrans).
  destruct r; simplify_eq.
  - pose proof Hp2 as (Hcap & _ & _ & _ & _ & _ & _ & _ & Hsc).
    apply IH in Hx as (Hp3 & Hw3 & Hh3 & Hl3 & Hm3); [|auto|auto|by rewrite Hcap].
    rewrite Hcap in Hh3. fold budget in Hh3.
    split; [by eapply px_same_trans|split; [done|split; [lia|split; [by etrans|]]]].
    destruct miss; [done|]. destruct Hm3. split; [done|congruence].
  - split; [done|split; [auto|split; [lia|split; [done|auto]]]].
  - split; [done|split; [auto|split; [lia|split; [done|]]]]. split; [auto|congruence].
Qed.

(** From [w] to [w'] no time was wasted.  If no call takes longer than [slow], it is
    over at a time reached without waiting, or [calls] calls (and the rounding of
    the microsecond clock) after the budget is spent. *)
Definition on_time (budget_us calls : Z) (w w' : world M) : Prop :=
  w_script w' `suffix_of` w_script w /\
  forall slow, 0 <= slow -> Forall (fun e => ev_ns e <= slow) (w_script w) ->
    w_ns w' <= Z.max (w_ns w + (delays (w_script w) - delays (w_script w')))
                     (w_ns w + budget_us * 1000 + 999 + calls * slow).

Lemma Forall_suffix {A} (P : A -> Prop) l l' : l' `suffix_of` l -> Forall P l -> Forall P l'.
Proof. intros [pre ->] [_ ?]%Forall_app. done. Qed.

Lemma pause_slow slow w : 0 <= slow -> Forall (fun e => ev_ns e <= slow) (w_script w) -> w_ns (pause w).2 <= w_ns w + slow.
Proof. intros Hs Hf. unfold pause. destruct (w_script w) as [|e sc]; simpl; [lia|]. inversion Hf; lia. Qed.

Lemma on_time_free b n w w' : horizon w' = horizon w -> w_script w' `suffix_of` w_script w -> on_time b n w w'.
Proof. intros Hh Hs. split; [done|]. intros slow _ _. unfold horizon in Hh. lia. Qed.

Lemma on_time_pause b n w w1 : on_time b n w w1 -> on_time b (n + 1) w (pause w1).2.
Proof.
  intros [Hs Ht]. pose proof (pause_suffix w1) as Hp. split; [by etrans|]. intros slow Hs0 Hf. specialize (Ht slow Hs0 Hf).
  pose proof (pause_slow slow w1 Hs0 (Forall_suffix _ _ _ Hs Hf)). destruct (pause_horizon w1) as [Hh _]. unfold horizon in Hh. lia.
Qed.

(** If no call takes longer than [slow], the loop ends at a time reached without
    waiting or one call after the budget, counted from [t0], is spent. *)
Lemma wait_loop_on_time slow fuel p base t0 seq w miss p' w' :
  wait_loop pid fuel p base t0 seq w = Some (miss, p', w') ->
  world_ok w -> frame_any (px_scratch p) -> 0 <= cap_exchange_timeout_us (px_caps p) < 2 ^ 32 ->
  0 <= t0 <= clock_us w -> 0 <= slow -> Forall (fun e => ev_ns e <= slow) (w_script w) ->
  w_ns w' <= Z.max (horizon w - delays (w_script w')) ((t0 + cap_exchange_timeout_us (px_caps p)) * 1000 + 999 + slow).
Proof.
  revert p w. induction fuel as [|fuel IH]; intros p w; [done|]. cbn [wait_loop]. intros Hx Hw Hf Hb Ht0 Hs0 Hslow.
  pose proof (now_us_calm w) as Hn. pose proof (world_now_us_reads w) as Hnow. destruct (plc_now_us w) as [now w1]; simpl in Hn, Hnow.
  set (budget := cap_exchange_timeout_us (px_caps p)) in *. pose proof (calm_ns _ _ Hn) as Hmono. destruct Hn as (Hok1 & Hh1 & Hsf1).
  assert (t0 <= now < 2 ^ 62) as Hnr by (unfold clock_us in *; mach). rewrite u64_small in Hx by lia.
  assert (forall v : world M, horizon v = horizon w -> w_ns v <= horizon w - delays (w_script v)) as Hfree by (unfold horizon; lia).
  destruct (Z.geb_spec (now - t0) budget) as [Hge|Hlt]; [simplify_eq; pose proof (Hfree _ Hh1); lia|].
  rewrite u32_small in Hx by lia. set (left := budget - (now - t0)) in *.
  pose proof (wait_timeout_spec (px_sem_rsp p) left w1 ltac:(lia) (Hok1 Hw)) as Hwt.
  pose proof (wait_suffix (px_sem_rsp p) left w1) as Hsf2. pose proof (wait_on_time (px_sem_rsp p) left w1 ltac:(lia)) as Hot.
  destruct (plc_sem_wait_timeout _ _ w1) as [st w2]; simpl in Hsf2, Hot. destruct Hwt as (Hw2 & _ & Hq2 & _).
  assert (w_script w2 `suffix_of` w_script w) as Hsf by (by etrans).
  pose proof (pause_slow slow w1 Hs0 (Forall_suffix _ _ _ Hsf1 Hslow)) as Hp.
  assert (w_ns w2 <= Z.max (horizon w - delays (w_script w2)) ((t0 + budget) * 1000 + 999 + slow)) as Hend.
  { rewrite Hh1 in Hot. etrans; [exact Hot|]. apply Z.max_le_compat_l. unfold left, clock_us in *. mach. }
  assert (forall ms pp, Some (ms, pp, w2) = Some (miss, p', w') ->
    w_ns w' <= Z.max (horizon w - delays (w_script w')) ((t0 + budget) * 1000 + 999 + slow)) as Hdone by (by intros ms pp [= _ _ <-]).
  destruct st; try (eapply Hdone; exact Hx). specialize (Hq2 ltac:(discriminate)).
  destruct (pop_loop pid fuel p base seq w2) as [[[r p2] w3]|] eqn:Ep; [|done].
  apply pop_loop_spec in Ep as (Hp2 & Hc & _); [|done|done]. pose proof (calm_ns _ _ Hc) as Hmono3.
  destruct Hc as (Hok3 & Hh3 & Hsf3). assert (w_script w3 `suffix_of` w_script w) as Hsf' by (by etrans).
  pose proof Hp2 as (Hcap & _ & _ & _ & _ & _ & _ & _ & Hsc).
  destruct r; simplify_eq; try (pose proof (Hfree w' ltac:(congruence)); lia).
  pose proof (IH p2 w3) as Hend4. rewrite Hcap in Hend4. fold budget in Hend4.
  replace (horizon w3) with (horizon w) in Hend4 by congruence. apply Hend4; [done|auto|auto|done| |done|by eapply Forall_suffix].
  split; [lia|]. unfold clock_us in *.
  assert (w_ns w1 <= w_ns w2) by (apply delays_suffix in Hsf2; unfold horizon in *; lia). mach.
Qed.

(** ** The loops return *)

Lemma k_store_sems (k : kernel M) base m : k_sems (k_store pid k base m) = k_sems k.
Proof. apply k_store_semnames. Qed.

Lemma deref_unmapped (k : kernel M) base : mapped_inode k pid base = None -> deref pid k base = m_zero.
Proof. unfold mapped_inode, deref. destruct (k_maps k !! _) as [i|]; [|done]. by intros ->. Qed.

(** How many replies a reader at [base] finds. *)
Definition backlog (base : Z) w : nat :=
  let r := ch_rsp (deref pid (w_k w) base) in Z.to_nat (u32 (rg_head r - rg_tail r)).

(** With the script run out, a pop that finds something leaves less behind. *)
Lemma rsp_pop_silent base out w :
  world_ok w -> frame_any out -> w_script w = [] ->
  let '(st, o, w') := rsp_pop pid base out w in
  w_script w' = [] /\ k_sems (w_k w') = k_sems (w_k w) /\
  (st <> PLC_ERR_AGAIN -> (backlog base w' < backlog base w)%nat).
Proof.
  intros Hw Ho Hs. pose proof (rsp_pop_result base out w) as Hr. rewrite (pause_silent w Hs) in Hr.
  cbv zeta in Hr. cbn [snd] in Hr. destruct Hw as (_ & Hk & _).
  destruct (ch_any _ (deref_ok pid _ base Hk)) as [_ Hany].
  destruct (pop_any _ out Hany Ho) as (st & r' & o' & E & _ & Hf & Hh & Hst). rewrite E in Hr. rewrite Hr.
  simpl. split; [done|]. rewrite k_store_sems. split; [done|]. intros Hne. destruct Hst as [[? _]|(_ & Ht & Ht')]; [done|].
  unfold backlog; simpl. destruct (mapped_inode (w_k w) pid base) eqn:Em.
  - rewrite deref_store by (by rewrite Em). rewrite ch_rsp_get, Hh, Ht'.
    destruct Hany as [(H1 & H2 & _) _]. mach.
  - rewrite deref_unmapped in Ht by done. by rewrite <- ch_zero in Ht.
Qed.

Lemma pop_loop_silent fuel p base seq w r p' w' :
  pop_loop pid fuel p base seq w = Some (r, p', w') -> world_ok w -> frame_any (px_scratch p) ->
  w_script w = [] -> w_script w' = [] /\ k_sems (w_k w') = k_sems (w_k w).
Proof.
  revert p w. induction fuel as [|fuel IH]; intros p w; [done|]. cbn [pop_loop]. intros Hx Hw Hf Hs.
  pose proof (rsp_pop_frame base (px_scratch p) w Hw Hf) as [Hf1 Hst].
  pose proof (rsp_pop_silent base (px_scratch p) w Hw Hf Hs) as Hsil.
  pose proof (rsp_pop_calm base (px_scratch p) w Hf) as Hc.
  destruct (rsp_pop pid base (px_scratch p) w) as [[st f1] w1]; cbn [fst snd] in *.
  destruct Hsil as (Hs1 & Hs2 & _). destruct Hst as [->|[->| ->]]; try by simplify_eq.
  destruct (s32 _ <? 0).
  - apply IH in Hx as [? ?]; [|by apply Hc|done|done]. split; congruence.
  - destruct (negb _); by simplify_eq.
Qed.

Lemma pop_loop_returns p base seq w :
  world_ok w -> frame_any (px_scratch p) -> exists r, returns (fun n => pop_loop pid n p base seq w) r.
Proof.
  remember (length (w_script w)) as l eqn:El. revert p w El. induction l as [l IH] using lt_wf_ind. intros p w El.
  remember (backlog base w) as v eqn:Ev. revert p w El Ev. induction v as [v IHv] using lt_wf_ind.
  intros p w El Ev Hw Hf.
  pose proof (rsp_pop_frame base (px_scratch p) w Hw Hf) as [Hf1 Hst].
  pose proof (rsp_pop_silent base (px_scratch p) w Hw Hf) as Hsil.
  pose proof (rsp_pop_calm base (px_scratch p) w Hf) as [Hc _].
  assert (length (w_script (rsp_pop pid base (px_scratch p) w).2) = pred (length (w_script w))) as Hl.
  { unfold rsp_pop. rewrite <- (mem_op_script pid w base (fun m => let '(st, r, o) := plc_spsc_pop (Some (ch_rsp m))
      (Some (px_scratch p)) PLC_IPC_MAX_FRAME_BYTES in
      ((st, default (px_scratch p) o), ch_set_rsp m (default (ch_rsp m) r)))). by destruct (mem_op _ _ _ _). }
  assert (forall (r : reply) (pp : ipc_proxy), (forall n, pop_loop pid (S n) p base seq w =
     Some (r, pp, (rsp_pop pid base (px_scratch p) w).2)) -> exists r, returns (fun n => pop_loop pid n p base seq w) r)
    as Hend.
  { intros r pp Hr. eexists _, 1%nat. intros [|n] Hn; [lia|]. apply Hr. }
  cbn [pop_loop] in Hend. 
  destruct (rsp_pop pid base (px_scratch p) w) as [[st f1] w1] eqn:Epop; cbn [fst snd] in *.
  destruct Hst as [->|[->| ->]]; [by eapply Hend| |by eapply Hend].
  destruct (s32 (fr_seq (px_scratch (p <| px_scratch := f1 |>)) - seq) <? 0) eqn:Elate.
  2:{ destruct (negb _); by eapply Hend. }
  assert (exists r, returns (fun n => pop_loop pid n (p <| px_scratch := f1 |>) base seq w1) r) as (r & n & Hn).
  { destruct (w_script w) as [|e sc] eqn:Es.
    - destruct (Hsil eq_refl) as (Hs1 & _ & Hv). 
      apply (IHv (backlog base w1)); [rewrite Ev; by apply Hv|by rewrite Hs1|done|by apply Hc|done].
    - apply (IH (length (w_script w1))); [simpl in *; lia|done|by apply Hc|done]. }
  exists r, (S n). intros [|m] Hm; [lia|]. cbn [pop_loop]. rewrite Epop, Elate. apply Hn. lia.
Qed.

(** The posts the proxy has not taken yet. *)
Definition posts p w : nat :=
  match px_sem_rsp p with Some s => Z.to_nat (sem_value (w_k w) s) | None => 0%nat end.

Lemma wait_loop_returns p base t0 seq w :
  world_ok w -> frame_any (px_scratch p) -> 0 <= cap_exchange_timeout_us (px_caps p) < 2 ^ 32 ->
  exists r, returns (fun n => wait_loop pid n p base t0 seq w) r.
Proof.
  remember (length (w_script w)) as l eqn:El. revert p w El. induction l as [l IH] using lt_wf_ind. intros p w El.
  remember (posts p w) as v eqn:Ev. revert p w El Ev. induction v as [v IHv] using lt_wf_ind.
  intros p w El Ev Hw Hf Hb.
  assert (forall r, (forall n, wait_loop pid (S n) p base t0 seq w = Some r) ->
    exists r, returns (fun n => wait_loop pid n p base t0 seq w) r) as Hend.
  { intros r Hr. exists r, 1%nat. intros [|n] Hn; [lia|]. apply Hr. }
  cbn [wait_loop] in Hend. pose proof (now_us_calm w) as Hn. pose proof (calm_length _ _ Hn) as Hn3. destruct Hn as (Hn1 & Hn2 & _).
  pose proof (now_us_silent w) as Hns. pose proof (u64_range ((plc_now_us w).1 - t0)) as Hsp.
  destruct (plc_now_us w) as [now w1] eqn:Enow; cbn [fst snd] in *.
  set (budget := cap_exchange_timeout_us (px_caps p)) in *.
  destruct (u64 (now - t0) >=? budget) eqn:Egeb; [by eapply Hend|].
  assert (u64 (now - t0) < budget) as Hlt by (rewrite Z.geb_leb in Egeb; by apply Z.leb_gt in Egeb).
  pose proof (wait_timeout_spec (px_sem_rsp p) (budget - u64 (now - t0)) w1) as Hwt.
  rewrite u32_small in Hend by lia.
  destruct (plc_sem_wait_timeout (px_sem_rsp p) (budget - u64 (now - t0)) w1) as [st w2] eqn:Ewait.
  destruct Hwt as (Hw2 & _ & _ & _ & Hl2 & Hok); [lia|auto|].
  destruct st; try (by eapply Hend). clear Hend. specialize (Hok eq_refl).
  destruct (pop_loop_returns p base seq w2 Hw2 Hf) as ([[r p2] w3] & n1 & Hn).
  pose proof (pop_loop_spec _ _ _ _ _ _ _ _ (Hn n1 (le_n _)) Hw2 Hf) as (Hp2 & Hc & _).
  pose proof (calm_length _ _ Hc) as Hc3. destruct Hc as (Hc1 & _ & _).
  pose proof (pop_loop_silent _ _ _ _ _ _ _ _ (Hn n1 (le_n _)) Hw2 Hf) as Hsil.
  pose proof Hp2 as (Hcap & _ & _ & _ & Hsem & _ & _ & _ & Hsc).
  assert (exists r, returns (fun n => wait_loop pid n p2 base t0 seq w3) r) as (r' & n2 & Hn').
  { destruct Hok as [Hdec|(Hs & s & Es & Hpos & Hval)].
    - apply (IH (length (w_script w3))); [lia|done|auto|auto|by rewrite Hcap].
    - assert (w_script w2 = []) as Hs2.
      { rewrite Hs in Hl2. simpl in Hl2. destruct (w_script w2); [done|simpl in *; lia]. }
      destruct (Hsil Hs2) as [Hs3 Hsems].
      destruct (w_script w) as [|e sc] eqn:Ew.
      + rewrite (Hns eq_refl) in *. apply (IHv (posts p2 w3)); [|by rewrite Hs3|done|auto|auto|by rewrite Hcap].
        unfold posts in *. rewrite Hsem, Es in *. unfold sem_value in *. rewrite Hsems. lia.
      + apply (IH (length (w_script w3))); [rewrite Hs3; simpl in *; lia|done|auto|auto|by rewrite Hcap]. }
  destruct r; eexists _, (S (Nat.max n1 n2)); (intros [|m] Hm; [lia|]); cbn [wait_loop];
    rewrite Enow; fold budget; rewrite Egeb, u32_small, Ewait, (Hn m) by lia; try done.
  apply Hn'. lia.
Qed.

(** A whole round trip returns. *)
Lemma round_trip_returns p base out out_len w :
  world_ok w -> frame_any (px_scratch p) -> 0 <= cap_exchange_timeout_us (px_caps p) < 2 ^ 32 ->
  0 <= out_len < 2 ^ 32 -> (forall l, out = Some l -> out_len <= zlen l /\ bytes l) ->
  exists r, returns (fun n => proxy_round_trip pid n p base out out_len w) r.
Proof.
  intros Hw Hf Hb Ho Hd. unfold proxy_round_trip. pose proof (now_us_calm w) as [Hn1 _].
  destruct (plc_now_us w) as [t0 w1]; cbn [fst snd] in *. set (p1 := p <| px_next_seq := _ |>).
  pose proof (rsp_drain_calm base w1) as [Hr1 _].
  destruct (drain_returns (px_sem_rsp p1) (rsp_drain pid base w1)) as (w2 & n1 & Hn).
  pose proof (sem_drain_calm _ _ _ _ (Hn n1 (le_n _))) as [Hs1 _]. 
  pose proof (req_push_calm base (px_next_seq p) out out_len w2) as [Hq1 _]; [lia|done|].
  destruct (req_push pid base (px_next_seq p) out out_len w2) as [st w3] eqn:Eq; cbn [snd] in *.
  destruct (negb (is_ok st)) eqn:Est.
  { eexists _, n1. intros m Hm. cbv beta zeta. by rewrite Hn, u32_small, Eq, Est by done. }
  set (w4 := match px_sem_req p1 with Some s => sem_post w3 s | None => w3 end).
  assert (world_ok w4) as Hw4 by (subst w4; destruct (px_sem_req p1); [apply sem_post_world; auto|auto]).
  destruct (wait_loop_returns p1 base t0 (px_next_seq p) w4 Hw4 Hf Hb) as ([[miss p2] w5] & n2 & Hn2).
  eexists _, (Nat.max n1 n2). intros m Hm. cbv beta zeta. rewrite Hn, u32_small, Eq, Est by lia.
  fold w4. by rewrite Hn2 by lia.
Qed.

Lemma round_trip_spec fuel p base out out_len w t0 miss p' w' :
  proxy_round_trip pid fuel p base out out_len w = Some (t0, miss, p', w') ->
  world_ok w -> frame_any (px_scratch p) -> 0 <= cap_exchange_timeout_us (px_caps p) < 2 ^ 32 ->
  0 <= out_len < 2 ^ 32 -> (forall l, out = Some l -> out_len <= zlen l /\ bytes l) ->
  px_same p p' /\ world_ok w' /\
  horizon w' <= horizon w + cap_exchange_timeout_us (px_caps p) * 1000 /\
  on_time (cap_exchange_timeout_us (px_caps p)) 2 w w' /\
  match miss with
  | None => fr_seq (px_scratch p') = px_next_seq p /\ horizon w' = horizon w
  | Some st => st = PLC_ERR_TIMEOUT \/ st = PLC_ERR_IO \/ st = PLC_ERR_PROTO
  end.
Proof.
  intros Hx Hw Hf Hb Ho Hd. unfold proxy_round_trip in Hx. pose proof (now_us_calm w) as Hn. pose proof (world_now_us_reads w) as Hnow.
  assert (w_ns (plc_now_us w).2 = w_ns (pause w).2) as Ep
    by (unfold plc_now_us, clock_gettime, world_clock; by destruct (pause w)).
  destruct (plc_now_us w) as [t1 w1]; cbn [fst snd] in *. set (p1 := p <| px_next_seq := _ |>) in *.
  assert (px_same p p1) as Hp1 by (by split_and!).
  pose proof (calm_trans _ _ _ Hn (rsp_drain_calm base w1)) as Hr.
  destruct (plc_sem_drain fuel (px_sem_rsp p1) (rsp_drain pid base w1)) as [w2|] eqn:Ed; [|done].
  apply sem_drain_calm in Ed. rewrite u32_small in Hx by done.
  pose proof (calm_trans _ _ _ Hr Ed) as Hr2. pose proof (calm_trans _ _ _ (rsp_drain_calm base w1) Ed) as Ht2.
  pose proof (req_push_calm base (px_next_seq p) out out_len w2 ltac:(lia) Hd) as Hq.
  destruct (req_push pid base (px_next_seq p) out out_len w2) as [st w3]; cbn [snd] in *.
  pose proof (calm_trans _ _ _ Hr2 Hq) as Hr3. pose proof (calm_trans _ _ _ Ht2 Hq) as Ht3.
  destruct (negb (is_ok st)).
  { simplify_eq. destruct Hr3 as (? & ? & ?). split; [done|split; [auto|split; [lia|split; [by apply on_time_free|auto]]]]. }
  set (w4 := match px_sem_req p1 with Some s => sem_post w3 s | None => w3 end) in *.
  assert (calm w3 w4) as Hc by (subst w4; destruct (px_sem_req p1); [apply sem_post_calm|apply calm_refl]).
  pose proof (calm_ns _ _ (calm_trans _ _ _ Ht3 Hc)) as Hmono. destruct (calm_trans _ _ _ Hr3 Hc) as (Hw4 & Hh4 & Hs4).
  destruct (wait_loop pid fuel p1 base t1 (px_next_seq p) w4) as [[[miss' p2] w5]|] eqn:Ew; [|done]. simplify_eq.
  pose proof (wait_loop_spec _ _ _ _ _ _ _ _ _ Ew (Hw4 Hw) Hf Hb) as (Hp2 & Hw5 & Hh5 & Hs5 & Hm). simpl in Hh5.
  split; [by eapply px_same_trans|split; [done|split; [lia|]]]. split; [|destruct miss; [done|]; destruct Hm; split; [done|congruence]].
  split; [by etrans|]. intros slow Hs0 Hsl. pose proof (pause_slow slow w Hs0 Hsl) as Hps.
  pose proof (wait_loop_on_time slow _ _ _ _ _ _ _ _ _ Ew (Hw4 Hw) Hf Hb) as Hot. simpl in Hot. rewrite Hh4 in Hot.
  assert (0 <= w_ns w) as Hw0 by apply Hw. etrans; [apply Hot; [|done|by eapply Forall_suffix]|].
  - split; [unfold clock_us; mach|]. unfold clock_us. mach.
  - unfold horizon, clock_us. mach.
Qed.

Lemma px_same_inv p p' : px_same p p' -> px_inv p -> px_inv p'.
Proof.
  intros (Hc & Hs & Hm & _ & _ & _ & _ & Hl & Hf) (?&?&?&?&?&?&?). unfold px_inv. rewrite Hc, Hs, Hm, Hl.
  split_and!; try done; try lia. auto.
Qed.

(** What the two loops may touch does not change what a miss means. *)
Lemma missed_same p p1 n p' i' w' : px_same p p1 -> missed p1 n p' i' w' -> missed p n p' i' w'.
Proof. intros (Hc & Hs & _ & _ & _ & Hst & Ho & Hl & _). unfold missed, since_of. by rewrite Hc, Hs, Hst, Ho, Hl. Qed.

(** A missed exchange: the failsafe rule, the state and the world. *)
Lemma proxy_fail_spec p i reason w st p' inb' w' :
  px_inv p -> zlen i <= cap_input_bytes (px_caps p) -> px_state p <> PLC_ADAPTER_CLOSED ->
  proxy_fail p (Some i) (zlen i) reason w = (st, p', inb', w') ->
  st = reason /\ px_inv p' /\ px_caps p' = px_caps p /\ calm w w' /\ w' = (pause w).2 /\
  exists i', inb' = Some i' /\ missed p (zlen i) p' i' w'.
Proof.
  intros Hinv Hlen Hst Hx. pose proof Hinv as (Hi & Ho & Hb & Hg & Hgb & Hf & Hm). pose proof (zlen_nonneg i).
  unfold proxy_fail in Hx; simpl in Hx. pose proof (age_calm (Some (px_stale p)) (px_opened_us p) w) as Hc.
  pose proof (age_reads p w) as Ha. assert ((plc_staleness_age_us (Some (px_stale p)) (px_opened_us p) w).2 = (pause w).2) as Ep.
  { unfold plc_staleness_age_us, plc_now_us, clock_gettime, world_clock. by destruct (pause w). }
  destruct (plc_staleness_age_us (Some (px_stale p)) (px_opened_us p) w) as [age w1]; simpl in *.
  unfold missed. cbv zeta. unfold failsafe_image. rewrite Z.geb_leb in Hx.
  destruct (cap_failsafe_timeout_us (px_caps p) <=? age) eqn:Ea.
  - destruct (bool_decide (px_state p = PLC_ADAPTER_FAULTED)) eqn:Es; simpl in Hx;
      rewrite (apply_failsafe_image _ i) in Hx by (done || lia); injection Hx as <- <- <- <-; rewrite <- Ha, Ea;
      (split; [done|]); (split; [do 6 (split; [done|]); intros _; by apply Hm|]); do 3 (split; [done|]); eexists; (split; [done|]);
      (split; [by destruct (cap_failsafe_policy _)|]); simpl; [apply bool_decide_eq_true in Es|]; done.
  - simpl in Hx. destruct (bool_decide (px_state p = PLC_ADAPTER_ONLINE)) eqn:Es; simpl in Hx;
      rewrite (apply_failsafe_image _ i) in Hx by (done || lia); injection Hx as <- <- <- <-; rewrite <- Ha, Ea;
      (split; [done|]); (split; [do 6 (split; [done|]); intros _; by apply Hm|]); do 3 (split; [done|]); eexists; (split; [done|]);
      (split; [by destruct (cap_failsafe_policy _)|done]).
Qed.

Lemma zlen_reply_image f n : frame_any f -> 0 <= n -> zlen (reply_image f n) = n.
Proof.
  intros (Hl & Hz & _) Hn. unfold reply_image. rewrite zlen_app, zlen_bslice, zlen_zeros by lia. lia.
Qed.

Lemma bytes_reply_image f n : frame_any f -> bytes (reply_image f n).
Proof. intros (_ & _ & Hb). apply Forall_app_2; [by apply bytes_bslice|apply bytes_zeros]. Qed.

(** Copying a reply into the caller's buffer. *)
Lemma deliver_image f i :
  0 <= fr_len f <= PLC_IPC_MAX_FRAME_BYTES -> zlen (fr_data f) = PLC_IPC_MAX_FRAME_BYTES ->
  let got := Z.min (fr_len f) (zlen i) in
  let j := if got =? 0 then i else bwrite 0 (bslice 0 got (fr_data f)) i in
  (if got <? zlen i then bwrite got (zeros (zlen i - got)) j else j) = reply_image f (zlen i).
Proof.
  intros Hl Hz. cbv zeta. unfold reply_image. set (got := Z.min _ _). pose proof (zlen_nonneg i).
  set (d := bslice 0 got (fr_data f)). assert (zlen d = got) as Hd by (apply zlen_bslice; lia).
  assert ((if got =? 0 then i else bwrite 0 d i) = bwrite 0 d i) as ->.
  { destruct (Z.eqb_spec got 0) as [E0|]; [|done]. assert (d = []) as ->; [|done].
    rewrite E0 in Hd. destruct d; [done|unfold zlen in Hd; simpl in Hd; lia]. }
  assert (forall src, zlen src = zlen i -> bwrite 0 src i = src) as Hwhole.
  { intros src Hs. unfold bwrite, zlen in *. simpl. rewrite drop_ge by lia. apply app_nil_r. }
  destruct (Z.ltb_spec got (zlen i)).
  - replace got with (0 + zlen d) at 1 by lia.
    rewrite bwrite_bwrite by (rewrite ?zlen_zeros; lia). apply Hwhole. rewrite zlen_app, zlen_zeros; lia.
  - replace (zlen i - got) with 0 by lia. rewrite Hwhole by lia. by rewrite app_nil_r.
Qed.

(** What is delivered, and what is kept of it, for a frame of any content. *)
Lemma proxy_deliver_image p i :
  0 <= fr_len (px_scratch p) <= PLC_IPC_MAX_FRAME_BYTES -> zlen (fr_data (px_scratch p)) = PLC_IPC_MAX_FRAME_BYTES ->
  let img := reply_image (px_scratch p) (zlen i) in
  proxy_deliver p (Some i) (zlen i) = (p <| px_last_good := bwrite 0 img (px_last_good p) |>, Some img).
Proof.
  intros Hl Hz. cbv zeta. pose proof (zlen_nonneg i).
  assert (zlen (reply_image (px_scratch p) (zlen i)) = zlen i) as Hri
    by (unfold reply_image; rewrite zlen_app, zlen_bslice, zlen_zeros by lia; lia).
  pose proof (deliver_image (px_scratch p) i Hl Hz) as Himg. cbv zeta in Himg. unfold proxy_deliver.
  replace (if fr_len (px_scratch p) <? zlen i then fr_len (px_scratch p) else zlen i)
    with (Z.min (fr_len (px_scratch p)) (zlen i)) by (split_if; lia).
  destruct (Z.eqb_spec (zlen i) 0) as [E|E].
  - assert (i = []) as -> by (destruct i; [done|unfold zlen in E; simpl in E; lia]).
    assert (reply_image (px_scratch p) (zlen []) = []) as -> by (destruct (reply_image _ _); [done|unfold zlen in Hri; simpl in Hri; lia]).
    by destruct p.
  - cbv zeta. rewrite Himg. set (img := reply_image _ _) in *.
    replace (bslice 0 (zlen i) img) with img by (rewrite <- Hri; by rewrite bslice_all). done.
Qed.

Lemma proxy_deliver_spec p i :
  px_inv p -> zlen i <= cap_input_bytes (px_caps p) ->
  exists p', proxy_deliver p (Some i) (zlen i) = (p', Some (reply_image (px_scratch p) (zlen i))) /\
    px_inv p' /\ px_caps p' = px_caps p /\ px_state p' = px_state p /\ px_scratch p' = px_scratch p /\
    px_map p' = px_map p /\
    px_stale p' = px_stale p /\ bslice 0 (zlen i) (px_last_good p') = reply_image (px_scratch p) (zlen i).
Proof.
  intros Hinv Hlen. pose proof Hinv as (Hi & Ho & Hb & Hg & Hgb & Hf & Hm). pose proof Hf as (Hl & Hz & Hfb).
  pose proof (zlen_nonneg i). pose proof (zlen_reply_image (px_scratch p) (zlen i) Hf ltac:(lia)) as Hri.
  pose proof (bytes_reply_image (px_scratch p) (zlen i) Hf) as Hrb.
  rewrite (proxy_deliver_image p i Hl Hz). eexists. split; [done|].
  set (img := reply_image (px_scratch p) (zlen i)) in *.
  split; [|do 5 (split; [done|])]; simpl.
  - unfold px_inv; simpl. split_and!; try done; try lia; auto with plc. rewrite zlen_bwrite; lia.
  - rewrite <- Hri. apply bslice_bwrite_same; lia.
Qed.

Lemma proxy_account_spec p t0 w :
  let '(p', w') := proxy_account p t0 w in
  calm w w' /\ (px_inv p -> px_inv p') /\ px_caps p' = px_caps p /\ px_state p' = px_state p /\
  px_map p' = px_map p /\ px_last_good p' = px_last_good p /\ px_scratch p' = px_scratch p /\
  px_stale p' = Staleness (clock_us w') true.
Proof.
  unfold proxy_account. pose proof (now_us_calm w) as H1. destruct (plc_now_us w) as [now w1].
  pose proof (mark_fresh_calm (Some (px_stale p)) w1) as H2. pose proof (mark_fresh_reads (px_stale p) w1) as H3. simpl.
  destruct (plc_staleness_mark_fresh _ w1) as [stale w2]; simpl in *. subst stale.
  destruct (_ >? _); (split; [by eapply calm_trans|]); by split_and!.
Qed.
End Lemmas.
