(* ===== verification/EipProxy.v ===== *)
(** * The EtherNet/IP adapter's proxy in the core

    [src/adapters/eip/eip_adapter_proxy.c], [eip_names.c] and
    [eip_shm_layout.h]: the mapped structure, the names of the shared objects,
    and the adapter whose exchange is one frame each way through the rings.
    [IpcProxy] has the parts it shares with the scanner's proxy.

    The theorems: the proxy fulfils the adapter contract of [Adapter]
    whatever the other process does; the inputs it reports are fresh only
    from the reply to this very request; its exchange returns, and waits no
    longer than its budget. *)

From Stdlib Require Import ZArith Lia.
From stdpp Require Import base gmap list strings tactics.
From S2P Require Import Prelude PlcTypes SpscRing Adapter Config Shm IpcProxy.

(** ** Layout *)

Definition EIP_SHM_MAGIC : Z := 0x45495031.
Definition EIP_SHM_ABI_VERSION : Z := 2.
Definition EIP_SHM_NAME_MAX : Z := 128.
Definition EIP_INSTANCE_MAX : Z := 32.
Definition EIP_DEFAULT_PRODUCED_ASSEMBLY : Z := 100.
Definition EIP_DEFAULT_CONSUMED_ASSEMBLY : Z := 150.
Definition EIP_DEFAULT_INPUT_BYTES : Z := 32.
Definition EIP_DEFAULT_OUTPUT_BYTES : Z := 32.
Definition EIP_DEFAULT_FAILSAFE_TIMEOUT_US : Z := 100000.
Definition EIP_DEFAULT_EXCHANGE_TIMEOUT_US : Z := 5000.

Record eip_adapter_status : Type := EipStatus {
  es_adapter_state : Z;
  es_io_connections : Z;
  es_cycles : Z;
  es_assembly_writes : Z;
  es_last_error : Z
}.
#[export] Instance eta_eip_adapter_status : Eta eip_adapter_status := fun r =>
  EipStatus (es_adapter_state r) (es_io_connections r) (es_cycles r)
    (es_assembly_writes r) (es_last_error r).

Record eip_shm : Type := EipShm {
  em_magic : Z;
  em_abi_version : Z;
  em_layout_bytes : Z;  (** sizeof(eip_shm), cross-checked on attach *)
  em_output_bytes : Z;  (** PLC -> field *)
  em_input_bytes : Z;  (** field -> PLC *)
  em_produced_assembly : Z;
  em_consumed_assembly : Z;
  em_status : eip_adapter_status;
  em_req : plc_spsc_ring;  (** core -> adapter *)
  em_rsp : plc_spsc_ring  (** adapter -> core *)
}.
#[export] Instance eta_eip_shm : Eta eip_shm := fun r =>
  EipShm (em_magic r) (em_abi_version r) (em_layout_bytes r) (em_output_bytes r)
    (em_input_bytes r) (em_produced_assembly r) (em_consumed_assembly r) (em_status r)
    (em_req r) (em_rsp r).

(** 64 bytes of header, 32 of status, two rings aligned on 64 bytes. *)
Definition sizeof_eip_shm : Z := 4480.

Definition eip_shm_zero : eip_shm :=
  EipShm 0 0 0 0 0 0 0 (EipStatus 0 0 0 0 0) ring_zero ring_zero.

#[export] Instance eip_region : Region eip_shm := {|
  m_zero := eip_shm_zero;
  m_bytes := sizeof_eip_shm;
  m_ok m := ring_any (em_req m) /\ ring_any (em_rsp m);
  m_zero_ok := conj ring_zero_any ring_zero_any;
  m_bytes_pos := eq_refl
|}.

#[export] Instance eip_channel : Channel eip_shm := {|
  ch_req := em_req;
  ch_rsp := em_rsp;
  ch_set_req m r := m <| em_req := r |>;
  ch_set_rsp m r := m <| em_rsp := r |>;
  ch_any m Hm := Hm;
  ch_req_ok m r Hm Hr := conj Hr (proj2 Hm);
  ch_rsp_ok m r Hm Hr := conj (proj1 Hm) Hr;
  ch_rsp_get m r := eq_refl;
  ch_req_get m r := eq_refl;
  ch_rsp_keeps m r := eq_refl;
  ch_req_keeps m r := eq_refl;
  ch_zero := eq_refl
|}.

(** ** Names *)

(** [buf] of [buf_len] bytes receives the name; [NULL] is [None]. *)
Definition build (buf_len : Z) (instance : option string) (suffix : string) : string :=
  let instance := match instance with
                  | Some i => if bool_decide (i = "") then "default" else i
                  | None => "default"
                  end in
  snprintf_s buf_len ("/softplc." +:+ instance +:+ ".eip" +:+ suffix).
Definition eip_shm_name (buf_len : Z) (instance : option string) : string := build buf_len instance "".
Definition eip_sem_req_name (buf_len : Z) (instance : option string) : string := build buf_len instance ".req".
Definition eip_sem_rsp_name (buf_len : Z) (instance : option string) : string := build buf_len instance ".rsp".

(** ** The adapter *)

Section EipProxy.
Context (pid : Z) (getenv : cstr -> option cstr) (table : cfg_table).
Implicit Types (w : world eip_shm) (p : ipc_proxy).

Definition proxy_unusable p (inb : option (list Z)) (in_len : Z) w
    : plc_status * ipc_proxy * option (list Z) * world eip_shm :=
  let p := p <| px_stats := px_stats p <| sta_data_invalid := u64 (sta_data_invalid (px_stats p) + 1) |> |> in
  let '(stale, w) := plc_staleness_mark_fresh (Some (px_stale p)) w in
  let p := p <| px_stale := default (px_stale p) stale |> in
  let p := p <| px_stats := px_stats p <| sta_stale_for_us := 0 |> |> in
  let p := if bool_decide (px_state p = PLC_ADAPTER_DEGRADED) then p
           else p <| px_state := PLC_ADAPTER_DEGRADED |> in
  (PLC_ERR_AGAIN, p,
   plc_adapter_apply_failsafe (cap_failsafe_policy (px_caps p)) inb (Some (px_last_good p)) in_len, w).

(** What is written to the region before the doorbells exist. *)
Definition publish (inn out : Z) (m : eip_shm) : eip_shm :=
  let m := m <| em_abi_version := EIP_SHM_ABI_VERSION |>
             <| em_layout_bytes := u32 sizeof_eip_shm |>
             <| em_output_bytes := out |>
             <| em_input_bytes := inn |>
             <| em_produced_assembly := plc_cfg_u32 getenv table (Some (txt "SOFTPLC_EIP_PRODUCED_ASSEMBLY"))
                                          EIP_DEFAULT_PRODUCED_ASSEMBLY |>
             <| em_consumed_assembly := plc_cfg_u32 getenv table (Some (txt "SOFTPLC_EIP_CONSUMED_ASSEMBLY"))
                                          EIP_DEFAULT_CONSUMED_ASSEMBLY |> in
  let m := m <| em_req := default (em_req m) (plc_spsc_init (Some (em_req m))) |>
             <| em_rsp := default (em_rsp m) (plc_spsc_init (Some (em_rsp m))) |> in
  m <| em_status := em_status m <| es_adapter_state := plc_adapter_state_code PLC_ADAPTER_CLOSED |> |>.

(** The capabilities, and the rest of the state, of a proxy that has opened. *)
Definition proxy_start p (cfg : plc_adapter_config) (inn out : Z) w : ipc_proxy * world eip_shm :=
  let c := caps_zero
    <| cap_abi_version := PLC_ADAPTER_ABI_VERSION |>
    <| cap_name := snprintf_s PLC_ADAPTER_NAME_MAX (default "eip0" (cfg_name cfg)) |>
    <| cap_protocol := snprintf_s PLC_ADAPTER_PROTOCOL_MAX "ethernet-ip" |>
    <| cap_input_bytes := inn |>
    <| cap_output_bytes := out |>
    <| cap_failsafe_policy := cfg_failsafe_policy cfg |>
    <| cap_exchange_timeout_us := cfg_or getenv table (cfg_exchange_timeout_us cfg) "SOFTPLC_EIP_EXCHANGE_TIMEOUT_US"
                                    EIP_DEFAULT_EXCHANGE_TIMEOUT_US |>
    <| cap_failsafe_timeout_us := cfg_or getenv table (cfg_failsafe_timeout_us cfg) "SOFTPLC_EIP_FAILSAFE_TIMEOUT_US"
                                    EIP_DEFAULT_FAILSAFE_TIMEOUT_US |>
    <| cap_flags := PLC_ADAPTER_CAP_OUT_OF_PROCESS |>
    <| cap_point_override_capacity := 0 |> in
  let p := p <| px_caps := c |> <| px_stats := stats_zero |>
             <| px_last_good := zeros PLC_IPC_MAX_FRAME_BYTES |> <| px_next_seq := 1 |> in
  let '(now, w) := plc_now_us w in
  (p <| px_opened_us := now |> <| px_stale := Staleness 0 false |>
     <| px_state := PLC_ADAPTER_OPENING |>, w).

Definition proxy_open p (cfg : plc_adapter_config) w : plc_status * ipc_proxy * world eip_shm :=
  if negb (bool_decide (px_state p = PLC_ADAPTER_CLOSED)) then (PLC_ERR_STATE, p, w)
  else
    let p := p <| px_instance := snprintf_s EIP_INSTANCE_MAX (proxy_instance cfg) |> in
    let inn := cfg_or getenv table (cfg_input_bytes cfg) "SOFTPLC_EIP_INPUT_BYTES" EIP_DEFAULT_INPUT_BYTES in
    let out := cfg_or getenv table (cfg_output_bytes cfg) "SOFTPLC_EIP_OUTPUT_BYTES" EIP_DEFAULT_OUTPUT_BYTES in
    if (inn >? PLC_IPC_MAX_FRAME_BYTES) || (out >? PLC_IPC_MAX_FRAME_BYTES) then (PLC_ERR_INVAL, p, w)
    else
      let shm_name := eip_shm_name EIP_SHM_NAME_MAX (Some (px_instance p)) in
      let p := p <| px_sem_req_name := eip_sem_req_name EIP_SHM_NAME_MAX (Some (px_instance p)) |>
                 <| px_sem_rsp_name := eip_sem_rsp_name EIP_SHM_NAME_MAX (Some (px_instance p)) |> in
      let '(st, shm, w) := plc_shm_create pid (Some (px_shm p)) (Some shm_name) sizeof_eip_shm w in
      let p := p <| px_shm := default (px_shm p) shm |> in
      if negb (is_ok st) then (st, p, w)
      else
        let p := p <| px_map := shm_base (px_shm p) |> in
        let base := default 0 (px_map p) in
        let w := mem_set pid w base (publish inn out) in
        let '(st, sem, w) := plc_sem_create (Some (px_sem_req_name p)) w in
        let p := p <| px_sem_req := sem |> in
        if negb (is_ok st) then let '(p, w) := proxy_teardown pid p w in (st, p, w)
        else
          let '(st, sem, w) := plc_sem_create (Some (px_sem_rsp_name p)) w in
          let p := p <| px_sem_rsp := sem |> in
          if negb (is_ok st) then let '(p, w) := proxy_teardown pid p w in (st, p, w)
          else
            let w := mem_set pid w base (fun m => m <| em_magic := EIP_SHM_MAGIC |>) in
            let '(p, w) := proxy_start p cfg inn out w in
            (PLC_OK, p, w).

Definition proxy_exchange (fuel : nat) p (out : option (list Z)) (out_len : Z)
    (inb : option (list Z)) (in_len : Z) w
    : option (plc_status * ipc_proxy * option (list Z) * world eip_shm) :=
  match px_map p with
  | Some base =>
      if bool_decide (px_state p = PLC_ADAPTER_CLOSED) then Some (PLC_ERR_STATE, p, inb, w)
      else if (out_len >? cap_output_bytes (px_caps p)) || (in_len >? cap_input_bytes (px_caps p))
      then Some (PLC_ERR_INVAL, p, inb, w)
      else
        match proxy_round_trip pid fuel p base out out_len w with
        | None => None
        | Some (_, Some reason, p, w) => Some (proxy_fail p inb in_len reason w)
        | Some (t0, None, p, w) =>
            if negb (Z.land (fr_flags (px_scratch p)) PLC_IPC_FRAME_DATA_INVALID =? 0)
            then Some (proxy_unusable p inb in_len w)
            else
              let '(p, inb) := proxy_deliver p inb in_len in
              let '(p, w) := proxy_account p t0 w in
              let p := if bool_decide (px_state p = PLC_ADAPTER_ONLINE) then p
                       else p <| px_state := PLC_ADAPTER_ONLINE |> in
              Some (PLC_OK, p, inb, w)
        end
  | None => Some (PLC_ERR_STATE, p, inb, w)
  end.

Definition kEipVtbl (fuel : nat) : plc_adapter_vtbl (world eip_shm) ipc_proxy :=
  Vtbl (Some proxy_open) (Some (proxy_close pid)) (Some (proxy_exchange fuel))
       (Some proxy_caps) (Some proxy_stats) (Some proxy_state).

Definition plc_eip_io_connections (self : option ipc_proxy) w : Z * world eip_shm :=
  match self with
  | None => (0, w)
  | Some p => match px_map p with
              | None => (0, w)
              | Some base => mem_op pid w base (fun m => (es_io_connections (em_status m), m))
              end
  end.

(** [calloc_a] and [calloc_p]: whether the two allocations succeed. *)
Definition eip_create (fuel : nat) (calloc_a calloc_p : bool)
    : option (plc_protocol_adapter (world eip_shm) ipc_proxy) :=
  if negb calloc_a || negb calloc_p then None
  else Some (Adapter (Some (kEipVtbl fuel))
               (proxy_zero <| px_state := PLC_ADAPTER_CLOSED |>
                           <| px_shm := px_shm proxy_zero <| shm_fd := -1 |> |>)).

Definition eip_destroy (a : option (plc_protocol_adapter (world eip_shm) ipc_proxy)) w : world eip_shm :=
  match a with
  | None => w
  | Some a => (proxy_close pid (ad_impl a) w).2
  end.
End EipProxy.

(** ** Lemmas *)

(** An instance as long as the names have room for. *)
Lemma build_plain instance suffix :
  (String.length instance <= 100)%nat -> (String.length suffix <= 4)%nat -> instance <> "" ->
  build EIP_SHM_NAME_MAX (Some instance) suffix = "/softplc." +:+ instance +:+ ".eip" +:+ suffix.
Proof.
  intros Hl Hs Hne. unfold build. rewrite bool_decide_eq_false_2 by done. apply snprintf_id.
  rewrite !length_append. cbn [String.length]. unfold EIP_SHM_NAME_MAX. lia.
Qed.

Lemma sem_names_differ s :
  eip_sem_req_name EIP_SHM_NAME_MAX (Some (snprintf_s EIP_INSTANCE_MAX s))
    <> eip_sem_rsp_name EIP_SHM_NAME_MAX (Some (snprintf_s EIP_INSTANCE_MAX s)).
Proof.
  assert (String.length (snprintf_s EIP_INSTANCE_MAX s) <= 31)%nat as Hl.
  { unfold snprintf_s. rewrite length_substring. change (Z.to_nat (EIP_INSTANCE_MAX - 1)) with 31%nat. lia. }
  destruct (decide (snprintf_s EIP_INSTANCE_MAX s = ""%string)) as [->|Hne]; [by vm_compute|].
  unfold eip_sem_req_name, eip_sem_rsp_name. rewrite !build_plain by (done || simpl; lia).
  intros E. apply (inj (String.append "/softplc.")), (inj (String.append _)) in E. discriminate E.
Qed.

Arguments publish : simpl never.

Section Lemmas.
Context (pid : Z) (getenv : cstr -> option cstr) (table : cfg_table).
Implicit Types (w : world eip_shm) (p : ipc_proxy).

Lemma proxy_unusable_spec p i w st p' inb' w' :
  px_inv p -> zlen i <= cap_input_bytes (px_caps p) -> px_state p <> PLC_ADAPTER_CLOSED ->
  proxy_unusable p (Some i) (zlen i) w = (st, p', inb', w') ->
  st = PLC_ERR_AGAIN /\ px_inv p' /\ px_caps p' = px_caps p /\ px_last_good p' = px_last_good p /\ calm w w' /\
  px_state p' = PLC_ADAPTER_DEGRADED /\
  inb' = Some match cap_failsafe_policy (px_caps p) with
              | PLC_FAILSAFE_CLEAR => zeros (zlen i)
              | PLC_FAILSAFE_HOLD => bslice 0 (zlen i) (px_last_good p)
              end /\ px_scratch p' = px_scratch p /\ px_stale p' = Staleness (clock_us w') true.
Proof.
  intros Hinv Hlen Hst Hx. pose proof Hinv as (Hi & Ho & Hb & Hg & Hgb & Hf & Hm). pose proof (zlen_nonneg i).
  unfold proxy_unusable in Hx; simpl in Hx. pose proof (mark_fresh_calm (Some (px_stale p)) w) as Hc.
  pose proof (mark_fresh_reads (px_stale p) w) as Hr.
  destruct (plc_staleness_mark_fresh (Some (px_stale p)) w) as [stale w1]; simpl in *. subst stale.
  destruct (bool_decide (px_state p = PLC_ADAPTER_DEGRADED)) eqn:Es; simpl in Hx;
    rewrite apply_failsafe_image in Hx by (done || lia); injection Hx as <- <- <- <-;
    (split; [done|]); (split; [do 6 (split; [done|]); intros _; by apply Hm|]); do 3 (split; [done|]); simpl.
  - apply bool_decide_eq_true in Es. done.
  - done.
Qed.

(** What an exchange that gets past its guards and ends at [w'] does, by how the
    round trip ends. *)
Definition exchange_outcome (p : ipc_proxy) (n : Z) (st : plc_status) (p' : ipc_proxy) (i' : list Z) (w' : world eip_shm) : Prop :=
  let f := px_scratch p' in
  st = PLC_OK /\ fr_seq f = px_next_seq p /\ Z.land (fr_flags f) PLC_IPC_FRAME_DATA_INVALID = 0 /\
    i' = reply_image f n /\ bslice 0 n (px_last_good p') = i' /\ px_state p' = PLC_ADAPTER_ONLINE /\ since_of p' = clock_us w' \/
  st = PLC_ERR_AGAIN /\ fr_seq f = px_next_seq p /\ Z.land (fr_flags f) PLC_IPC_FRAME_DATA_INVALID <> 0 /\
    i' = match cap_failsafe_policy (px_caps p) with
         | PLC_FAILSAFE_CLEAR => zeros n
         | PLC_FAILSAFE_HOLD => bslice 0 n (px_last_good p)
         end /\ px_last_good p' = px_last_good p /\ px_state p' = PLC_ADAPTER_DEGRADED /\ since_of p' = clock_us w' \/
  (st = PLC_ERR_TIMEOUT \/ st = PLC_ERR_IO \/ st = PLC_ERR_PROTO) /\ missed p n p' i' w'.

Lemma eip_exchange_spec fuel p out out_len i w st p' inb' w' :
  px_inv p -> px_state p <> PLC_ADAPTER_CLOSED -> world_ok w ->
  0 <= out_len <= cap_output_bytes (px_caps p) -> zlen i <= cap_input_bytes (px_caps p) ->
  (forall l, out = Some l -> out_len <= zlen l /\ bytes l) ->
  proxy_exchange pid fuel p out out_len (Some i) (zlen i) w = Some (st, p', inb', w') ->
  px_inv p' /\ px_caps p' = px_caps p /\ world_ok w' /\
  horizon w' <= horizon w + cap_exchange_timeout_us (px_caps p) * 1000 /\
  on_time (cap_exchange_timeout_us (px_caps p)) 3 w w' /\
  exists i', inb' = Some i' /\ exchange_outcome p (zlen i) st p' i' w'.
Proof.
  intros Hinv Hst Hw Hol Hil Hd Hx. pose proof Hinv as (Hi & Ho & Hb & Hg & Hgb & Hf & Hm).
  unfold proxy_exchange in Hx. destruct (Hm Hst) as [base Hbase]. rewrite Hbase in Hx.
  rewrite bool_decide_eq_false_2 in Hx by done.
  destruct (Z.gtb_spec out_len (cap_output_bytes (px_caps p))); [lia|].
  destruct (Z.gtb_spec (zlen i) (cap_input_bytes (px_caps p))); [lia|]. cbn [orb] in Hx.
  destruct (proxy_round_trip pid fuel p base out out_len w) as [[[[t0 miss] p1] w1]|] eqn:Ert; [|done].
  apply round_trip_spec in Ert as (Hp1 & Hw1 & Hh1 & Hot & Hmiss);
    [|done|done|done|unfold PLC_IPC_MAX_FRAME_BYTES in *; lia|done].
  pose proof (px_same_inv _ _ Hp1 Hinv) as Hinv1.
  pose proof Hp1 as (Hcap & Hs1 & _ & _ & _ & Hstl & Hop & Hlg & _).
  destruct miss as [reason|].
  - injection Hx as Hx.
    apply proxy_fail_spec in Hx as (-> & Hinv' & Hcap' & (Hc1 & Hc2 & _) & Ew & i' & -> & Hmi);
      [|done|by rewrite Hcap|by rewrite Hs1].
    split; [done|split; [congruence|split; [auto|split; [lia|]]]]. split; [subst w'; by apply (on_time_pause _ 2)|].
    exists i'. split; [done|]. right; right. split; [done|]. by eapply missed_same.
  - destruct Hmiss as [Hsq Hh0]. destruct Hot as [Hsf _].
    destruct (Z.eqb_spec (Z.land (fr_flags (px_scratch p1)) PLC_IPC_FRAME_DATA_INVALID) 0) as [Efl|Efl]; cbn [negb] in Hx.
    + destruct (proxy_deliver_spec p1 i Hinv1) as (p2 & Hdel & Hinv2 & Hcap2 & Hs2 & Hsc2 & Hmap2 & _ & Hlg2);
        [by rewrite Hcap|]. rewrite Hdel in Hx.
      pose proof (proxy_account_spec p2 t0 w1) as Hacc. destruct (proxy_account p2 t0 w1) as [p3 w3].
      destruct Hacc as ((Hc1 & Hc2 & Hc3) & Hinv3 & Hcap3 & Hs3 & Hmap3 & Hlg3 & Hsc3 & Hst3).
      injection Hx as <- <- <- <-. specialize (Hinv3 Hinv2).
      assert (px_inv (p3 <| px_state := PLC_ADAPTER_ONLINE |>)) as Hinv4.
      { destruct Hinv3 as (?&?&?&?&?&?&Hm3). do 6 (split; [done|]). intros _. apply Hm3. congruence. }
      split; [by split_if|]. split; [split_if; simpl; congruence|]. split; [auto|split; [lia|]].
      split; [apply on_time_free; [congruence|by etrans]|].
      eexists. split; [done|]. left. unfold exchange_outcome, since_of.
      split; [done|]. case_bool_decide; simpl; rewrite Hsc3, Hsc2, Hlg3, Hst3; done.
    + injection Hx as Hx.
      apply proxy_unusable_spec in Hx as (-> & Hinv' & Hcap' & Hlg' & (Hc1 & Hc2 & Hc3) & Hs' & -> & Hsc & Hst3);
        [|done|by rewrite Hcap|by rewrite Hs1].
      split; [done|split; [congruence|split; [auto|split; [lia|]]]]. split; [apply on_time_free; [congruence|by etrans]|].
      eexists. split; [done|].
      right; left. unfold since_of. rewrite Hsc, Hst3, Hcap, Hlg in *. done.
Qed.

Lemma eip_outcome_image p n st p' i' w' :
  px_inv p -> px_inv p' -> 0 <= n <= cap_input_bytes (px_caps p) -> exchange_outcome p n st p' i' w' ->
  zlen i' = n /\ bytes i' /\ (px_state p <> PLC_ADAPTER_CLOSED -> px_state p' <> PLC_ADAPTER_CLOSED) /\
  (st = PLC_OK /\ px_state p' = PLC_ADAPTER_ONLINE /\ bslice 0 n (px_last_good p') = i' \/
   st <> PLC_OK /\ px_last_good p' = px_last_good p /\
   (i' = bslice 0 n (px_last_good p) \/ cap_failsafe_policy (px_caps p) = PLC_FAILSAFE_CLEAR /\ i' = zeros n)).
Proof.
  intros (Hi & Ho & Hb & Hg & Hgb & Hf & Hm) (_ & _ & _ & _ & _ & Hf' & _) Hn Hout.
  assert (zlen (bslice 0 n (px_last_good p)) = n /\ bytes (bslice 0 n (px_last_good p))) as [Hh1 Hh2]
    by (split; [apply zlen_bslice; lia|auto with plc]).
  assert (zlen (zeros n) = n /\ bytes (zeros n)) as [Hz1 Hz2] by (split; [apply zlen_zeros; lia|auto with plc]).
  destruct Hout as [(-> & _ & _ & -> & Hlg & Hs & _)|[(-> & _ & _ & -> & Hlg & Hs & _)|(Hst & -> & Hs & Hlg & _)]].
  - split; [apply zlen_reply_image; [done|lia]|]. split; [by apply bytes_reply_image|]. rewrite Hs. auto.
  - rewrite Hs. destruct (cap_failsafe_policy (px_caps p)); auto 10.
  - unfold failsafe_image. rewrite Hs. destruct (cap_failsafe_timeout_us (px_caps p) <=? _);
      destruct (cap_failsafe_policy (px_caps p)); (split; [done|split; [done|split; [by try case_bool_decide|right]]]);
      (split; [by intros ->; destruct Hst as [|[|]]|auto]).
Qed.
End Lemmas.

(** The EtherNet/IP proxy fulfils the adapter contract. *)
#[export] Instance eip_laws pid getenv table fuel : AdapterLaws (kEipVtbl pid getenv table fuel).
Proof.
  refine {| ad_inv := px_inv; ad_caps := px_caps; ad_state := px_state; ad_held := px_last_good |}.
  - intros. by exists proxy_caps.
  - intros. by exists proxy_state.
  - exists (proxy_exchange pid fuel). split; [done|]. intros p out inb w st p' inb' w' Hinv Hw _ Hx Hlen Hb Hd.
    destruct (decide (px_state p = PLC_ADAPTER_CLOSED)) as [Hc|Hc].
    { assert (Some (st, p', inb', w') = Some (PLC_ERR_STATE, p, Some inb, w)) as [= -> -> -> ->].
      { rewrite <- Hx. unfold proxy_exchange. destruct (px_map p); [|done]. by rewrite bool_decide_eq_true_2. }
      split; [done|split; [done|split; [done|]]]. exists inb. by rewrite bool_decide_eq_true_2. }
    rewrite <- Hlen in Hx. pose proof Hinv as (Hi & Ho & _).
    apply eip_exchange_spec in Hx as (Hinv' & Hcap & Hw' & _ & _ & i' & -> & Hout); [|done|done|done|lia|lia|done].
    destruct (eip_outcome_image p (zlen inb) st p' i' w') as (Hz & Hbi & Hs & Hcase); [done|done|split; [apply zlen_nonneg|lia]|done|].
    split; [done|split; [done|split; [done|]]]. exists i'. do 3 (split; [done|]).
    rewrite bool_decide_eq_false_2 by done. split; [auto|]. destruct Hcase as [(?&?&?)|?]; [left|right]; auto.
Defined.

(** ** Theorems *)

(** An open proxy whose region is mapped at address 6, and the world around it:
    process 1 owns the region, its semaphores are 7 and 8. *)
Definition eip_caps_example : plc_adapter_caps :=
  Caps 1 "eip0" "ethernet-ip" 4 4 PLC_FAILSAFE_CLEAR 5000 100000 1 0.
Definition eip_example : ipc_proxy :=
  proxy_zero <| px_caps := eip_caps_example |> <| px_state := PLC_ADAPTER_ONLINE |> <| px_map := Some 6 |>
             <| px_sem_req := Some 7 |> <| px_sem_rsp := Some 8 |> <| px_next_seq := 41 |>
             <| px_stale := Staleness 1 true |>
             <| px_last_good := bwrite 0 [9; 9; 9; 9] (zeros PLC_IPC_MAX_FRAME_BYTES) |>.
Definition eip_kernel : kernel eip_shm :=
  Kernel {["/softplc.default.eip"%string := 4]} {[4 := Inode 4480 eip_shm_zero (Some (1, 5))]}
         {[(1, 5) := 4]} {[(1, 6) := 4]} ∅ {[7 := 0; 8 := 0]} 9.

(** The adapter process answers request [seq] with [data]: it pushes the reply
    and rings the doorbell. *)
Definition answer (seq flags : Z) (data : list Z) (k : kernel eip_shm) : kernel eip_shm :=
  let m := deref 1 k 6 in
  let '(_, r) := plc_spsc_push_flagged (Some (em_rsp m)) seq flags (Some data) (zlen data) in
  sem_set (k_store 1 k 6 (m <| em_rsp := default (em_rsp m) r |>)) 8 (sem_value k 8 + 1).

(** Nothing until the wait (which is the seventh call), then a late reply to
    request 40 and the reply to request 41. *)
Definition answering : world eip_shm :=
  World eip_kernel 2000
    (replicate 7 (Event 1000 None 0) ++ [Event 1000 (Some (answer 40 0 [1; 1; 1; 1])) 0;
                                         Event 1000 (Some (answer 41 0 [5; 6])) 0]).

Lemma eip_example_inv : px_inv eip_example.
Proof.
  split; [vm_compute; split; discriminate|]. split; [vm_compute; split; discriminate|].
  split; [vm_compute; split; congruence|]. split; [reflexivity|].
  split; [apply bytes_bwrite; [repeat constructor; vm_compute; congruence|apply bytes_zeros]|].
  split; [|intros _; by eexists].
  split; [vm_compute; split; discriminate|split; [reflexivity|apply bytes_zeros]].
Qed.

Lemma answer_ok seq flags data (k : kernel eip_shm) :
  bytes data -> zlen data <= PLC_IPC_MAX_FRAME_BYTES -> flags = 0 -> kernel_ok k -> kernel_ok (answer seq flags data k).
Proof.
  intros Hb Hl -> Hk. unfold answer. pose proof (deref_ok 1 k 6 Hk) as [Hq Hr]. pose proof (zlen_nonneg data).
  destruct (push_any (em_rsp (deref 1 k 6)) seq (Some data) (zlen data) Hr) as (st & r' & E & Hr');
    [lia|by intros l [= <-]|]. unfold plc_spsc_push in E. rewrite E.
  change (kernel_ok (k_store 1 k 6 (deref 1 k 6 <| em_rsp := r' |>))). by apply k_store_ok.
Qed.

Lemma eip_kernel_ok : kernel_ok eip_kernel.
Proof. unfold kernel_ok; simpl. apply map_Forall_singleton. exact (conj ring_zero_any ring_zero_any). Qed.

Lemma answering_ok : world_ok answering.
Proof.
  split; [vm_compute; congruence|]. split; [exact eip_kernel_ok|].
  apply Forall_app_2; [apply Forall_replicate; exact I|].
  constructor; [|constructor; [|constructor]]; intros k; apply answer_ok; try done;
    try (repeat constructor; vm_compute; congruence); vm_compute; congruence.
Qed.

(** [C7] Only the reply to this request is fresh, and every input byte is
    defined.  Whatever the other process writes into the rings, posts, or does
    not do, an exchange on an open proxy ends in one of three ways: [PLC_OK]
    with the payload of a frame that carries this request's sequence number
    and is not marked invalid, extended with zeros, and remembered; or
    [PLC_ERR_AGAIN] with the policy applied at once because the frame with
    this request's sequence number says its data is not valid; or a miss, with
    the last good image held until the failsafe window has passed and the
    policy applied from then on.  The age that is compared with the window is the
    time, by the clock at the end of the exchange, since the last exchange of one
    of the first two kinds (since the proxy was opened, if there was none), and only
    those two start it anew.  Only the first changes the image that later misses
    hold. *)
Theorem eip_exchange_outcomes (pid : Z) (fuel : nat) (p : ipc_proxy) (out : option (list Z)) (out_len : Z)
    (i : list Z) (w : world eip_shm) (st : plc_status) (p' : ipc_proxy) (inb' : option (list Z))
    (w' : world eip_shm)
    (Hinv : px_inv p) (Hopen : px_state p <> PLC_ADAPTER_CLOSED) (Hw : world_ok w)
    (Hol : 0 <= out_len <= cap_output_bytes (px_caps p)) (Hil : zlen i <= cap_input_bytes (px_caps p))
    (Hout : forall l, out = Some l -> out_len <= zlen l /\ bytes l)
    (Hx : proxy_exchange pid fuel p out out_len (Some i) (zlen i) w = Some (st, p', inb', w')) :
  px_inv p' /\ px_caps p' = px_caps p /\ world_ok w' /\
  exists i', inb' = Some i' /\ zlen i' = zlen i /\ bytes i' /\ exchange_outcome p (zlen i) st p' i' w'.
Proof.
  apply eip_exchange_spec in Hx as (Hinv' & Hcap & Hw' & _ & _ & i' & -> & Ho); try done.
  destruct (eip_outcome_image p (zlen i) st p' i' w') as (Hz & Hb & _); [done|done|split; [apply zlen_nonneg|done]|done|].
  eauto 10.
Qed.

(** The late reply is dropped and the short one extended. *)
Lemma eip_exchange_outcomes_witness :
  exists p' w', proxy_exchange 1 10 eip_example (Some [1; 2; 3; 4]) 4 (Some [0; 0; 0; 0]) 4 answering
      = Some (PLC_OK, p', Some [5; 6; 0; 0], w') /\ exchange_outcome eip_example 4 PLC_OK p' [5; 6; 0; 0] w'.
Proof.
  assert (match proxy_exchange 1 10 eip_example (Some [1; 2; 3; 4]) 4 (Some [0; 0; 0; 0]) 4 answering with
          | Some (st, _, i, _) => (st, i) = (PLC_OK, Some [5; 6; 0; 0])
          | None => False
          end) as Hc by (vm_compute; reflexivity).
  destruct (proxy_exchange 1 10 eip_example (Some [1; 2; 3; 4]) 4 (Some [0; 0; 0; 0]) 4 answering)
    as [[[[st p'] inb'] w']|] eqn:Hx; [|destruct Hc]. injection Hc as -> ->. exists p', w'. split; [reflexivity|].
  destruct (eip_exchange_outcomes 1 10 eip_example (Some [1; 2; 3; 4]) 4 [0; 0; 0; 0] answering PLC_OK p'
              (Some [5; 6; 0; 0]) w') as (_ & _ & _ & i' & [= <-] & _ & _ & Ho);
    [exact eip_example_inv|discriminate|exact answering_ok|vm_compute; split; congruence|vm_compute; congruence
    |intros l [= <-]; split; [vm_compute; congruence|repeat constructor; vm_compute; congruence]|exact Hx|].
  exact Ho.
Defined.

(** [C15] An exchange returns.  However the other process behaves (it may post
    without pushing, push stale or malformed frames, or overwrite the cursors),
    if it acts finitely often the exchange comes to an end, with the same
    result for every bound on its loops that is large enough. *)
Theorem eip_exchange_returns (pid : Z) (p : ipc_proxy) (out : option (list Z)) (out_len : Z)
    (inb : option (list Z)) (in_len : Z) (w : world eip_shm)
    (Hinv : px_inv p) (Hw : world_ok w) (Hol : 0 <= out_len)
    (Hout : forall l, out = Some l -> out_len <= zlen l /\ bytes l) :
  exists r, returns (fun fuel => proxy_exchange pid fuel p out out_len inb in_len w) r.
Proof.
  pose proof Hinv as (Hi & Ho & Hb & _ & _ & Hf & _). unfold proxy_exchange.
  destruct (px_map p) as [base|]; [|eexists _, 0%nat; by intros].
  destruct (bool_decide _); [eexists _, 0%nat; by intros|].
  destruct (Z.gtb_spec out_len (cap_output_bytes (px_caps p))); [eexists _, 0%nat; by intros|].
  destruct (in_len >? _); [eexists _, 0%nat; by intros|]. cbn [orb].
  destruct (round_trip_returns pid p base out out_len w) as ([[[t0 miss] p1] w1] & n & Hn);
    [done|done|done|unfold PLC_IPC_MAX_FRAME_BYTES in *; lia|done|].
  destruct miss as [reason|].
  - eexists _, n. intros m Hm. cbv beta. by rewrite Hn.
  - destruct (negb (Z.land (fr_flags (px_scratch p1)) PLC_IPC_FRAME_DATA_INVALID =? 0)) eqn:Efl.
    { eexists _, n. intros m Hm. cbv beta. by rewrite Hn, Efl. }
    destruct (proxy_deliver p1 inb in_len) as [p2 inb2] eqn:Ed. destruct (proxy_account p2 t0 w1) as [p3 w3] eqn:Ea.
    eexists _, n. intros m Hm. cbv beta. by rewrite Hn, Efl, Ed, Ea.
Qed.

Lemma eip_exchange_returns_witness :
  exists r, returns (fun fuel => proxy_exchange 1 fuel eip_example (Some [1; 2; 3; 4]) 4 (Some [0; 0; 0; 0]) 4
                                   answering) r.
Proof.
  apply (eip_exchange_returns 1 eip_example (Some [1; 2; 3; 4]) 4 (Some [0; 0; 0; 0]) 4 answering);
    [exact eip_example_inv|exact answering_ok|lia|].
  intros l [= <-]. split; [vm_compute; congruence|repeat constructor; vm_compute; congruence].
Defined.

(** [C16] Waiting is bounded by the budget, and the budget is one for the whole
    exchange.  Beyond the time that passes anyway (other processes running, the
    calls themselves), an exchange adds at most [exchange_timeout_us] of waiting.
    And however often it is woken in between, it does not start over: if no single
    call takes longer than [slow], the exchange is over either at a time reached
    without waiting at all, or at most three such calls and the rounding of the
    microsecond clock after its budget, counted from its beginning, is spent. *)
Theorem eip_exchange_budget (pid : Z) (fuel : nat) (p : ipc_proxy) (out : option (list Z)) (out_len : Z)
    (i : list Z) (w : world eip_shm) (st : plc_status) (p' : ipc_proxy) (inb' : option (list Z))
    (w' : world eip_shm) (slow : Z)
    (Hinv : px_inv p) (Hopen : px_state p <> PLC_ADAPTER_CLOSED) (Hw : world_ok w)
    (Hol : 0 <= out_len <= cap_output_bytes (px_caps p)) (Hil : zlen i <= cap_input_bytes (px_caps p))
    (Hout : forall l, out = Some l -> out_len <= zlen l /\ bytes l)
    (Hslow : 0 <= slow) (Hcalls : Forall (fun e => ev_ns e <= slow) (w_script w))
    (Hx : proxy_exchange pid fuel p out out_len (Some i) (zlen i) w = Some (st, p', inb', w')) :
  let budget := cap_exchange_timeout_us (px_caps p) * 1000 in
  let anyway := delays (w_script w) - delays (w_script w') in
  w_ns w' <= w_ns w + anyway + budget /\
  w_ns w' <= w_ns w + Z.max anyway (budget + 3 * slow + 999).
Proof.
  apply eip_exchange_spec in Hx as (_ & _ & _ & Hh & [_ Hot] & _); [|done..]. specialize (Hot slow Hslow Hcalls).
  unfold horizon in Hh. split; lia.
Qed.

(** The adapter process rings the doorbell four times, 1 ms apart, without a reply.
    The exchange is over after its 5 ms, not 5 ms after the last ring. *)
Definition ring_only (k : kernel eip_shm) : kernel eip_shm := sem_set k 8 (sem_value k 8 + 1).
Definition ringing : world eip_shm :=
  World eip_kernel 2000 (replicate 5 (Event 0 None 0) ++
    mjoin (replicate 4 [Event 0 None 0; Event 0 None 0; Event 1000000 (Some ring_only) 0; Event 0 None 0])).

Lemma eip_exchange_budget_witness :
  exists p' w', proxy_exchange 1 10 eip_example (Some [1; 2; 3; 4]) 4 (Some [0; 0; 0; 0]) 4 ringing
      = Some (PLC_ERR_TIMEOUT, p', Some [9; 9; 9; 9], w') /\ w_ns w' <= 2000 + 8000999.
Proof.
  assert (match proxy_exchange 1 10 eip_example (Some [1; 2; 3; 4]) 4 (Some [0; 0; 0; 0]) 4 ringing with
          | Some (st, _, i, w') => (st, i, w_script w') = (PLC_ERR_TIMEOUT, Some [9; 9; 9; 9], [])
          | None => False
          end) as Hc by (vm_compute; reflexivity).
  destruct (proxy_exchange 1 10 eip_example (Some [1; 2; 3; 4]) 4 (Some [0; 0; 0; 0]) 4 ringing)
    as [[[[st p'] inb'] w']|] eqn:Hx; [|destruct Hc]. injection Hc as -> -> Hs. exists p', w'. split; [reflexivity|].
  destruct (eip_exchange_budget 1 10 eip_example (Some [1; 2; 3; 4]) 4 [0; 0; 0; 0] ringing PLC_ERR_TIMEOUT p'
              (Some [9; 9; 9; 9]) w' 1000000) as [_ Ht].
  - exact eip_example_inv.
  - discriminate.
  - split; [vm_compute; congruence|]. split; [exact eip_kernel_ok|].
    cbn. repeat (apply List.Forall_cons; [first [exact I|intros k Hk; exact Hk]|]). constructor.
  - vm_compute; split; congruence.
  - vm_compute; congruence.
  - intros l [= <-]. split; [vm_compute; congruence|repeat constructor; vm_compute; congruence].
  - lia.
  - cbn. repeat (apply List.Forall_cons; [cbn; lia|]). constructor.
  - exact Hx.
  - rewrite Hs in Ht. etrans; [exact Ht|]. vm_compute. congruence.
Defined.

Lemma k_store_frame {M} `{Region M} pid (k : kernel M) base m :
  k_names (k_store pid k base m) = k_names k /\ k_maps (k_store pid k base m) = k_maps k /\ k_next (k_store pid k base m) = k_next k.
Proof. unfold k_store. destruct (k_maps k !! _) as [i|]; [|done]. by destruct (k_inodes k !! i). Qed.

(** What [open] leaves when nothing interferes and nobody owns the instance. *)
Lemma open_silent (pid : Z) (getenv : cstr -> option cstr) (table : cfg_table) (p : ipc_proxy)
    (cfg : plc_adapter_config) (k : kernel eip_shm) (t : Z) :
  let inn := cfg_or getenv table (cfg_input_bytes cfg) "SOFTPLC_EIP_INPUT_BYTES" EIP_DEFAULT_INPUT_BYTES in
  let out := cfg_or getenv table (cfg_output_bytes cfg) "SOFTPLC_EIP_OUTPUT_BYTES" EIP_DEFAULT_OUTPUT_BYTES in
  let instance := snprintf_s EIP_INSTANCE_MAX (proxy_instance cfg) in
  let name := eip_shm_name EIP_SHM_NAME_MAX (Some instance) in
  px_inv p -> px_state p = PLC_ADAPTER_CLOSED -> kernel_fresh k -> 0 <= cfg_exchange_timeout_us cfg < 2 ^ 32 ->
  0 <= inn <= PLC_IPC_MAX_FRAME_BYTES -> 0 <= out <= PLC_IPC_MAX_FRAME_BYTES ->
  (forall i, k_names k !! name = Some i -> is_Some (k_inodes k !! i)) -> region_owned k name = false ->
  exists p' k' ino base req rsp,
    proxy_open pid getenv table p cfg (World k t []) = (PLC_OK, p', World k' t []) /\
    px_inv p' /\ px_state p' = PLC_ADAPTER_OPENING /\ px_instance p' = instance /\
    cap_abi_version (px_caps p') = PLC_ADAPTER_ABI_VERSION /\
    cap_input_bytes (px_caps p') = inn /\ cap_output_bytes (px_caps p') = out /\
    cap_exchange_timeout_us (px_caps p') = cfg_or getenv table (cfg_exchange_timeout_us cfg)
      "SOFTPLC_EIP_EXCHANGE_TIMEOUT_US" EIP_DEFAULT_EXCHANGE_TIMEOUT_US /\
    px_map p' = Some base /\ px_sem_req p' = Some req /\ px_sem_rsp p' = Some rsp /\
    k_names k' !! name = Some ino /\ k_maps k' !! (pid, base) = Some ino /\ 0 <= k_next k' /\
    (exists lock, mapped_inode k' pid base =
       Some (Inode sizeof_eip_shm (publish getenv table inn out eip_shm_zero <| em_magic := EIP_SHM_MAGIC |>) lock)) /\
    k_semnames k' !! eip_sem_req_name EIP_SHM_NAME_MAX (Some instance) = Some req /\
    k_semnames k' !! eip_sem_rsp_name EIP_SHM_NAME_MAX (Some instance) = Some rsp /\
    req <> rsp /\ sem_value k' req = 0 /\ sem_value k' rsp = 0.
Proof.
  intros inn out inst name Hinv Hclosed Hk Htmo Hin Hout Hnames Hown. unfold proxy_open. rewrite bool_decide_eq_true_2 by done. cbn [negb].
  fold inn out. destruct (Z.gtb_spec inn PLC_IPC_MAX_FRAME_BYTES); [lia|].
  destruct (Z.gtb_spec out PLC_IPC_MAX_FRAME_BYTES); [lia|]. cbn [orb].
  simpl px_instance. fold inst. fold name. rewrite create_silent by done. rewrite Hown.
  destruct (probed_fresh k name Hk) as (Hk0 & _). set (k0 := probed k name) in *.
  rewrite create_fresh_silent by done. cbv beta iota zeta.
  change (is_ok PLC_OK) with true. cbn [negb]. set (p1 := p <| px_instance := inst |> <| _ := _ |> <| _ := _ |>).
  set (base := k_next k0 + 1 + 1). set (k1 := kernel_created pid name sizeof_eip_shm k0).
  set (p2 := p1 <| _ := _ |> <| _ := _ |>). change (default 0 (px_map p2)) with base. rewrite mem_set_eq.
  assert (deref pid k1 base = eip_shm_zero /\ k_names k1 !! name = Some (k_next k0) /\ k_maps k1 !! (pid, base) = Some (k_next k0) /\
    k_inodes k1 !! k_next k0 = Some (Inode sizeof_eip_shm eip_shm_zero (Some (pid, k_next k0 + 1))) /\ 0 <= k_next k1)
    as (-> & Hn1 & Hm1 & Hi1 & Hx1).
  { destruct Hk0 as [? _]. unfold deref. simpl. rewrite !lookup_insert_eq. repeat split. lia. }
  set (m1 := publish getenv table inn out eip_shm_zero). set (k2 := k_store pid k1 base m1).
  destruct (k_store_frame pid k1 base m1) as (Fn & Fm & Fx). fold k2 in Fn, Fm, Fx.
  assert (mapped_inode k2 pid base = Some (Inode sizeof_eip_shm m1 (Some (pid, k_next k0 + 1)))) as Hmap.
  { unfold mapped_inode. rewrite Fm, Hm1. unfold k2, k_store. rewrite Hm1, Hi1. simpl. by rewrite lookup_insert_eq. }
  clearbody k2. change (px_sem_req_name p2) with (eip_sem_req_name EIP_SHM_NAME_MAX (Some inst)).
  rewrite sem_create_silent. cbv beta iota zeta. change (is_ok PLC_OK) with true. cbn [negb].
  set (p3 := p2 <| _ := _ |>). change (px_sem_rsp_name p3) with (eip_sem_rsp_name EIP_SHM_NAME_MAX (Some inst)).
  rewrite sem_create_silent. cbv beta iota zeta. change (is_ok PLC_OK) with true. cbn [negb].
  rewrite mem_set_eq. unfold proxy_start, plc_now_us, clock_gettime, world_clock, pause. cbv beta iota zeta.
  set (k3 := Kernel _ _ _ _ _ _ _). cbn [w_script w_ns w_k].
  assert (mapped_inode k3 pid base = mapped_inode k2 pid base) as Hmap3 by done. rewrite Hmap in Hmap3.
  set (m3 := deref pid k3 base <| em_magic := EIP_SHM_MAGIC |>).
  destruct (k_store_semnames pid k3 base m3) as [Hsn Hsv]. destruct (k_store_frame pid k3 base m3) as (Gn & Gm & Gx).
  destruct Hinv as (_ & _ & _ & _ & _ & Hf & _). pose proof (sem_names_differ (proxy_instance cfg)) as Hne.
  eexists _, (k_store pid k3 base m3), (k_next k0), base, (k_next k2), (k_next k2 + 1). split; [done|].
  split.
  { split; [done|split; [done|split; [apply cfg_or_range; [done|vm_compute; split; congruence]|]]].
    split; [done|split; [apply bytes_zeros|split; [done|by eexists]]]. }
  do 9 (split; [done|]). rewrite Gn, Gm, Gx, Hsn. unfold sem_value. rewrite Hsv.
  change (k_names k3) with (k_names k2). change (k_maps k3) with (k_maps k2). rewrite Fn, Fm. do 2 (split; [done|]).
  split; [simpl; lia|]. split.
  { eexists. pose proof Hmap3 as Hi3. unfold mapped_inode in Hi3 |- *. rewrite Gm. unfold k_store, m3. rewrite (deref_mapped _ _ _ _ Hmap3).
    destruct (k_maps k3 !! (pid, base)) as [i|]; [|done]. rewrite Hi3. simpl. by rewrite lookup_insert_eq. }
  simpl. split; [by rewrite lookup_insert_ne, lookup_delete_ne, lookup_insert_eq by done|].
  split; [apply lookup_insert_eq|]. split; [lia|].
  split; [by rewrite lookup_insert_ne, lookup_insert_eq by lia|by rewrite lookup_insert_eq].
Qed.

(** Opening announces a complete region.  When nothing interferes,
    opening a closed proxy is refused with [PLC_ERR_STATE], and nothing is
    touched, if a live process already owns the instance; otherwise it
    succeeds, the proxy is OPENING with the capabilities asked for, its region
    carries the magic word together with the layout, sizes and empty rings the
    other side checks, and both doorbells exist with no post pending. *)
Theorem eip_open_announces (pid : Z) (getenv : cstr -> option cstr) (table : cfg_table) (p : ipc_proxy)
    (cfg : plc_adapter_config) (k : kernel eip_shm) (t : Z)
    (Hinv : px_inv p) (Hclosed : px_state p = PLC_ADAPTER_CLOSED) (Hk : kernel_fresh k)
    (Htmo : 0 <= cfg_exchange_timeout_us cfg < 2 ^ 32)
    (Hin : 0 <= cfg_or getenv table (cfg_input_bytes cfg) "SOFTPLC_EIP_INPUT_BYTES" EIP_DEFAULT_INPUT_BYTES
             <= PLC_IPC_MAX_FRAME_BYTES)
    (Hout : 0 <= cfg_or getenv table (cfg_output_bytes cfg) "SOFTPLC_EIP_OUTPUT_BYTES" EIP_DEFAULT_OUTPUT_BYTES
              <= PLC_IPC_MAX_FRAME_BYTES)
    (Hnames : forall i name, k_names k !! name = Some i -> is_Some (k_inodes k !! i)) :
  let inn := cfg_or getenv table (cfg_input_bytes cfg) "SOFTPLC_EIP_INPUT_BYTES" EIP_DEFAULT_INPUT_BYTES in
  let out := cfg_or getenv table (cfg_output_bytes cfg) "SOFTPLC_EIP_OUTPUT_BYTES" EIP_DEFAULT_OUTPUT_BYTES in
  let instance := snprintf_s EIP_INSTANCE_MAX (proxy_instance cfg) in
  let '(st, p', w') := proxy_open pid getenv table p cfg (World k t []) in
  if region_owned k (eip_shm_name EIP_SHM_NAME_MAX (Some instance))
  then st = PLC_ERR_STATE /\ px_state p' = PLC_ADAPTER_CLOSED /\
       k_names (w_k w') = k_names k /\ k_inodes (w_k w') = k_inodes k
  else st = PLC_OK /\ px_inv p' /\ px_state p' = PLC_ADAPTER_OPENING /\
       cap_input_bytes (px_caps p') = inn /\ cap_output_bytes (px_caps p') = out /\
       exists base req rsp,
         px_map p' = Some base /\ px_sem_req p' = Some req /\ px_sem_rsp p' = Some rsp /\
         deref pid (w_k w') base = publish getenv table inn out eip_shm_zero <| em_magic := EIP_SHM_MAGIC |> /\
         k_semnames (w_k w') !! eip_sem_req_name EIP_SHM_NAME_MAX (Some instance) = Some req /\
         k_semnames (w_k w') !! eip_sem_rsp_name EIP_SHM_NAME_MAX (Some instance) = Some rsp /\
         sem_value (w_k w') req = 0 /\ sem_value (w_k w') rsp = 0.
Proof.
  cbv zeta. destruct (region_owned k _) eqn:Eown.
  - unfold proxy_open. rewrite bool_decide_eq_true_2 by done. cbn [negb].
    destruct (Z.gtb_spec (cfg_or getenv table (cfg_input_bytes cfg) "SOFTPLC_EIP_INPUT_BYTES" EIP_DEFAULT_INPUT_BYTES) PLC_IPC_MAX_FRAME_BYTES); [lia|].
    destruct (Z.gtb_spec (cfg_or getenv table (cfg_output_bytes cfg) "SOFTPLC_EIP_OUTPUT_BYTES" EIP_DEFAULT_OUTPUT_BYTES) PLC_IPC_MAX_FRAME_BYTES); [lia|].
    cbn [orb]. simpl px_instance. rewrite create_silent by (done || eauto). rewrite Eown. simpl. unfold probed. by destruct (k_names k !! _).
  - destruct (open_silent pid getenv table p cfg k t) as (p' & k' & ino & base & req & rsp & -> & H1 & H2 & _ & _ & H3 & H4 & _ &
      H5 & H6 & H7 & _ & _ & _ & [lock Hm] & H8 & H9 & _ & H10 & H11); [done..|eauto|done|].
    do 5 (split; [done|]). exists base, req, rsp. do 3 (split; [done|]). cbn [w_k]. by rewrite (deref_mapped _ _ _ _ Hm).
Qed.

Lemma eip_open_announces_witness :
  let cfg := Config (Some "eip0"%string) (Some "line1"%string) 0 0 PLC_FAILSAFE_HOLD 0 0 in
  exists p' w', proxy_open 1 (fun _ => None) (Table [] []) proxy_zero cfg (World kernel_empty 5000 [])
      = (PLC_OK, p', w') /\ px_state p' = PLC_ADAPTER_OPENING.
Proof.
  intros cfg.
  pose proof (eip_open_announces 1 (fun _ => None) (Table [] []) proxy_zero cfg kernel_empty 5000) as Ht.
  destruct (proxy_open 1 (fun _ => None) (Table [] []) proxy_zero cfg (World kernel_empty 5000 [])) as [[st p'] w'].
  exists p', w'. destruct Ht as (-> & _ & Hs & _); [..|split; [reflexivity|exact Hs]].
  - split; [vm_compute; split; congruence|]. split; [vm_compute; split; congruence|].
    split; [vm_compute; split; congruence|]. split; [reflexivity|]. split; [apply bytes_zeros|].
    split; [split; [vm_compute; split; congruence|split; [reflexivity|apply bytes_zeros]]|by intros []].
  - reflexivity.
  - split; [vm_compute; congruence|]. do 3 (split; [apply map_Forall_empty|]). apply map_Forall_empty.
  - vm_compute. split; congruence.
  - vm_compute. split; congruence.
  - vm_compute. split; congruence.
  - intros i name Hi. simpl in Hi. by rewrite lookup_empty in Hi.
Defined.

(** The two processes meet only under short instance names.  The core
    cuts the instance at 31 characters before it builds the names of the
    shared objects; the adapter process, which builds them with the same
    functions, does not.  Their names agree exactly when there is nothing to
    cut. *)
Theorem eip_names_agree_iff_short (instance : string)
    (Hne : instance <> ""%string) (Hlen : (String.length instance <= 100)%nat) :
  (eip_shm_name EIP_SHM_NAME_MAX (Some (snprintf_s EIP_INSTANCE_MAX instance))
     = eip_shm_name EIP_SHM_NAME_MAX (Some instance)
   <-> (String.length instance <= 31)%nat) /\
  ((String.length instance <= 31)%nat ->
   eip_sem_req_name EIP_SHM_NAME_MAX (Some (snprintf_s EIP_INSTANCE_MAX instance))
     = eip_sem_req_name EIP_SHM_NAME_MAX (Some instance) /\
   eip_sem_rsp_name EIP_SHM_NAME_MAX (Some (snprintf_s EIP_INSTANCE_MAX instance))
     = eip_sem_rsp_name EIP_SHM_NAME_MAX (Some instance)).
Proof.
  assert ((String.length instance <= 31)%nat -> snprintf_s EIP_INSTANCE_MAX instance = instance) as Hid.
  { intros. apply snprintf_id. unfold EIP_INSTANCE_MAX. lia. }
  split; [split|]; [|intros Hs; by rewrite Hid|intros Hs; by rewrite Hid].
  pose proof (length_substring instance 31) as Hl. unfold eip_shm_name. intros E.
  rewrite !build_plain in E; [|done|simpl; lia|done|..].
  - change (snprintf_s EIP_INSTANCE_MAX instance) with (String.substring 0 31 instance) in E.
    apply (inj (String.append "/softplc.")), append_inj_r in E. rewrite E in Hl. lia.
  - change (snprintf_s EIP_INSTANCE_MAX instance) with (String.substring 0 31 instance). lia.
  - simpl. lia.
  - change (snprintf_s EIP_INSTANCE_MAX instance) with (String.substring 0 31 instance).
    intros E0. rewrite E0 in Hl. destruct instance; [done|simpl in Hl; lia].
Qed.

Lemma eip_names_agree_iff_short_witness :
  eip_shm_name EIP_SHM_NAME_MAX (Some (snprintf_s EIP_INSTANCE_MAX "packaging-line-3-upper-conveyor-north"))
    <> eip_shm_name EIP_SHM_NAME_MAX (Some "packaging-line-3-upper-conveyor-north"%string).
Proof.
  destruct (eip_names_agree_iff_short "packaging-line-3-upper-conveyor-north") as [Hiff _];
    [discriminate|simpl; lia|]. intros E%Hiff. simpl in E. lia.
Defined.

(** Under CLEAR, a reply marked invalid zeroes the inputs but leaves the held
    image; one missed exchange later, still inside the failsafe window, the
    image from before is back. *)
Theorem eip_idle_then_miss_restores_old_inputs :
  let w := World eip_kernel 2000 (replicate 4 (Event 1000 None 0)) in
  let '(st1, p1, i1, w1) := proxy_unusable eip_example (Some [9; 9; 9; 9]) 4 w in
  let '(st2, p2, i2, w2) := proxy_fail p1 i1 4 PLC_ERR_TIMEOUT w1 in
  cap_failsafe_policy (px_caps eip_example) = PLC_FAILSAFE_CLEAR /\
  (st1, i1) = (PLC_ERR_AGAIN, Some [0; 0; 0; 0]) /\ (st2, i2) = (PLC_ERR_TIMEOUT, Some [9; 9; 9; 9]).
Proof. vm_compute. auto. Qed.
