(* ===== verification/ScannerConfig.v ===== *)
(** * The scanner's device table

    [src/adapters/eip_scanner/eip_scanner_config.c] and
    [eip_scanner_config.h]: one line of nine fields per remote device, packed
    in table order into the two aggregate images.

    The device array is the list of the devices entered so far, its length is
    [device_count].  A diagnostic is a value that says what the message says.

    The theorems: an accepted table is a partition of the aggregate images
    into one slice per device, within the frame limit; and a printed table
    parses back to itself. *)

From Stdlib Require Import ZArith Lia Ascii.
From stdpp Require Import base list strings tactics.
From S2P Require Import Prelude PlcTypes SpscRing Adapter Config.

Definition FIELDS_PER_DEVICE : Z := 9.
Definition EIP_SCANNER_MAX_DEVICES : Z := 16.
Definition EIP_SCANNER_ADDR_MAX : Z := 46.

(** [sizeof(line)] and [sizeof(text)]. *)
Definition DEVICE_LINE_SIZE : Z := 256.
Definition DEVICE_TEXT_SIZE : Z := 16384.

Record eip_scanner_device : Type := Device {
  d_address : cstr;
  d_config_assembly : Z;
  d_o2t_assembly : Z;
  d_t2o_assembly : Z;
  d_o2t_bytes : Z;
  d_t2o_bytes : Z;
  d_o2t_rpi_us : Z;
  d_t2o_rpi_us : Z;
  d_timeout_multiplier : Z;
  d_failsafe_policy : plc_failsafe_policy;
  d_o2t_offset : Z;  (** where the slices sit in the aggregate images *)
  d_t2o_offset : Z
}.
#[export] Instance eta_eip_scanner_device : Eta eip_scanner_device := fun r =>
  Device (d_address r) (d_config_assembly r) (d_o2t_assembly r) (d_t2o_assembly r)
    (d_o2t_bytes r) (d_t2o_bytes r) (d_o2t_rpi_us r) (d_t2o_rpi_us r)
    (d_timeout_multiplier r) (d_failsafe_policy r) (d_o2t_offset r) (d_t2o_offset r).

Record eip_scanner_config : Type := ScannerConfig {
  sc_devices : list eip_scanner_device;
  sc_total_o2t_bytes : Z;
  sc_total_t2o_bytes : Z
}.
#[export] Instance eta_eip_scanner_config : Eta eip_scanner_config := fun r =>
  ScannerConfig (sc_devices r) (sc_total_o2t_bytes r) (sc_total_t2o_bytes r).

Definition scanner_config_zero : eip_scanner_config := ScannerConfig [] 0 0.
Definition sc_device_count (cfg : eip_scanner_config) : Z := zlen (sc_devices cfg).

Inductive table_complaint : Type :=
| TLineTooLong
| TFieldCount
| TTooManyDevices
| TAddressTooLong
| TBadConfigAssembly
| TBadO2TAssembly
| TBadT2OAssembly
| TBadO2TLength
| TBadT2OLength
| TBadRpi
| TBadMultiplier
| TBadFailsafe
| TImageTooLarge.

(** [strtoul] of the whole token, at most [max]. *)
Definition parse_u32 (tok : cstr) (max : Z) : option Z :=
  let '(v, no_digits, _, rest) := strtoul tok in
  if no_digits || negb (bool_decide (rest = [])) || (v >? max) then None else Some (u32 v).

(** [strtok_r(line, " \t\r", ..)] until it is [NULL]; [cur] is the token being
    read, backwards. *)
Fixpoint tokens_from (cur : cstr) (s : cstr) : list cstr :=
  match s with
  | [] => if bool_decide (cur = []) then [] else [rev cur]
  | c :: s => if blank c then (if bool_decide (cur = []) then tokens_from [] s else rev cur :: tokens_from [] s)
              else tokens_from (c :: cur) s
  end.
Definition tokens (s : cstr) : list cstr := tokens_from [] s.

(** [*strchr(line, '#') = 0]. *)
Definition cut_hash (line : cstr) : cstr :=
  match split_at "#" line with Some (a, _) => a | None => line end.

Notation "'let?' x := e 'else' c 'in' k" := (match e with Some x => k | None => inr c end)
  (at level 10, x name, e at level 100, c at level 100, k at level 200, only parsing) : plc_scope.

Definition parse_policy (tok : cstr) : option plc_failsafe_policy :=
  if bool_decide (tok = txt "hold") then Some PLC_FAILSAFE_HOLD
  else if bool_decide (tok = txt "clear") then Some PLC_FAILSAFE_CLEAR
  else None.

(** The nine fields of a line, entered into the table. *)
Definition parse_device (tok : list cstr) (cfg : eip_scanner_config) : eip_scanner_config + table_complaint :=
  let t i := nth i tok [] in
  if zlen (t 0%nat) >=? EIP_SCANNER_ADDR_MAX then inr TAddressTooLong
  else
    let? config_assembly := parse_u32 (t 1%nat) 65535 else TBadConfigAssembly in
    let? o2t_assembly := parse_u32 (t 2%nat) 65535 else TBadO2TAssembly in
    let? t2o_assembly := parse_u32 (t 3%nat) 65535 else TBadT2OAssembly in
    let? o2t_bytes := parse_u32 (t 4%nat) PLC_IPC_MAX_FRAME_BYTES else TBadO2TLength in
    let? t2o_bytes := parse_u32 (t 5%nat) PLC_IPC_MAX_FRAME_BYTES else TBadT2OLength in
    let? rpi := parse_u32 (t 6%nat) UINT32_MAX else TBadRpi in
    if rpi =? 0 then inr TBadRpi
    else
      let? mult := parse_u32 (t 7%nat) 7 else TBadMultiplier in
      let? policy := parse_policy (t 8%nat) else TBadFailsafe in
      let d := Device (t 0%nat) (u16 config_assembly) (u16 o2t_assembly) (u16 t2o_assembly)
                 (u16 o2t_bytes) (u16 t2o_bytes) rpi rpi (u8 mult) policy
                 (sc_total_o2t_bytes cfg) (sc_total_t2o_bytes cfg) in
      if (u32 (sc_total_o2t_bytes cfg + d_o2t_bytes d) >? PLC_IPC_MAX_FRAME_BYTES) ||
         (u32 (sc_total_t2o_bytes cfg + d_t2o_bytes d) >? PLC_IPC_MAX_FRAME_BYTES)
      then inr TImageTooLarge
      else inl (ScannerConfig (sc_devices cfg ++ [d])
                  (u32 (sc_total_o2t_bytes cfg + d_o2t_bytes d))
                  (u32 (sc_total_t2o_bytes cfg + d_t2o_bytes d))).

(** The body of the [while] loop for one line. *)
Definition table_line (line : cstr) (cfg : eip_scanner_config) : eip_scanner_config + table_complaint :=
  if zlen line >=? DEVICE_LINE_SIZE then inr TLineTooLong
  else
    let tok := tokens (cut_hash line) in
    if zlen tok =? 0 then inl cfg
    else if negb (zlen tok =? FIELDS_PER_DEVICE) then inr TFieldCount
    else if sc_device_count cfg >=? EIP_SCANNER_MAX_DEVICES then inr TTooManyDevices
    else parse_device tok cfg.

Fixpoint table_lines (line_no : Z) (ls : list cstr) (cfg : eip_scanner_config)
    : plc_status * eip_scanner_config * option (Z * table_complaint) :=
  match ls with
  | [] => ((if sc_device_count cfg =? 0 then PLC_ERR_INVAL else PLC_OK), cfg, None)
  | l :: ls =>
      let line_no := line_no + 1 in
      match table_line l cfg with
      | inr e => (PLC_ERR_INVAL, cfg, Some (line_no, e))
      | inl cfg => table_lines line_no ls cfg
      end
  end.

(** [cfg] and [text] are [None] for [NULL]. *)
Definition eip_scanner_config_parse (cfg : option eip_scanner_config) (text : option cstr)
    : plc_status * option eip_scanner_config * option (Z * table_complaint) :=
  match cfg, text with
  | Some _, Some text =>
      let '(st, cfg, e) := table_lines 0 (lines text) scanner_config_zero in (st, Some cfg, e)
  | _, _ => (PLC_ERR_INVAL, cfg, None)
  end.

(** A read error leaves the end of the file unseen, like a file too big. *)
Definition eip_scanner_config_load (fs : cstr -> file) (cfg : option eip_scanner_config) (path : option cstr)
    : plc_status * option eip_scanner_config :=
  match cfg, path with
  | Some _, Some path =>
      match fs path with
      | FileMissing | FileUnopenable => (PLC_ERR_NOTFOUND, cfg)
      | FileUnreadable => (PLC_ERR_INVAL, cfg)
      | FileData contents =>
          let text := take (Z.to_nat (DEVICE_TEXT_SIZE - 1)) contents in
          let too_big := zlen contents >=? DEVICE_TEXT_SIZE - 1 in
          if too_big then (PLC_ERR_INVAL, cfg)
          else let '(st, cfg, _) := eip_scanner_config_parse cfg (Some (until_nul text)) in (st, cfg)
      end
  | _, _ => (PLC_ERR_INVAL, cfg)
  end.

(** ** The layout of a table *)

Definition sum_of {A} (f : A -> Z) (l : list A) : Z := foldr (fun a s => f a + s) 0 l.

(** Slice [off, off + size) of every device follows those of the devices before it. *)
Definition packed (size off : eip_scanner_device -> Z) (ds : list eip_scanner_device) : Prop :=
  forall pre d post, ds = pre ++ d :: post -> off d = sum_of size pre.

Definition device_ok (d : eip_scanner_device) : Prop :=
  zlen (d_address d) < EIP_SCANNER_ADDR_MAX /\
  0 <= d_config_assembly d <= 65535 /\ 0 <= d_o2t_assembly d <= 65535 /\ 0 <= d_t2o_assembly d <= 65535 /\
  0 <= d_o2t_bytes d <= PLC_IPC_MAX_FRAME_BYTES /\ 0 <= d_t2o_bytes d <= PLC_IPC_MAX_FRAME_BYTES /\
  0 < d_o2t_rpi_us d <= UINT32_MAX /\ d_t2o_rpi_us d = d_o2t_rpi_us d /\ 0 <= d_timeout_multiplier d <= 7.

Definition table_inv (cfg : eip_scanner_config) : Prop :=
  sc_device_count cfg <= EIP_SCANNER_MAX_DEVICES /\ Forall device_ok (sc_devices cfg) /\
  sc_total_o2t_bytes cfg = sum_of d_o2t_bytes (sc_devices cfg) /\
  sc_total_t2o_bytes cfg = sum_of d_t2o_bytes (sc_devices cfg) /\
  sc_total_o2t_bytes cfg <= PLC_IPC_MAX_FRAME_BYTES /\ sc_total_t2o_bytes cfg <= PLC_IPC_MAX_FRAME_BYTES /\
  packed d_o2t_bytes d_o2t_offset (sc_devices cfg) /\ packed d_t2o_bytes d_t2o_offset (sc_devices cfg).

(** ** Lemmas *)

Lemma sum_of_app {A} (f : A -> Z) l k : sum_of f (l ++ k) = sum_of f l + sum_of f k.
Proof. induction l as [|a l IH]; simpl; [done|]. rewrite IH. lia. Qed.

Lemma sum_of_nonneg {A} (f : A -> Z) l : Forall (fun a => 0 <= f a) l -> 0 <= sum_of f l.
Proof. induction 1; simpl; lia. Qed.

Lemma packed_snoc size off ds d : packed size off ds -> off d = sum_of size ds -> packed size off (ds ++ [d]).
Proof.
  intros Hp Hd pre x post E. destruct post as [|y post] using rev_ind.
  - apply app_inj_tail in E as [-> ->]. done.
  - clear IHpost. rewrite app_comm_cons, app_assoc in E. apply app_inj_tail in E as [E _]. by apply (Hp _ _ post).
Qed.

Lemma digits_nonneg s : forall acc, 0 <= acc -> 0 <= (digits acc s).1.2.
Proof.
  induction s as [|c s IH]; intros acc Ha; simpl; [done|]. destruct (isdigit c) eqn:Ed; [|done].
  specialize (IH (acc * 10 + (code c - 48))). destruct (digits _ s) as [[b v] r]. apply IH.
  unfold isdigit in Ed. apply andb_true_iff in Ed as [E1%Z.leb_le _]. lia.
Qed.

Lemma parse_u32_range tok max v : parse_u32 tok max = Some v -> 0 <= max <= UINT32_MAX -> 0 <= v <= max.
Proof.
  unfold parse_u32. destruct (strtoul tok) as [[[n a] b] rest] eqn:E. intros Hx Hm.
  destruct (a || _) eqn:G1; [done|]. simpl in Hx. destruct (Z.gtb_spec n max); [done|]. injection Hx as <-.
  assert (0 <= n) as Hn; [|rewrite u32_small; unfold UINT32_MAX in *; lia].
  revert E. unfold strtoul. destruct (match skip_spaces tok with [] => _ | _ => _ end) as [neg s].
  pose proof (digits_nonneg s 0 ltac:(lia)) as Hd. destruct (digits 0 s) as [[some m] r]. simpl in Hd.
  repeat split_if; intros [= <- <- <- <-]; try (unfold ULONG_MAX, UINT64_MAX; lia); apply u64_range.
Qed.

Lemma parse_device_inv tok cfg cfg' :
  table_inv cfg -> sc_device_count cfg < EIP_SCANNER_MAX_DEVICES -> parse_device tok cfg = inl cfg' -> table_inv cfg'.
Proof.
  intros (Hc & HF & Ho & Ht & Hol & Htl & Hpo & Hpt) Hlt. unfold parse_device.
  destruct (Z.geb_spec (zlen (nth 0 tok [])) EIP_SCANNER_ADDR_MAX); [done|].
  destruct (parse_u32 (nth 1 tok []) _) as [v1|] eqn:E1; [|done].
  destruct (parse_u32 (nth 2 tok []) _) as [v2|] eqn:E2; [|done].
  destruct (parse_u32 (nth 3 tok []) _) as [v3|] eqn:E3; [|done].
  destruct (parse_u32 (nth 4 tok []) _) as [v4|] eqn:E4; [|done].
  destruct (parse_u32 (nth 5 tok []) _) as [v5|] eqn:E5; [|done].
  destruct (parse_u32 (nth 6 tok []) _) as [v6|] eqn:E6; [|done]. destruct (Z.eqb_spec v6 0); [done|].
  destruct (parse_u32 (nth 7 tok []) _) as [v7|] eqn:E7; [|done].
  destruct (parse_policy (nth 8 tok [])) as [pol|]; [|done]. cbn [d_o2t_bytes d_t2o_bytes].
  apply parse_u32_range in E1, E2, E3, E4, E5, E6, E7; unfold UINT32_MAX, PLC_IPC_MAX_FRAME_BYTES in *; try lia.
  assert (0 <= sc_total_o2t_bytes cfg /\ 0 <= sc_total_t2o_bytes cfg) as [H0o H0t].
  { rewrite Ho, Ht. split; apply sum_of_nonneg; (eapply Forall_impl; [|exact HF]); intros d (?&?&?&?&?&?&_); lia. }
  rewrite !(u16_small v4), !(u16_small v5) by lia. rewrite !u32_small by lia.
  destruct (Z.gtb_spec (sc_total_o2t_bytes cfg + v4) 496); [done|].
  destruct (Z.gtb_spec (sc_total_t2o_bytes cfg + v5) 496); [done|]. intros [= <-].
  set (d := Device _ _ _ _ _ _ _ _ _ _ _ _).
  assert (device_ok d) as Hd.
  { subst d. unfold device_ok; simpl. rewrite !u16_small, u8_small by (unfold is_byte; lia).
    unfold PLC_IPC_MAX_FRAME_BYTES, UINT32_MAX. lia. }
  unfold table_inv, sc_device_count, EIP_SCANNER_MAX_DEVICES, PLC_IPC_MAX_FRAME_BYTES in *. simpl.
  rewrite !sum_of_app, zlen_app. split; [unfold zlen in *; simpl; lia|].
  split; [by apply Forall_app_2; [|constructor]|]. simpl. do 4 (split; [lia|]).
  split; apply packed_snoc; done || (simpl; lia).
Qed.

Lemma table_lines_inv ls : forall n cfg, table_inv cfg ->
  let '(st, cfg', e) := table_lines n ls cfg in
  table_inv cfg' /\ (st = PLC_OK /\ e = None /\ 0 < sc_device_count cfg' \/ st = PLC_ERR_INVAL).
Proof.
  induction ls as [|l ls IH]; intros n cfg Hinv; simpl.
  - split; [done|]. destruct (Z.eqb_spec (sc_device_count cfg) 0); [by right|left].
    pose proof (zlen_nonneg (sc_devices cfg)). unfold sc_device_count in *. split; [done|split; [done|lia]].
  - destruct (table_line l cfg) as [cfg1|e] eqn:E; [|split; [done|by right]]. apply IH. unfold table_line in E.
    destruct (_ >=? _); [done|]. destruct (_ =? 0); [by injection E as <-|]. destruct (negb _); [done|].
    destruct (Z.geb_spec (sc_device_count cfg) EIP_SCANNER_MAX_DEVICES); [done|]. by eapply parse_device_inv.
Qed.

Lemma packed_disjoint size off ds i j di dj :
  packed size off ds -> Forall (fun d => 0 <= size d) ds -> ds !! i = Some di -> ds !! j = Some dj -> (i < j)%nat ->
  0 <= off di /\ off di + size di <= off dj /\ off dj + size dj <= sum_of size ds.
Proof.
  intros Hp HF Hi Hj Hij. pose proof (Hp _ _ _ (eq_sym (take_drop_middle _ _ _ Hi))) as Ei.
  pose proof (Hp _ _ _ (eq_sym (take_drop_middle _ _ _ Hj))) as Ej. rewrite Ei, Ej.
  assert (forall l, Forall (fun d => 0 <= size d) l -> 0 <= sum_of size l) as Hnn by (intros; by apply sum_of_nonneg).
  assert (take i ds ++ di :: drop (S i) (take j ds) = take j ds) as Etj.
  { rewrite <- (take_drop_middle (take j ds) i di) at 2 by (by rewrite lookup_take_lt).
    by rewrite take_take, Nat.min_l by lia. }
  split; [by apply Hnn, Forall_take|]. split.
  - rewrite <- Etj, sum_of_app. simpl.
    assert (0 <= sum_of size (drop (S i) (take j ds))) by (by apply Hnn, Forall_drop, Forall_take). lia.
  - rewrite <- (take_drop_middle _ _ _ Hj) at 2. rewrite sum_of_app. simpl.
    assert (0 <= sum_of size (drop (S j) ds)) by (by apply Hnn, Forall_drop). lia.
Qed.

(** ** Printing *)

Definition policy_word (p : plc_failsafe_policy) : cstr :=
  match p with PLC_FAILSAFE_HOLD => txt "hold" | PLC_FAILSAFE_CLEAR => txt "clear" end.

Definition device_fields (d : eip_scanner_device) : list cstr :=
  [d_address d; decimal 20 (d_config_assembly d); decimal 20 (d_o2t_assembly d); decimal 20 (d_t2o_assembly d);
   decimal 20 (d_o2t_bytes d); decimal 20 (d_t2o_bytes d); decimal 20 (d_o2t_rpi_us d);
   decimal 20 (d_timeout_multiplier d); policy_word (d_failsafe_policy d)].

Definition join (ws : list cstr) : cstr := foldr (fun w s => w ++ " "%char :: s) [] ws.
Definition print_device (d : eip_scanner_device) : cstr := join (device_fields d).
Definition print_devices (ds : list eip_scanner_device) : cstr :=
  foldr (fun d s => print_device d ++ ch_nl :: s) [] ds.

(** A character that can stand in a field. *)
Definition field_char (c : ascii) : Prop := blank c = false /\ ceq c "#" = false /\ ceq c ch_nl = false.
Definition word (w : cstr) : Prop := w <> [] /\ Forall field_char w.

Lemma digit_field c : isdigit c = true -> field_char c.
Proof.
  intros H. pose proof (ascii_check (fun c => negb (isdigit c) ||
    (negb (blank c) && negb (ceq c "#") && negb (ceq c ch_nl))) eq_refl c) as Hc.
  simpl in Hc. rewrite H in Hc. simpl in Hc. rewrite !andb_true_iff, !negb_true_iff in Hc. unfold field_char. tauto.
Qed.

Lemma word_decimal n : 0 <= n < 2 ^ 32 -> word (decimal 20 n).
Proof.
  intros Hn. destruct (decimal_ok 20 n) as (HF & Hne & _); [lia|lia|]. split; [done|].
  eapply Forall_impl; [|exact HF]. apply digit_field.
Qed.

Lemma tokens_word w rest : forall cur,
  Forall field_char w -> cur <> [] \/ w <> [] ->
  tokens_from cur (w ++ " "%char :: rest) = (rev cur ++ w) :: tokens rest.
Proof.
  induction w as [|c w IH]; intros cur HF Hne; simpl.
  - rewrite app_nil_r. by rewrite bool_decide_eq_false_2 by (by destruct Hne).
  - inversion HF as [|? ? [Hb _] HF']; subst. rewrite Hb, IH by (done || by left). simpl. by rewrite <- app_assoc.
Qed.

Lemma tokens_join ws : Forall word ws -> tokens (join ws) = ws.
Proof.
  induction 1 as [|w ws [Hne Hw] _ IH]; [done|]. simpl. unfold tokens. rewrite tokens_word by (done || by right).
  simpl. by rewrite IH.
Qed.

Lemma join_chars ws : Forall word ws -> Forall (fun c => ceq c "#" = false /\ ceq c ch_nl = false) (join ws).
Proof.
  induction 1 as [|w ws [_ Hw] _ IH]; [constructor|]. simpl. apply Forall_app_2.
  - eapply Forall_impl; [|exact Hw]. by intros c (_ & ? & ?).
  - by constructor.
Qed.

Lemma cut_hash_id s : Forall (fun c => ceq c "#" = false /\ ceq c ch_nl = false) s -> cut_hash s = s.
Proof.
  intros HF. unfold cut_hash. replace (split_at "#" s) with (@None (cstr * cstr)); [done|]. symmetry.
  induction HF as [|c s [Hc _] _ IH]; [done|]. simpl. by rewrite Hc, IH.
Qed.

Lemma parse_u32_decimal n max : 0 <= n <= max -> max <= UINT32_MAX -> parse_u32 (decimal 20 n) max = Some n.
Proof.
  intros Hn Hm. unfold parse_u32. rewrite strtoul_decimal by (unfold UINT64_MAX, UINT32_MAX in *; lia).
  destruct (Z.gtb_spec n max); [lia|]. simpl. by rewrite u32_small by (unfold UINT32_MAX in *; lia).
Qed.

Lemma decimal_length fuel : forall n, (length (decimal fuel n) <= fuel)%nat.
Proof.
  induction fuel as [|fuel IH]; intros n; simpl; [done|]. destruct (n <? 10); simpl; [lia|].
  rewrite length_app. simpl. specialize (IH (n / 10)). lia.
Qed.

Arguments decimal : simpl never.

Lemma field_words d : device_ok d -> word (d_address d) -> Forall word (device_fields d).
Proof.
  intros (_ & H1 & H2 & H3 & H4 & H5 & H6 & _ & H7) Ha. unfold UINT32_MAX, PLC_IPC_MAX_FRAME_BYTES in *.
  assert (word (policy_word (d_failsafe_policy d))) as Hp
    by (destruct (d_failsafe_policy d); (split; [done|]); repeat constructor).
  constructor; [done|]. do 7 (constructor; [apply word_decimal; lia|]). by constructor.
Qed.

Lemma print_device_length d : device_ok d -> zlen (print_device d) < DEVICE_LINE_SIZE.
Proof.
  intros (Ha & _). unfold print_device, zlen, DEVICE_LINE_SIZE, EIP_SCANNER_ADDR_MAX in *.
  cbn [join device_fields foldr]. repeat (rewrite length_app; cbn [length]).
  pose proof (decimal_length 20 (d_config_assembly d)). pose proof (decimal_length 20 (d_o2t_assembly d)).
  pose proof (decimal_length 20 (d_t2o_assembly d)). pose proof (decimal_length 20 (d_o2t_bytes d)).
  pose proof (decimal_length 20 (d_t2o_bytes d)). pose proof (decimal_length 20 (d_o2t_rpi_us d)).
  pose proof (decimal_length 20 (d_timeout_multiplier d)).
  assert (length (policy_word (d_failsafe_policy d)) <= 5)%nat by (destruct (d_failsafe_policy d); simpl; lia). lia.
Qed.

(** One printed line adds its device. *)
Lemma table_line_print d cfg :
  device_ok d -> word (d_address d) -> sc_device_count cfg < EIP_SCANNER_MAX_DEVICES ->
  0 <= sc_total_o2t_bytes cfg -> 0 <= sc_total_t2o_bytes cfg ->
  sc_total_o2t_bytes cfg + d_o2t_bytes d <= PLC_IPC_MAX_FRAME_BYTES ->
  sc_total_t2o_bytes cfg + d_t2o_bytes d <= PLC_IPC_MAX_FRAME_BYTES ->
  d_o2t_offset d = sc_total_o2t_bytes cfg -> d_t2o_offset d = sc_total_t2o_bytes cfg ->
  table_line (print_device d) cfg
    = inl (ScannerConfig (sc_devices cfg ++ [d]) (sc_total_o2t_bytes cfg + d_o2t_bytes d)
             (sc_total_t2o_bytes cfg + d_t2o_bytes d)).
Proof.
  intros Hd Hw Hc Ho0 Ht0 Ho Ht Eo Et. pose proof (field_words d Hd Hw) as HF. unfold table_line.
  pose proof (print_device_length d Hd). destruct (Z.geb_spec (zlen (print_device d)) DEVICE_LINE_SIZE); [lia|].
  unfold print_device. rewrite cut_hash_id by (by apply join_chars). rewrite tokens_join by done.
  change (zlen (device_fields d)) with 9. simpl Z.eqb. cbn [negb].
  destruct (Z.geb_spec (sc_device_count cfg) EIP_SCANNER_MAX_DEVICES); [lia|].
  destruct Hd as (Ha & D1 & D2 & D3 & D4 & D5 & D6 & E7 & D7).
  unfold parse_device. unfold device_fields. cbn [nth].
  destruct (Z.geb_spec (zlen (d_address d)) EIP_SCANNER_ADDR_MAX); [lia|].
  unfold PLC_IPC_MAX_FRAME_BYTES, UINT32_MAX in *.
  rewrite !parse_u32_decimal by (unfold UINT32_MAX; lia).
  destruct (Z.eqb_spec (d_o2t_rpi_us d) 0); [lia|].
  assert (parse_policy (policy_word (d_failsafe_policy d)) = Some (d_failsafe_policy d)) as ->
    by (by destruct (d_failsafe_policy d)).
  cbn [d_o2t_bytes d_t2o_bytes]. rewrite !u16_small, u8_small by (unfold is_byte; lia). rewrite !u32_small by lia.
  destruct (Z.gtb_spec (sc_total_o2t_bytes cfg + d_o2t_bytes d) 496); [lia|].
  destruct (Z.gtb_spec (sc_total_t2o_bytes cfg + d_t2o_bytes d) 496); [lia|]. simpl.
  rewrite <- Eo, <- Et. replace (Device _ _ _ _ _ _ _ _ _ _ _ _) with d; [done|].
  destruct d; simpl in *; by subst.
Qed.

Lemma lines_devices ds :
  Forall (fun d => device_ok d /\ word (d_address d)) ds -> lines (print_devices ds) = map print_device ds.
Proof.
  induction 1 as [|d ds [Hd Hw] _ IH]; [done|]. simpl. unfold lines. rewrite lines_from_app.
  - simpl. by rewrite IH.
  - eapply Forall_impl; [|apply join_chars, field_words; done]. by intros c [_ ?].
Qed.

Lemma table_lines_print ds : forall n cfg,
  table_inv (ScannerConfig (sc_devices cfg ++ ds) (sc_total_o2t_bytes cfg + sum_of d_o2t_bytes ds)
               (sc_total_t2o_bytes cfg + sum_of d_t2o_bytes ds)) ->
  table_inv cfg -> Forall (fun d => word (d_address d)) ds -> sc_devices cfg ++ ds <> [] ->
  table_lines n (map print_device ds) cfg
    = (PLC_OK, ScannerConfig (sc_devices cfg ++ ds) (sc_total_o2t_bytes cfg + sum_of d_o2t_bytes ds)
                 (sc_total_t2o_bytes cfg + sum_of d_t2o_bytes ds), None).
Proof.
  induction ds as [|d ds IH]; intros n cfg Hinv Hcfg HF Hne.
  - simpl. rewrite app_nil_r, !Z.add_0_r in *. destruct cfg as [ds o t]; simpl in *.
    destruct (Z.eqb_spec (sc_device_count (ScannerConfig ds o t)) 0) as [E|]; [|done].
    unfold sc_device_count, zlen in E. simpl in E. destruct ds; [done|simpl in E; lia].
  - inversion HF as [|? ? Hw HF']; subst. pose proof Hinv as (Hc & Hall & Ho & Ht & Hol & Htl & Hpo & Hpt). simpl in *.
    assert (Forall device_ok ds /\ device_ok d) as [Hds Hd].
    { apply Forall_app in Hall as [_ Hall]. inversion Hall; subst. done. }
    assert (0 <= sum_of d_o2t_bytes ds /\ 0 <= sum_of d_t2o_bytes ds) as [Hs1 Hs2].
    { split; apply sum_of_nonneg; (eapply Forall_impl; [|exact Hds]); intros x (?&?&?&?&?&?&_); lia. }
    destruct Hcfg as (Hcc & Hca & Hco & Hct & Hcol & Hctl & _).
    assert (0 <= sc_total_o2t_bytes cfg /\ 0 <= sc_total_t2o_bytes cfg) as [H0o H0t].
    { rewrite Hco, Hct. split; apply sum_of_nonneg; (eapply Forall_impl; [|exact Hca]); intros x (?&?&?&?&?&?&_); lia. }
    assert (sc_device_count cfg < EIP_SCANNER_MAX_DEVICES) as Hcnt.
    { unfold sc_device_count in *. simpl in Hc. rewrite zlen_app in Hc. unfold zlen in *. simpl in Hc. lia. }
    rewrite table_line_print; [|done|done|done|lia|lia|lia|lia|by rewrite (Hpo (sc_devices cfg) d ds eq_refl)
      |by rewrite (Hpt (sc_devices cfg) d ds eq_refl)].
    set (cfg1 := ScannerConfig _ _ _). specialize (IH (n + 1) cfg1). simpl in IH.
    rewrite <- !app_assoc, <- !Z.add_assoc in IH. simpl in IH. apply IH; [done| |done|done].
    assert (forall size off, packed size off (sc_devices cfg ++ d :: ds) -> packed size off (sc_devices cfg ++ [d])) as Hpp.
    { intros size off Hp pre x post E. apply (Hp pre x (post ++ ds)).
      change (d :: ds) with ([d] ++ ds). rewrite app_assoc, E. by rewrite <- app_assoc. }
    unfold table_inv; simpl. rewrite !sum_of_app. simpl. unfold sc_device_count in *. simpl. rewrite zlen_app.
    unfold zlen in *. simpl in *. split; [lia|]. split; [by apply Forall_app_2; [|constructor]|]. do 4 (split; [lia|]).
    split; by apply Hpp.
Qed.

(** ** Theorems *)

(** An accepted table partitions the images.  Whatever the text, the
    table the parser leaves has at most 16 devices, all with fields in range;
    device slices do not overlap, follow each other in table order from offset
    zero without a gap, and end within the totals, which are within the frame
    limit.  The result is [PLC_OK] with at least one device and no complaint,
    or [PLC_ERR_INVAL]. *)
Theorem scanner_table_layout (cfg0 : eip_scanner_config) (text : cstr) :
  let '(st, cfg, e) := eip_scanner_config_parse (Some cfg0) (Some text) in
  exists c, cfg = Some c /\
    (st = PLC_OK /\ e = None /\ 0 < sc_device_count c \/ st = PLC_ERR_INVAL) /\
    sc_device_count c <= EIP_SCANNER_MAX_DEVICES /\ Forall device_ok (sc_devices c) /\
    packed d_o2t_bytes d_o2t_offset (sc_devices c) /\ packed d_t2o_bytes d_t2o_offset (sc_devices c) /\
    sc_total_o2t_bytes c <= PLC_IPC_MAX_FRAME_BYTES /\ sc_total_t2o_bytes c <= PLC_IPC_MAX_FRAME_BYTES /\
    forall i j di dj, sc_devices c !! i = Some di -> sc_devices c !! j = Some dj -> (i < j)%nat ->
      d_o2t_offset di + d_o2t_bytes di <= d_o2t_offset dj /\ d_o2t_offset dj + d_o2t_bytes dj <= sc_total_o2t_bytes c /\
      d_t2o_offset di + d_t2o_bytes di <= d_t2o_offset dj /\ d_t2o_offset dj + d_t2o_bytes dj <= sc_total_t2o_bytes c.
Proof.
  unfold eip_scanner_config_parse. pose proof (table_lines_inv (lines text) 0 scanner_config_zero) as Ht.
  destruct (table_lines 0 (lines text) scanner_config_zero) as [[st c] e].
  destruct Ht as [(Hc & HF & Ho & Ht & Hol & Htl & Hpo & Hpt) Hst].
  { unfold table_inv; simpl. unfold sc_device_count, PLC_IPC_MAX_FRAME_BYTES, EIP_SCANNER_MAX_DEVICES, zlen. simpl.
    split; [lia|split; [constructor|]]. do 4 (split; [lia|]). split; intros [|? ?] ? ? [=]. }
  exists c. split; [done|split; [done|]]. do 6 (split; [done|]). intros i j di dj Hi Hj Hij.
  destruct (packed_disjoint d_o2t_bytes d_o2t_offset (sc_devices c) i j di dj) as (_ & ? & ?);
    [done|eapply Forall_impl; [|exact HF]; intros x (?&?&?&?&?&_); lia|done|done|done|].
  destruct (packed_disjoint d_t2o_bytes d_t2o_offset (sc_devices c) i j di dj) as (_ & ? & ?);
    [done|eapply Forall_impl; [|exact HF]; intros x (?&?&?&?&?&?&_); lia|done|done|done|].
  rewrite Ho, Ht. done.
Qed.

(** A printed table parses back to itself.  Writing a well-formed table
    one device per line and parsing the text gives the same devices, offsets
    and totals. *)
Theorem scanner_table_print_parse (c cfg0 : eip_scanner_config)
    (Hc : table_inv c) (Hne : sc_devices c <> []) (Hw : Forall (fun d => word (d_address d)) (sc_devices c)) :
  eip_scanner_config_parse (Some cfg0) (Some (print_devices (sc_devices c))) = (PLC_OK, Some c, None).
Proof.
  unfold eip_scanner_config_parse. rewrite lines_devices.
  2:{ destruct Hc as (_ & HF & _). rewrite List.Forall_forall in *. auto. }
  pose proof Hc as (_ & _ & Ho & Ht & _).
  assert (ScannerConfig ([] ++ sc_devices c) (0 + sum_of d_o2t_bytes (sc_devices c))
            (0 + sum_of d_t2o_bytes (sc_devices c)) = c) as Ec.
  { rewrite <- Ho, <- Ht. by destruct c. }
  rewrite (table_lines_print (sc_devices c) 0 scanner_config_zero); simpl; simpl in Ec; rewrite ?Ec; try done.
  unfold table_inv; simpl. unfold sc_device_count, PLC_IPC_MAX_FRAME_BYTES, EIP_SCANNER_MAX_DEVICES, zlen. simpl.
  split; [lia|split; [constructor|]]. do 4 (split; [lia|]). split; intros [|? ?] ? ? [=].
Qed.

Definition table_example : eip_scanner_config :=
  ScannerConfig [Device (txt "192.0.2.10") 151 150 100 32 16 10000 10000 3 PLC_FAILSAFE_HOLD 0 0;
                 Device (txt "192.0.2.11") 1 2 3 4 8 2000 2000 0 PLC_FAILSAFE_CLEAR 32 16] 36 24.

Lemma scanner_table_print_parse_witness :
  eip_scanner_config_parse (Some scanner_config_zero) (Some (print_devices (sc_devices table_example)))
    = (PLC_OK, Some table_example, None).
Proof.
  apply (scanner_table_print_parse table_example scanner_config_zero); [|discriminate|].
  - split; [vm_compute; congruence|]. split.
    + repeat constructor; vm_compute; congruence.
    + do 2 (split; [reflexivity|]). do 2 (split; [vm_compute; congruence|]).
      split; intros [|? [|? [|? ?]]] d post E; simpl in E; simplify_eq; reflexivity.
  - repeat constructor; vm_compute; congruence.
Defined.
