(* ===== verification/ScannerProxy.v ===== *)
(** * The EtherNet/IP scanner's proxy in the core

    [src/adapters/eip_scanner/eip_scanner_proxy.c], [eip_scanner_names.c] and
    [eip_scanner_shm_layout.h].  The twin of [EipProxy]: the same round trip
    and the same missed-exchange rule ([IpcProxy]); the image sizes come from
    the device table, the reply carries one health byte per device before the
    data, and a delivered reply leaves the adapter DEGRADED while no device
    is connected.

    Besides the contract and the outcomes of an exchange, a theorem says that
    the names of the shared objects of the two roles never collide. *)

From Stdlib Require Import ZArith Lia.
From stdpp Require Import base gmap list strings tactics.
From S2P Require Import Prelude PlcTypes SpscRing Adapter Config Shm IpcProxy EipProxy ScannerConfig.

(** ** Layout *)

Definition EIP_SCANNER_SHM_MAGIC : Z := 0x45495331.
Definition EIP_SCANNER_SHM_ABI_VERSION : Z := 3.
Definition EIP_SCANNER_SHM_NAME_MAX : Z := 128.
Definition EIP_SCANNER_INSTANCE_MAX : Z := 32.
Definition EIP_SCANNER_DEFAULT_EXCHANGE_TIMEOUT_US : Z := 5000.
Definition EIP_SCANNER_DEFAULT_FAILSAFE_TIMEOUT_US : Z := 100000.
Definition EIP_SCANNER_HEALTH_BYTES (device_count : Z) : Z := u32 device_count.

Record eip_scanner_status : Type := ScannerStatus {
  ss_adapter_state : Z;
  ss_devices_online : Z;
  ss_cycles : Z;
  ss_forward_opens : Z;
  ss_connection_losses : Z;
  ss_out_of_order : Z;
  ss_last_error : Z
}.
#[export] Instance eta_eip_scanner_status : Eta eip_scanner_status := fun r =>
  ScannerStatus (ss_adapter_state r) (ss_devices_online r) (ss_cycles r)
    (ss_forward_opens r) (ss_connection_losses r) (ss_out_of_order r) (ss_last_error r).

Record eip_scanner_shm : Type := ScannerShm {
  sm_magic : Z;
  sm_abi_version : Z;
  sm_layout_bytes : Z;
  sm_device_count : Z;
  sm_health_bytes : Z;
  sm_o2t_total_bytes : Z;  (** PLC -> field *)
  sm_t2o_total_bytes : Z;  (** field -> PLC *)
  sm_input_bytes : Z;  (** health and data *)
  sm_status : eip_scanner_status;
  sm_req : plc_spsc_ring;  (** core -> scanner: the aggregate O->T image *)
  sm_rsp : plc_spsc_ring  (** scanner -> core: health bytes then T->O *)
}.
#[export] Instance eta_eip_scanner_shm : Eta eip_scanner_shm := fun r =>
  ScannerShm (sm_magic r) (sm_abi_version r) (sm_layout_bytes r) (sm_device_count r)
    (sm_health_bytes r) (sm_o2t_total_bytes r) (sm_t2o_total_bytes r) (sm_input_bytes r)
    (sm_status r) (sm_req r) (sm_rsp r).

(** 64 bytes of header, 48 of status, two rings aligned on 64 bytes. *)
Definition sizeof_eip_scanner_shm : Z := 4480.

Definition eip_scanner_shm_zero : eip_scanner_shm :=
  ScannerShm 0 0 0 0 0 0 0 0 (ScannerStatus 0 0 0 0 0 0 0) ring_zero ring_zero.

#[export] Instance scanner_region : Region eip_scanner_shm := {|
  m_zero := eip_scanner_shm_zero;
  m_bytes := sizeof_eip_scanner_shm;
  m_ok m := ring_any (sm_req m) /\ ring_any (sm_rsp m);
  m_zero_ok := conj ring_zero_any ring_zero_any;
  m_bytes_pos := eq_refl
|}.

#[export] Instance scanner_channel : Channel eip_scanner_shm := {|
  ch_req := sm_req;
  ch_rsp := sm_rsp;
  ch_set_req m r := m <| sm_req := r |>;
  ch_set_rsp m r := m <| sm_rsp := r |>;
  ch_any m Hm := Hm;
  ch_req_ok m r Hm Hr := conj Hr (proj2 Hm);
  ch_rsp_ok m r Hm Hr := conj (proj1 Hm) Hr;
  ch_rsp_get m r := eq_refl;
  ch_req_get m r := eq_refl;
  ch_rsp_keeps m r := eq_refl;
  ch_req_keeps m r := eq_refl;
  ch_zero := eq_refl
|}.

(** ** Names *)

Definition build (buf_len : Z) (instance : option string) (suffix : string) : string :=
  let instance := match instance with
                  | Some i => if bool_decide (i = "") then "default" else i
                  | None => "default"
                  end in
  snprintf_s buf_len ("/softplc." +:+ instance +:+ ".eipscan" +:+ suffix).
Definition eip_scanner_shm_name (buf_len : Z) (instance : option string) : string := build buf_len instance "".
Definition eip_scanner_sem_req_name (buf_len : Z) (instance : option string) : string := build buf_len instance ".req".
Definition eip_scanner_sem_rsp_name (buf_len : Z) (instance : option string) : string := build buf_len instance ".rsp".

(** ** The adapter *)

Section ScannerProxy.
Context (pid : Z) (getenv : cstr -> option cstr) (table : cfg_table) (fs : cstr -> file).
Implicit Types (w : world eip_scanner_shm) (p : ipc_proxy).

Definition publish (devices : eip_scanner_config) (health in_bytes out_bytes : Z) (m : eip_scanner_shm)
    : eip_scanner_shm :=
  let m := m <| sm_abi_version := EIP_SCANNER_SHM_ABI_VERSION |>
             <| sm_layout_bytes := u32 sizeof_eip_scanner_shm |>
             <| sm_device_count := sc_device_count devices |>
             <| sm_health_bytes := health |>
             <| sm_o2t_total_bytes := out_bytes |>
             <| sm_t2o_total_bytes := sc_total_t2o_bytes devices |>
             <| sm_input_bytes := in_bytes |> in
  let m := m <| sm_req := default (sm_req m) (plc_spsc_init (Some (sm_req m))) |>
             <| sm_rsp := default (sm_rsp m) (plc_spsc_init (Some (sm_rsp m))) |> in
  m <| sm_status := sm_status m <| ss_adapter_state := plc_adapter_state_code PLC_ADAPTER_CLOSED |> |>.

Definition proxy_start p (cfg : plc_adapter_config) (in_bytes out_bytes : Z) w : ipc_proxy * world eip_scanner_shm :=
  let c := caps_zero
    <| cap_abi_version := PLC_ADAPTER_ABI_VERSION |>
    <| cap_name := snprintf_s PLC_ADAPTER_NAME_MAX (default "eipscan0" (cfg_name cfg)) |>
    <| cap_protocol := snprintf_s PLC_ADAPTER_PROTOCOL_MAX "ethernet-ip-scanner" |>
    <| cap_input_bytes := in_bytes |>
    <| cap_output_bytes := out_bytes |>
    <| cap_failsafe_policy := cfg_failsafe_policy cfg |>
    <| cap_exchange_timeout_us := cfg_or getenv table (cfg_exchange_timeout_us cfg)
                                    "SOFTPLC_SCANNER_EXCHANGE_TIMEOUT_US" EIP_SCANNER_DEFAULT_EXCHANGE_TIMEOUT_US |>
    <| cap_failsafe_timeout_us := cfg_or getenv table (cfg_failsafe_timeout_us cfg)
                                    "SOFTPLC_SCANNER_FAILSAFE_TIMEOUT_US" EIP_SCANNER_DEFAULT_FAILSAFE_TIMEOUT_US |>
    <| cap_flags := PLC_ADAPTER_CAP_OUT_OF_PROCESS |>
    <| cap_point_override_capacity := 0 |> in
  let p := p <| px_caps := c |> <| px_stats := stats_zero |>
             <| px_last_good := zeros PLC_IPC_MAX_FRAME_BYTES |> <| px_next_seq := 1 |> in
  let '(now, w) := plc_now_us w in
  (p <| px_opened_us := now |> <| px_stale := Staleness 0 false |>
     <| px_state := PLC_ADAPTER_OPENING |>, w).

Definition proxy_open p (cfg : plc_adapter_config) w : plc_status * ipc_proxy * world eip_scanner_shm :=
  if negb (bool_decide (px_state p = PLC_ADAPTER_CLOSED)) then (PLC_ERR_STATE, p, w)
  else
    let p := p <| px_instance := snprintf_s EIP_SCANNER_INSTANCE_MAX (proxy_instance cfg) |> in
    let path := plc_cfg_str getenv table (Some (txt "SOFTPLC_SCANNER_DEVICES"))
                  (Some (txt "/etc/softplc/scanner-devices.conf")) in
    let '(st, devices) := eip_scanner_config_load fs (Some scanner_config_zero) path in
    let devices := default scanner_config_zero devices in
    if negb (is_ok st) then (st, p, w)
    else
      let health := EIP_SCANNER_HEALTH_BYTES (sc_device_count devices) in
      let in_bytes := u32 (health + sc_total_t2o_bytes devices) in
      let out_bytes := sc_total_o2t_bytes devices in
      if in_bytes >? PLC_IPC_MAX_FRAME_BYTES then (PLC_ERR_INVAL, p, w)
      else
        let shm_name := eip_scanner_shm_name EIP_SCANNER_SHM_NAME_MAX (Some (px_instance p)) in
        let p := p <| px_sem_req_name := eip_scanner_sem_req_name EIP_SCANNER_SHM_NAME_MAX (Some (px_instance p)) |>
                   <| px_sem_rsp_name := eip_scanner_sem_rsp_name EIP_SCANNER_SHM_NAME_MAX (Some (px_instance p)) |> in
        let '(st, shm, w) := plc_shm_create pid (Some (px_shm p)) (Some shm_name) sizeof_eip_scanner_shm w in
        let p := p <| px_shm := default (px_shm p) shm |> in
        if negb (is_ok st) then (st, p, w)
        else
          let p := p <| px_map := shm_base (px_shm p) |> in
          let base := default 0 (px_map p) in
          let w := mem_set pid w base (publish devices health in_bytes out_bytes) in
          let '(st, sem, w) := plc_sem_create (Some (px_sem_req_name p)) w in
          let p := p <| px_sem_req := sem |> in
          if negb (is_ok st) then let '(p, w) := proxy_teardown pid p w in (st, p, w)
          else
            let '(st, sem, w) := plc_sem_create (Some (px_sem_rsp_name p)) w in
            let p := p <| px_sem_rsp := sem |> in
            if negb (is_ok st) then let '(p, w) := proxy_teardown pid p w in (st, p, w)
            else
              let w := mem_set pid w base (fun m => m <| sm_magic := EIP_SCANNER_SHM_MAGIC |>) in
              let '(p, w) := proxy_start p cfg in_bytes out_bytes w in
              (PLC_OK, p, w).

Definition proxy_exchange (fuel : nat) p (out : option (list Z)) (out_len : Z)
    (inb : option (list Z)) (in_len : Z) w
    : option (plc_status * ipc_proxy * option (list Z) * world eip_scanner_shm) :=
  match px_map p with
  | Some base =>
      if bool_decide (px_state p = PLC_ADAPTER_CLOSED) then Some (PLC_ERR_STATE, p, inb, w)
      else if (out_len >? cap_output_bytes (px_caps p)) || (in_len >? cap_input_bytes (px_caps p))
      then Some (PLC_ERR_INVAL, p, inb, w)
      else
        match proxy_round_trip pid fuel p base out out_len w with
        | None => None
        | Some (_, Some reason, p, w) => Some (proxy_fail p inb in_len reason w)
        | Some (t0, None, p, w) =>
            let '(p, inb) := proxy_deliver p inb in_len in
            let '(p, w) := proxy_account p t0 w in
            let '(online, w) := mem_op pid w base (fun m => (ss_devices_online (sm_status m), m)) in
            let p :=
              if online =? 0 then
                (if bool_decide (px_state p = PLC_ADAPTER_DEGRADED) then p
                 else p <| px_state := PLC_ADAPTER_DEGRADED |>)
              else if bool_decide (px_state p = PLC_ADAPTER_ONLINE) then p
              else p <| px_state := PLC_ADAPTER_ONLINE |> in
            Some (PLC_OK, p, inb, w)
        end
  | None => Some (PLC_ERR_STATE, p, inb, w)
  end.

Definition kScannerVtbl (fuel : nat) : plc_adapter_vtbl (world eip_scanner_shm) ipc_proxy :=
  Vtbl (Some proxy_open) (Some (proxy_close pid)) (Some (proxy_exchange fuel))
       (Some proxy_caps) (Some proxy_stats) (Some proxy_state).

Definition plc_eip_scanner_devices_online (self : option ipc_proxy) w : Z * world eip_scanner_shm :=
  match self with
  | None => (0, w)
  | Some p => match px_map p with
              | None => (0, w)
              | Some base => mem_op pid w base (fun m => (ss_devices_online (sm_status m), m))
              end
  end.

Definition scanner_create (fuel : nat) (calloc_a calloc_p : bool)
    : option (plc_protocol_adapter (world eip_scanner_shm) ipc_proxy) :=
  if negb calloc_a || negb calloc_p then None
  else Some (Adapter (Some (kScannerVtbl fuel))
               (proxy_zero <| px_state := PLC_ADAPTER_CLOSED |>
                           <| px_shm := px_shm proxy_zero <| shm_fd := -1 |> |>)).

Definition scanner_destroy (a : option (plc_protocol_adapter (world eip_scanner_shm) ipc_proxy)) w
    : world eip_scanner_shm :=
  match a with
  | None => w
  | Some a => (proxy_close pid (ad_impl a) w).2
  end.
End ScannerProxy.

(** ** Lemmas *)

Section Lemmas.
Context (pid : Z).
Implicit Types (w : world eip_scanner_shm) (p : ipc_proxy).

(** What an exchange that gets past its guards does. *)
Definition exchange_outcome (p : ipc_proxy) (n : Z) (st : plc_status) (p' : ipc_proxy) (i' : list Z) (w' : world eip_scanner_shm) : Prop :=
  st = PLC_OK /\ fr_seq (px_scratch p') = px_next_seq p /\ i' = reply_image (px_scratch p') n /\
    bslice 0 n (px_last_good p') = i' /\
    (px_state p' = PLC_ADAPTER_ONLINE \/ px_state p' = PLC_ADAPTER_DEGRADED) \/
  (st = PLC_ERR_TIMEOUT \/ st = PLC_ERR_IO \/ st = PLC_ERR_PROTO) /\ missed p n p' i' w'.

Lemma online_calm base w :
  calm w (mem_op pid w base (fun m => (ss_devices_online (sm_status m), m))).2.
Proof. by apply mem_op_calm. Qed.

(** A change of state that does not close keeps the invariant. *)
Lemma px_inv_state p s : px_inv p -> px_state p <> PLC_ADAPTER_CLOSED -> px_inv (p <| px_state := s |>).
Proof. intros (?&?&?&?&?&?&Hm) Hs. do 6 (split; [done|]). intros _. by apply Hm. Qed.

Lemma scanner_exchange_spec fuel p out out_len i w st p' inb' w' :
  px_inv p -> px_state p <> PLC_ADAPTER_CLOSED -> world_ok w ->
  0 <= out_len <= cap_output_bytes (px_caps p) -> zlen i <= cap_input_bytes (px_caps p) ->
  (forall l, out = Some l -> out_len <= zlen l /\ bytes l) ->
  proxy_exchange pid fuel p out out_len (Some i) (zlen i) w = Some (st, p', inb', w') ->
  px_inv p' /\ px_caps p' = px_caps p /\ world_ok w' /\
  horizon w' <= horizon w + cap_exchange_timeout_us (px_caps p) * 1000 /\
  on_time (cap_exchange_timeout_us (px_caps p)) 3 w w' /\
  exists i', inb' = Some i' /\ exchange_outcome p (zlen i) st p' i' w'.
Proof.
  intros Hinv Hst Hw Hol Hil Hd Hx. pose proof Hinv as (Hi & Ho & Hb & Hg & Hgb & Hf & Hm).
  unfold proxy_exchange in Hx. destruct (Hm Hst) as [base Hbase]. rewrite Hbase in Hx.
  rewrite bool_decide_eq_false_2 in Hx by done.
  destruct (Z.gtb_spec out_len (cap_output_bytes (px_caps p))); [lia|].
  destruct (Z.gtb_spec (zlen i) (cap_input_bytes (px_caps p))); [lia|]. cbn [orb] in Hx.
  destruct (proxy_round_trip pid fuel p base out out_len w) as [[[[t0 miss] p1] w1]|] eqn:Ert; [|done].
  apply round_trip_spec in Ert as (Hp1 & Hw1 & Hh1 & Hot & Hmiss);
    [|done|done|done|unfold PLC_IPC_MAX_FRAME_BYTES in *; lia|done].
  pose proof (px_same_inv _ _ Hp1 Hinv) as Hinv1.
  pose proof Hp1 as (Hcap & Hs1 & _ & _ & _ & Hstl & Hop & Hlg & _).
  destruct miss as [reason|].
  - injection Hx as Hx.
    apply proxy_fail_spec in Hx as (-> & Hinv' & Hcap' & (Hc1 & Hc2 & _) & Ew & i' & -> & Hmi);
      [|done|by rewrite Hcap|by rewrite Hs1].
    split; [done|split; [congruence|split; [auto|split; [lia|]]]]. split; [subst w'; by apply (on_time_pause _ 2)|].
    exists i'. split; [done|]. right. split; [done|]. by eapply missed_same.
  - destruct Hmiss as [Hsq Hh0]. destruct Hot as [Hsf _].
    destruct (proxy_deliver_spec p1 i Hinv1) as (p2 & Hdel & Hinv2 & Hcap2 & Hs2 & Hsc2 & Hmap2 & _ & Hlg2);
      [by rewrite Hcap|]. rewrite Hdel in Hx.
    pose proof (proxy_account_spec p2 t0 w1) as Hacc. destruct (proxy_account p2 t0 w1) as [p3 w3].
    destruct Hacc as ((Hc1 & Hc2 & Hc3) & Hinv3 & Hcap3 & Hs3 & Hmap3 & Hlg3 & Hsc3 & _). specialize (Hinv3 Hinv2).
    pose proof (online_calm base w3) as (Hn1 & Hn2 & Hn3).
    destruct (mem_op pid w3 base _) as [online w4]; cbn [snd] in *.
    assert (exists s, (if online =? 0 then if bool_decide (px_state p3 = PLC_ADAPTER_DEGRADED) then p3
        else p3 <| px_state := PLC_ADAPTER_DEGRADED |> else if bool_decide (px_state p3 = PLC_ADAPTER_ONLINE) then p3
        else p3 <| px_state := PLC_ADAPTER_ONLINE |>) = p3 <| px_state := s |> /\
        (s = PLC_ADAPTER_ONLINE \/ s = PLC_ADAPTER_DEGRADED)) as (s & Es & Hs).
    { destruct (online =? 0); [exists PLC_ADAPTER_DEGRADED|exists PLC_ADAPTER_ONLINE]; (split; [|by auto]);
        (case_bool_decide as E; [rewrite <- E; by destruct p3|done]). }
    rewrite Es in Hx. injection Hx as <- <- <- <-.
    split; [apply px_inv_state; [done|congruence]|]. split; [simpl; congruence|]. split; [auto|split; [lia|]].
    split; [apply on_time_free; [congruence|etrans; [done|by etrans]]|].
    eexists. split; [done|]. left. simpl. rewrite Hsc3, Hsc2, Hlg3. done.
Qed.

Lemma scanner_outcome_image p n st p' i' w' :
  px_inv p -> px_inv p' -> 0 <= n <= cap_input_bytes (px_caps p) -> exchange_outcome p n st p' i' w' ->
  zlen i' = n /\ bytes i' /\ (px_state p <> PLC_ADAPTER_CLOSED -> px_state p' <> PLC_ADAPTER_CLOSED) /\
  (st = PLC_OK /\ (px_state p' = PLC_ADAPTER_ONLINE \/ px_state p' = PLC_ADAPTER_DEGRADED) /\
     bslice 0 n (px_last_good p') = i' \/
   st <> PLC_OK /\ px_last_good p' = px_last_good p /\
   (i' = bslice 0 n (px_last_good p) \/ cap_failsafe_policy (px_caps p) = PLC_FAILSAFE_CLEAR /\ i' = zeros n)).
Proof.
  intros (Hi & Ho & Hb & Hg & Hgb & Hf & Hm) (_ & _ & _ & _ & _ & Hf' & _) Hn Hout.
  assert (zlen (bslice 0 n (px_last_good p)) = n /\ bytes (bslice 0 n (px_last_good p))) as [Hh1 Hh2]
    by (split; [apply zlen_bslice; lia|auto with plc]).
  assert (zlen (zeros n) = n /\ bytes (zeros n)) as [Hz1 Hz2] by (split; [apply zlen_zeros; lia|auto with plc]).
  destruct Hout as [(-> & _ & -> & Hlg & Hs)|(Hst & -> & Hs & Hlg & _)].
  - split; [apply zlen_reply_image; [done|lia]|]. split; [by apply bytes_reply_image|].
    split; [destruct Hs as [->| ->]; done|auto].
  - unfold failsafe_image. rewrite Hs. destruct (cap_failsafe_timeout_us (px_caps p) <=? _);
      destruct (cap_failsafe_policy (px_caps p)); (split; [done|split; [done|split; [by try case_bool_decide|right]]]);
      (split; [by intros ->; destruct Hst as [|[|]]|auto]).
Qed.
End Lemmas.

(** The scanner's proxy fulfils the adapter contract. *)
#[export] Instance scanner_laws pid getenv table fs fuel : AdapterLaws (kScannerVtbl pid getenv table fs fuel).
Proof.
  refine {| ad_inv := px_inv; ad_caps := px_caps; ad_state := px_state; ad_held := px_last_good |}.
  - intros. by exists proxy_caps.
  - intros. by exists proxy_state.
  - exists (proxy_exchange pid fuel). split; [done|]. intros p out inb w st p' inb' w' Hinv Hw _ Hx Hlen Hb Hd.
    destruct (decide (px_state p = PLC_ADAPTER_CLOSED)) as [Hc|Hc].
    { assert (Some (st, p', inb', w') = Some (PLC_ERR_STATE, p, Some inb, w)) as [= -> -> -> ->].
      { rewrite <- Hx. unfold proxy_exchange. destruct (px_map p); [|done]. by rewrite bool_decide_eq_true_2. }
      split; [done|split; [done|split; [done|]]]. exists inb. by rewrite bool_decide_eq_true_2. }
    rewrite <- Hlen in Hx. pose proof Hinv as (Hi & Ho & _).
    apply scanner_exchange_spec in Hx as (Hinv' & Hcap & Hw' & _ & _ & i' & -> & Hout); [|done|done|done|lia|lia|done].
    destruct (scanner_outcome_image p (zlen inb) st p' i' w') as (Hz & Hbi & Hs & Hcase); [done|done|split; [apply zlen_nonneg|lia]|done|].
    split; [done|split; [done|split; [done|]]]. exists i'. do 3 (split; [done|]).
    rewrite bool_decide_eq_false_2 by done. split; [auto|]. exact Hcase.
Defined.

(** ** Theorems *)

Definition scanner_example : ipc_proxy :=
  proxy_zero <| px_caps := Caps 1 "eipscan0" "ethernet-ip-scanner" 4 4 PLC_FAILSAFE_CLEAR 5000 100000 1 0 |>
             <| px_state := PLC_ADAPTER_OPENING |> <| px_map := Some 6 |>
             <| px_sem_req := Some 7 |> <| px_sem_rsp := Some 8 |> <| px_next_seq := 41 |>.
Definition scanner_kernel : kernel eip_scanner_shm :=
  Kernel {["/softplc.default.eipscan"%string := 4]} {[4 := Inode 4480 eip_scanner_shm_zero (Some (1, 5))]}
         {[(1, 5) := 4]} {[(1, 6) := 4]} ∅ {[7 := 0; 8 := 0]} 9.

(** The scanner process answers with one post, and no device is connected. *)
Definition scanner_answer (k : kernel eip_scanner_shm) : kernel eip_scanner_shm :=
  let m := deref 1 k 6 in
  let '(_, r) := plc_spsc_push (Some (sm_rsp m)) 41 (Some [0; 7; 7; 7]) 4 in
  sem_set (k_store 1 k 6 (m <| sm_rsp := default (sm_rsp m) r |>)) 8 1.
Definition scanner_world : world eip_scanner_shm :=
  World scanner_kernel 2000 (replicate 7 (Event 1000 None 0) ++ [Event 1000 (Some scanner_answer) 0]).

Lemma scanner_example_inv : px_inv scanner_example.
Proof.
  split; [vm_compute; split; discriminate|]. split; [vm_compute; split; discriminate|].
  split; [vm_compute; split; congruence|]. split; [reflexivity|]. split; [apply bytes_zeros|].
  split; [|intros _; by eexists]. split; [vm_compute; split; discriminate|split; [reflexivity|apply bytes_zeros]].
Qed.

Lemma scanner_world_ok : world_ok scanner_world.
Proof.
  split; [vm_compute; congruence|]. split.
  { unfold kernel_ok; simpl. apply map_Forall_singleton. exact (conj ring_zero_any ring_zero_any). }
  apply Forall_app_2; [apply Forall_replicate; exact I|]. constructor; [|constructor]. intros k Hk.
  unfold scanner_answer. pose proof (deref_ok 1 k 6 Hk) as [Hq Hr].
  destruct (push_any (sm_rsp (deref 1 k 6)) 41 (Some [0; 7; 7; 7]) 4 Hr) as (st & r' & -> & Hr'); [lia| |].
  - intros l [= <-]. split; [vm_compute; congruence|repeat constructor; vm_compute; congruence].
  - change (kernel_ok (k_store 1 k 6 (deref 1 k 6 <| sm_rsp := r' |>))). by apply k_store_ok.
Qed.

(** The scanner's exchange.  As for the adapter role: only the reply to
    this very request is delivered, every input byte is defined whatever the
    scanner process does, and a missed exchange holds the last good image, the
    health bytes included, until the failsafe window has passed.  Waiting adds
    at most the budget. *)
Theorem scanner_exchange_outcomes (pid : Z) (fuel : nat) (p : ipc_proxy) (out : option (list Z)) (out_len : Z)
    (i : list Z) (w : world eip_scanner_shm) (st : plc_status) (p' : ipc_proxy) (inb' : option (list Z))
    (w' : world eip_scanner_shm)
    (Hinv : px_inv p) (Hopen : px_state p <> PLC_ADAPTER_CLOSED) (Hw : world_ok w)
    (Hol : 0 <= out_len <= cap_output_bytes (px_caps p)) (Hil : zlen i <= cap_input_bytes (px_caps p))
    (Hout : forall l, out = Some l -> out_len <= zlen l /\ bytes l)
    (Hx : proxy_exchange pid fuel p out out_len (Some i) (zlen i) w = Some (st, p', inb', w')) :
  px_inv p' /\ px_caps p' = px_caps p /\ world_ok w' /\
  w_ns w' + delays (w_script w') <= w_ns w + delays (w_script w) + cap_exchange_timeout_us (px_caps p) * 1000 /\
  exists i', inb' = Some i' /\ zlen i' = zlen i /\ bytes i' /\ exchange_outcome p (zlen i) st p' i' w'.
Proof.
  apply scanner_exchange_spec in Hx as (Hinv' & Hcap & Hw' & Hh & _ & i' & -> & Ho); try done.
  destruct (scanner_outcome_image p (zlen i) st p' i' w') as (Hz & Hb & _); [done|done|split; [apply zlen_nonneg|done]|done|].
  eauto 10.
Qed.

(** Delivered, but with no device connected the adapter is DEGRADED. *)
Lemma scanner_exchange_outcomes_witness :
  exists p' w', proxy_exchange 1 10 scanner_example (Some [1; 2; 3; 4]) 4 (Some [0; 0; 0; 0]) 4 scanner_world
      = Some (PLC_OK, p', Some [0; 7; 7; 7], w') /\ px_state p' = PLC_ADAPTER_DEGRADED /\
    exchange_outcome scanner_example 4 PLC_OK p' [0; 7; 7; 7] w'.
Proof.
  assert (match proxy_exchange 1 10 scanner_example (Some [1; 2; 3; 4]) 4 (Some [0; 0; 0; 0]) 4 scanner_world with
          | Some (st, p', i, _) => (st, i, px_state p') = (PLC_OK, Some [0; 7; 7; 7], PLC_ADAPTER_DEGRADED)
          | None => False
          end) as Hc by (vm_compute; reflexivity).
  destruct (proxy_exchange 1 10 scanner_example (Some [1; 2; 3; 4]) 4 (Some [0; 0; 0; 0]) 4 scanner_world)
    as [[[[st p'] inb'] w']|] eqn:Hx; [|destruct Hc]. injection Hc as -> -> Hs. exists p', w'.
  split; [reflexivity|]. split; [exact Hs|].
  destruct (scanner_exchange_outcomes 1 10 scanner_example (Some [1; 2; 3; 4]) 4 [0; 0; 0; 0] scanner_world PLC_OK p'
              (Some [0; 7; 7; 7]) w') as (_ & _ & _ & _ & i' & [= <-] & _ & _ & Ho);
    [exact scanner_example_inv|discriminate|exact scanner_world_ok|vm_compute; split; congruence|vm_compute; congruence
    |intros l [= <-]; split; [vm_compute; congruence|repeat constructor; vm_compute; congruence]|exact Hx|].
  exact Ho.
Defined.

(** The scanner's exchange returns, whatever the scanner process does, if
    it acts finitely often. *)
Theorem scanner_exchange_returns (pid : Z) (p : ipc_proxy) (out : option (list Z)) (out_len : Z)
    (inb : option (list Z)) (in_len : Z) (w : world eip_scanner_shm)
    (Hinv : px_inv p) (Hw : world_ok w) (Hol : 0 <= out_len)
    (Hout : forall l, out = Some l -> out_len <= zlen l /\ bytes l) :
  exists r, returns (fun fuel => proxy_exchange pid fuel p out out_len inb in_len w) r.
Proof.
  pose proof Hinv as (Hi & Ho & Hb & _ & _ & Hf & _). unfold proxy_exchange.
  destruct (px_map p) as [base|]; [|eexists _, 0%nat; by intros].
  destruct (bool_decide _); [eexists _, 0%nat; by intros|].
  destruct (Z.gtb_spec out_len (cap_output_bytes (px_caps p))); [eexists _, 0%nat; by intros|].
  destruct (in_len >? _); [eexists _, 0%nat; by intros|]. cbn [orb].
  destruct (round_trip_returns pid p base out out_len w) as ([[[t0 miss] p1] w1] & n & Hn);
    [done|done|done|unfold PLC_IPC_MAX_FRAME_BYTES in *; lia|done|].
  destruct miss as [reason|].
  - eexists _, n. intros m Hm. cbv beta. by rewrite Hn.
  - destruct (proxy_deliver p1 inb in_len) as [p2 inb2] eqn:Ed. destruct (proxy_account p2 t0 w1) as [p3 w3] eqn:Ea.
    destruct (mem_op pid w3 base (fun m => (ss_devices_online (sm_status m), m))) as [online w4] eqn:Eo.
    eexists _, n. intros m Hm. cbv beta. by rewrite Hn, Ed, Ea, Eo.
Qed.

Lemma scanner_exchange_returns_witness :
  exists r, returns (fun fuel => proxy_exchange 1 fuel scanner_example None 0 (Some [0; 0; 0; 0]) 4 scanner_world) r.
Proof.
  apply (scanner_exchange_returns 1 scanner_example None 0 (Some [0; 0; 0; 0]) 4 scanner_world);
    [exact scanner_example_inv|exact scanner_world_ok|lia|discriminate].
Defined.

(** ** The names of the two roles *)

Inductive shared_object : Type := EipRegion | EipReq | EipRsp | ScannerRegion | ScannerReq | ScannerRsp.

Definition object_name (o : shared_object) (instance : string) : string :=
  match o with
  | EipRegion => eip_shm_name EIP_SHM_NAME_MAX (Some instance)
  | EipReq => eip_sem_req_name EIP_SHM_NAME_MAX (Some instance)
  | EipRsp => eip_sem_rsp_name EIP_SHM_NAME_MAX (Some instance)
  | ScannerRegion => eip_scanner_shm_name EIP_SCANNER_SHM_NAME_MAX (Some instance)
  | ScannerReq => eip_scanner_sem_req_name EIP_SCANNER_SHM_NAME_MAX (Some instance)
  | ScannerRsp => eip_scanner_sem_rsp_name EIP_SCANNER_SHM_NAME_MAX (Some instance)
  end.

Definition object_suffix (o : shared_object) : string :=
  match o with
  | EipRegion => ".eip"
  | EipReq => ".eip.req"
  | EipRsp => ".eip.rsp"
  | ScannerRegion => ".eipscan"
  | ScannerReq => ".eipscan.req"
  | ScannerRsp => ".eipscan.rsp"
  end.

Lemma object_name_plain o i :
  i <> ""%string -> (String.length i <= 100)%nat -> object_name o i = "/softplc." +:+ i +:+ object_suffix o.
Proof.
  intros Hne Hl. destruct o; simpl;
    unfold eip_shm_name, eip_sem_req_name, eip_sem_rsp_name, eip_scanner_shm_name, eip_scanner_sem_req_name,
      eip_scanner_sem_rsp_name, EipProxy.build, build; rewrite bool_decide_eq_false_2 by done;
    apply snprintf_id; rewrite !length_append; cbn [String.length];
    unfold EIP_SHM_NAME_MAX, EIP_SCANNER_SHM_NAME_MAX; lia.
Qed.

Lemma list_ascii_append a b :
  String.list_ascii_of_string (a +:+ b) = String.list_ascii_of_string a ++ String.list_ascii_of_string b.
Proof.
  induction a as [|c a IH]; [done|].
  change (c :: String.list_ascii_of_string (a +:+ b)
          = c :: String.list_ascii_of_string a ++ String.list_ascii_of_string b). by rewrite IH.
Qed.

(** Names never collide.  Two names of shared objects are equal only for
    the same kind of object of the same role and the same instance, so several
    soft PLCs, each with both roles, can share one machine. *)
Theorem shared_names_distinct (o1 o2 : shared_object) (i1 i2 : string)
    (H1 : i1 <> ""%string) (H2 : i2 <> ""%string)
    (L1 : (String.length i1 <= 100)%nat) (L2 : (String.length i2 <= 100)%nat)
    (E : object_name o1 i1 = object_name o2 i2) :
  o1 = o2 /\ i1 = i2.
Proof.
  rewrite !object_name_plain in E by done. apply (inj (String.append "/softplc.")) in E.
  assert (o1 = o2) as ->.
  { apply (f_equal (fun s => rev (String.list_ascii_of_string s))) in E.
    rewrite !list_ascii_append, !rev_app_distr in E. destruct o1, o2; done || discriminate E. }
  split; [done|]. by apply append_inj_r in E.
Qed.

Lemma shared_names_distinct_witness :
  object_name EipReq "line1.eip" <> object_name ScannerReq "line1".
Proof.
  intros E. destruct (shared_names_distinct EipReq ScannerReq "line1.eip" "line1") as [[=] _];
    [discriminate|discriminate|simpl; lia|simpl; lia|exact E].
Defined.
