(* ===== verification/EipService.v ===== *)
(** * The EtherNet/IP adapter process

    [src/adapters/eip/eip_adapter_main.c] with the backend interface of
    [eip_backend.h] and the stack-free backend of [eip_backend_loopback.c]:
    attaching to the core's region, and the loop that answers each request
    with a snapshot of the consumed assembly.

    [g_stop] is read once per round; the readings are a list, which is also
    what bounds the loops: [None] means the process is still running when the
    list has run out.

    The theorems: a request is answered with its own sequence number and with
    the flag the core's failsafe depends on; a core that has gone is noticed,
    and not before its timeout; attaching accepts exactly a region this build
    understands. *)

From Stdlib Require Import ZArith Lia.
From stdpp Require Import base gmap list strings tactics.
From S2P Require Import Prelude PlcTypes SpscRing Adapter Config Shm IpcProxy EipProxy.

Definition ATTACH_RETRY_US : Z := 200000.
Definition SERVICE_WAIT_US : Z := 500000.
Definition CORE_TIMEOUT_US : Z := 2000000.
Definition EIP_DEFAULT_CONFIG_ASSEMBLY : Z := 151.

(** ** The backend interface *)

Record eip_backend_config : Type := BackendConfig {
  bc_interface : option string;  (** NIC the stack binds to *)
  bc_produced_assembly : Z;  (** T->O instance: PLC outputs *)
  bc_consumed_assembly : Z;  (** O->T instance: PLC inputs *)
  bc_config_assembly : Z;
  bc_output_bytes : Z;
  bc_input_bytes : Z
}.
#[export] Instance eta_eip_backend_config : Eta eip_backend_config := fun r =>
  BackendConfig (bc_interface r) (bc_produced_assembly r) (bc_consumed_assembly r)
    (bc_config_assembly r) (bc_output_bytes r) (bc_input_bytes r).

(** [B] is the state the backend keeps. *)
Record eip_backend (B : Type) : Type := Backend {
  be_name : string;
  be_init : option eip_backend_config -> B -> plc_status * B;
  be_shutdown : B -> B;
  be_publish_outputs : list Z -> Z -> B -> B;
  be_fetch_inputs : list Z -> Z -> B -> Z * list Z * B;  (** the caller's buffer and its size *)
  be_io_connections : B -> Z * B;
  be_peer_in_run : option (B -> Z * B);
  be_assembly_writes : option (B -> Z * B)
}.
Arguments Backend {B}.
Arguments be_name {B}.
Arguments be_init {B}.
Arguments be_shutdown {B}.
Arguments be_publish_outputs {B}.
Arguments be_fetch_inputs {B}.
Arguments be_io_connections {B}.
Arguments be_peer_in_run {B}.
Arguments be_assembly_writes {B}.

(** ** The service loop *)

Record service (B : Type) : Type := Service {
  sv_frame : plc_ipc_frame;
  sv_reply : list Z;  (** [PLC_IPC_MAX_FRAME_BYTES] bytes *)
  sv_last_request_us : Z;
  sv_backend : B
}.
Arguments Service {B}.
Arguments sv_frame {B}.
Arguments sv_reply {B}.
Arguments sv_last_request_us {B}.
Arguments sv_backend {B}.
#[export] Instance eta_service {B} : Eta (service B) := fun r =>
  Service (sv_frame r) (sv_reply r) (sv_last_request_us r) (sv_backend r).

Inductive round_end : Type :=
| Continue
| CoreGone  (** no request for [core_timeout_us] *)
| DoorbellFailed.

Section Service.
Context {B : Type} (backend : eip_backend B) (pid base sem_req sem_rsp core_timeout_us : Z).
Implicit Types (w : world eip_shm) (s : service B).

Definition sleep_us (us : Z) w : world eip_shm :=
  let '(_, w) := pause w in w <| w_ns := w_ns w + us * 1000 |>.

Definition req_pop (out : plc_ipc_frame) w : plc_status * plc_ipc_frame * world eip_shm :=
  let '(res, w) := mem_op pid w base (fun m =>
    let '(st, r, o) := plc_spsc_pop (Some (em_req m)) (Some out) PLC_IPC_MAX_FRAME_BYTES in
    ((st, default out o), m <| em_req := default (em_req m) r |>)) in
  (res, w).
Definition rsp_push (seq flags : Z) (data : list Z) (len : Z) w : plc_status * world eip_shm :=
  mem_op pid w base (fun m =>
    let '(st, r) := plc_spsc_push_flagged (Some (em_rsp m)) seq flags (Some data) len in
    (st, m <| em_rsp := default (em_rsp m) r |>)).
Definition status_op (f : eip_adapter_status -> eip_adapter_status) w : world eip_shm :=
  (mem_op pid w base (fun m => (tt, m <| em_status := f (em_status m) |>))).2.
Definition set_last_error (st : plc_status) w : world eip_shm :=
  status_op (fun t => t <| es_last_error := u64 (plc_status_code st) |>) w.

(** Whether the payload may be used, which decides the reply's flag. *)
Definition reply_flags (b : B) : Z * B :=
  let '(n, b) := be_io_connections backend b in
  if n =? 0 then (Z.lor 0 PLC_IPC_FRAME_DATA_INVALID, b)
  else match be_peer_in_run backend with
       | Some f => let '(r, b) := f b in ((if r =? 0 then Z.lor 0 PLC_IPC_FRAME_DATA_INVALID else 0), b)
       | None => (0, b)
       end.

(** The part of a round that follows a well-formed request. *)
Definition answer_request s w : service B * world eip_shm :=
  let frame := sv_frame s in
  let b := be_publish_outputs backend (fr_data frame) (fr_len frame) (sv_backend s) in
  let '(n, reply, b) := be_fetch_inputs backend (sv_reply s) PLC_IPC_MAX_FRAME_BYTES b in
  let '(flags, b) := reply_flags b in
  let '(st, w) := rsp_push (fr_seq frame) flags reply (u32 n) w in
  let w := if negb (is_ok st) then
             let w := rsp_drain pid base w in set_last_error st w
           else sem_post w sem_rsp in
  let w := status_op (fun t => t <| es_cycles := u64 (es_cycles t + 1) |>) w in
  let '(conns, b) := be_io_connections backend b in
  let w := status_op (fun t => t <| es_io_connections := conns |>) w in
  let '(b, w) := match be_assembly_writes backend with
                 | Some f => let '(n, b) := f b in
                             (b, status_op (fun t => t <| es_assembly_writes := n |>) w)
                 | None => (b, w)
                 end in
  (s <| sv_reply := reply |> <| sv_backend := b |>, w).

(** The body of [while (!g_stop)]. *)
Definition service_round s w : round_end * service B * world eip_shm :=
  let '(st, w) := plc_sem_wait_timeout (Some sem_req) SERVICE_WAIT_US w in
  match st with
  | PLC_ERR_TIMEOUT =>
      let '(now, w) := plc_now_us w in
      let idle := u64 (now - sv_last_request_us s) in
      if idle >=? core_timeout_us then (CoreGone, s, w) else (Continue, s, w)
  | PLC_OK =>
      let '(st, frame, w) := req_pop (sv_frame s) w in
      let s := s <| sv_frame := frame |> in
      if bool_decide (st = PLC_ERR_AGAIN) then (Continue, s, w)
      else
        let '(now, w) := plc_now_us w in
        let s := s <| sv_last_request_us := now |> in
        if negb (is_ok st) then (Continue, s, set_last_error st w)
        else let '(s, w) := answer_request s w in (Continue, s, w)
  | _ => (DoorbellFailed, s, w)
  end.

(** [None]: still running when the readings of [g_stop] have run out. *)
Fixpoint service_loop (stops : list bool) s w : option (round_end * service B * world eip_shm) :=
  match stops with
  | [] => None
  | true :: _ => Some (Continue, s, w)
  | false :: stops =>
      let '(r, s, w) := service_round s w in
      match r with Continue => service_loop stops s w | _ => Some (r, s, w) end
  end.
End Service.

(** ** Start-up *)

Section Main.
Context {B : Type} (backend : eip_backend B) (pid : Z) (getenv : cstr -> option cstr) (table : cfg_table).
Implicit Types (w : world eip_shm).

(** Reading a field of the mapped structure. *)
Definition peek {T} (base : Z) (f : eip_shm -> T) w : T * world eip_shm :=
  mem_op pid w base (fun m => (f m, m)).

Inductive attached : Type :=
| Understood
| Foreign  (** another build's region, or none of ours *)
| NotYet.  (** still being initialised *)

(** The checks on a region that could be mapped, load by load. *)
Definition check_region (base : Z) w : attached * world eip_shm :=
  let '(magic, w) := peek base em_magic w in
  let '(ok, w) :=
    if magic =? EIP_SHM_MAGIC then
      let '(abi, w) := peek base em_abi_version w in
      if abi =? EIP_SHM_ABI_VERSION then
        let '(layout, w) := peek base em_layout_bytes w in (layout =? sizeof_eip_shm, w)
      else (false, w)
    else (false, w) in
  if ok then (Understood, w)
  else
    let '(magic, w) := peek base em_magic w in
    let '(bad, w) := if negb (magic =? 0) then
                       let '(magic, w) := peek base em_magic w in (negb (magic =? EIP_SHM_MAGIC), w)
                     else (false, w) in
    if bad then (Foreign, w)
    else
      let '(magic, w) := peek base em_magic w in
      if magic =? EIP_SHM_MAGIC then (Foreign, w) else (NotYet, w).

Fixpoint attach (stops : list bool) (name : string) (shm : plc_shm) w
    : option (plc_status * plc_shm * option Z * world eip_shm) :=
  match stops with
  | [] => None
  | true :: _ => Some (PLC_ERR_STATE, shm, None, w)
  | false :: stops =>
      let '(st, shm', w) := plc_shm_attach pid (Some shm) (Some name) sizeof_eip_shm w in
      let shm := default shm shm' in
      if is_ok st then
        let base := default 0 (shm_base shm) in
        let '(a, w) := check_region base w in
        match a with
        | Understood => Some (PLC_OK, shm, Some base, w)
        | Foreign => let '(shm', w) := plc_shm_close pid (Some shm) w in
                     Some (PLC_ERR_PROTO, default shm shm', None, w)
        | NotYet => let '(shm', w) := plc_shm_close pid (Some shm) w in
                    attach stops name (default shm shm') (sleep_us ATTACH_RETRY_US w)
        end
      else attach stops name shm (sleep_us ATTACH_RETRY_US w)
  end.

(** The configuration handed to the backend: what the region says, or defaults. *)
Definition backend_config (iface : string) (m : eip_shm) : eip_backend_config :=
  BackendConfig (Some iface)
    (if em_produced_assembly m =? 0 then EIP_DEFAULT_PRODUCED_ASSEMBLY else em_produced_assembly m)
    (if em_consumed_assembly m =? 0 then EIP_DEFAULT_CONSUMED_ASSEMBLY else em_consumed_assembly m)
    (plc_cfg_u32 getenv table (Some (txt "SOFTPLC_EIP_CONFIG_ASSEMBLY")) EIP_DEFAULT_CONFIG_ASSEMBLY)
    (em_output_bytes m) (em_input_bytes m).

Definition set_adapter_state (base : Z) (st : plc_adapter_state) w : world eip_shm :=
  status_op pid base (fun t => t <| es_adapter_state := plc_adapter_state_code st |>) w.

(** The end of [main]. *)
Definition eip_finish (instance : string) (shm : plc_shm) (sem_req sem_rsp : option Z) (b : B) w : B * world eip_shm :=
  let b := be_shutdown backend b in
  let w := plc_sem_close sem_req (Some (eip_sem_req_name EIP_SHM_NAME_MAX (Some instance))) false w in
  let w := plc_sem_close sem_rsp (Some (eip_sem_rsp_name EIP_SHM_NAME_MAX (Some instance))) false w in
  let '(_, w) := plc_shm_close pid (Some shm) w in (b, w).

(** The service loop and what follows it. *)
Definition eip_serve (serve_stops : list bool) (instance : string) (shm : plc_shm) (base : Z) (sem_req sem_rsp : option Z)
    (core_timeout_us : Z) (s : service B) w : option (bool * B * world eip_shm) :=
  match service_loop backend pid base (default 0 sem_req) (default 0 sem_rsp) core_timeout_us serve_stops s w with
  | None => None
  | Some (_, s, w) =>
      let w := set_adapter_state base PLC_ADAPTER_CLOSED w in
      let '(b, w) := eip_finish instance shm sem_req sem_rsp (sv_backend s) w in Some (true, b, w)
  end.

(** [main] after the settings and the signal handlers: whether it exits with
    [EXIT_SUCCESS], and what it leaves.  [frame] and [reply] are the
    uninitialised automatic variables. *)
Definition eip_main (stops serve_stops : list bool) (instance iface : string)
    (frame : plc_ipc_frame) (reply : list Z) (b : B) w : option (bool * B * world eip_shm) :=
  match attach stops (eip_shm_name EIP_SHM_NAME_MAX (Some instance)) (shm_zero <| shm_fd := -1 |>) w with
  | None => None
  | Some (st, shm, map, w) =>
      if negb (is_ok st) then Some (false, b, w)
      else
        let base := default 0 map in
        let req_name := eip_sem_req_name EIP_SHM_NAME_MAX (Some instance) in
        let rsp_name := eip_sem_rsp_name EIP_SHM_NAME_MAX (Some instance) in
        let '(st, sem_req, w) := plc_sem_attach (Some req_name) w in
        let '(st, sem_rsp, w) := if is_ok st then plc_sem_attach (Some rsp_name) w else (st, None, w) in
        if negb (is_ok st) then
          let w := plc_sem_close sem_req (Some req_name) false w in
          let '(_, w) := plc_shm_close pid (Some shm) w in Some (false, b, w)
        else
          let '(cfg, w) := peek base (backend_config iface) w in
          let w := set_adapter_state base PLC_ADAPTER_OPENING w in
          let '(st, b) := be_init backend (Some cfg) b in
          if negb (is_ok st) then
            let w := set_adapter_state base PLC_ADAPTER_FAULTED w in
            let '(b, w) := eip_finish instance shm sem_req sem_rsp b w in Some (false, b, w)
          else
            let w := set_adapter_state base PLC_ADAPTER_ONLINE w in
            let core_timeout_us := plc_cfg_u32 getenv table (Some (txt "SOFTPLC_EIP_CORE_TIMEOUT_US")) CORE_TIMEOUT_US in
            let '(now, w) := plc_now_us w in
            eip_serve serve_stops instance shm base sem_req sem_rsp core_timeout_us (Service frame reply now b) w
  end.
End Main.

(** ** The loopback backend *)

Record loopback_state : Type := LoopbackState {
  g_mirror : list Z;  (** [PLC_IPC_MAX_FRAME_BYTES] bytes *)
  g_mirror_len : Z;
  g_input_bytes : Z;
  g_mirror_writes : Z
}.
#[export] Instance eta_loopback_state : Eta loopback_state := fun r =>
  LoopbackState (g_mirror r) (g_mirror_len r) (g_input_bytes r) (g_mirror_writes r).

Section LoopbackBackend.
Context (getenv : cstr -> option cstr) (table : cfg_table).

Definition lb_init (cfg : option eip_backend_config) (b : loopback_state) : plc_status * loopback_state :=
  (PLC_OK, b <| g_mirror := zeros PLC_IPC_MAX_FRAME_BYTES |> <| g_mirror_len := 0 |>
             <| g_input_bytes := match cfg with Some c => bc_input_bytes c | None => 0 end |>).

Definition lb_shutdown (b : loopback_state) : loopback_state := b.

Definition lb_publish (data : list Z) (len : Z) (b : loopback_state) : loopback_state :=
  let len := if len >? PLC_IPC_MAX_FRAME_BYTES then PLC_IPC_MAX_FRAME_BYTES else len in
  let b := if len =? 0 then b else b <| g_mirror := bwrite 0 (bslice 0 len data) (g_mirror b) |> in
  b <| g_mirror_len := len |> <| g_mirror_writes := u64 (g_mirror_writes b + 1) |>.

Definition lb_fetch (data : list Z) (cap : Z) (b : loopback_state) : Z * list Z * loopback_state :=
  let n := if g_input_bytes b =? 0 then g_mirror_len b else g_input_bytes b in
  let n := if n >? cap then cap else n in
  let data :=
    if n =? 0 then data
    else
      let copy := if n <? g_mirror_len b then n else g_mirror_len b in
      let data := bwrite 0 (bslice 0 copy (g_mirror b)) data in
      if copy <? n then bwrite copy (zeros (n - copy)) data else data in
  (n, data, b).

Definition lb_connections (b : loopback_state) : Z * loopback_state :=
  ((if plc_cfg_bool getenv table (Some (txt "SOFTPLC_EIP_MIRROR_NO_CONNECTION")) 0 =? 0 then 1 else 0), b).

Definition lb_peer_in_run (b : loopback_state) : Z * loopback_state :=
  ((if plc_cfg_bool getenv table (Some (txt "SOFTPLC_EIP_MIRROR_IDLE")) 0 =? 0 then 1 else 0), b).

Definition lb_assembly_writes (b : loopback_state) : Z * loopback_state := (g_mirror_writes b, b).

Definition kLoopbackBackend : eip_backend loopback_state :=
  Backend "loopback" lb_init lb_shutdown lb_publish lb_fetch lb_connections (Some lb_peer_in_run)
    (Some lb_assembly_writes).
End LoopbackBackend.

(** ** What the loop needs of a backend *)

Class BackendLaws {B : Type} (backend : eip_backend B) : Type := {
  be_inv : B -> Prop;
  law_publish data len b : be_inv b -> 0 <= len -> zlen data = PLC_IPC_MAX_FRAME_BYTES ->
    be_inv (be_publish_outputs backend data len b);
  law_fetch data cap b : be_inv b -> 0 <= cap -> zlen data = cap ->
    let '(n, data', b') := be_fetch_inputs backend data cap b in
    0 <= n <= cap /\ zlen data' = cap /\ be_inv b';
  law_connections b : be_inv b -> be_inv (be_io_connections backend b).2;
  law_run f b : be_peer_in_run backend = Some f -> be_inv b -> be_inv (f b).2;
  law_writes f b : be_assembly_writes backend = Some f -> be_inv b -> be_inv (f b).2
}.

Definition lb_inv (b : loopback_state) : Prop :=
  zlen (g_mirror b) = PLC_IPC_MAX_FRAME_BYTES /\ 0 <= g_mirror_len b <= PLC_IPC_MAX_FRAME_BYTES /\
  0 <= g_input_bytes b.

(** What the mirror answers with: the first [g_input_bytes] bytes of what was
    published, extended with zeros. *)
Lemma lb_fetch_spec b data cap :
  lb_inv b -> 0 <= cap -> zlen data = cap ->
  let '(n, data', b') := lb_fetch data cap b in
  let want := if g_input_bytes b =? 0 then g_mirror_len b else g_input_bytes b in
  n = Z.min want cap /\ zlen data' = cap /\ b' = b /\
  bslice 0 n data' = bslice 0 (Z.min n (g_mirror_len b)) (g_mirror b) ++ zeros (n - Z.min n (g_mirror_len b)).
Proof.
  intros (Hm & Hl & Hi) Hc Hd. unfold lb_fetch. set (want := if _ =? 0 then _ else _).
  assert (0 <= want) by (subst want; split_if; lia).
  replace (if want >? cap then cap else want) with (Z.min want cap)
    by (destruct (Z.gtb_spec want cap); lia).
  set (n := Z.min want cap). split; [done|].
  destruct (Z.eqb_spec n 0) as [E|E].
  { rewrite E. split; [done|split; [done|]]. by rewrite Z.min_l by lia. }
  replace (if n <? g_mirror_len b then n else g_mirror_len b) with (Z.min n (g_mirror_len b))
    by (destruct (Z.ltb_spec n (g_mirror_len b)); lia).
  set (copy := Z.min n (g_mirror_len b)). set (src := bslice 0 copy (g_mirror b)).
  assert (zlen src = copy) as Hs by (apply zlen_bslice; lia).
  assert ((if copy <? n then bwrite copy (zeros (n - copy)) (bwrite 0 src data) else bwrite 0 src data)
          = bwrite 0 (src ++ zeros (n - copy)) data) as ->.
  { destruct (Z.ltb_spec copy n).
    - replace copy with (0 + zlen src) at 1 by lia. apply bwrite_bwrite; rewrite ?zlen_zeros; lia.
    - replace (n - copy) with 0 by lia. by rewrite app_nil_r. }
  assert (zlen (src ++ zeros (n - copy)) = n) as Hz by (rewrite zlen_app, zlen_zeros; lia).
  split; [rewrite zlen_bwrite; lia|]. split; [done|]. rewrite <- Hz at 1. apply bslice_bwrite_same; lia.
Qed.

#[export] Instance loopback_backend_laws getenv table : BackendLaws (kLoopbackBackend getenv table).
Proof.
  refine {| be_inv := lb_inv |}.
  - intros data len b (Hm & Hl & Hi) Hlen Hd. simpl. unfold lb_publish.
    set (l := if _ >? _ then _ else _).
    assert (0 <= l <= PLC_IPC_MAX_FRAME_BYTES) as Hb.
    { subst l. destruct (Z.gtb_spec len PLC_IPC_MAX_FRAME_BYTES); unfold PLC_IPC_MAX_FRAME_BYTES in *; lia. }
    destruct (l =? 0); (split; [|split; [done|done]]); simpl; [done|].
    rewrite zlen_bwrite; rewrite ?zlen_bslice; lia.
  - intros data cap b Hb Hc Hd. cbn [be_fetch_inputs kLoopbackBackend]. pose proof (lb_fetch_spec b data cap Hb Hc Hd) as Hf.
    destruct (lb_fetch data cap b) as [[n data'] b']. destruct Hf as (-> & ? & -> & _).
    pose proof Hb as (? & ? & ?).
    split; [destruct (g_input_bytes b =? 0); lia|done].
  - done.
  - by intros f b [= <-].
  - by intros f b [= <-].
Defined.

(** ** The world while nobody else acts *)

Lemma mem_op_silent {M T} `{Region M} pid (k : kernel M) t base (f : M -> T * M) :
  mem_op pid (World k t []) base f
    = ((f (deref pid k base)).1, World (k_store pid k base (f (deref pid k base)).2) t []).
Proof. unfold mem_op, pause; simpl. by destruct (f _). Qed.

Lemma k_store_store {M} `{Region M} pid (k : kernel M) base m m' :
  k_store pid (k_store pid k base m) base m' = k_store pid k base m'.
Proof.
  unfold k_store. destruct (k_maps k !! (pid, base)) as [i|] eqn:E; [|by rewrite E].
  destruct (k_inodes k !! i) as [o|] eqn:Ei; [|by rewrite E, Ei].
  simpl. rewrite E, lookup_insert_eq. unfold k_set_inode; simpl. by rewrite insert_insert_eq.
Qed.

Lemma k_store_sem {M} `{Region M} pid (k : kernel M) base m s v :
  k_store pid (sem_set k s v) base m = sem_set (k_store pid k base m) s v.
Proof. unfold k_store; simpl. destruct (k_maps k !! _) as [i|]; [|done]. by destruct (k_inodes k !! i). Qed.

Lemma clockwait_silent {M} `{Region M} (k : kernel M) t s d :
  0 <= d.2 < 1000000000 -> 0 <= sem_value k s ->
  sem_clockwait (World k t []) s d =
    if 0 <? sem_value k s then (0, World (sem_set k s (sem_value k s - 1)) t [])
    else (ETIMEDOUT, World k (Z.max t (d.1 * 1000000000 + d.2)) []).
Proof.
  intros Hd Hv. unfold sem_clockwait, pause; simpl.
  destruct (Z.leb_spec 0 d.2); [|lia]. destruct (Z.ltb_spec d.2 1000000000); [|lia]. simpl.
  rewrite Z.gtb_ltb. by destruct (0 <? sem_value k s).
Qed.

(** A wait takes a post that is there, and ends at its deadline otherwise. *)
Lemma wait_silent {M} `{Region M} (k : kernel M) t s timeout :
  0 < timeout -> 0 <= sem_value k s -> 0 <= t < 2 ^ 62 ->
  plc_sem_wait_timeout (Some s) timeout (World k t [])
    = if 0 <? sem_value k s then (PLC_OK, World (sem_set k s (sem_value k s - 1)) t [])
      else (PLC_ERR_TIMEOUT, World k (t + timeout * 1000) []).
Proof.
  intros Ht Hv Hr. unfold plc_sem_wait_timeout. destruct (Z.eqb_spec timeout 0); [lia|].
  assert (clock_gettime (World k t []) = ((t / 1000000000, t mod 1000000000), World k t [])) as ->.
  { unfold clock_gettime, world_clock, pause; simpl. by replace (Z.max 0 _) with t by lia. }
  destruct (deadline_spec (t / 1000000000, t mod 1000000000) timeout) as [Hd Hd']; [lia|simpl; mach|].
  set (d := wait_deadline _ _) in *. cbv zeta in Hd, Hd'. cbn [fst snd] in Hd'.
  change (length (w_script (World k t []))) with 0%nat. cbn [retry_eintr]. rewrite clockwait_silent by done.
  destruct (0 <? sem_value k s); [done|]. simpl. do 2 f_equal. mach.
Qed.

Lemma now_silent {M} (k : kernel M) t : 0 <= t < 2 ^ 62 -> plc_now_us (World k t []) = (t / 1000, World k t []).
Proof.
  intros Ht. unfold plc_now_us, clock_gettime, world_clock, pause; simpl.
  replace (Z.max 0 _) with t by lia. f_equal. mach.
Qed.

(** Pushing to a well-formed ring: it takes the frame, or is full and stays. *)
Lemma push_either r sq flags data n :
  ring_wf r -> 0 <= n <= PLC_IPC_MAX_FRAME_BYTES -> n <= zlen data ->
  let ok := zlen (queue r) <? PLC_IPC_RING_SLOTS in
  exists r', ring_wf r' /\
    plc_spsc_push_flagged (Some r) sq flags (Some data) n = ((if ok then PLC_OK else PLC_ERR_AGAIN), Some r') /\
    if ok then queue r' = queue r ++ [Msg sq flags (bslice 0 n data)] else r' = r.
Proof.
  intros Hr Hn Hz. cbv zeta. rewrite zlen_queue.
  destruct (Z.ltb_spec (u32 (rg_head r - rg_tail r)) PLC_IPC_RING_SLOTS) as [Hl|Hl].
  - destruct (push_queue r sq flags data n Hr Hn Hz Hl) as (r' & E & Hwf & _ & Hq). eauto.
  - exists r. rewrite push_unfold by done.
    destruct (Z.geb_spec (u32 (rg_head r - rg_tail r)) PLC_IPC_RING_SLOTS); [done|lia].
Qed.

(** Draining leaves a well-formed empty ring. *)
Lemma drained_ring r r' :
  ring_wf r -> plc_spsc_drain (Some r) = Some r' -> ring_wf r' /\ queue r' = [].
Proof.
  intros (Hh & Ht & HL & HF & Hcnt) [= <-]. unfold ring_wf, queue; simpl. rewrite Z.sub_diag. done.
Qed.

(** ** Kernels reached by stores and posts *)

Section Stored.
Context {M : Type} `{Region M} (pid base : Z).
Implicit Types (k : kernel M).

(** [k'] is [k] with the structure replaced and some posts given or taken. *)
Definition stored k m (posts : list (Z * Z)) : kernel M :=
  foldl (fun k '(s, v) => sem_set k s v) (k_store pid k base m) posts.

Lemma deref_stored k m posts : is_Some (mapped_inode k pid base) -> deref pid (stored k m posts) base = m.
Proof.
  intros Hm. transitivity (deref pid (k_store pid k base m) base); [|by apply deref_store].
  unfold stored. generalize (k_store pid k base m). induction posts as [|[s v] posts IH]; intros k'; [done|].
  simpl. by rewrite IH.
Qed.

Lemma k_store_stored k m m' posts : k_store pid (stored k m posts) base m' = stored k m' posts.
Proof.
  unfold stored. rewrite <- (k_store_store pid k base m m'). generalize (k_store pid k base m).
  induction posts as [|[s v] posts IH]; intros k'; [done|]. simpl. by rewrite IH, k_store_sem.
Qed.

Lemma stored_sem k m (s : Z) : sem_value (stored k m []) s = sem_value k s.
Proof. unfold sem_value, stored. cbn [foldl]. by destruct (k_store_semnames pid k base m) as [_ ->]. Qed.

Lemma sem_post_stored k m t sem :
  0 <= sem_value k sem < SEM_VALUE_MAX ->
  sem_post (World (stored k m []) t []) sem = World (stored k m [(sem, sem_value k sem + 1)]) t [].
Proof.
  intros Hv. unfold sem_post, pause. cbn [w_script w_k]. rewrite stored_sem.
  destruct (Z.geb_spec (sem_value k sem) SEM_VALUE_MAX); [lia|done].
Qed.
End Stored.

(** ** One round of the service *)

Section Round.
Context {B : Type} (backend : eip_backend B) `{BackendLaws B backend} (pid base sem_req sem_rsp core_timeout_us : Z).
Implicit Types (k : kernel eip_shm) (s : service B).

(** A region both sides have kept well-formed. *)
Definition map_wf k : Prop :=
  is_Some (mapped_inode k pid base) /\
  ring_wf (em_req (deref pid k base)) /\ ring_wf (em_rsp (deref pid k base)).

Definition service_wf s : Prop :=
  zlen (fr_data (sv_frame s)) = PLC_IPC_MAX_FRAME_BYTES /\ zlen (sv_reply s) = PLC_IPC_MAX_FRAME_BYTES /\
  be_inv (sv_backend s).

Lemma status_op_stored k m posts f t :
  is_Some (mapped_inode k pid base) ->
  status_op pid base f (World (stored pid base k m posts) t [])
    = World (stored pid base k (m <| em_status := f (em_status m) |>) posts) t [].
Proof.
  intros Hm. unfold status_op. rewrite mem_op_silent, deref_stored by done. cbn [fst snd]. by rewrite k_store_stored.
Qed.

Lemma reply_flags_spec b :
  be_inv b -> let '(flags, b') := reply_flags backend b in
  be_inv b' /\ (flags = 0 \/ flags = PLC_IPC_FRAME_DATA_INVALID).
Proof.
  intros Hb. unfold reply_flags. pose proof (law_connections b Hb) as Hc.
  destruct (be_io_connections backend b) as [n b1]. destruct (n =? 0); [auto|].
  destruct (be_peer_in_run backend) as [f|] eqn:E; [|auto]. pose proof (law_run f b1 E Hc) as Hr.
  destruct (f b1) as [r b2]. destruct (r =? 0); auto.
Qed.

(** The reply a well-formed request gets. *)
Definition reply_of s (frame : plc_ipc_frame) : Z * list Z * Z :=
  let b := be_publish_outputs backend (fr_data frame) (fr_len frame) (sv_backend s) in
  let '(n, reply, b) := be_fetch_inputs backend (sv_reply s) PLC_IPC_MAX_FRAME_BYTES b in
  (n, reply, (reply_flags backend b).1).

Lemma answer_request_spec k t m s :
  is_Some (mapped_inode k pid base) -> ring_wf (em_rsp m) -> service_wf s -> frame_ok (sv_frame s) ->
  0 <= sem_value k sem_rsp < SEM_VALUE_MAX ->
  let '(n, reply, flags) := reply_of s (sv_frame s) in
  0 <= n <= PLC_IPC_MAX_FRAME_BYTES /\
  exists s' m' posts,
    answer_request backend pid base sem_rsp s (World (k_store pid k base m) t [])
      = (s', World (stored pid base k m' posts) t []) /\
    service_wf s' /\ sv_frame s' = sv_frame s /\ sv_last_request_us s' = sv_last_request_us s /\
    em_req m' = em_req m /\ ring_wf (em_rsp m') /\
    es_cycles (em_status m') = u64 (es_cycles (em_status m) + 1) /\
    if zlen (queue (em_rsp m)) <? PLC_IPC_RING_SLOTS
    then queue (em_rsp m') = queue (em_rsp m) ++ [Msg (fr_seq (sv_frame s)) flags (bslice 0 n reply)] /\
         posts = [(sem_rsp, sem_value k sem_rsp + 1)]
    else queue (em_rsp m') = [] /\ posts = [].
Proof.
  intros Hmap Hr (Hf & Hrep & Hb) (Hfl & _) Hsem. unfold reply_of, answer_request.
  pose proof (law_publish (fr_data (sv_frame s)) (fr_len (sv_frame s)) _ Hb ltac:(lia) Hf) as Hb1.
  pose proof (law_fetch (sv_reply s) PLC_IPC_MAX_FRAME_BYTES _ Hb1 ltac:(unfold PLC_IPC_MAX_FRAME_BYTES; lia) Hrep) as Hft.
  destruct (be_fetch_inputs backend (sv_reply s) PLC_IPC_MAX_FRAME_BYTES _) as [[n reply] b2].
  destruct Hft as (Hn & Hzr & Hb2). split; [done|].
  pose proof (reply_flags_spec b2 Hb2) as Hfl'. destruct (reply_flags backend b2) as [flags b3]; cbn [fst].
  destruct Hfl' as [Hb3 _]. pose proof (law_connections b3 Hb3) as Hb4.
  rewrite u32_small by (unfold PLC_IPC_MAX_FRAME_BYTES in *; lia).
  change (k_store pid k base m) with (stored pid base k m []).
  unfold rsp_push. rewrite mem_op_silent, deref_stored by done.
  destruct (push_either (em_rsp m) (fr_seq (sv_frame s)) flags reply n Hr Hn ltac:(lia)) as (rsp' & Hrwf & Epush).
  set (ok := zlen (queue (em_rsp m)) <? PLC_IPC_RING_SLOTS) in *.
  set (posts := if ok then [(sem_rsp, sem_value k sem_rsp + 1)] else []). destruct Epush as [Epush Hq].
  rewrite Epush. cbn [fst snd]. change (default (em_rsp m) (Some rsp')) with rsp'.
  rewrite k_store_stored. cbv zeta.
  set (m1 := m <| em_rsp := rsp' |>).
  assert (exists m2, (if negb (is_ok (if ok then PLC_OK else PLC_ERR_AGAIN))
      then set_last_error pid base (if ok then PLC_OK else PLC_ERR_AGAIN) (rsp_drain pid base (World (stored pid base k m1 []) t []))
      else sem_post (World (stored pid base k m1 []) t []) sem_rsp) = World (stored pid base k m2 posts) t [] /\
      em_req m2 = em_req m /\ es_cycles (em_status m2) = es_cycles (em_status m) /\ ring_wf (em_rsp m2) /\
      if ok then queue (em_rsp m2) = queue rsp' else queue (em_rsp m2) = []) as (m2 & -> & Hreq & Hcyc & Hwf2 & Hq2).
  { subst posts. clearbody ok. destruct ok.
    - exists m1. cbn [is_ok]. change (is_ok PLC_OK) with true. cbn [negb]. rewrite sem_post_stored by done. done.
    - change (is_ok PLC_ERR_AGAIN) with false. cbn [negb]. unfold rsp_drain. rewrite mem_op_silent, deref_stored by done.
      cbn [fst snd]. rewrite k_store_stored. unfold set_last_error. rewrite status_op_stored by done.
      eexists. split; [done|]. split; [done|split; [done|]]. by eapply drained_ring. }
  rewrite status_op_stored by done. destruct (be_io_connections backend b3) as [conns b4]; cbn [snd] in Hb4.
  rewrite status_op_stored by done. set (m4 := _ <| em_status := _ |>).
  assert (exists b5 m5, match be_assembly_writes backend with
    | Some f => let '(n, b) := f b4 in
                (b, status_op pid base (fun t => t <| es_assembly_writes := n |>) (World (stored pid base k m4 posts) t []))
    | None => (b4, World (stored pid base k m4 posts) t [])
    end = (b5, World (stored pid base k m5 posts) t []) /\ be_inv b5 /\ em_req m5 = em_req m4 /\ em_rsp m5 = em_rsp m4 /\
    es_cycles (em_status m5) = es_cycles (em_status m4)) as (b5 & m5 & -> & Hb5 & H5q & H5r & H5c).
  { destruct (be_assembly_writes backend) as [f|] eqn:Ew; [|eauto 10]. pose proof (law_writes f b4 Ew Hb4).
    destruct (f b4) as [nw b5]. rewrite status_op_stored by done. eexists _, _. split; [done|]. done. }
  eexists _, m5, posts. split; [done|]. split; [done|]. do 2 (split; [done|]).
  split; [by rewrite H5q|]. split; [by rewrite H5r|]. split; [rewrite H5c; simpl; by rewrite Hcyc|].
  rewrite H5r. simpl. subst posts. destruct ok; [by rewrite Hq2|done].
Qed.

(** A doorbell has rung and a request is queued. *)
Lemma service_round_answers k t s msg q :
  map_wf k -> service_wf s -> 0 <= t < 2 ^ 62 -> sem_req <> sem_rsp ->
  0 < sem_value k sem_req -> 0 <= sem_value k sem_rsp < SEM_VALUE_MAX ->
  queue (em_req (deref pid k base)) = msg :: q ->
  exists s' m' posts,
    service_round backend pid base sem_req sem_rsp core_timeout_us s (World k t [])
      = (Continue, s', World (stored pid base (sem_set k sem_req (sem_value k sem_req - 1)) m' posts) t []) /\
    service_wf s' /\ frame_ok (sv_frame s') /\ msg_of (sv_frame s') = msg /\ queue (em_req m') = q /\
    ring_wf (em_req m') /\ ring_wf (em_rsp m') /\
    es_cycles (em_status m') = u64 (es_cycles (em_status (deref pid k base)) + 1) /\
    sv_last_request_us s' = t / 1000 /\
    let '(n, reply, flags) := reply_of s (sv_frame s') in
    0 <= n <= PLC_IPC_MAX_FRAME_BYTES /\
    if zlen (queue (em_rsp (deref pid k base))) <? PLC_IPC_RING_SLOTS
    then queue (em_rsp m') = queue (em_rsp (deref pid k base)) ++ [Msg (m_seq msg) flags (bslice 0 n reply)] /\
         posts = [(sem_rsp, sem_value k sem_rsp + 1)]
    else queue (em_rsp m') = [] /\ posts = [].
Proof.
  intros (Hmap & Hq & Hr) Hs Ht Hne Hreq Hrsp Eq. set (m := deref pid k base) in *.
  unfold service_round. rewrite wait_silent by (unfold SERVICE_WAIT_US; lia).
  destruct (Z.ltb_spec 0 (sem_value k sem_req)); [|lia]. set (k1 := sem_set k sem_req _).
  assert (deref pid k1 base = m) as Hd by done.
  unfold req_pop. rewrite mem_op_silent, Hd. pose proof Hs as (Hsf & Hsr & Hsb).
  pose proof (pop_queue (em_req m) (sv_frame s) Hq Hsf) as Hpop. rewrite Eq in Hpop.
  destruct Hpop as (req' & frame & -> & Hwf' & Hq' & Hmsg & Hfok & _). cbn [fst snd].
  change (default (sv_frame s) (Some frame)) with frame. change (default (em_req m) (Some req')) with req'.
  set (m1 := m <| em_req := req' |>). rewrite bool_decide_eq_false_2 by done.
  rewrite now_silent by done. change (is_ok PLC_OK) with true. cbn [negb].
  set (s1 := s <| sv_frame := frame |> <| sv_last_request_us := _ |>).
  pose proof (answer_request_spec k1 t m1 s1) as Ha.
  assert (sem_value k1 sem_rsp = sem_value k sem_rsp) as Hv
    by (unfold sem_value, k1; simpl; by rewrite lookup_insert_ne).
  assert (service_wf s1) as Hs1 by (destruct Hfok; done).
  rewrite Hv in Ha. specialize (Ha Hmap Hr Hs1 Hfok Hrsp). change (reply_of s1 (sv_frame s1)) with (reply_of s frame) in Ha.
  destruct (reply_of s frame) as [[n reply] flags] eqn:Erep. destruct Ha as (Hn & s' & m' & posts & -> & Hs' & Hf' & Hl' & Hreq' & Hw' & Hc' & Hcase).
  exists s', m', posts. split; [done|]. split; [done|]. rewrite Hf'. do 2 (split; [done|]).
  split; [by rewrite Hreq'|]. split; [by rewrite Hreq'|]. split; [done|split; [done|]].
  split; [by rewrite Hl'|]. simpl sv_frame. rewrite Erep. split; [done|]. rewrite <- Hmsg. exact Hcase.
Qed.

(** Nobody asks: a round passes its wait and compares the time. *)
Lemma service_round_idle k t s :
  sem_value k sem_req = 0 -> 0 <= t -> t + SERVICE_WAIT_US * 1000 < 2 ^ 62 ->
  0 <= sv_last_request_us s <= t / 1000 ->
  let t' := t + SERVICE_WAIT_US * 1000 in
  service_round backend pid base sem_req sem_rsp core_timeout_us s (World k t [])
    = ((if t' / 1000 - sv_last_request_us s >=? core_timeout_us then CoreGone else Continue), s, World k t' []).
Proof.
  intros Hv Ht Hmax Hl. cbv zeta. unfold service_round.
  rewrite wait_silent by (unfold SERVICE_WAIT_US in *; lia). rewrite Hv. change (0 <? 0) with false. cbv iota.
  rewrite now_silent by (unfold SERVICE_WAIT_US in *; lia). rewrite u64_small.
  - by destruct (_ >=? _).
  - unfold SERVICE_WAIT_US in *. mach.
Qed.
End Round.

(** ** Theorems *)

(** Every request gets its own reply.  When the doorbell has rung and a
    request is queued, one round of the service takes exactly that request,
    hands its payload to the backend, and queues one reply behind those already
    there: with the request's sequence number, the backend's snapshot, and the
    data-invalid flag exactly when no connection exists or the peer says it is
    idle; and it rings the core's doorbell once.  If the core has left four
    replies unread they are dropped and no doorbell is rung. *)
Theorem eip_service_answers {B : Type} (backend : eip_backend B) `{BackendLaws B backend}
    (pid base sem_req sem_rsp core_timeout_us : Z) (k : kernel eip_shm) (t : Z) (s : service B)
    (msg : message) (q : list message)
    (Hmap : map_wf pid base k) (Hs : service_wf backend s) (Ht : 0 <= t < 2 ^ 62)
    (Hne : sem_req <> sem_rsp) (Hreq : 0 < sem_value k sem_req)
    (Hrsp : 0 <= sem_value k sem_rsp < SEM_VALUE_MAX)
    (Hq : queue (em_req (deref pid k base)) = msg :: q) :
  let '(r, s', w') := service_round backend pid base sem_req sem_rsp core_timeout_us s (World k t []) in
  let m := deref pid k base in
  let m' := deref pid (w_k w') base in
  let '(n, reply, flags) := reply_of backend s (sv_frame s') in
  r = Continue /\ service_wf backend s' /\ msg_of (sv_frame s') = msg /\
  queue (em_req m') = q /\ sem_value (w_k w') sem_req = sem_value k sem_req - 1 /\
  if zlen (queue (em_rsp m)) <? PLC_IPC_RING_SLOTS
  then queue (em_rsp m') = queue (em_rsp m) ++ [Msg (m_seq msg) flags (bslice 0 n reply)] /\
       sem_value (w_k w') sem_rsp = sem_value k sem_rsp + 1
  else queue (em_rsp m') = [] /\ sem_value (w_k w') sem_rsp = sem_value k sem_rsp.
Proof.
  destruct (service_round_answers backend pid base sem_req sem_rsp core_timeout_us k t s msg q)
    as (s' & m' & posts & -> & Hs' & _ & Hm & Hq' & _ & _ & _ & _ & Hcase); try done.
  destruct (reply_of backend s (sv_frame s')) as [[n reply] flags]. destruct Hcase as [_ Hcase]. cbn [w_k].
  set (k1 := sem_set k sem_req _) in *. destruct Hmap as [Hmap _].
  rewrite (deref_stored pid base k1 m' posts Hmap).
  assert (sem_value k1 sem_req = sem_value k sem_req - 1 /\ sem_value k1 sem_rsp = sem_value k sem_rsp) as [V1 V2].
  { unfold sem_value, k1; simpl. by rewrite lookup_insert_eq, lookup_insert_ne. }
  do 4 (split; [done|]).
  destruct (_ <? PLC_IPC_RING_SLOTS); destruct Hcase as [Hrq ->].
  - split; [|split; [done|unfold sem_value, stored; simpl; by rewrite lookup_insert_eq]].
    rewrite <- V1. rewrite <- (stored_sem pid base k1 m' sem_req). unfold sem_value, stored; simpl.
    by rewrite lookup_insert_ne.
  - rewrite !stored_sem. done.
Qed.

(** [C33] A core that has gone is noticed.  If no request arrives any more, and
    neither signals nor delays come in between, the service loop ends by itself: at the first wake-up at which the core has
    been silent for [core_timeout_us], so never earlier than that, and at most
    one doorbell wait later. *)
Theorem eip_service_notices_core_gone {B : Type} (backend : eip_backend B) `{BackendLaws B backend}
    (pid base sem_req sem_rsp core_timeout_us : Z) (k : kernel eip_shm) (t : Z) (s : service B)
    (Hsem : sem_value k sem_req = 0) (Ht : 0 <= t) (Hlast : sv_last_request_us s = t / 1000)
    (Hto : 0 < core_timeout_us < 2 ^ 32) (Hmax : t < 2 ^ 61) :
  exists (rounds : nat) (t' : Z),
    service_loop backend pid base sem_req sem_rsp core_timeout_us (replicate rounds false) s (World k t [])
      = Some (CoreGone, s, World k t' []) /\
    core_timeout_us <= t' / 1000 - sv_last_request_us s < core_timeout_us + SERVICE_WAIT_US.
Proof.
  assert (forall (j : nat) t0, t <= t0 -> t0 / 1000 - t / 1000 < core_timeout_us ->
    core_timeout_us - (t0 / 1000 - t / 1000) <= Z.of_nat j * SERVICE_WAIT_US ->
    exists (rounds : nat) t',
      service_loop backend pid base sem_req sem_rsp core_timeout_us (replicate rounds false) s (World k t0 [])
        = Some (CoreGone, s, World k t' []) /\
      core_timeout_us <= t' / 1000 - sv_last_request_us s < core_timeout_us + SERVICE_WAIT_US) as Hind.
  2:{ apply (Hind (Z.to_nat core_timeout_us) t); unfold SERVICE_WAIT_US; lia. }
  assert (forall t0, (t0 + SERVICE_WAIT_US * 1000) / 1000 = t0 / 1000 + SERVICE_WAIT_US) as E1
    by (intros; unfold SERVICE_WAIT_US; rewrite Z.div_add by lia; done).
  induction j as [|j IH]; intros t0 Hle Hlt Hj; [lia|].
  assert (t0 < 2 ^ 61 + 2 ^ 43) as Hb by mach.
  assert (t / 1000 <= t0 / 1000) as Hm by (apply Z.div_le_mono; lia).
  pose proof (service_round_idle backend pid base sem_req sem_rsp core_timeout_us k t0 s Hsem) as Hr.
  specialize (Hr ltac:(lia) ltac:(unfold SERVICE_WAIT_US; lia) ltac:(rewrite Hlast; split; [apply Z.div_pos; lia|lia])).
  cbv zeta in Hr. rewrite E1 in Hr.
  destruct (Z.geb_spec (t0 / 1000 + SERVICE_WAIT_US - sv_last_request_us s) core_timeout_us).
  - exists 1%nat, (t0 + SERVICE_WAIT_US * 1000). cbn [replicate service_loop]. rewrite Hr. split; [done|]. rewrite E1. lia.
  - destruct (IH (t0 + SERVICE_WAIT_US * 1000)) as (rounds & t' & Hl & Hb'); [unfold SERVICE_WAIT_US; lia|rewrite E1; lia|rewrite E1; lia|].
    exists (S rounds), t'. cbn [replicate service_loop]. by rewrite Hr.
Qed.

(** Process 2 maps the region of [EipProxy]'s example; one request waits. *)
Definition one_request : plc_spsc_ring := default ring_zero (plc_spsc_push (Some ring_zero) 41 (Some [1; 2; 3; 4]) 4).2.
Definition service_kernel : kernel eip_shm :=
  Kernel (k_names eip_kernel) {[4 := Inode 4480 (eip_shm_zero <| em_req := one_request |>) (Some (1, 5))]}
         (k_fds eip_kernel) {[(2, 10) := 4]} ∅ {[7 := 1; 8 := 0]} 11.
Definition service_example : service loopback_state :=
  Service frame_zero (zeros PLC_IPC_MAX_FRAME_BYTES) 0
    (LoopbackState (zeros PLC_IPC_MAX_FRAME_BYTES) 0 4 0).
Definition mirror_backend : eip_backend loopback_state := kLoopbackBackend (fun _ => None) (Table [] []).

Lemma ring_zero_wf : ring_wf ring_zero.
Proof.
  split; [simpl; lia|split; [simpl; lia|split; [done|split; [|vm_compute; congruence]]]].
  repeat constructor; vm_compute; congruence.
Qed.

Lemma service_kernel_wf : map_wf 2 10 service_kernel.
Proof.
  split; [by eexists|]. split; [|exact ring_zero_wf].
  change (ring_wf one_request). unfold one_request, plc_spsc_push.
  destruct (push_either ring_zero 41 0 [1; 2; 3; 4] 4 ring_zero_wf) as (r' & Hr' & -> & _);
    [unfold PLC_IPC_MAX_FRAME_BYTES; lia|vm_compute; congruence|exact Hr'].
Qed.

Lemma service_example_wf : service_wf mirror_backend service_example.
Proof.
  split; [reflexivity|split; [reflexivity|]]. split; [reflexivity|split; vm_compute; congruence || (split; congruence)].
Qed.

Lemma eip_service_answers_witness :
  let '(r, s', w') := service_round mirror_backend 2 10 7 8 2000000 service_example (World service_kernel 5000 []) in
  r = Continue /\ queue (em_rsp (deref 2 (w_k w') 10)) = [Msg 41 0 [1; 2; 3; 4]] /\ sem_value (w_k w') 8 = 1.
Proof.
  pose proof (eip_service_answers mirror_backend 2 10 7 8 2000000 service_kernel 5000 service_example
                (Msg 41 0 [1; 2; 3; 4]) []) as Ht.
  assert (let '(_, s', _) := service_round mirror_backend 2 10 7 8 2000000 service_example (World service_kernel 5000 []) in
          let '(n, reply, flags) := reply_of mirror_backend service_example (sv_frame s') in
          (flags, bslice 0 n reply) = (0, [1; 2; 3; 4])) as Hc by (vm_compute; reflexivity).
  destruct (service_round mirror_backend 2 10 7 8 2000000 service_example (World service_kernel 5000 [])) as [[r s'] w'].
  destruct (reply_of mirror_backend service_example (sv_frame s')) as [[n reply] flags]. injection Hc as -> Hpay.
  rewrite Hpay in Ht. destruct Ht as (Hr & _ & _ & _ & _ & Hq);
    [exact service_kernel_wf|exact service_example_wf|lia|lia|vm_compute; congruence|vm_compute; split; congruence
    |vm_compute; reflexivity|]. exact (conj Hr Hq).
Defined.

Lemma eip_service_notices_core_gone_witness :
  exists rounds t',
    service_loop mirror_backend 2 10 8 7 2000000 (replicate rounds false) (service_example <| sv_last_request_us := 5 |>)
      (World service_kernel 5000 []) = Some (CoreGone, service_example <| sv_last_request_us := 5 |>, World service_kernel t' []).
Proof.
  destruct (eip_service_notices_core_gone mirror_backend 2 10 8 7 2000000 service_kernel 5000
              (service_example <| sv_last_request_us := 5 |>)) as (rounds & t' & Hl & _);
    [reflexivity|lia|reflexivity|lia|lia|]. exists rounds, t'. exact Hl.
Defined.

(** ** Attaching *)

Lemma peek_silent {T} pid base (f : eip_shm -> T) (k : kernel eip_shm) t :
  is_Some (mapped_inode k pid base) -> peek pid base f (World k t []) = (f (deref pid k base), World k t []).
Proof.
  intros [o Ho]. unfold peek. rewrite mem_op_silent. cbn [fst snd]. do 2 f_equal.
  unfold mapped_inode in Ho. unfold k_store, deref. destruct (k_maps k !! (pid, base)) as [i|] eqn:E; [|done].
  rewrite Ho. unfold k_set_inode. destruct k; simpl in *. f_equal. rewrite insert_id; [done|]. rewrite Ho. by destruct o.
Qed.

(** The checks, one reading after the other. *)
Lemma check_region_silent (pid base : Z) (k : kernel eip_shm) (t : Z)
    (Hmap : is_Some (mapped_inode k pid base)) :
  let m := deref pid k base in
  check_region pid base (World k t [])
    = ((if em_magic m =? 0 then NotYet
        else if (em_magic m =? EIP_SHM_MAGIC) && (em_abi_version m =? EIP_SHM_ABI_VERSION) &&
                (em_layout_bytes m =? sizeof_eip_shm)
        then Understood else Foreign), World k t []).
Proof.
  cbv zeta. unfold check_region. set (m := deref pid k base).
  assert (forall T (f : eip_shm -> T), peek pid base f (World k t []) = (f m, World k t [])) as Hp
    by (intros; by apply peek_silent).
  rewrite Hp. destruct (Z.eqb_spec (em_magic m) EIP_SHM_MAGIC) as [Em|Hm].
  - rewrite Em. change (EIP_SHM_MAGIC =? 0) with false. rewrite Hp.
    destruct (em_abi_version m =? EIP_SHM_ABI_VERSION); cbn [andb].
    + rewrite Hp. destruct (em_layout_bytes m =? sizeof_eip_shm); [done|]. rewrite Hp, Em. cbn [negb].
      change (EIP_SHM_MAGIC =? 0) with false. cbn [negb]. rewrite Hp, Em, Z.eqb_refl. cbn [negb]. by rewrite Hp, Em, Z.eqb_refl.
    + rewrite Hp, Em. change (EIP_SHM_MAGIC =? 0) with false. cbn [negb]. rewrite Hp, Em, Z.eqb_refl. cbn [negb].
      by rewrite Hp, Em, Z.eqb_refl.
  - cbn [andb]. rewrite Hp. destruct (Z.eqb_spec (em_magic m) 0) as [E|E]; cbn [negb].
    + rewrite Hp, E. done.
    + rewrite Hp. by rewrite (proj2 (Z.eqb_neq _ _) Hm).
Qed.

(** What an adapter process attaches to.  In a region that does not
    change meanwhile, the checks accept exactly one that carries the magic
    word, the ABI version and the structure size of this build; they report a
    foreign region when the magic word is another, or is ours over another
    layout; and they ask for a retry exactly while the magic word is zero. *)
Theorem eip_check_region_exact (pid base : Z) (k : kernel eip_shm) (t : Z)
    (Hmap : is_Some (mapped_inode k pid base)) :
  let m := deref pid k base in
  check_region pid base (World k t [])
    = ((if em_magic m =? 0 then NotYet
        else if (em_magic m =? EIP_SHM_MAGIC) && (em_abi_version m =? EIP_SHM_ABI_VERSION) &&
                (em_layout_bytes m =? sizeof_eip_shm)
        then Understood else Foreign), World k t []).
Proof. by apply check_region_silent. Qed.

Lemma eip_check_region_exact_witness :
  check_region 2 10 (World service_kernel 0 []) = (NotYet, World service_kernel 0 []).
Proof. apply (eip_check_region_exact 2 10 service_kernel 0). by eexists. Defined.

(** The core publishes the magic word between the adapter's first and last
    load of it: the adapter takes a region of its own build for a foreign one
    and gives up. *)
Definition publish_magic (k : kernel eip_shm) : kernel eip_shm :=
  k_store 2 k 10 (deref 2 k 10 <| em_magic := EIP_SHM_MAGIC |> <| em_abi_version := EIP_SHM_ABI_VERSION |>
                               <| em_layout_bytes := sizeof_eip_shm |>).
Theorem eip_attach_races_with_publication :
  (check_region 2 10 (World service_kernel 0 [Event 0 None 0; Event 0 (Some publish_magic) 0])).1 = Foreign /\
  (check_region 2 10 (World (publish_magic service_kernel) 0 [])).1 = Understood.
Proof. vm_compute. auto. Qed.
