(* ===== verification/IpcLink.v ===== *)
(** * Both ends of a link

    What holds of a core and a stack process over one region whichever of the two
    roles they play: an exchange of [IpcProxy] during which the peer gets to run.
    The round trip is split at the moment the peer is woken ([peer_woken]); if it
    leaves one reply with the request's number ([peer_answered]), the proxy takes
    that reply.  [EipLink] and [ScannerLink] supply the peers. *)

From Stdlib Require Import ZArith Lia.
From stdpp Require Import base gmap list strings tactics.
From S2P Require Import Prelude PlcTypes SpscRing Adapter Config Shm IpcProxy EipService.

(** An event in which nothing happens and no time passes. *)
Definition idle {M} : event M := Event 0 None 0.

(** ** Accesses during which nothing happens *)

Section Idle.
Context {M : Type} `{Region M}.
Implicit Types (k : kernel M) (s : list (event M)).

Lemma pause_idle k t s : pause (World k t (idle :: s)) = (0, World k t s).
Proof. unfold pause; simpl. by rewrite Z.add_0_r. Qed.

Lemma now_idle k t s : 0 <= t < 2 ^ 62 -> plc_now_us (World k t (idle :: s)) = (t / 1000, World k t s).
Proof.
  intros Ht. unfold plc_now_us, clock_gettime, world_clock. rewrite pause_idle. cbn [w_ns].
  replace (Z.max 0 _) with t by lia. f_equal. mach.
Qed.

Lemma mem_op_idle {T} pid k t s base (f : M -> T * M) :
  mem_op pid (World k t (idle :: s)) base f
    = ((f (deref pid k base)).1, World (k_store pid k base (f (deref pid k base)).2) t s).
Proof. unfold mem_op. rewrite pause_idle. cbn [w_k]. by destruct (f _). Qed.

Lemma sem_drain_idle k t s sem fuel :
  sem_value k sem = 0 -> plc_sem_drain (S fuel) (Some sem) (World k t (idle :: s)) = Some (World k t s).
Proof.
  intros Hv. cbn [plc_sem_drain]. unfold plc_sem_trywait. cbn [length w_script retry_eintr].
  unfold sem_trywait. rewrite pause_idle. cbn [w_k]. by rewrite Hv.
Qed.

Lemma sem_post_idle k t s sem :
  0 <= sem_value k sem < SEM_VALUE_MAX ->
  sem_post (World k t (idle :: s)) sem = World (sem_set k sem (sem_value k sem + 1)) t s.
Proof.
  intros Hv. unfold sem_post. rewrite pause_idle. cbn [w_k].
  destruct (Z.geb_spec (sem_value k sem) SEM_VALUE_MAX); [lia|done].
Qed.

(** A post arrives during the wait. *)
Lemma wait_idle_move k t sem timeout move :
  0 < timeout -> 0 <= t < 2 ^ 62 -> 0 < sem_value (move k) sem ->
  plc_sem_wait_timeout (Some sem) timeout (World k t [idle; Event 0 (Some move) 0])
    = (PLC_OK, World (sem_set (move k) sem (sem_value (move k) sem - 1)) t []).
Proof.
  intros Hto Ht Hv. unfold plc_sem_wait_timeout. destruct (Z.eqb_spec timeout 0); [lia|].
  unfold clock_gettime, world_clock. rewrite pause_idle. cbn [w_ns]. replace (Z.max 0 _) with t by lia.
  destruct (deadline_spec (t / 1000000000, t mod 1000000000) timeout) as [Hd _]; [lia|simpl; mach|].
  set (d := wait_deadline _ _) in *. cbv zeta in Hd. cbn [length w_script retry_eintr].
  unfold sem_clockwait, pause. cbn [w_script ev_errno ev_move ev_ns w_k w_ns]. rewrite Z.max_l, Z.add_0_r by lia.
  destruct (Z.leb_spec 0 d.2); [|lia]. destruct (Z.ltb_spec d.2 1000000000); [|lia]. cbn [negb andb].
  destruct (Z.gtb_spec (sem_value (move k) sem) 0); [done|lia].
Qed.

(** Two processes that map the same inode see and store the same structure. *)
Lemma same_inode p b q c k i :
  k_maps k !! (p, b) = Some i -> k_maps k !! (q, c) = Some i ->
  deref p k b = deref q k c /\ (forall m, k_store p k b m = k_store q k c m).
Proof. intros Hp Hq. unfold deref, k_store. by rewrite Hp, Hq. Qed.
End Idle.

(** ** Kernels reached by stores and posts *)

Section Stored.
Context {M : Type} `{Region M} (pid base : Z).
Implicit Types (k : kernel M).

Lemma maps_stored k m posts : k_maps (stored pid base k m posts) = k_maps k.
Proof.
  transitivity (k_maps (k_store pid k base m)).
  - unfold stored. generalize (k_store pid k base m). induction posts as [|[a v] posts IH]; intros k'; [done|].
    simpl. by rewrite IH.
  - unfold k_store. destruct (k_maps k !! _) as [i|]; [|done]. by destruct (k_inodes k !! i).
Qed.

(** What the other process sees of a store. *)
Lemma deref_peer k m posts q c :
  (exists i, k_maps k !! (pid, base) = Some i /\ k_maps k !! (q, c) = Some i) ->
  is_Some (mapped_inode k pid base) -> deref q (stored pid base k m posts) c = m.
Proof.
  intros (i & Hp & Hq) Hm. transitivity (deref pid (stored pid base k m posts) base); [|by apply deref_stored].
  apply (same_inode q c pid base _ i); by rewrite maps_stored.
Qed.

Lemma mapped_peer k q c :
  (exists i, k_maps k !! (pid, base) = Some i /\ k_maps k !! (q, c) = Some i) ->
  is_Some (mapped_inode k pid base) -> is_Some (mapped_inode k q c).
Proof. intros (i & Hp & Hq). unfold mapped_inode. by rewrite Hp, Hq. Qed.

Lemma mapped_stored k m posts : is_Some (mapped_inode k pid base) -> is_Some (mapped_inode (stored pid base k m posts) pid base).
Proof.
  intros Hm. assert (is_Some (mapped_inode (k_store pid k base m) pid base)) as Hs.
  { unfold mapped_inode, k_store in *. destruct (k_maps k !! _) as [i|] eqn:E; [|by destruct Hm].
    destruct (k_inodes k !! i) as [o|]; [|by destruct Hm]. simpl. rewrite E, lookup_insert_eq. eauto. }
  revert Hs. unfold stored. generalize (k_store pid k base m). induction posts as [|[a v] posts IH]; intros k' Hs; [done|].
  simpl. by apply IH.
Qed.

Lemma value_posted k m s v : sem_value (stored pid base k m [(s, v)]) s = v.
Proof. unfold sem_value, stored. simpl. by rewrite lookup_insert_eq. Qed.

Lemma value_other k m s v s' : s <> s' -> sem_value (stored pid base k m [(s, v)]) s' = sem_value k s'.
Proof.
  intros Hne. rewrite <- (stored_sem pid base k m s'). unfold sem_value, stored. simpl. by rewrite lookup_insert_ne.
Qed.
End Stored.

(** ** The exchange *)

(** The part of the proxy's invariant that does not speak of the bytes' values. *)
Definition px_sized (p : ipc_proxy) : Prop :=
  0 <= cap_input_bytes (px_caps p) <= PLC_IPC_MAX_FRAME_BYTES /\
  0 <= cap_output_bytes (px_caps p) <= PLC_IPC_MAX_FRAME_BYTES /\
  0 <= cap_exchange_timeout_us (px_caps p) < 2 ^ 32 /\
  zlen (px_last_good p) = PLC_IPC_MAX_FRAME_BYTES /\ zlen (fr_data (px_scratch p)) = PLC_IPC_MAX_FRAME_BYTES.

Lemma px_inv_sized p : px_inv p -> px_sized p.
Proof. intros (H1 & H2 & H3 & H4 & _ & (_ & H5 & _) & _). done. Qed.

Section Link.
Context {M : Type} `{Channel M} (core_pid core_base svc_pid svc_base sem_req sem_rsp : Z).
Implicit Types (k : kernel M).

(** Both processes are attached to one region, nothing is queued for the
    service, and the doorbells are quiet. *)
Definition region_ready k : Prop :=
  (exists i, k_maps k !! (core_pid, core_base) = Some i /\ k_maps k !! (svc_pid, svc_base) = Some i) /\
  is_Some (mapped_inode k core_pid core_base) /\
  ring_wf (ch_req (deref core_pid k core_base)) /\ ring_wf (ch_rsp (deref core_pid k core_base)) /\
  queue (ch_req (deref core_pid k core_base)) = [] /\
  sem_req <> sem_rsp /\ sem_value k sem_req = 0 /\ sem_value k sem_rsp = 0.

(** The proxy is open on it. *)
Definition px_ready (p : ipc_proxy) : Prop :=
  px_map p = Some core_base /\ px_sem_req p = Some sem_req /\ px_sem_rsp p = Some sem_rsp /\
  px_sized p /\ px_state p <> PLC_ADAPTER_CLOSED /\ 0 < cap_exchange_timeout_us (px_caps p).

Definition link_ready k (p : ipc_proxy) : Prop := region_ready k /\ px_ready p.

(** The request is queued and the service's doorbell rung. *)
Lemma round_trip_sends k t p out rest :
  link_ready k p -> 0 <= t < 2 ^ 62 -> zlen out <= PLC_IPC_MAX_FRAME_BYTES ->
  exists m, ring_wf (ch_req m) /\ ring_wf (ch_rsp m) /\
    queue (ch_req m) = [Msg (px_next_seq p) 0 out] /\ queue (ch_rsp m) = [] /\
    forall fuel, proxy_round_trip core_pid (S fuel) p core_base (Some out) (zlen out) (World k t (replicate 5 idle ++ rest)) =
    match wait_loop core_pid (S fuel) (p <| px_next_seq := u32 (px_next_seq p + 1) |>) core_base (t / 1000)
            (px_next_seq p) (World (stored core_pid core_base k m [(sem_req, 1)]) t rest) with
    | None => None
    | Some (miss, p', w') => Some (t / 1000, miss, p', w')
    end.
Proof.
  intros ((_ & Hmap & Hreq & Hrsp & Hq & Hne & Hv1 & Hv2) & _ & Esq & Esr & _) Ht Hout.
  pose proof (zlen_nonneg out). set (m := deref core_pid k core_base) in *.
  set (m1 := ch_set_rsp m (Ring (rg_head (ch_rsp m)) (rg_head (ch_rsp m)) (rg_slots (ch_rsp m)))).
  pose proof (push_either (ch_req m) (px_next_seq p) 0 out (zlen out) Hreq ltac:(lia) ltac:(lia)) as Hpush.
  rewrite Hq in Hpush. destruct Hpush as (r' & Hwf & Epush & Hq').
  rewrite (bslice_all out) in Hq'. change (zlen [] <? PLC_IPC_RING_SLOTS) with true in *.
  exists (ch_set_req m1 r'). rewrite ch_req_get, ch_req_keeps. split; [done|].
  assert (ring_wf (ch_rsp m1) /\ queue (ch_rsp m1) = []) as [Hwr Hqr].
  { destruct Hrsp as (Hh & Htl & HL & HF & Hcnt). unfold m1. rewrite ch_rsp_get. unfold ring_wf, queue. cbn. rewrite Z.sub_diag. done. }
  do 3 (split; [done|]). intros fuel.
  unfold proxy_round_trip. cbn [replicate app]. rewrite now_idle by done.
  unfold rsp_drain. rewrite mem_op_idle. fold m. cbn [fst snd].
  change (ch_set_rsp m _) with m1. change (k_store core_pid k core_base m1) with (stored core_pid core_base k m1 []).
  change (px_sem_rsp (p <| px_next_seq := _ |>)) with (px_sem_rsp p). rewrite Esr.
  rewrite sem_drain_idle by (by rewrite stored_sem).
  unfold req_push. rewrite mem_op_idle, deref_stored by done. rewrite u32_small by (unfold PLC_IPC_MAX_FRAME_BYTES in *; lia).
  unfold plc_spsc_push. assert (ch_req m1 = ch_req m) as -> by apply ch_rsp_keeps. rewrite Epush. cbn [fst snd].
  rewrite k_store_stored. change (is_ok PLC_OK) with true. cbn [negb].
  change (px_sem_req (p <| px_next_seq := _ |>)) with (px_sem_req p). rewrite Esq.
  rewrite sem_post_idle by (rewrite stored_sem, Hv1; unfold SEM_VALUE_MAX; lia).
  rewrite stored_sem, Hv1. done.
Qed.

(** The world once the post is taken and the reply popped. *)
Definition reply_taken (p : ipc_proxy) k (move : kernel M -> kernel M) (t : Z) : world M :=
  let k2 := sem_set (move k) sem_rsp (sem_value (move k) sem_rsp - 1) in
  let m := deref core_pid k2 core_base in
  let '(_, r, _) := plc_spsc_pop (Some (ch_rsp m)) (Some (px_scratch p)) PLC_IPC_MAX_FRAME_BYTES in
  World (k_store core_pid k2 core_base (ch_set_rsp m (default (ch_rsp m) r))) t [].

(** The wait ends with the post, and the reply is popped. *)
Lemma wait_loop_receives k t p move sq flags data :
  px_sem_rsp p = Some sem_rsp -> px_sized p -> 0 < cap_exchange_timeout_us (px_caps p) -> 0 <= t < 2 ^ 62 ->
  0 < sem_value (move k) sem_rsp -> ring_wf (ch_rsp (deref core_pid (move k) core_base)) ->
  queue (ch_rsp (deref core_pid (move k) core_base)) = [Msg sq flags data] ->
  exists f, msg_of f = Msg sq flags data /\ frame_ok f /\
    forall fuel, wait_loop core_pid (S (S fuel)) p core_base (t / 1000) sq (World k t [idle; idle; Event 0 (Some move) 0])
      = Some (None, p <| px_scratch := f |>, reply_taken p k move t).
Proof.
  intros Esr Hinv Hb Ht Hv Hwf Hq. pose proof Hinv as (_ & _ & Hb' & _ & Hz).
  pose proof (pop_queue _ (px_scratch p) Hwf Hz) as Hpop. rewrite Hq in Hpop.
  destruct Hpop as (r' & f & E & _ & _ & Hmsg & Hok & _). assert (fr_seq f = sq) as Hsq by (by injection Hmsg).
  exists f. split; [done|split; [done|]]. intros fuel.
  cbn [wait_loop]. rewrite now_idle by done. rewrite Z.sub_diag. change (u64 0) with 0.
  destruct (Z.geb_spec 0 (cap_exchange_timeout_us (px_caps p))); [lia|]. rewrite Z.sub_0_r, u32_small, Esr by lia.
  rewrite wait_idle_move by done. cbn [pop_loop]. unfold rsp_pop. rewrite mem_op_silent.
  change (deref core_pid (sem_set (move k) sem_rsp _) core_base) with (deref core_pid (move k) core_base).
  rewrite E. cbn [fst snd]. change (default (px_scratch p) (Some f)) with f.
  cbv zeta. change (px_scratch (p <| px_scratch := f |>)) with f. rewrite Hsq, Z.sub_diag.
  change (s32 0 <? 0) with false. rewrite Z.eqb_refl. cbv iota. cbn [negb].
  unfold reply_taken. change (deref core_pid (sem_set (move k) sem_rsp _) core_base) with (deref core_pid (move k) core_base).
  by rewrite E.
Qed.

(** What the peer finds when it is woken, and what it has to have done. *)
Definition peer_woken k (seq : Z) (out : list Z) : Prop :=
  (exists i, k_maps k !! (svc_pid, svc_base) = Some i /\ k_maps k !! (core_pid, core_base) = Some i) /\
  is_Some (mapped_inode k svc_pid svc_base) /\
  ring_wf (ch_req (deref svc_pid k svc_base)) /\ ring_wf (ch_rsp (deref svc_pid k svc_base)) /\
  queue (ch_req (deref svc_pid k svc_base)) = [Msg seq 0 out] /\ queue (ch_rsp (deref svc_pid k svc_base)) = [] /\
  sem_value k sem_req = 1 /\ sem_value k sem_rsp = 0.

Definition peer_answered k (seq flags : Z) (data : list Z) : Prop :=
  0 < sem_value k sem_rsp /\ ring_wf (ch_rsp (deref core_pid k core_base)) /\
  queue (ch_rsp (deref core_pid k core_base)) = [Msg seq flags data].

(** A peer that has also taken the request and its doorbell leaves a region in which
    the next exchange can begin, once the reply is taken. *)
Definition peer_quiet k : Prop :=
  (exists i, k_maps k !! (core_pid, core_base) = Some i /\ k_maps k !! (svc_pid, svc_base) = Some i) /\
  is_Some (mapped_inode k core_pid core_base) /\
  ring_wf (ch_req (deref core_pid k core_base)) /\ queue (ch_req (deref core_pid k core_base)) = [] /\
  sem_value k sem_req = 0 /\ sem_value k sem_rsp = 1.

Lemma reply_taken_ready p k move t seq flags data :
  sem_req <> sem_rsp -> zlen (fr_data (px_scratch p)) = PLC_IPC_MAX_FRAME_BYTES ->
  peer_answered (move k) seq flags data -> peer_quiet (move k) ->
  exists k', reply_taken p k move t = World k' t [] /\ region_ready k'.
Proof.
  intros Hne Hz (_ & Hwf & Hq) (Hi & Hm & Hwr & Hqr & Hv1 & Hv2). unfold reply_taken. cbv zeta.
  set (k2 := sem_set (move k) sem_rsp _). change (deref core_pid k2 core_base) with (deref core_pid (move k) core_base).
  pose proof (pop_queue _ (px_scratch p) Hwf Hz) as Hpop. rewrite Hq in Hpop.
  destruct Hpop as (r' & f & -> & Hwf' & _). simpl default.
  set (m := ch_set_rsp _ r'). exists (stored core_pid core_base k2 m []). split; [done|].
  assert (is_Some (mapped_inode k2 core_pid core_base)) as Hm2 by done.
  split; [rewrite maps_stored; done|]. split; [by apply mapped_stored|].
  rewrite deref_stored, !stored_sem by done. unfold m. rewrite ch_rsp_get, ch_rsp_keeps.
  do 3 (split; [done|]). split; [done|]. unfold k2. rewrite Hv2.
  split; [|by unfold sem_value, sem_set; simpl; rewrite lookup_insert_eq].
  rewrite <- Hv1. unfold sem_value, sem_set; simpl. by rewrite lookup_insert_ne.
Qed.

(** The peer moves while the proxy waits: the wait is the exchange's eighth access
    to the world. *)
Definition peered (move : kernel M -> kernel M) (t : Z) k : world M :=
  World k t (replicate 7 idle ++ [Event 0 (Some move) 0]).

(** A round trip during which the peer answers. *)
Lemma round_trip_peer k t p out move :
  link_ready k p -> 0 <= t < 2 ^ 62 -> zlen out <= PLC_IPC_MAX_FRAME_BYTES ->
  exists k1, peer_woken k1 (px_next_seq p) out /\
  forall flags data, peer_answered (move k1) (px_next_seq p) flags data ->
  exists f, msg_of f = Msg (px_next_seq p) flags data /\ frame_ok f /\
    forall fuel, proxy_round_trip core_pid (S (S fuel)) p core_base (Some out) (zlen out) (peered move t k)
      = Some (t / 1000, None, p <| px_next_seq := u32 (px_next_seq p + 1) |> <| px_scratch := f |>, reply_taken p k1 move t).
Proof.
  intros Hl Ht Hout. pose proof Hl as ((Hi & Hmap & _ & _ & _ & Hne & Hv1 & Hv2) & _ & _ & Esr & Hinv & _ & Hb).
  destruct (round_trip_sends k t p out [idle; idle; Event 0 (Some move) 0] Hl Ht Hout)
    as (m & Hw1 & Hw2 & Hq1 & Hq2 & E).
  set (k1 := stored core_pid core_base k m [(sem_req, 1)]) in *. exists k1.
  assert (deref svc_pid k1 svc_base = m) as Hd1 by (by apply deref_peer).
  assert (exists i, k_maps k1 !! (svc_pid, svc_base) = Some i /\ k_maps k1 !! (core_pid, core_base) = Some i) as Hi1.
  { destruct Hi as (i & ? & ?). exists i. unfold k1. by rewrite maps_stored. }
  split.
  { split; [done|]. split; [apply (mapped_peer core_pid core_base); [destruct Hi1 as (i & ? & ?); eauto|by apply mapped_stored]|].
    rewrite Hd1. do 4 (split; [done|]). split; [apply value_posted|]. unfold k1. by rewrite value_other. }
  intros flags data (A1 & A2 & A3).
  destruct (wait_loop_receives k1 t (p <| px_next_seq := u32 (px_next_seq p + 1) |>) move (px_next_seq p) flags data)
    as (f & Hf & Hok & Ew); try done.
  exists f. do 2 (split; [done|]). intros fuel. unfold peered. cbn [replicate app] in E |- *. rewrite E, Ew. done.
Qed.
End Link.

(** ** Padding *)

(** [l] cut to [n] bytes, or extended with zeros. *)
Definition fit (n : Z) (l : list Z) : list Z := bslice 0 (Z.min n (zlen l)) l ++ zeros (n - Z.min n (zlen l)).

Lemma zeros_app a b : 0 <= a -> 0 <= b -> zeros a ++ zeros b = zeros (a + b).
Proof. intros. unfold zeros. by rewrite Z2Nat.inj_add, replicate_add by lia. Qed.

Lemma fit_padded n l j : 0 <= n -> 0 <= j -> fit n (l ++ zeros j) = fit n l.
Proof.
  intros Hn Hj. pose proof (zlen_nonneg l). unfold fit. rewrite zlen_app, zlen_zeros by lia.
  destruct (Z.le_gt_cases n (zlen l)).
  - rewrite !Z.min_l by lia. f_equal. unfold bslice, zlen in *. change (Z.to_nat 0) with 0%nat. rewrite !drop_0. apply take_app_le. lia.
  - rewrite (Z.min_r n (zlen l)), (bslice_all l) by lia.
    assert (bslice 0 (Z.min n (zlen l + j)) (l ++ zeros j) = l ++ zeros (Z.min (n - zlen l) j)) as ->.
    { unfold bslice, zeros, zlen in *. change (Z.to_nat 0) with 0%nat. rewrite drop_0, take_app_ge by lia. f_equal. rewrite take_replicate. f_equal. lia. }
    rewrite <- app_assoc, zeros_app by lia. do 2 f_equal. lia.
Qed.

Lemma fit_fit n j l : 0 <= n -> 0 <= j -> fit n (fit j l) = fit n (bslice 0 j l).
Proof.
  intros Hn Hj. pose proof (zlen_nonneg l). unfold fit at 2. rewrite fit_padded by lia. f_equal.
  unfold bslice, zlen in *. change (Z.to_nat 0) with 0%nat. rewrite drop_0.
  destruct (Z.le_gt_cases j (Z.of_nat (length l))); [by rewrite Z.min_l by lia|].
  rewrite Z.min_r by lia. rewrite (take_ge l (Z.to_nat j)) by lia. apply take_ge. lia.
Qed.

Lemma bslice_cap a c l : zlen l <= c -> bslice 0 (Z.min a c) l = bslice 0 a l.
Proof.
  intros Hl. unfold bslice, zlen in *. change (Z.to_nat 0) with 0%nat. rewrite drop_0.
  destruct (Z.le_gt_cases a c); [by rewrite Z.min_l by lia|].
  rewrite Z.min_r, (take_ge l (Z.to_nat a)) by lia. apply take_ge. lia.
Qed.

Lemma reply_image_fit f n : frame_ok f -> 0 <= n -> reply_image f n = fit n (m_payload (msg_of f)).
Proof.
  intros [Hl Hz] Hn. unfold reply_image, fit. simpl.
  assert (zlen (take (Z.to_nat (fr_len f)) (fr_data f)) = fr_len f) as -> by (unfold zlen in *; rewrite length_take; lia).
  rewrite (Z.min_comm n). f_equal. unfold bslice. change (Z.to_nat 0) with 0%nat. rewrite !drop_0, take_take. f_equal. lia.
Qed.
