(* ===== verification/EipLink.v ===== *)
(** * Core and adapter process together

    The proxy of [EipProxy] in one process and the service loop of
    [EipService] in another, over one region: an exchange during which the
    service gets to run one round.  The theorem is the composition the two
    files are written for: what the core's outputs were, the mirror backend
    sends back, and the exchange reports it as fresh. *)

From Stdlib Require Import ZArith Lia.
From stdpp Require Import base gmap list strings tactics.
From S2P Require Import Prelude PlcTypes SpscRing Adapter Config Shm IpcProxy EipProxy EipService IpcLink.

(** One round of the service, as something that happens to the kernel. *)
Definition service_move {B} (backend : eip_backend B) (pid base sem_req sem_rsp core_timeout_us t : Z) (s : service B)
    (k : kernel eip_shm) : kernel eip_shm :=
  w_k (service_round backend pid base sem_req sem_rsp core_timeout_us s (World k t [])).2.

(** The service runs while the proxy waits. *)
Definition served {B} (backend : eip_backend B) (pid base sem_req sem_rsp core_timeout_us t : Z) (s : service B)
    (k : kernel eip_shm) : world eip_shm :=
  peered (service_move backend pid base sem_req sem_rsp core_timeout_us t s) t k.

(** A round trip during which the service answers. *)
Lemma round_trip_served {B} (backend : eip_backend B) `{BackendLaws B backend}
    core_pid core_base svc_pid svc_base sem_req sem_rsp core_timeout_us k t p (s : service B) out :
  link_ready core_pid core_base svc_pid svc_base sem_req sem_rsp k p -> service_wf backend s -> 0 <= t < 2 ^ 62 ->
  zlen out <= PLC_IPC_MAX_FRAME_BYTES ->
  exists req f k', msg_of req = Msg (px_next_seq p) 0 out /\ frame_ok req /\ frame_ok f /\
    (let '(n, reply, flags) := reply_of backend s req in
     0 <= n <= PLC_IPC_MAX_FRAME_BYTES /\ msg_of f = Msg (px_next_seq p) flags (bslice 0 n reply)) /\
    (forall fuel, proxy_round_trip core_pid (S (S fuel)) p core_base (Some out) (zlen out)
        (served backend svc_pid svc_base sem_req sem_rsp core_timeout_us t s k)
      = Some (t / 1000, None, p <| px_next_seq := u32 (px_next_seq p + 1) |> <| px_scratch := f |>, World k' t [])) /\
      region_ready core_pid core_base svc_pid svc_base sem_req sem_rsp k'.
Proof.
  intros Hl Hs Ht Hout. pose proof Hl as ((_ & _ & _ & _ & _ & Hne & _) & _ & _ & _ & (_ & _ & _ & _ & Hsz) & _). unfold served. set (move := service_move _ _ _ _ _ _ _ _).
  destruct (round_trip_peer core_pid core_base svc_pid svc_base sem_req sem_rsp k t p out move Hl Ht Hout)
    as (k1 & (Hi1 & Hm1 & Hw1 & Hw2 & Hq1 & Hq2 & Hr1 & Hr2) & Hx).
  destruct (service_round_answers backend svc_pid svc_base sem_req sem_rsp core_timeout_us k1 t s
    (Msg (px_next_seq p) 0 out) []) as (s' & m' & posts & Er & _ & Hsf & Hmsg & Hqr & Hwq & Hwr & _ & _ & Hrep); try done;
    [lia|rewrite Hr2; unfold SEM_VALUE_MAX; lia|].
  cbn [ch_rsp eip_channel] in Hq2. rewrite Hq2 in Hrep. change (zlen [] <? PLC_IPC_RING_SLOTS) with true in Hrep.
  destruct (reply_of backend s (sv_frame s')) as [[n reply] flags] eqn:Erep. destruct Hrep as (Hn & Hq' & ->).
  rewrite Hr2 in Er.
  assert (move k1 = stored svc_pid svc_base (sem_set k1 sem_req (sem_value k1 sem_req - 1)) m' [(sem_rsp, 0 + 1)]) as Emv
    by (unfold move, service_move; by rewrite Er).
  assert (deref core_pid (move k1) core_base = m') as Hd2 by (rewrite Emv; by apply deref_peer).
  assert (peer_answered core_pid core_base sem_rsp (move k1) (px_next_seq p) flags (bslice 0 n reply)) as Ha.
  { split; [rewrite Emv, value_posted; lia|]. by rewrite Hd2. }
  assert (peer_quiet core_pid core_base svc_pid svc_base sem_req sem_rsp (move k1)) as Hquiet.
  { split; [destruct Hi1 as (i & ? & ?); exists i; rewrite Emv, maps_stored; done|].
    split; [rewrite Emv; apply (mapped_peer svc_pid svc_base); [by rewrite maps_stored|by apply mapped_stored]|].
    rewrite Hd2. do 2 (split; [done|]). rewrite Emv, value_other, value_posted by done. split; [|done].
    unfold sem_value, sem_set; simpl. rewrite lookup_insert_eq. simpl. unfold sem_value in Hr1. by rewrite Hr1. }
  destruct (reply_taken_ready core_pid core_base svc_pid svc_base sem_req sem_rsp p k1 move t _ _ _ Hne Hsz Ha Hquiet)
    as (k' & Ek' & Hready).
  destruct (Hx flags (bslice 0 n reply) Ha) as (f & Hf & Hok & Ew). rewrite Ek' in Ew.
  exists (sv_frame s'), f, k'. do 3 (split; [done|]). rewrite Erep. done.
Qed.

(** ** The mirror backend *)

(** Neither of the test settings that make the mirror unusable is given. *)
Definition mirror_usable (getenv : cstr -> option cstr) (table : cfg_table) : bool :=
  (plc_cfg_bool getenv table (Some (txt "SOFTPLC_EIP_MIRROR_NO_CONNECTION")) 0 =? 0) &&
  (plc_cfg_bool getenv table (Some (txt "SOFTPLC_EIP_MIRROR_IDLE")) 0 =? 0).

(** How many bytes it sends of [out]. *)
Definition mirror_len (b : loopback_state) (out : list Z) : Z :=
  if g_input_bytes b =? 0 then zlen out else g_input_bytes b.

Lemma mirror_reply getenv table (s : service loopback_state) req sq out :
  service_wf (kLoopbackBackend getenv table) s -> frame_ok req -> msg_of req = Msg sq 0 out ->
  let '(n, reply, flags) := reply_of (kLoopbackBackend getenv table) s req in
  flags = (if mirror_usable getenv table then 0 else PLC_IPC_FRAME_DATA_INVALID) /\
  0 <= mirror_len (sv_backend s) out /\
  n = Z.min (mirror_len (sv_backend s) out) PLC_IPC_MAX_FRAME_BYTES /\ bslice 0 n reply = fit n out.
Proof.
  intros (_ & Hr & Hb) [Hl Hz] Hmsg. injection Hmsg as _ _ Hout. pose proof Hb as (Hm & Hml & Hi).
  assert (zlen out = fr_len req) as Hzo by (rewrite <- Hout; unfold zlen in *; rewrite length_take; lia).
  unfold reply_of. cbn [be_publish_outputs be_fetch_inputs kLoopbackBackend].
  set (b1 := lb_publish (fr_data req) (fr_len req) (sv_backend s)).
  assert (lb_inv b1 /\ g_mirror_len b1 = zlen out /\ bslice 0 (zlen out) (g_mirror b1) = out /\
          g_input_bytes b1 = g_input_bytes (sv_backend s)) as (Hb1 & Hml1 & Hmir & Hin1).
  { assert (bslice 0 (fr_len req) (fr_data req) = out) as E by exact Hout.
    unfold b1, lb_publish. destruct (Z.gtb_spec (fr_len req) PLC_IPC_MAX_FRAME_BYTES); [lia|].
    rewrite E, <- Hzo. destruct (Z.eqb_spec (zlen out) 0) as [E0|E0]; unfold lb_inv; cbn; (split; [split; [|lia]|split; [done|split; [|done]]]).
    - done.
    - destruct out; [done|unfold zlen in E0; simpl in E0; lia].
    - rewrite zlen_bwrite; lia.
    - apply bslice_bwrite_same; lia. }
  pose proof (lb_fetch_spec b1 (sv_reply s) PLC_IPC_MAX_FRAME_BYTES Hb1 ltac:(unfold PLC_IPC_MAX_FRAME_BYTES; lia) Hr) as Hf.
  destruct (lb_fetch (sv_reply s) PLC_IPC_MAX_FRAME_BYTES b1) as [[n reply] b2].
  destruct Hf as (-> & _ & -> & Hs). rewrite Hml1, Hin1 in *. pose proof (zlen_nonneg out).
  split; [|split; [unfold mirror_len; split_if; lia|split; [done|]]].
  - unfold reply_flags, mirror_usable. cbn. destruct (plc_cfg_bool _ _ _ _ =? 0); [|done].
    by destruct (plc_cfg_bool _ _ _ _ =? 0).
  - rewrite Hs. unfold fit. f_equal.
    assert (forall c, c <= zlen out -> bslice 0 c (g_mirror b1) = bslice 0 c out) as Hc; [|apply Hc; lia].
    intros c Hc. rewrite <- Hmir. unfold bslice. change (Z.to_nat 0) with 0%nat. rewrite !drop_0, take_take. f_equal. lia.
Qed.

(** ** The theorem *)

(** What an exchange makes of the reply it matched. *)
Definition consume_reply (p : ipc_proxy) (t0 : Z) (i : list Z) (w : world eip_shm)
    : plc_status * ipc_proxy * option (list Z) * world eip_shm :=
  if negb (Z.land (fr_flags (px_scratch p)) PLC_IPC_FRAME_DATA_INVALID =? 0)
  then proxy_unusable p (Some i) (zlen i) w
  else let '(p, inb) := proxy_deliver p (Some i) (zlen i) in
       let '(p, w) := proxy_account p t0 w in
       let p := if bool_decide (px_state p = PLC_ADAPTER_ONLINE) then p
                else p <| px_state := PLC_ADAPTER_ONLINE |> in (PLC_OK, p, inb, w).

Lemma exchange_consumes core_pid p base out i w t0 p1 w1 fuel :
  px_map p = Some base -> px_state p <> PLC_ADAPTER_CLOSED ->
  zlen out <= cap_output_bytes (px_caps p) -> zlen i <= cap_input_bytes (px_caps p) ->
  proxy_round_trip core_pid fuel p base (Some out) (zlen out) w = Some (t0, None, p1, w1) ->
  proxy_exchange core_pid fuel p (Some out) (zlen out) (Some i) (zlen i) w = Some (consume_reply p1 t0 i w1).
Proof.
  intros Emap Hst Hout Hin Hrt. unfold proxy_exchange, consume_reply.
  rewrite Emap, bool_decide_eq_false_2 by done.
  destruct (Z.gtb_spec (zlen out) (cap_output_bytes (px_caps p))); [lia|].
  destruct (Z.gtb_spec (zlen i) (cap_input_bytes (px_caps p))); [lia|]. cbn [orb]. rewrite Hrt.
  destruct (negb _); [done|]. destruct (proxy_deliver _ _ _) as [p2 inb]. by destruct (proxy_account _ _ _).
Qed.

Lemma zlen_reply_len f n : frame_ok f -> 0 <= n -> zlen (reply_image f n) = n.
Proof. intros [Hl Hz] Hn. unfold reply_image. rewrite zlen_app, zlen_bslice, zlen_zeros by lia. lia. Qed.

Lemma account_ready base sem_req sem_rsp p t0 (w : world eip_shm) :
  px_ready base sem_req sem_rsp p ->
  px_ready base sem_req sem_rsp (proxy_account p t0 w).1 /\ px_caps (proxy_account p t0 w).1 = px_caps p /\
  px_last_good (proxy_account p t0 w).1 = px_last_good p.
Proof.
  intros Hr. unfold proxy_account. destruct (plc_now_us w) as [now w1].
  destruct (plc_staleness_mark_fresh _ w1) as [stale w2]. by destruct (_ >? _).
Qed.

Lemma account_silent p t0 (w : world eip_shm) :
  w_script w = [] -> (proxy_account p t0 w).2 = w.
Proof.
  intros Hw. unfold proxy_account. pose proof (now_us_silent w Hw) as H1. destruct (plc_now_us w) as [now w1]. simpl in H1. subst w1.
  unfold plc_staleness_mark_fresh. pose proof (now_us_silent w Hw) as H2. destruct (plc_now_us w) as [now' w2]. simpl in H2. subst w2. done.
Qed.

(** A usable reply leaves a proxy that is online and ready for the next exchange. *)
Lemma consume_usable base sem_req sem_rsp p t0 i w :
  px_ready base sem_req sem_rsp p -> zlen i <= cap_input_bytes (px_caps p) ->
  frame_ok (px_scratch p) -> fr_flags (px_scratch p) = 0 -> w_script w = [] ->
  exists p', consume_reply p t0 i w = (PLC_OK, p', Some (reply_image (px_scratch p) (zlen i)), w) /\
    px_state p' = PLC_ADAPTER_ONLINE /\ px_caps p' = px_caps p /\ px_ready base sem_req sem_rsp p' /\
    px_last_good p' = bwrite 0 (reply_image (px_scratch p) (zlen i)) (px_last_good p).
Proof.
  intros (H1 & H2 & H3 & (A1 & A2 & A3 & A4 & A5) & H5 & H6) Hi Hok Hf Hw. pose proof Hok as [Hl Hz]. unfold consume_reply. rewrite Hf.
  change (negb (Z.land 0 _ =? 0)) with false. cbv iota. rewrite proxy_deliver_image by done.
  set (img := reply_image _ _). set (p1 := p <| px_last_good := bwrite 0 img (px_last_good p) |>).
  assert (px_ready base sem_req sem_rsp p1) as Hr1.
  { pose proof (zlen_nonneg i). do 3 (split; [done|]). split; [|done]. do 3 (split; [done|]). split; [|done]. simpl.
    rewrite zlen_bwrite; [done|lia|]. unfold img. rewrite zlen_reply_len by (done || lia). lia. }
  pose proof (account_silent p1 t0 w Hw) as Ew. pose proof (account_ready base sem_req sem_rsp p1 t0 w Hr1) as (Hr2 & Ec & Eg).
  destruct (proxy_account p1 t0 w) as [p2 w2]. simpl in Ew, Hr2, Ec, Eg. subst w2.
  destruct (bool_decide (px_state p2 = PLC_ADAPTER_ONLINE)) eqn:E; eexists; (split; [done|]).
  - apply bool_decide_eq_true in E. done.
  - split; [done|]. split; [done|]. split; [|done]. destruct Hr2 as (? & ? & ? & ? & _ & ?). done.
Qed.

Lemma consume_unusable p t0 i w :
  zlen i <= zlen (px_last_good p) -> fr_flags (px_scratch p) = PLC_IPC_FRAME_DATA_INVALID ->
  exists p' w', px_state p' = PLC_ADAPTER_DEGRADED /\ consume_reply p t0 i w =
    (PLC_ERR_AGAIN, p', Some match cap_failsafe_policy (px_caps p) with
                             | PLC_FAILSAFE_CLEAR => zeros (zlen i)
                             | PLC_FAILSAFE_HOLD => bslice 0 (zlen i) (px_last_good p)
                             end, w').
Proof.
  intros Hlg Hf. pose proof (zlen_nonneg i). unfold consume_reply. rewrite Hf.
  change (negb (Z.land PLC_IPC_FRAME_DATA_INVALID PLC_IPC_FRAME_DATA_INVALID =? 0)) with true. cbv iota.
  unfold proxy_unusable. destruct (plc_staleness_mark_fresh _ w) as [stale w1]. cbv zeta. simpl.
  destruct (bool_decide (px_state p = PLC_ADAPTER_DEGRADED)) eqn:E; simpl; rewrite apply_failsafe_image by (done || lia);
    eexists _, _; (split; [|done]); simpl; [|done]. by apply bool_decide_eq_true in E.
Qed.

(** The reply that comes back through the rings. *)
Lemma round_trip_mirrors getenv table core_pid core_base svc_pid svc_base sem_req sem_rsp core_timeout_us k t p
    (s : service loopback_state) out n :
  let backend := kLoopbackBackend getenv table in
  link_ready core_pid core_base svc_pid svc_base sem_req sem_rsp k p -> service_wf backend s -> 0 <= t < 2 ^ 62 ->
  zlen out <= cap_output_bytes (px_caps p) -> 0 <= n ->
  exists f k', frame_ok f /\ region_ready core_pid core_base svc_pid svc_base sem_req sem_rsp k' /\
    fr_flags f = (if mirror_usable getenv table then 0 else PLC_IPC_FRAME_DATA_INVALID) /\
    reply_image f n = fit n (bslice 0 (mirror_len (sv_backend s) out) out) /\
    forall fuel, proxy_round_trip core_pid (S (S fuel)) p core_base (Some out) (zlen out)
        (served backend svc_pid svc_base sem_req sem_rsp core_timeout_us t s k)
      = Some (t / 1000, None, p <| px_next_seq := u32 (px_next_seq p + 1) |> <| px_scratch := f |>, World k' t []).
Proof.
  intros backend Hlink Hs Ht Hout Hn. pose proof Hlink as (_ & _ & _ & _ & (_ & Hco & _) & _). pose proof (zlen_nonneg out).
  destruct (round_trip_served backend core_pid core_base svc_pid svc_base sem_req sem_rsp core_timeout_us k t p s out)
    as (req & f & k' & Hreq & Hrok & Hok & Hrep & Hrt & Hready); try done; [lia|].
  pose proof (mirror_reply getenv table s req _ out Hs Hrok Hreq) as Hmir. fold backend in Hmir.
  destruct (reply_of backend s req) as [[len reply] flags]. destruct Hrep as [Hlen Hf]. destruct Hmir as (Hfl & Hml & En & Hpay).
  exists f, k'. do 2 (split; [done|]). split; [injection Hf; congruence|]. split; [|exact Hrt].
  rewrite reply_image_fit, Hf by done. simpl m_payload. rewrite Hpay, fit_fit by lia. f_equal.
  rewrite En. apply bslice_cap. lia.
Qed.

(** An exchange with a usable mirror, and that the next one can follow. *)
Lemma exchange_mirrors getenv table core_pid core_base svc_pid svc_base sem_req sem_rsp core_timeout_us k t p
    (s : service loopback_state) out i :
  let backend := kLoopbackBackend getenv table in
  link_ready core_pid core_base svc_pid svc_base sem_req sem_rsp k p -> service_wf backend s -> 0 <= t < 2 ^ 62 ->
  zlen out <= cap_output_bytes (px_caps p) -> zlen i <= cap_input_bytes (px_caps p) -> mirror_usable getenv table = true ->
  exists p' k', link_ready core_pid core_base svc_pid svc_base sem_req sem_rsp k' p' /\
    px_state p' = PLC_ADAPTER_ONLINE /\ px_caps p' = px_caps p /\
    px_last_good p' = bwrite 0 (fit (zlen i) (bslice 0 (mirror_len (sv_backend s) out) out)) (px_last_good p) /\
    forall fuel, proxy_exchange core_pid (S (S fuel)) p (Some out) (zlen out) (Some i) (zlen i)
        (served backend svc_pid svc_base sem_req sem_rsp core_timeout_us t s k)
      = Some (PLC_OK, p', Some (fit (zlen i) (bslice 0 (mirror_len (sv_backend s) out) out)), World k' t []).
Proof.
  intros backend Hlink Hs Ht Hout Hin Hu. subst backend. pose proof Hlink as (_ & Hpx). pose proof Hpx as (Emap & H2 & H3 & Hsz & Hst & Hto).
  destruct (round_trip_mirrors getenv table core_pid core_base svc_pid svc_base sem_req sem_rsp core_timeout_us k t p s out
    (zlen i) Hlink Hs Ht Hout (zlen_nonneg i)) as (f & k' & Hok & Hready & Hfl & Himg & Hrt). rewrite Hu in Hfl.
  set (p1 := p <| px_next_seq := _ |> <| px_scratch := f |>) in Hrt.
  assert (px_ready core_base sem_req sem_rsp p1) as Hp1.
  { do 3 (split; [done|]). split; [|done]. destruct Hsz as (? & ? & ? & ? & _). do 4 (split; [done|]). apply Hok. }
  destruct (consume_usable core_base sem_req sem_rsp p1 (t / 1000) i (World k' t []) Hp1 Hin Hok Hfl eq_refl)
    as (p' & E & Hon & Hcaps & Hready' & Hheld). rewrite <- Himg.
  exists p', k'. do 4 (split; [done|]). intros fuel.
  rewrite (exchange_consumes core_pid p core_base out i _ _ _ _ _ Emap Hst Hout Hin (Hrt fuel)). by rewrite E.
Qed.

(** [C3] Core and adapter process work together.  Both map one region, the
    doorbells are quiet and no request is left over; old replies may be.  If
    the service runs one round while the proxy waits, the exchange returns,
    whatever was queued before.  With the mirror backend usable it returns
    [PLC_OK], the adapter is online, and the input image is the outputs just
    sent, cut to the assembly's size and extended with zeros; with the mirror
    idle or unconnected it returns [PLC_ERR_AGAIN], the adapter is degraded, and
    the image is the failsafe policy's. *)
Theorem eip_link_mirrors (getenv : cstr -> option cstr) (table : cfg_table)
    (core_pid core_base svc_pid svc_base sem_req sem_rsp core_timeout_us : Z)
    (k : kernel eip_shm) (t : Z) (p : ipc_proxy) (s : service loopback_state) (out i : list Z)
    (Hlink : link_ready core_pid core_base svc_pid svc_base sem_req sem_rsp k p)
    (Hs : service_wf (kLoopbackBackend getenv table) s) (Ht : 0 <= t < 2 ^ 62)
    (Hout : zlen out <= cap_output_bytes (px_caps p)) (Hin : zlen i <= cap_input_bytes (px_caps p)) :
  let w := served (kLoopbackBackend getenv table) svc_pid svc_base sem_req sem_rsp core_timeout_us t s k in
  exists st p' i' w',
    returns (fun fuel => proxy_exchange core_pid fuel p (Some out) (zlen out) (Some i) (zlen i) w) (st, p', Some i', w') /\
    if mirror_usable getenv table
    then st = PLC_OK /\ px_state p' = PLC_ADAPTER_ONLINE /\
         i' = fit (zlen i) (bslice 0 (mirror_len (sv_backend s) out) out)
    else st = PLC_ERR_AGAIN /\ px_state p' = PLC_ADAPTER_DEGRADED /\
         i' = match cap_failsafe_policy (px_caps p) with
              | PLC_FAILSAFE_CLEAR => zeros (zlen i)
              | PLC_FAILSAFE_HOLD => bslice 0 (zlen i) (px_last_good p)
              end.
Proof.
  pose proof Hlink as (_ & Emap & _ & _ & Hsz & Hst & _). pose proof Hsz as (Hci & _ & _ & Hlg & _).
  cbv zeta. destruct (mirror_usable getenv table) eqn:Hu.
  - destruct (exchange_mirrors getenv table core_pid core_base svc_pid svc_base sem_req sem_rsp core_timeout_us k t p s out i)
      as (p' & k' & _ & Hon & _ & _ & Hx); try done.
    eexists _, p', _, (World k' t []). split; [|done]. exists 2%nat. intros [|[|fuel]] Hfu; [lia|lia|]. apply Hx.
  - destruct (round_trip_mirrors getenv table core_pid core_base svc_pid svc_base sem_req sem_rsp core_timeout_us k t p s out
      (zlen i) Hlink Hs Ht Hout (zlen_nonneg i)) as (f & k' & _ & _ & Hfl & _ & Hrt). rewrite Hu in Hfl.
    set (p1 := p <| px_next_seq := _ |> <| px_scratch := f |>) in Hrt.
    destruct (consume_unusable p1 (t / 1000) i (World k' t [])) as (p' & w' & Hdeg & E); [simpl; lia|done|].
    eexists _, p', _, w'. split; [|done]. exists 2%nat. intros [|[|fuel]] Hfu; [lia|lia|].
    rewrite (exchange_consumes core_pid p core_base out i _ _ _ _ _ Emap Hst Hout Hin (Hrt fuel)). by rewrite E.
Qed.

(** Process 1 is the core, process 2 the adapter process; a stale reply waits. *)
Definition link_kernel : kernel eip_shm :=
  Kernel (k_names eip_kernel) {[4 := Inode 4480 (eip_shm_zero <| em_rsp := one_request |>) (Some (1, 5))]}
         (k_fds eip_kernel) {[(1, 6) := 4; (2, 10) := 4]} ∅ {[7 := 0; 8 := 0]} 11.

Lemma link_kernel_ready : link_ready 1 6 2 10 7 8 link_kernel eip_example.
Proof.
  split; [|split; [reflexivity|split; [reflexivity|split; [reflexivity|split; [exact (px_inv_sized _ eip_example_inv)|split; [discriminate|reflexivity]]]]]].
  split; [by exists 4|]. split; [by eexists|]. split; [exact ring_zero_wf|]. split; [exact (proj1 (proj2 service_kernel_wf))|].
  split; [vm_compute; reflexivity|]. split; [lia|]. split; reflexivity.
Qed.

Lemma eip_link_mirrors_witness :
  exists p' w', returns (fun fuel => proxy_exchange 1 fuel eip_example (Some [1; 2; 3; 4]) 4 (Some [0; 0; 0; 0]) 4
      (served mirror_backend 2 10 7 8 2000000 5000 service_example link_kernel)) (PLC_OK, p', Some [1; 2; 3; 4], w') /\
    px_state p' = PLC_ADAPTER_ONLINE.
Proof.
  destruct (eip_link_mirrors (fun _ => None) (Table [] []) 1 6 2 10 7 8 2000000 link_kernel 5000 eip_example
              service_example [1; 2; 3; 4] [0; 0; 0; 0]) as (st & p' & i' & w' & Hret & Hcase);
    [exact link_kernel_ready|exact service_example_wf|lia|vm_compute; congruence|vm_compute; congruence|].
  change (mirror_usable (fun _ => None) (Table [] [])) with true in Hcase. destruct Hcase as (-> & Hon & ->).
  exists p', w'. split; [exact Hret|exact Hon].
Defined.
