(* ===== verification/EipOpener.v ===== *)
(** * The OpENer backend of the adapter process

    [src/adapters/eip/eip_backend_opener.c]: the state it shares between
    OpENer's thread and the IPC thread, the application call-backs OpENer makes,
    and the [eip_backend] the service loop of [EipService] drives.

    OpENer itself is not part of the repository.  What it answers to a call is
    an argument ([opener_answers]); what it is asked is recorded in [og_calls];
    what it does on its own thread is a list of events, each one call-back, in
    which the contents it left in the consumed assembly are arbitrary.  Every
    call-back and every backend call holds the assembly lock across its copy or
    is a single atomic access, so an interleaving of the two threads is a list of
    these steps.

    The theorems: the image the core receives and the image on the wire are
    exactly the last one handed over, whatever came in between; the connection
    count and the run/idle flag follow the call-backs; start-up and shutdown pair
    every resource on every path; and the backend satisfies [BackendLaws], so
    that what [EipService] shows holds of it. *)

From Stdlib Require Import ZArith Lia.
From stdpp Require Import base gmap list strings tactics.
From S2P Require Import Prelude PlcTypes SpscRing Adapter Config Shm IpcProxy EipProxy EipService.

Definition EIP_DEFAULT_HEARTBEAT_INPUT_ONLY_ASSEMBLY : Z := 152.
Definition EIP_DEFAULT_HEARTBEAT_LISTEN_ONLY_ASSEMBLY : Z := 153.
Definition IFNAMSIZ : Z := 16.
Definition CONFIG_BYTES : Z := 64.

(** ** What OpENer and the system are asked *)

Inductive connection_point : Type := ExclusiveOwner | InputOnly | ListenOnly.
Inductive extended_status : Type := AtLeastOneInRun | AllInIdle.

Inductive opener_call : Type :=
| ConnectionListInit
| GetMac (iface : string)
| CipStackInit
| ShutdownCipStack
| SetMac
| LoadNvData
| NetworkInit
| NetworkFinish
| ThreadCreate
| ThreadJoin
| CreateAssembly (id : Z) (buffer : option nat) (bytes : Z)  (** which buffer: 0 produced, 1 consumed, 2 config *)
| ConfigurePoint (kind : connection_point) (o2t t2o cfg : Z)
| PersistAttributes
| SetExtendedStatus (s : extended_status)
| CloseAllConnections
| QosUpdate
| QosReset
| InactivityTimeout (s : Z).

(** What the calls that can fail answer: [true] is success. *)
Record opener_answers : Type := Answers {
  an_mac : bool;
  an_stack : bool;
  an_nvdata : bool;
  an_network : bool;
  an_thread : bool
}.
#[export] Instance eta_opener_answers : Eta opener_answers := fun r =>
  Answers (an_mac r) (an_stack r) (an_nvdata r) (an_network r) (an_thread r).

Inductive eip_status : Type := kEipStatusOk | kEipStatusError.
Inductive io_connection_event : Type :=
| kIoConnectionEventOpened
| kIoConnectionEventTimedOut
| kIoConnectionEventClosed.

(** ** State *)

Record opener_state : Type := Opener {
  og_end_stack : bool;
  og_produced : list Z;  (** T->O, touched by OpENer's thread only *)
  og_consumed : list Z;  (** O->T, touched by OpENer's thread only *)
  og_produced_pending : list Z;
  og_consumed_snapshot : list Z;
  og_cfg : eip_backend_config;
  og_stack_running : bool;
  og_stack_initialised : bool;
  og_io_connections : Z;
  og_peer_in_run : Z;
  og_assembly_writes : Z;
  og_calls : list opener_call  (** what has been asked so far, oldest first *)
}.
#[export] Instance eta_opener_state : Eta opener_state := fun r =>
  Opener (og_end_stack r) (og_produced r) (og_consumed r) (og_produced_pending r)
    (og_consumed_snapshot r) (og_cfg r) (og_stack_running r) (og_stack_initialised r)
    (og_io_connections r) (og_peer_in_run r) (og_assembly_writes r) (og_calls r).

(** The static variables at program start. *)
Definition opener_zero : opener_state :=
  Opener false (zeros PLC_IPC_MAX_FRAME_BYTES) (zeros PLC_IPC_MAX_FRAME_BYTES)
    (zeros PLC_IPC_MAX_FRAME_BYTES) (zeros PLC_IPC_MAX_FRAME_BYTES)
    (BackendConfig None 0 0 0 0 0) false false 0 1 0 [].

Section Opener.
(** The cast to [CipInstanceNum], whose width is OpENer's choice. *)
Context (instance_num : Z -> Z) (answers : opener_answers).
Implicit Types (g : opener_state).

Definition ask (c : opener_call) g : opener_state := g <| og_calls := og_calls g ++ [c] |>.
Definition asks (cs : list opener_call) g : opener_state := g <| og_calls := og_calls g ++ cs |>.

(** ** Call-backs *)

Definition ApplicationInitialization g : eip_status * opener_state :=
  let c := og_cfg g in
  (kEipStatusOk, asks
    [CreateAssembly (instance_num (bc_produced_assembly c)) (Some 0%nat) (u16 (bc_output_bytes c));
     CreateAssembly (instance_num (bc_consumed_assembly c)) (Some 1%nat) (u16 (bc_input_bytes c));
     CreateAssembly (instance_num (bc_config_assembly c)) (Some 2%nat) (u16 CONFIG_BYTES);
     CreateAssembly EIP_DEFAULT_HEARTBEAT_INPUT_ONLY_ASSEMBLY None 0;
     CreateAssembly EIP_DEFAULT_HEARTBEAT_LISTEN_ONLY_ASSEMBLY None 0;
     ConfigurePoint ExclusiveOwner (bc_consumed_assembly c) (bc_produced_assembly c) (bc_config_assembly c);
     ConfigurePoint InputOnly EIP_DEFAULT_HEARTBEAT_INPUT_ONLY_ASSEMBLY (bc_produced_assembly c) (bc_config_assembly c);
     ConfigurePoint ListenOnly EIP_DEFAULT_HEARTBEAT_LISTEN_ONLY_ASSEMBLY (bc_produced_assembly c) (bc_config_assembly c);
     PersistAttributes; PersistAttributes] g).

(** [while (n > 0 && !compare_exchange_weak(&g, &n, n - 1))]: the exchange
    fails [spurious] times although [n] is current, then on a stale [n] only. *)
Fixpoint close_loop (spurious : nat) (n cur : Z) : Z :=
  if n >? 0 then
    match spurious with
    | S spurious => close_loop spurious cur cur
    | O => if n =? cur then u32 (n - 1) else if cur >? 0 then u32 (cur - 1) else cur
    end
  else cur.

Definition CheckIoConnectionEvent (spurious : nat) (output_id input_id : Z) (e : io_connection_event) g : opener_state :=
  match e with
  | kIoConnectionEventOpened => g <| og_io_connections := u32 (og_io_connections g + 1) |>
  | kIoConnectionEventClosed | kIoConnectionEventTimedOut =>
      g <| og_io_connections := close_loop spurious (og_io_connections g) (og_io_connections g) |>
  end.

(** [instance] is the instance's number, [NULL] is [None]. *)
Definition AfterAssemblyDataReceived (instance : option Z) g : eip_status * opener_state :=
  match instance with
  | None => (kEipStatusError, g)
  | Some i =>
      if i =? instance_num (bc_consumed_assembly (og_cfg g)) then
        (kEipStatusOk, g <| og_consumed_snapshot := og_consumed g |>
                         <| og_assembly_writes := u64 (og_assembly_writes g + 1) |>)
      else (kEipStatusOk, g)
  end.

Definition BeforeAssemblyDataSend (instance : option Z) g : bool * opener_state :=
  match instance with
  | Some i => if i =? instance_num (bc_produced_assembly (og_cfg g))
              then (true, g <| og_produced := og_produced_pending g |>) else (true, g)
  | None => (true, g)
  end.

Definition ResetDevice g : eip_status * opener_state := (kEipStatusOk, asks [CloseAllConnections; QosUpdate] g).
Definition ResetDeviceToInitialConfiguration g : eip_status * opener_state :=
  let g := asks [InactivityTimeout 120; QosReset] g in
  let '(_, g) := ResetDevice g in (kEipStatusOk, g).

Definition RunIdleChanged (run_idle_value : Z) g : opener_state :=
  let in_run := if Z.land run_idle_value 1 =? 1 then 1 else 0 in
  let g := ask (SetExtendedStatus (if in_run =? 1 then AtLeastOneInRun else AllInIdle)) g in
  g <| og_peer_in_run := in_run |>.

(** The stack thread's loop: [rounds] are the readings of [g_end_stack] and what
    the network handler then answers; [None] when it still runs. *)
Fixpoint stack_thread (rounds : list (bool * bool)) : option unit :=
  match rounds with
  | [] => None
  | (end_stack, ok) :: rounds => if end_stack then Some tt else if ok then stack_thread rounds else Some tt
  end.

(** ** Backend interface *)

Definition opener_init (cfg : option eip_backend_config) g : plc_status * opener_state :=
  match cfg with
  | None => (PLC_ERR_INVAL, g)
  | Some cfg =>
      match bc_interface cfg with
      | None => (PLC_ERR_INVAL, g)
      | Some interface =>
          if (bc_output_bytes cfg >? PLC_IPC_MAX_FRAME_BYTES) || (bc_input_bytes cfg >? PLC_IPC_MAX_FRAME_BYTES)
          then (PLC_ERR_INVAL, g)
          else
            let g := g <| og_cfg := cfg |> in
            let g := asks [ConnectionListInit; GetMac (snprintf_s IFNAMSIZ interface)] g in
            if negb (an_mac answers) then (PLC_ERR_IO, g)
            else
              let g := ask CipStackInit g in
              if negb (an_stack answers) then (PLC_ERR_IO, g)
              else
                let g := g <| og_stack_initialised := true |> in
                let g := asks [SetMac; LoadNvData] g in
                let g := ask NetworkInit g in
                if negb (an_network answers) then
                  let g := ask ShutdownCipStack g in
                  (PLC_ERR_IO, g <| og_stack_initialised := false |>)
                else
                  let g := g <| og_end_stack := false |> in
                  let g := ask ThreadCreate g in
                  if negb (an_thread answers) then
                    let g := asks [NetworkFinish; ShutdownCipStack] g in
                    (PLC_ERR_IO, g <| og_stack_initialised := false |>)
                  else (PLC_OK, g <| og_stack_running := true |>)
      end
  end.

Definition opener_shutdown g : opener_state :=
  let g := g <| og_end_stack := true |> in
  let g := if og_stack_running g then
             let g := ask ThreadJoin g in
             ask NetworkFinish (g <| og_stack_running := false |>)
           else g in
  if og_stack_initialised g then (ask ShutdownCipStack g) <| og_stack_initialised := false |> else g.

Definition opener_publish (data : list Z) (len : Z) g : opener_state :=
  let len := if len >? PLC_IPC_MAX_FRAME_BYTES then PLC_IPC_MAX_FRAME_BYTES else len in
  let p := if len =? 0 then og_produced_pending g else bwrite 0 (bslice 0 len data) (og_produced_pending g) in
  let p := if len <? PLC_IPC_MAX_FRAME_BYTES then bwrite len (zeros (PLC_IPC_MAX_FRAME_BYTES - len)) p else p in
  g <| og_produced_pending := p |>.

Definition opener_fetch (data : list Z) (cap : Z) g : Z * list Z * opener_state :=
  let n := bc_input_bytes (og_cfg g) in
  let n := if n >? cap then cap else n in
  let n := if n >? PLC_IPC_MAX_FRAME_BYTES then PLC_IPC_MAX_FRAME_BYTES else n in
  let data := if n =? 0 then data else bwrite 0 (bslice 0 n (og_consumed_snapshot g)) data in
  (n, data, g).

Definition opener_connections g : Z * opener_state := (og_io_connections g, g).
Definition opener_peer_in_run g : Z * opener_state := (og_peer_in_run g, g).
Definition opener_assembly_writes g : Z * opener_state := (og_assembly_writes g, g).

Definition kOpenerBackend : eip_backend opener_state :=
  Backend "opener" opener_init opener_shutdown opener_publish opener_fetch opener_connections
    (Some opener_peer_in_run) (Some opener_assembly_writes).

(** ** The two threads *)

(** One step of either thread.  [Received] is OpENer having written an O->T
    payload: the consumed assembly then holds [consumed]. *)
Inductive opener_event : Type :=
| Received (instance : option Z) (consumed : list Z)
| Sending (instance : option Z)
| Connection (spurious : nat) (output_id input_id : Z) (e : io_connection_event)
| RunIdle (value : Z)
| Publish (data : list Z) (len : Z)
| Fetch (data : list Z) (cap : Z).

Definition opener_step g (e : opener_event) : opener_state :=
  match e with
  | Received i consumed => (AfterAssemblyDataReceived i (g <| og_consumed := consumed |>)).2
  | Sending i => (BeforeAssemblyDataSend i g).2
  | Connection sp o i e => CheckIoConnectionEvent sp o i e g
  | RunIdle v => RunIdleChanged v g
  | Publish data len => opener_publish data len g
  | Fetch data cap => (opener_fetch data cap g).2
  end.

Definition opener_run (es : list opener_event) g : opener_state := foldl opener_step g es.
End Opener.

(** ** Specifications *)

(** What the stack, the network handler and the thread are in, and which calls
    are legal then: a stack is shut down only while up and idle, the network
    handler finished only while up and unused, a thread joined only while it
    exists. *)
Record resources : Type := Resources {
  rs_stack : bool;
  rs_network : bool;
  rs_thread : bool
}.
#[export] Instance eta_resources : Eta resources := fun r => Resources (rs_stack r) (rs_network r) (rs_thread r).

Definition nothing_held : resources := Resources false false false.

Definition use (a : opener_answers) (r : resources) (c : opener_call) : option resources :=
  match c with
  | CipStackInit => if rs_stack r then None else Some (r <| rs_stack := an_stack a |>)
  | NetworkInit => if rs_stack r && negb (rs_network r) then Some (r <| rs_network := an_network a |>) else None
  | ThreadCreate => if rs_network r && negb (rs_thread r) then Some (r <| rs_thread := an_thread a |>) else None
  | ThreadJoin => if rs_thread r then Some (r <| rs_thread := false |>) else None
  | NetworkFinish => if rs_network r && negb (rs_thread r) then Some (r <| rs_network := false |>) else None
  | ShutdownCipStack => if rs_stack r && negb (rs_network r) then Some (r <| rs_stack := false |>) else None
  | _ => Some r
  end.

(** [None]: some call was not legal. *)
Definition use_all (a : opener_answers) (r : resources) (cs : list opener_call) : option resources :=
  foldl (fun r c => r ≫= fun r => use a r c) (Some r) cs.

Section Lemmas.
Context (instance_num : Z -> Z) (answers : opener_answers).
Implicit Types (g : opener_state) (es : list opener_event).

Definition opener_inv g : Prop :=
  zlen (og_produced_pending g) = PLC_IPC_MAX_FRAME_BYTES /\
  zlen (og_consumed_snapshot g) = PLC_IPC_MAX_FRAME_BYTES /\ 0 <= bc_input_bytes (og_cfg g) /\
  0 <= og_io_connections g < 2 ^ 32.

(** Buffers are as large as their declarations. *)
Definition event_ok (e : opener_event) : Prop :=
  match e with
  | Received _ consumed => zlen consumed = PLC_IPC_MAX_FRAME_BYTES
  | Publish data len => 0 <= len /\ Z.min len PLC_IPC_MAX_FRAME_BYTES <= zlen data
  | Fetch data cap => 0 <= cap /\ zlen data = cap
  | _ => True
  end.

(** A published image as it goes out: cut or extended with zeros. *)
Definition padded (data : list Z) (len : Z) : list Z :=
  let n := Z.min len PLC_IPC_MAX_FRAME_BYTES in bslice 0 n data ++ zeros (PLC_IPC_MAX_FRAME_BYTES - n).

(** What an event hands over. *)
Definition received_by (consumed_id : Z) (e : opener_event) : option (list Z) :=
  match e with
  | Received (Some i) consumed => if i =? instance_num consumed_id then Some consumed else None
  | _ => None
  end.
Definition published_by (e : opener_event) : option (list Z) :=
  match e with Publish data len => Some (padded data len) | _ => None end.
Definition run_told_by (e : opener_event) : option Z :=
  match e with RunIdle v => Some (if Z.land v 1 =? 1 then 1 else 0) | _ => None end.
Definition conn_delta (e : opener_event) : Z :=
  match e with
  | Connection _ _ _ kIoConnectionEventOpened => 1
  | Connection _ _ _ _ => -1
  | _ => 0
  end.
Definition conn_sum es : Z := foldr (fun e n => conn_delta e + n) 0 es.

(** What the last event with something to hand over handed over. *)
Definition latest {T} (f : opener_event -> option T) (d : T) es : T := foldl (fun d e => default d (f e)) d es.

Lemma publish_pending data len g :
  zlen (og_produced_pending g) = PLC_IPC_MAX_FRAME_BYTES -> 0 <= len -> Z.min len PLC_IPC_MAX_FRAME_BYTES <= zlen data ->
  og_produced_pending (opener_publish data len g) = padded data len.
Proof.
  intros Hz Hl Hd. unfold opener_publish, padded.
  replace (if len >? PLC_IPC_MAX_FRAME_BYTES then PLC_IPC_MAX_FRAME_BYTES else len) with (Z.min len PLC_IPC_MAX_FRAME_BYTES)
    by (destruct (Z.gtb_spec len PLC_IPC_MAX_FRAME_BYTES); lia).
  set (n := Z.min len PLC_IPC_MAX_FRAME_BYTES) in *. assert (0 <= n <= PLC_IPC_MAX_FRAME_BYTES) as Hn by (unfold PLC_IPC_MAX_FRAME_BYTES in *; lia).
  assert (zlen (bslice 0 n data) = n) as Hs by (apply zlen_bslice; lia). set (src := bslice 0 n data) in *.
  assert (forall l, zlen l = PLC_IPC_MAX_FRAME_BYTES -> bwrite 0 l (og_produced_pending g) = l) as Hwhole.
  { intros l E. unfold bwrite, zlen in *. simpl. rewrite drop_ge by lia. apply app_nil_r. }
  simpl.
  assert ((if n =? 0 then og_produced_pending g else bwrite 0 src (og_produced_pending g)) = bwrite 0 src (og_produced_pending g)) as ->.
  { destruct (Z.eqb_spec n 0); [|done]. assert (src = []) as -> by (destruct src; [done|unfold zlen in Hs; simpl in Hs; lia]). done. }
  destruct (Z.ltb_spec n PLC_IPC_MAX_FRAME_BYTES).
  - replace n with (0 + zlen src) at 1 by lia.
    rewrite bwrite_bwrite by (rewrite ?zlen_zeros; lia). apply Hwhole. rewrite zlen_app, zlen_zeros; lia.
  - rewrite Hwhole by lia. replace (PLC_IPC_MAX_FRAME_BYTES - n) with 0 by lia. by rewrite app_nil_r.
Qed.

Lemma zlen_padded data len :
  0 <= len -> Z.min len PLC_IPC_MAX_FRAME_BYTES <= zlen data -> zlen (padded data len) = PLC_IPC_MAX_FRAME_BYTES.
Proof.
  intros. unfold padded. rewrite zlen_app, zlen_bslice, zlen_zeros; unfold PLC_IPC_MAX_FRAME_BYTES in *; lia.
Qed.

Lemma close_loop_spec n spurious : 0 <= n < 2 ^ 32 -> close_loop spurious n n = Z.max 0 (n - 1).
Proof.
  intros Hn. induction spurious as [|k IH]; simpl; destruct (Z.gtb_spec n 0); try lia.
  rewrite Z.eqb_refl, u32_small; lia.
Qed.

(** One step: what each part of the state becomes. *)
Lemma opener_step_spec g e :
  opener_inv g -> event_ok e ->
  let g' := opener_step instance_num g e in
  opener_inv g' /\ og_cfg g' = og_cfg g /\
  og_consumed_snapshot g' = default (og_consumed_snapshot g) (received_by (bc_consumed_assembly (og_cfg g)) e) /\
  og_produced_pending g' = default (og_produced_pending g) (published_by e) /\
  og_peer_in_run g' = default (og_peer_in_run g) (run_told_by e) /\
  og_io_connections g' = (if conn_delta e =? 1 then u32 (og_io_connections g + 1) else Z.max 0 (og_io_connections g + conn_delta e)).
Proof.
  intros (Hp & Hs & Hi & Hc) He. pose proof (u32_range (og_io_connections g + 1)). unfold opener_inv.
  destruct e as [i c|i|sp o i e|v|data len|data cap]; [simpl|simpl|simpl|simpl| |simpl].
  - destruct i as [i|]; simpl; [|rewrite Z.add_0_r, Z.max_r by lia; done].
    destruct (i =? _); simpl; rewrite Z.add_0_r, Z.max_r by lia; done.
  - destruct i as [i|]; simpl; [|rewrite Z.add_0_r, Z.max_r by lia; done].
    destruct (i =? _); simpl; rewrite Z.add_0_r, Z.max_r by lia; done.
  - destruct e; simpl; rewrite ?close_loop_spec by done; (split; [split_and!; try done; lia|]); done.
  - rewrite Z.add_0_r, Z.max_r by lia. done.
  - destruct He as [Hl Hd]. cbn [opener_step]. cbv zeta. rewrite publish_pending, zlen_padded by done.
    change (og_io_connections (opener_publish data len g)) with (og_io_connections g). simpl conn_delta.
    rewrite Z.add_0_r, Z.max_r by lia. done.
  - rewrite Z.add_0_r, Z.max_r by lia. done.
Qed.

Lemma latest_snoc {T} (f : opener_event -> option T) es e (d : T) : latest f d (es ++ [e]) = default (latest f d es) (f e).
Proof. unfold latest. by rewrite foldl_app. Qed.

Lemma opener_run_snoc es e g : opener_run instance_num (es ++ [e]) g = opener_step instance_num (opener_run instance_num es g) e.
Proof. unfold opener_run. by rewrite foldl_app. Qed.

Lemma opener_run_spec es g :
  opener_inv g -> Forall event_ok es ->
  let g' := opener_run instance_num es g in
  opener_inv g' /\ og_cfg g' = og_cfg g /\
  og_consumed_snapshot g' = latest (received_by (bc_consumed_assembly (og_cfg g))) (og_consumed_snapshot g) es /\
  og_produced_pending g' = latest published_by (og_produced_pending g) es /\
  og_peer_in_run g' = latest run_told_by (og_peer_in_run g) es.
Proof.
  intros Hg. induction es as [|e es IH] using rev_ind; intros Hes; [done|].
  apply Forall_app in Hes as [Hes He]. apply Forall_cons_1 in He as [He _].
  destruct (IH Hes) as (Hi & Hc & Hs & Hp & Hr). rewrite opener_run_snoc. cbv zeta.
  destruct (opener_step_spec (opener_run instance_num es g) e Hi He) as (Hi' & Hc' & Hs' & Hp' & Hr' & _).
  rewrite Hc', Hs', Hp', Hr', Hc, Hs, Hp, Hr, !latest_snoc. done.
Qed.
End Lemmas.

(** ** The interface to the service loop *)

#[export] Instance opener_backend_laws answers : BackendLaws (kOpenerBackend answers).
Proof.
  refine {| be_inv := opener_inv |}.
  - intros data len g Hg Hl Hd. apply (opener_step_spec id g (Publish data len) Hg). simpl.
    unfold PLC_IPC_MAX_FRAME_BYTES in *. lia.
  - intros data cap g Hg Hc Hd. simpl. unfold opener_fetch. pose proof Hg as (_ & Hs & Hi & _).
    set (n := if _ >? PLC_IPC_MAX_FRAME_BYTES then _ else _).
    assert (0 <= n <= cap /\ n <= PLC_IPC_MAX_FRAME_BYTES) as [Hn Hm].
    { subst n. destruct (Z.gtb_spec (bc_input_bytes (og_cfg g)) cap);
        match goal with |- context [?a >? ?b] => destruct (Z.gtb_spec a b) end; unfold PLC_IPC_MAX_FRAME_BYTES in *; lia. }
    split; [done|split; [|done]]. destruct (n =? 0); [done|]. rewrite zlen_bwrite; rewrite ?zlen_bslice; lia.
  - done.
  - by intros f b [= <-].
  - by intros f b [= <-].
Defined.

(** ** Theorems *)

(** [C17] Both images are handed over whole and in order.  After any
    interleaving of OpENer's call-backs with the service's calls, the service
    fetches the contents the consumed assembly had when OpENer last reported data
    for it, cut to the configured size; OpENer sends the outputs published last,
    cut to the frame or extended with zeros; and the buffer OpENer serialises
    changes at no other moment than the call-back before a send. *)
Theorem opener_images_handed_over (instance_num : Z -> Z) (g : opener_state) (es : list opener_event)
    (Hg : opener_inv g) (Hes : Forall event_ok es) :
  let g' := opener_run instance_num es g in
  let c := og_cfg g in
  (forall data cap, 0 <= cap -> zlen data = cap ->
     let '(n, data', g'') := opener_fetch data cap g' in
     n = Z.min (Z.min (bc_input_bytes c) cap) PLC_IPC_MAX_FRAME_BYTES /\ g'' = g' /\
     bslice 0 n data' = bslice 0 n (latest (received_by instance_num (bc_consumed_assembly c)) (og_consumed_snapshot g) es)) /\
  og_produced (opener_step instance_num g' (Sending (Some (instance_num (bc_produced_assembly c)))))
    = latest published_by (og_produced_pending g) es /\
  (forall e, (forall i, e <> Sending i) -> og_produced (opener_step instance_num g' e) = og_produced g').
Proof.
  destruct (opener_run_spec instance_num es g Hg Hes) as (Hi & Hc & Hs & Hp & _). cbv zeta.
  set (g' := opener_run instance_num es g) in *. rewrite <- Hs, <- Hp, <- Hc. pose proof Hi as (_ & Hz & Hb & _).
  split; [|split].
  - intros data cap H0 Hd. unfold opener_fetch.
    set (n := if _ >? PLC_IPC_MAX_FRAME_BYTES then _ else _).
    assert (n = Z.min (Z.min (bc_input_bytes (og_cfg g')) cap) PLC_IPC_MAX_FRAME_BYTES) as E.
    { subst n. destruct (Z.gtb_spec (bc_input_bytes (og_cfg g')) cap);
        match goal with |- context [?a >? ?b] => destruct (Z.gtb_spec a b) end; lia. }
    split; [done|split; [done|]]. destruct (Z.eqb_spec n 0) as [->|]; [done|].
    assert (zlen (bslice 0 n (og_consumed_snapshot g')) = n) as Hn by (apply zlen_bslice; unfold PLC_IPC_MAX_FRAME_BYTES in *; lia).
    rewrite <- Hn at 1. apply bslice_bwrite_same; lia.
  - simpl. by rewrite Z.eqb_refl.
  - intros e He. destruct e as [i c|i| ? ? ? e| | |]; try done; [|by destruct (He i)|by destruct e].
    destruct i as [i|]; simpl; [|done]. by destruct (i =? _).
Qed.

(** The state after a successful start with four bytes each way. *)
Definition opener_example : opener_state :=
  (opener_init (Answers true true true true true) (Some (BackendConfig (Some "eth0") 100 150 151 4 4)) opener_zero).2.
(** A connection, data, outputs, a send, newer outputs, newer data. *)
Definition opener_history : list opener_event :=
  [Connection 0 150 100 kIoConnectionEventOpened; Received (Some 150) (bwrite 0 [1; 2; 3; 4] (zeros PLC_IPC_MAX_FRAME_BYTES));
   Publish [7; 7] 2; Sending (Some 100); RunIdle 1; Publish [8; 9] 2;
   Received (Some 150) (bwrite 0 [5; 6; 7; 8] (zeros PLC_IPC_MAX_FRAME_BYTES)); Received (Some 151) (zeros PLC_IPC_MAX_FRAME_BYTES)].

Lemma opener_example_inv : opener_inv opener_example.
Proof. split; [reflexivity|split; [reflexivity|split; vm_compute; [congruence|split; congruence]]]. Qed.

Lemma opener_history_ok : Forall event_ok opener_history.
Proof. repeat constructor; vm_compute; congruence. Qed.

Lemma opener_images_handed_over_witness :
  let g' := opener_run id opener_history opener_example in
  bslice 0 4 (opener_fetch (zeros 8) 8 g').1.2 = [5; 6; 7; 8] /\
  bslice 0 4 (og_produced (opener_step id g' (Sending (Some 100)))) = [8; 9; 0; 0].
Proof.
  destruct (opener_images_handed_over id opener_example opener_history opener_example_inv opener_history_ok) as (Hf & Hp & _).
  specialize (Hf (zeros 8) 8 ltac:(lia) eq_refl). cbv zeta in *.
  set (g' := opener_run id opener_history opener_example) in *.
  destruct (opener_fetch (zeros 8) 8 g') as [[n d] g'']. destruct Hf as (En & _ & Hd).
  change (n = 4) in En. subst n. split.
  - transitivity (bslice 0 4 (latest (received_by id 150) (og_consumed_snapshot opener_example) opener_history)); [exact Hd|reflexivity].
  - transitivity (bslice 0 4 (latest published_by (og_produced_pending opener_example) opener_history)); [|reflexivity].
    exact (f_equal (bslice 0 4) Hp).
Defined.

Lemma latest_quiet {T} (f : opener_event -> option T) (d : T) es : Forall (fun e => f e = None) es -> latest f d es = d.
Proof. intros Hes. revert d. induction Hes as [|e es He Hes IH]; intros d; [done|]. unfold latest in *. simpl. by rewrite He, IH. Qed.

Lemma connections_sum instance_num es g :
  opener_inv g -> Forall event_ok es -> (forall n, 0 <= og_io_connections g + conn_sum (take n es) < 2 ^ 32) ->
  og_io_connections (opener_run instance_num es g) = og_io_connections g + conn_sum es.
Proof.
  intros Hg. assert (forall l l', conn_sum (l ++ l') = conn_sum l + conn_sum l') as Hsum
    by (intros l l'; induction l as [|e l IH]; simpl; [done|rewrite IH; lia]).
  induction es as [|e es IH] using rev_ind; intros Hes Hbal; [simpl; unfold opener_run; simpl; lia|].
  apply Forall_app in Hes as [Hes He]. apply Forall_cons_1 in He as [He _].
  rewrite opener_run_snoc. destruct (opener_run_spec instance_num es g Hg Hes) as (Hi & _).
  destruct (opener_step_spec instance_num (opener_run instance_num es g) e Hi He) as (_ & _ & _ & _ & _ & ->).
  rewrite IH; [|done|].
  - rewrite Hsum. simpl. rewrite Z.add_0_r. pose proof (Hbal (length (es ++ [e]))) as Hall. rewrite take_ge, Hsum in Hall by lia.
    simpl in Hall. destruct (Z.eqb_spec (conn_delta e) 1) as [E|E]; [rewrite E in *; rewrite u32_small; lia|lia].
  - intros n. destruct (decide (n <= length es)%nat).
    + rewrite <- (take_app_le es [e]) by done. apply Hbal.
    + rewrite take_ge by lia. specialize (Hbal (length es)). by rewrite take_app_length in Hbal.
Qed.

(** The event neither opens or closes a connection nor carries a run/idle header. *)
Definition uneventful (e : opener_event) : Prop :=
  match e with Connection _ _ _ _ | RunIdle _ => False | _ => True end.

(** [C24] The status the core's failsafe depends on follows the call-backs.  If
    OpENer reports no more closings than openings at any point, the connection
    count is exactly the connections that are open, however often the
    compare-and-exchange fails spuriously.  The run flag, which starts out set, stays
    set while no originator has sent a run/idle header, so that connections without
    the header are not mistaken for idle ones, and it is what the last header said
    as long as no connection has been opened or closed after that header.  A
    connection without a header opened after an idle one is outside this statement:
    there the flag goes on saying idle, against the comment in the code
    ([opener_idle_outlives_connection]). *)
Theorem opener_connections_counted (instance_num : Z -> Z) (g : opener_state) (es : list opener_event)
    (Hg : opener_inv g) (Hes : Forall event_ok es)
    (Hbal : forall n, 0 <= og_io_connections g + conn_sum (take n es) < 2 ^ 32) :
  let g' := opener_run instance_num es g in
  (opener_connections g').1 = og_io_connections g + conn_sum es /\
  (og_peer_in_run g = 1 -> Forall (fun e => run_told_by e = None) es -> (opener_peer_in_run g').1 = 1) /\
  (forall before v after, es = before ++ RunIdle v :: after -> Forall uneventful after ->
     (opener_peer_in_run g').1 = if Z.odd v then 1 else 0).
Proof.
  cbv zeta. split; [by apply connections_sum|].
  destruct (opener_run_spec instance_num es g Hg Hes) as (_ & _ & _ & _ & Er). cbn [opener_peer_in_run fst]. rewrite Er.
  split; [intros E1 Hq; by rewrite latest_quiet|]. intros before v after -> Ha.
  replace (before ++ RunIdle v :: after) with ((before ++ [RunIdle v]) ++ after) by (by rewrite <- app_assoc).
  unfold latest. rewrite foldl_app. fold (latest run_told_by (og_peer_in_run g) (before ++ [RunIdle v])).
  fold (latest run_told_by (latest run_told_by (og_peer_in_run g) (before ++ [RunIdle v])) after).
  rewrite latest_quiet by (eapply List.Forall_impl; [|exact Ha]; by intros []). rewrite latest_snoc. simpl.
  change 1 with (Z.ones 1) at 1. rewrite Z.land_ones by lia. change (2 ^ 1) with 2. rewrite Zmod_odd. by destruct (Z.odd v).
Qed.

Lemma opener_connections_counted_witness :
  (opener_connections (opener_run id opener_history opener_example)).1 = 1 /\
  (opener_peer_in_run (opener_run id opener_history opener_example)).1 = 1.
Proof.
  destruct (opener_connections_counted id opener_example opener_history opener_example_inv opener_history_ok) as (Hc & _ & Hr).
  - intros n. do 9 (destruct n as [|n]; [vm_compute; split; congruence|]). vm_compute. split; congruence.
  - split; [exact Hc|]. apply (Hr (take 4 opener_history) 1 (drop 5 opener_history)); [reflexivity|repeat constructor].
Defined.

(** Once nothing is held, shutting down again asks nothing of the stack. *)
Lemma shutdown_idle g :
  og_stack_running g = false -> og_stack_initialised g = false -> opener_shutdown g = g <| og_end_stack := true |>.
Proof. intros Hr Hi. unfold opener_shutdown. simpl. by rewrite Hr, Hi. Qed.

Lemma shutdown_iter k g : Nat.iter k opener_shutdown (opener_shutdown g) = opener_shutdown (Nat.iter k opener_shutdown g).
Proof. induction k as [|k IH]; [done|]. simpl. by rewrite IH. Qed.

Lemma shutdowns_idle k g :
  og_stack_running g = false -> og_stack_initialised g = false ->
  og_calls (Nat.iter k opener_shutdown g) = og_calls g /\
  og_stack_running (Nat.iter k opener_shutdown g) = false /\ og_stack_initialised (Nat.iter k opener_shutdown g) = false.
Proof.
  intros Hr Hi. induction k as [|k (Hc & Hr' & Hi')]; [done|]. simpl. rewrite shutdown_idle by done. done.
Qed.

(** What [init] can work with. *)
Definition config_usable (cfg : option eip_backend_config) : bool :=
  match cfg with
  | Some c => bool_decide (is_Some (bc_interface c)) && (bc_output_bytes c <=? PLC_IPC_MAX_FRAME_BYTES) &&
              (bc_input_bytes c <=? PLC_IPC_MAX_FRAME_BYTES)
  | None => false
  end.
(** What it needs of the others; stored settings are not among it. *)
Definition all_came_up (a : opener_answers) : bool := an_mac a && an_stack a && an_network a && an_thread a.

Lemma config_usable_eq c :
  config_usable (Some c) =
    match bc_interface c with
    | Some _ => negb ((bc_output_bytes c >? PLC_IPC_MAX_FRAME_BYTES) || (bc_input_bytes c >? PLC_IPC_MAX_FRAME_BYTES))
    | None => false
    end.
Proof.
  unfold config_usable. rewrite !Z.gtb_ltb, negb_orb, <- !Z.leb_antisym.
  destruct (bc_interface c) as [ifc|]; [by rewrite bool_decide_eq_true_2|rewrite bool_decide_eq_false_2; [done|by intros [? [=]]]].
Qed.

(** What a start and what follows it must be. *)
Definition started_and_stopped (answers : opener_answers) (cfg : option eip_backend_config) (g : opener_state) (st : plc_status)
    (g1 g2 : opener_state) : Prop :=
  st = (if config_usable cfg then if all_came_up answers then PLC_OK else PLC_ERR_IO else PLC_ERR_INVAL) /\
  exists started stopped, og_calls g1 = og_calls g ++ started /\ og_calls g2 = og_calls g1 ++ stopped /\
    use_all answers nothing_held started = Some (if is_ok st then Resources true true true else nothing_held) /\
    use_all answers nothing_held (started ++ stopped) = Some nothing_held /\
    og_stack_running g2 = false /\ og_stack_initialised g2 = false.

(** [C23] Start-up and shutdown pair every resource.  Whatever OpENer, the
    network handler and the thread library answer, every call [init] and any
    positive number of [shutdown]s make is legal when it is made: the stack is
    shut down, the network handler finished and the thread joined exactly once
    if they came up and never otherwise, in that order reversed.  [init] refuses a
    configuration without an interface or with an image larger than a frame;
    otherwise it succeeds if and only if the interface, the stack, the network
    handler and the thread came up, whether or not there were stored settings to
    load, and then holds all three; when it fails it holds nothing. *)
Theorem opener_resources_paired (answers : opener_answers) (cfg : option eip_backend_config) (g : opener_state) (k : nat)
    (Hr : og_stack_running g = false) (Hi : og_stack_initialised g = false) :
  let '(st, g1) := opener_init answers cfg g in
  started_and_stopped answers cfg g st g1 (Nat.iter (S k) opener_shutdown g1).
Proof.
  assert (forall st g1 started,
    st = (if config_usable cfg then if all_came_up answers then PLC_OK else PLC_ERR_IO else PLC_ERR_INVAL) ->
    og_calls g1 = og_calls g ++ started -> og_stack_running g1 = false ->
    og_stack_initialised g1 = false -> is_ok st = false -> use_all answers nothing_held started = Some nothing_held ->
    started_and_stopped answers cfg g st g1 (Nat.iter (S k) opener_shutdown g1)) as Hfail.
  { intros st g1 started Hst0 Hc Hr1 Hi1 Hst Hu. destruct (shutdowns_idle (S k) g1 Hr1 Hi1) as (Hc2 & Hr2 & Hi2). split; [done|].
    exists started, []. rewrite Hc2, !app_nil_r, Hst. done. }
  unfold opener_init. destruct cfg as [cfg|]; [|apply (Hfail _ _ []); [done|by rewrite app_nil_r|done..]].
  pose proof (config_usable_eq cfg) as Eu.
  destruct (bc_interface cfg) as [ifc|]; [|apply (Hfail _ _ []); [by rewrite Eu|by rewrite app_nil_r|done..]].
  destruct ((_ >? _) || _); [apply (Hfail _ _ []); [by rewrite Eu|by rewrite app_nil_r|done..]|].
  unfold started_and_stopped in *. rewrite Eu in *. cbn [negb].
  destruct answers as [[] [] nv [] []]; cbn [negb an_mac an_stack an_network an_thread]; cbv iota zeta;
    try (eapply (Hfail PLC_ERR_IO); [done|simpl; rewrite <- ?(app_assoc (og_calls g)); simpl; reflexivity|done..]).
  split; [done|].
  exists [ConnectionListInit; GetMac (snprintf_s IFNAMSIZ ifc); CipStackInit; SetMac; LoadNvData; NetworkInit; ThreadCreate],
    [ThreadJoin; NetworkFinish; ShutdownCipStack].
  split; [unfold ask, asks; simpl; by rewrite <- !app_assoc|]. simpl Nat.iter.
  match goal with |- context [opener_shutdown (Nat.iter k opener_shutdown ?x)] => set (g1 := x) end.
  rewrite <- (shutdown_iter k g1).
  destruct (shutdowns_idle k (opener_shutdown g1)) as (Hc2 & Hr2 & Hi2); [done|done|].
  rewrite Hc2. split; [unfold opener_shutdown, ask; simpl; by rewrite <- !app_assoc|]. done.
Qed.

(** No stored settings: it starts all the same. *)
Lemma opener_resources_paired_witness :
  let a := Answers true true false true true in
  let '(st, g1) := opener_init a (Some (BackendConfig (Some "eth0") 100 150 151 4 4)) opener_zero in
  st = PLC_OK /\ exists started stopped, og_calls (Nat.iter 2 opener_shutdown g1) = started ++ stopped /\
    use_all a nothing_held (started ++ stopped) = Some nothing_held.
Proof.
  intros a. pose proof (opener_resources_paired a (Some (BackendConfig (Some "eth0") 100 150 151 4 4))
                opener_zero 1 eq_refl eq_refl) as Ht.
  destruct (opener_init _ _ opener_zero) as [st g1]. destruct Ht as (Hst & c1 & c2 & H1 & H2 & _ & Hu & _).
  split; [exact Hst|]. exists c1, c2. split; [|exact Hu]. rewrite H2, H1. reflexivity.
Defined.

(** ** What the status does not say *)

(** The reply's flag depends on the connection count and the run bit alone. *)
Lemma opener_reply_flags answers g :
  (reply_flags (kOpenerBackend answers) g).1
    = if (og_io_connections g =? 0) || (og_peer_in_run g =? 0) then PLC_IPC_FRAME_DATA_INVALID else 0.
Proof.
  unfold reply_flags. cbn. destruct (og_io_connections g =? 0); [done|]. by destruct (og_peer_in_run g =? 0).
Qed.

(** The service's own calls change neither. *)
Definition ipc_only (e : opener_event) : bool :=
  match e with Publish _ _ | Fetch _ _ => true | _ => false end.

(** A stack that has died goes on answering.  When the network handler
    fails, OpENer's thread leaves its loop and no call-back comes any more; if a
    connection was up and in run then, every later reply still carries the last
    inputs and no data-invalid flag, whatever the service does and for however
    long: the core sees fresh data and its failsafe never fires. *)
Theorem opener_dead_stack_keeps_answering (instance_num : Z -> Z) (answers : opener_answers) (g : opener_state)
    (es : list opener_event) (rounds : nat)
    (Hconn : og_io_connections g <> 0) (Hrun : og_peer_in_run g = 1) (Hipc : forallb ipc_only es = true) :
  stack_thread (replicate rounds (false, true) ++ [(false, false)]) = Some tt /\
  let g' := opener_run instance_num es g in
  (reply_flags (kOpenerBackend answers) g').1 = 0 /\ og_consumed_snapshot g' = og_consumed_snapshot g /\
  (forall data cap, (opener_fetch data cap g').1 = (opener_fetch data cap g).1).
Proof.
  split; [induction rounds as [|n IH]; [done|exact IH]|]. cbv zeta.
  assert (og_io_connections (opener_run instance_num es g) = og_io_connections g /\
          og_peer_in_run (opener_run instance_num es g) = og_peer_in_run g /\
          og_cfg (opener_run instance_num es g) = og_cfg g /\
          og_consumed_snapshot (opener_run instance_num es g) = og_consumed_snapshot g) as (Ec & Er & Ef & Es).
  { unfold opener_run. revert g Hconn Hrun. induction es as [|e es IH]; intros g Hconn Hrun; [done|].
    simpl in Hipc. apply andb_true_iff in Hipc as [He Hes]. destruct e; try done; cbn [foldl].
    - exact (IH Hes (opener_publish data len g) Hconn Hrun).
    - apply (IH Hes); done. }
  rewrite opener_reply_flags, Ec, Er, Hrun. apply Z.eqb_neq in Hconn. rewrite Hconn. split; [done|split; [done|]].
  intros data cap. unfold opener_fetch. by rewrite Ef, Es.
Qed.

Lemma opener_dead_stack_keeps_answering_witness :
  (reply_flags (kOpenerBackend (Answers true true true true true))
     (opener_run id (concat (replicate 50 [Publish [1] 1; Fetch (zeros 4) 4])) (opener_run id opener_history opener_example))).1 = 0.
Proof.
  apply (opener_dead_stack_keeps_answering id (Answers true true true true true) (opener_run id opener_history opener_example)
           (concat (replicate 50 [Publish [1] 1; Fetch (zeros 4) 4])) 3); [vm_compute; congruence|reflexivity|reflexivity].
Defined.

(** A listener counts as a controller: a listen-only connection, on which no
    outputs of the peer ever arrive, makes the never-written input image valid. *)
Theorem opener_listener_counts_as_driving :
  let g := opener_run id [Connection 0 EIP_DEFAULT_HEARTBEAT_LISTEN_ONLY_ASSEMBLY 100 kIoConnectionEventOpened] opener_example in
  (reply_flags (kOpenerBackend (Answers true true true true true)) g).1 = 0 /\ og_assembly_writes g = 0 /\
  og_consumed_snapshot g = zeros PLC_IPC_MAX_FRAME_BYTES.
Proof. vm_compute. done. Qed.

(** An idle originator is remembered beyond its connection: the next one, whose
    frames carry no run/idle header, is taken for idle. *)
Theorem opener_idle_outlives_connection :
  let g := opener_run id [Connection 0 150 100 kIoConnectionEventOpened; RunIdle 0; Connection 0 150 100 kIoConnectionEventClosed;
                          Connection 0 150 100 kIoConnectionEventOpened;
                          Received (Some 150) (bwrite 0 [5; 6; 7; 8] (zeros PLC_IPC_MAX_FRAME_BYTES))] opener_example in
  (reply_flags (kOpenerBackend (Answers true true true true true)) g).1 = PLC_IPC_FRAME_DATA_INVALID /\
  og_io_connections g = 1 /\ og_assembly_writes g = 1.
Proof. vm_compute. done. Qed.
