(* ===== verification/ScannerService.v ===== *)
(** * The EtherNet/IP scanner process

    [src/adapters/eip_scanner/eip_scanner_main.c] with the backend interface of
    [eip_scanner_backend.h].  The twin of [EipService], with two differences
    that matter: the reply is a block of health bytes followed by the data, and
    a second thread polls the originator stack, sharing the backend with the
    service loop.

    The backends are C++ and are a parameter here; [ScannerBackendLaws] is what
    the header documents of them.  The stack thread runs between any two backend
    calls of the loop: how often it polled before each is a list of numbers the
    theorems quantify over.  [g_stop] is read through lists, as in [EipService];
    [None] means the process is still running. *)

From Stdlib Require Import ZArith Lia.
From stdpp Require Import base gmap list strings tactics.
From S2P Require Import Prelude PlcTypes SpscRing Adapter Config Shm IpcProxy ScannerConfig ScannerProxy EipService.

Definition POLL_BUDGET_US : Z := 2000.

(** ** The backend interface *)

(** [B] is the state the backend keeps. *)
Record eip_scanner_backend (B : Type) : Type := ScannerBackend {
  sb_name : string;
  sb_init : eip_scanner_config -> B -> plc_status * B;
  sb_shutdown : B -> B;
  sb_poll : Z -> B -> B;
  sb_exchange_images : list Z -> Z -> list Z -> Z -> list Z -> Z -> B -> Z * list Z * list Z * B;
    (** O->T image and length, health buffer and length, T->O buffer and capacity *)
  sb_devices_online : B -> Z;
  sb_forward_opens : B -> Z;
  sb_connection_losses : B -> Z;
  sb_out_of_order : B -> Z
}.
Arguments ScannerBackend {B}.
Arguments sb_name {B}.
Arguments sb_init {B}.
Arguments sb_shutdown {B}.
Arguments sb_poll {B}.
Arguments sb_exchange_images {B}.
Arguments sb_devices_online {B}.
Arguments sb_forward_opens {B}.
Arguments sb_connection_losses {B}.
Arguments sb_out_of_order {B}.

(** ** The service loop *)

Record scanner_service (B : Type) : Type := ScannerService {
  sx_frame : plc_ipc_frame;
  sx_reply : list Z;  (** [PLC_IPC_MAX_FRAME_BYTES] bytes *)
  sx_last_request_us : Z;
  sx_backend : B;
  sx_polls : list nat  (** how often the stack thread polls before each backend call *)
}.
Arguments ScannerService {B}.
Arguments sx_frame {B}.
Arguments sx_reply {B}.
Arguments sx_last_request_us {B}.
Arguments sx_backend {B}.
Arguments sx_polls {B}.
#[export] Instance eta_scanner_service {B} : Eta (scanner_service B) := fun r =>
  ScannerService (sx_frame r) (sx_reply r) (sx_last_request_us r) (sx_backend r) (sx_polls r).

Section Service.
Context {B : Type} (backend : eip_scanner_backend B) (pid base sem_req sem_rsp core_timeout_us health_bytes : Z).
Implicit Types (w : world eip_scanner_shm) (s : scanner_service B).

Definition sleep_us (us : Z) w : world eip_scanner_shm :=
  let '(_, w) := pause w in w <| w_ns := w_ns w + us * 1000 |>.

(** [while (!g_stop) g_backend->poll(POLL_BUDGET_US)]: [None] when the thread
    still runs. *)
Fixpoint stack_thread (stops : list bool) (b : B) : option B :=
  match stops with
  | [] => None
  | true :: _ => Some b
  | false :: stops => stack_thread stops (sb_poll backend POLL_BUDGET_US b)
  end.

(** The stack thread gets to run before a backend call of the loop. *)
Definition polled s : scanner_service B :=
  s <| sx_backend := Nat.iter (default 0%nat (head (sx_polls s))) (sb_poll backend POLL_BUDGET_US) (sx_backend s) |>
    <| sx_polls := tail (sx_polls s) |>.

Definition req_pop (out : plc_ipc_frame) w : plc_status * plc_ipc_frame * world eip_scanner_shm :=
  let '(res, w) := mem_op pid w base (fun m =>
    let '(st, r, o) := plc_spsc_pop (Some (sm_req m)) (Some out) PLC_IPC_MAX_FRAME_BYTES in
    ((st, default out o), m <| sm_req := default (sm_req m) r |>)) in
  (res, w).
Definition rsp_push (seq : Z) (data : list Z) (len : Z) w : plc_status * world eip_scanner_shm :=
  mem_op pid w base (fun m =>
    let '(st, r) := plc_spsc_push (Some (sm_rsp m)) seq (Some data) len in
    (st, m <| sm_rsp := default (sm_rsp m) r |>)).
Definition status_op (f : eip_scanner_status -> eip_scanner_status) w : world eip_scanner_shm :=
  (mem_op pid w base (fun m => (tt, m <| sm_status := f (sm_status m) |>))).2.
Definition set_last_error (st : plc_status) w : world eip_scanner_shm :=
  status_op (fun t => t <| ss_last_error := u64 (plc_status_code st) |>) w.

(** A counter of the backend, stored in the status block. *)
Definition store_counter (get : B -> Z) (put : Z -> eip_scanner_status -> eip_scanner_status) s w
    : scanner_service B * world eip_scanner_shm :=
  let s := polled s in (s, status_op (put (get (sx_backend s))) w).

(** Health block first, then the aggregate T->O data. *)
Definition swap_images s : Z * scanner_service B :=
  let reply := bwrite 0 (zeros health_bytes) (sx_reply s) in
  let s := polled s in
  let '(n, health, t2o, b) :=
    sb_exchange_images backend (fr_data (sx_frame s)) (fr_len (sx_frame s))
      (bslice 0 health_bytes reply) health_bytes
      (drop (Z.to_nat health_bytes) reply) (u64 (PLC_IPC_MAX_FRAME_BYTES - health_bytes)) (sx_backend s) in
  (n, s <| sx_reply := health ++ t2o |> <| sx_backend := b |>).

(** The part of a round that follows a well-formed request. *)
Definition answer_request s w : scanner_service B * world eip_scanner_shm :=
  let '(n, s) := swap_images s in
  let '(st, w) := rsp_push (fr_seq (sx_frame s)) (sx_reply s) (u32 (health_bytes + n)) w in
  let w := if negb (is_ok st) then
             let w := rsp_drain pid base w in set_last_error st w
           else sem_post w sem_rsp in
  let w := status_op (fun t => t <| ss_cycles := u64 (ss_cycles t + 1) |>) w in
  let '(s, w) := store_counter (sb_devices_online backend) (fun n t => t <| ss_devices_online := n |>) s w in
  let '(s, w) := store_counter (sb_forward_opens backend) (fun n t => t <| ss_forward_opens := n |>) s w in
  let '(s, w) := store_counter (sb_connection_losses backend) (fun n t => t <| ss_connection_losses := n |>) s w in
  store_counter (sb_out_of_order backend) (fun n t => t <| ss_out_of_order := n |>) s w.

(** The body of [while (!g_stop)]. *)
Definition service_round s w : round_end * scanner_service B * world eip_scanner_shm :=
  let '(st, w) := plc_sem_wait_timeout (Some sem_req) SERVICE_WAIT_US w in
  match st with
  | PLC_ERR_TIMEOUT =>
      let '(now, w) := plc_now_us w in
      let idle := u64 (now - sx_last_request_us s) in
      if idle >=? core_timeout_us then (CoreGone, s, w) else (Continue, s, w)
  | PLC_OK =>
      let '(st, frame, w) := req_pop (sx_frame s) w in
      let s := s <| sx_frame := frame |> in
      let '(s, w) := if is_ok st then let '(now, w) := plc_now_us w in (s <| sx_last_request_us := now |>, w) else (s, w) in
      if bool_decide (st = PLC_ERR_AGAIN) then (Continue, s, w)
      else if negb (is_ok st) then (Continue, s, set_last_error st w)
      else let '(s, w) := answer_request s w in (Continue, s, w)
  | _ => (DoorbellFailed, s, w)
  end.

Fixpoint service_loop (stops : list bool) s w : option (round_end * scanner_service B * world eip_scanner_shm) :=
  match stops with
  | [] => None
  | true :: _ => Some (Continue, s, w)
  | false :: stops =>
      let '(r, s, w) := service_round s w in
      match r with Continue => service_loop stops s w | _ => Some (r, s, w) end
  end.
End Service.

(** ** Start-up *)

Section Main.
Context {B : Type} (backend : eip_scanner_backend B) (pid : Z).
Context (getenv : cstr -> option cstr) (table : cfg_table) (fs : cstr -> file).
Implicit Types (w : world eip_scanner_shm).

Definition peek {T} (base : Z) (f : eip_scanner_shm -> T) w : T * world eip_scanner_shm :=
  mem_op pid w base (fun m => (f m, m)).

(** The checks on a region that could be mapped, load by load. *)
Definition check_region (base : Z) w : attached * world eip_scanner_shm :=
  let '(magic, w) := peek base sm_magic w in
  let '(ok, w) :=
    if magic =? EIP_SCANNER_SHM_MAGIC then
      let '(abi, w) := peek base sm_abi_version w in
      if abi =? EIP_SCANNER_SHM_ABI_VERSION then
        let '(layout, w) := peek base sm_layout_bytes w in (layout =? sizeof_eip_scanner_shm, w)
      else (false, w)
    else (false, w) in
  if ok then (Understood, w)
  else
    let '(magic, w) := peek base sm_magic w in
    let '(bad, w) := if negb (magic =? 0) then
                       let '(magic, w) := peek base sm_magic w in (negb (magic =? EIP_SCANNER_SHM_MAGIC), w)
                     else (false, w) in
    if bad then (Foreign, w)
    else
      let '(magic, w) := peek base sm_magic w in
      if magic =? EIP_SCANNER_SHM_MAGIC then (Foreign, w) else (NotYet, w).

Fixpoint attach (stops : list bool) (name : string) (shm : plc_shm) w
    : option (plc_status * plc_shm * option Z * world eip_scanner_shm) :=
  match stops with
  | [] => None
  | true :: _ => Some (PLC_ERR_STATE, shm, None, w)
  | false :: stops =>
      let '(st, shm', w) := plc_shm_attach pid (Some shm) (Some name) sizeof_eip_scanner_shm w in
      let shm := default shm shm' in
      if is_ok st then
        let base := default 0 (shm_base shm) in
        let '(a, w) := check_region base w in
        match a with
        | Understood => Some (PLC_OK, shm, Some base, w)
        | Foreign => let '(shm', w) := plc_shm_close pid (Some shm) w in
                     Some (PLC_ERR_PROTO, default shm shm', None, w)
        | NotYet => let '(shm', w) := plc_shm_close pid (Some shm) w in
                    attach stops name (default shm shm') (sleep_us ATTACH_RETRY_US w)
        end
      else attach stops name shm (sleep_us ATTACH_RETRY_US w)
  end.

(** Whether the core read the same device table. *)
Definition table_agrees (devices : eip_scanner_config) (m : eip_scanner_shm) : bool :=
  (sm_device_count m =? sc_device_count devices) && (sm_o2t_total_bytes m =? sc_total_o2t_bytes devices) &&
  (sm_t2o_total_bytes m =? sc_total_t2o_bytes devices).

Definition set_adapter_state (base : Z) (st : plc_adapter_state) w : world eip_scanner_shm :=
  status_op pid base (fun t => t <| ss_adapter_state := plc_adapter_state_code st |>) w.

(** The doorbells and the region, which the core owns. *)
Definition release (shm : plc_shm) (sem_req sem_rsp : option Z) (req_name rsp_name : string) w : world eip_scanner_shm :=
  let w := plc_sem_close sem_req (Some req_name) false w in
  let w := plc_sem_close sem_rsp (Some rsp_name) false w in
  (plc_shm_close pid (Some shm) w).2.

(** From the service loop to the end: the exit code and what is left.
    [thread_stops] are the stack thread's readings of [g_stop] from the join on. *)
Definition scanner_serve (serve_stops thread_stops : list bool) (base sem_req sem_rsp : Z)
    (frame : plc_ipc_frame) (reply : list Z) (polls : list nat) (b : B) w : option (bool * B * world eip_scanner_shm) :=
  let '(health_bytes, w) := peek base sm_health_bytes w in
  let core_timeout_us := plc_cfg_u32 getenv table (Some (txt "SOFTPLC_SCANNER_CORE_TIMEOUT_US")) CORE_TIMEOUT_US in
  let '(now, w) := plc_now_us w in
  match service_loop backend pid base sem_req sem_rsp core_timeout_us health_bytes serve_stops
          (ScannerService frame reply now b polls) w with
  | None => None
  | Some (_, s, w) =>
      let w := set_adapter_state base PLC_ADAPTER_CLOSED w in
      match stack_thread backend thread_stops (sx_backend s) with  (** [pthread_join] *)
      | None => None
      | Some b => Some (true, sb_shutdown backend b, w)
      end
  end.

(** [main] after the settings and the signal handlers.  [thread_ok]: whether
    the stack thread could be created; [frame] and [reply] are the
    uninitialised automatic variables. *)
Definition scanner_main (stops serve_stops thread_stops : list bool) (instance : string) (table_path : cstr)
    (thread_ok : bool) (frame : plc_ipc_frame) (reply : list Z) (polls : list nat) (b : B) w
    : option (bool * B * world eip_scanner_shm) :=
  match eip_scanner_config_load fs (Some scanner_config_zero) (Some table_path) with
  | (PLC_OK, Some devices) =>
      match attach stops (eip_scanner_shm_name EIP_SCANNER_SHM_NAME_MAX (Some instance)) (shm_zero <| shm_fd := -1 |>) w with
      | None => None
      | Some (st, shm, map, w) =>
          if negb (is_ok st) then Some (false, b, w)
          else
            let base := default 0 map in
            let '(agrees, w) := peek base (table_agrees devices) w in
            if negb agrees then let '(_, w) := plc_shm_close pid (Some shm) w in Some (false, b, w)
            else
              let req_name := eip_scanner_sem_req_name EIP_SCANNER_SHM_NAME_MAX (Some instance) in
              let rsp_name := eip_scanner_sem_rsp_name EIP_SCANNER_SHM_NAME_MAX (Some instance) in
              let '(st, sem_req, w) := plc_sem_attach (Some req_name) w in
              let '(st, sem_rsp, w) := if is_ok st then plc_sem_attach (Some rsp_name) w else (st, None, w) in
              if negb (is_ok st) then
                let w := plc_sem_close sem_req (Some req_name) false w in
                let '(_, w) := plc_shm_close pid (Some shm) w in Some (false, b, w)
              else
                let w := set_adapter_state base PLC_ADAPTER_OPENING w in
                let '(st, b) := sb_init backend devices b in
                if negb (is_ok st) then
                  let w := set_adapter_state base PLC_ADAPTER_FAULTED w in
                  Some (false, sb_shutdown backend b, release shm sem_req sem_rsp req_name rsp_name w)
                else if negb thread_ok then
                  Some (false, sb_shutdown backend b, release shm sem_req sem_rsp req_name rsp_name w)
                else
                  let w := set_adapter_state base PLC_ADAPTER_ONLINE w in
                  match scanner_serve serve_stops thread_stops base (default 0 sem_req) (default 0 sem_rsp)
                          frame reply polls b w with
                  | None => None
                  | Some (ok, b, w) => Some (ok, b, release shm sem_req sem_rsp req_name rsp_name w)
                  end
      end
  | _ => Some (false, b, w)
  end.
End Main.

(** ** What the loop needs of a backend *)

(** The header's words: [poll] and the image swap keep the backend in order,
    the swap writes at most the capacity it was given and reports how much. *)
Class ScannerBackendLaws {B : Type} (backend : eip_scanner_backend B) : Type := {
  sb_inv : B -> Prop;
  law_poll us b : sb_inv b -> sb_inv (sb_poll backend us b);
  law_swap o2t len health health_len t2o cap b :
    sb_inv b -> zlen o2t = PLC_IPC_MAX_FRAME_BYTES -> 0 <= len <= PLC_IPC_MAX_FRAME_BYTES ->
    zlen health = health_len -> zlen t2o = cap ->
    let '(n, health', t2o', b') := sb_exchange_images backend o2t len health health_len t2o cap b in
    0 <= n <= cap /\ zlen health' = health_len /\ zlen t2o' = cap /\ sb_inv b'
}.

(** ** One round of the service *)

Section Round.
Context {B : Type} (backend : eip_scanner_backend B) `{ScannerBackendLaws B backend}.
Context (pid base sem_req sem_rsp core_timeout_us health_bytes : Z).
Implicit Types (k : kernel eip_scanner_shm) (s : scanner_service B).

Definition scanner_map_wf k : Prop :=
  is_Some (mapped_inode k pid base) /\
  ring_wf (sm_req (deref pid k base)) /\ ring_wf (sm_rsp (deref pid k base)).

Definition scanner_service_wf s : Prop :=
  zlen (fr_data (sx_frame s)) = PLC_IPC_MAX_FRAME_BYTES /\ zlen (sx_reply s) = PLC_IPC_MAX_FRAME_BYTES /\
  sb_inv (sx_backend s).

Lemma polled_wf s :
  scanner_service_wf s ->
  scanner_service_wf (polled backend s) /\ sx_frame (polled backend s) = sx_frame s /\
  sx_last_request_us (polled backend s) = sx_last_request_us s.
Proof.
  intros (Hf & Hr & Hb). split; [|done]. split; [done|split; [done|]]. cbn.
  generalize (default 0%nat (head (sx_polls s))). intros n. induction n as [|n IH]; [done|]. simpl. by apply law_poll.
Qed.

Lemma scanner_status_stored k m posts f t :
  is_Some (mapped_inode k pid base) ->
  status_op pid base f (World (stored pid base k m posts) t [])
    = World (stored pid base k (m <| sm_status := f (sm_status m) |>) posts) t [].
Proof.
  intros Hm. unfold status_op. rewrite mem_op_silent, deref_stored by done. cbn [fst snd]. by rewrite k_store_stored.
Qed.

(** Storing a counter touches the status block only, and not the cycle count. *)
Definition counts_kept (put : Z -> eip_scanner_status -> eip_scanner_status) : Prop :=
  forall n t, ss_cycles (put n t) = ss_cycles t.

Lemma store_counter_spec get put s k m posts t :
  is_Some (mapped_inode k pid base) -> scanner_service_wf s -> counts_kept put ->
  exists s' m', store_counter backend pid base get put s (World (stored pid base k m posts) t [])
      = (s', World (stored pid base k m' posts) t []) /\
    scanner_service_wf s' /\ sx_frame s' = sx_frame s /\ sx_last_request_us s' = sx_last_request_us s /\
    sm_req m' = sm_req m /\ sm_rsp m' = sm_rsp m /\ ss_cycles (sm_status m') = ss_cycles (sm_status m).
Proof.
  intros Hm Hs Hp. destruct (polled_wf s Hs) as (Hw & Hf & Hl). unfold store_counter. rewrite scanner_status_stored by done.
  eexists _, _. split; [done|]. do 3 (split; [done|]). do 2 (split; [done|]). apply Hp.
Qed.

(** The image swap: a reply of [health_bytes + n] bytes, within the frame. *)
Lemma swap_images_spec s :
  scanner_service_wf s -> 0 <= fr_len (sx_frame s) <= PLC_IPC_MAX_FRAME_BYTES ->
  0 <= health_bytes <= PLC_IPC_MAX_FRAME_BYTES ->
  let '(n, s') := swap_images backend health_bytes s in
  0 <= n <= PLC_IPC_MAX_FRAME_BYTES - health_bytes /\ scanner_service_wf s' /\
  sx_frame s' = sx_frame s /\ sx_last_request_us s' = sx_last_request_us s.
Proof.
  intros Hs Hl Hh. destruct (polled_wf s Hs) as ((Hf & Hr & Hb) & Ef & Et). unfold swap_images.
  set (reply := bwrite 0 (zeros health_bytes) (sx_reply s)).
  assert (zlen reply = PLC_IPC_MAX_FRAME_BYTES) as Hz.
  { pose proof Hs as (_ & Hz & _). unfold reply. rewrite zlen_bwrite; rewrite ?zlen_zeros; lia. }
  rewrite u64_small by (unfold PLC_IPC_MAX_FRAME_BYTES in *; lia).
  pose proof (law_swap (fr_data (sx_frame (polled backend s))) (fr_len (sx_frame (polled backend s)))
    (bslice 0 health_bytes reply) health_bytes (drop (Z.to_nat health_bytes) reply)
    (PLC_IPC_MAX_FRAME_BYTES - health_bytes) (sx_backend (polled backend s)) Hb Hf) as Hsw.
  rewrite Ef in *. specialize (Hsw Hl ltac:(apply zlen_bslice; lia)
    ltac:(unfold zlen in *; rewrite length_drop; lia)).
  destruct (sb_exchange_images _ _ _ _ _ _ _ _) as [[[n health] t2o] b]. destruct Hsw as (Hn & Hzh & Hzt & Hb').
  split; [done|]. split; [|done]. split; [done|]. split; [|done]. simpl. rewrite zlen_app. lia.
Qed.

Lemma scanner_answer_spec k t m s :
  is_Some (mapped_inode k pid base) -> ring_wf (sm_rsp m) -> scanner_service_wf s -> frame_ok (sx_frame s) ->
  0 <= health_bytes <= PLC_IPC_MAX_FRAME_BYTES -> 0 <= sem_value k sem_rsp < SEM_VALUE_MAX ->
  let '(n, s1) := swap_images backend health_bytes s in
  exists s' m' posts,
    answer_request backend pid base sem_rsp health_bytes s (World (k_store pid k base m) t [])
      = (s', World (stored pid base k m' posts) t []) /\
    scanner_service_wf s' /\ sx_frame s' = sx_frame s /\ sx_last_request_us s' = sx_last_request_us s /\
    sm_req m' = sm_req m /\ ring_wf (sm_rsp m') /\
    ss_cycles (sm_status m') = u64 (ss_cycles (sm_status m) + 1) /\
    if zlen (queue (sm_rsp m)) <? PLC_IPC_RING_SLOTS
    then queue (sm_rsp m') = queue (sm_rsp m) ++ [Msg (fr_seq (sx_frame s)) 0 (bslice 0 (health_bytes + n) (sx_reply s1))] /\
         posts = [(sem_rsp, sem_value k sem_rsp + 1)]
    else queue (sm_rsp m') = [] /\ posts = [].
Proof.
  intros Hmap Hr Hs [Hfl _] Hh Hsem. pose proof (swap_images_spec s Hs Hfl Hh) as Hsw. unfold answer_request.
  destruct (swap_images backend health_bytes s) as [n s1]. destruct Hsw as (Hn & Hs1 & Ef & Et).
  rewrite Ef, u32_small by (unfold PLC_IPC_MAX_FRAME_BYTES in *; lia).
  change (k_store pid k base m) with (stored pid base k m []). pose proof Hs1 as (_ & Hzr & _).
  unfold rsp_push. rewrite mem_op_silent, deref_stored by done. unfold plc_spsc_push.
  destruct (push_either (sm_rsp m) (fr_seq (sx_frame s)) 0 (sx_reply s1) (health_bytes + n) Hr ltac:(lia) ltac:(lia))
    as (rsp' & Hrwf & Epush & Hq).
  set (ok := zlen (queue (sm_rsp m)) <? PLC_IPC_RING_SLOTS) in *.
  set (posts := if ok then [(sem_rsp, sem_value k sem_rsp + 1)] else []).
  rewrite Epush. cbn [fst snd]. change (default (sm_rsp m) (Some rsp')) with rsp'. rewrite k_store_stored. cbv zeta.
  set (m1 := m <| sm_rsp := rsp' |>).
  assert (exists m2, (if negb (is_ok (if ok then PLC_OK else PLC_ERR_AGAIN))
      then set_last_error pid base (if ok then PLC_OK else PLC_ERR_AGAIN) (rsp_drain pid base (World (stored pid base k m1 []) t []))
      else sem_post (World (stored pid base k m1 []) t []) sem_rsp) = World (stored pid base k m2 posts) t [] /\
      sm_req m2 = sm_req m /\ ss_cycles (sm_status m2) = ss_cycles (sm_status m) /\ ring_wf (sm_rsp m2) /\
      if ok then queue (sm_rsp m2) = queue rsp' else queue (sm_rsp m2) = []) as (m2 & -> & Hreq & Hcyc & Hwf2 & Hq2).
  { subst posts. clearbody ok. destruct ok.
    - exists m1. change (is_ok PLC_OK) with true. cbn [negb]. rewrite sem_post_stored by done. done.
    - change (is_ok PLC_ERR_AGAIN) with false. cbn [negb]. unfold rsp_drain. rewrite mem_op_silent, deref_stored by done.
      cbn [fst snd]. rewrite k_store_stored. unfold set_last_error. rewrite scanner_status_stored by done.
      eexists. split; [done|]. split; [done|split; [done|]]. by eapply drained_ring. }
  rewrite scanner_status_stored by done. set (m3 := m2 <| sm_status := _ |>).
  destruct (store_counter_spec (sb_devices_online backend) (fun n t => t <| ss_devices_online := n |>) s1 k m3 posts t)
    as (s2 & m4 & -> & Hs2 & Ef2 & Et2 & Q2 & R2 & C2); [done|done|done|].
  destruct (store_counter_spec (sb_forward_opens backend) (fun n t => t <| ss_forward_opens := n |>) s2 k m4 posts t)
    as (s3 & m5 & -> & Hs3 & Ef3 & Et3 & Q3 & R3 & C3); [done|done|done|].
  destruct (store_counter_spec (sb_connection_losses backend) (fun n t => t <| ss_connection_losses := n |>) s3 k m5 posts t)
    as (s4 & m6 & -> & Hs4 & Ef4 & Et4 & Q4 & R4 & C4); [done|done|done|].
  destruct (store_counter_spec (sb_out_of_order backend) (fun n t => t <| ss_out_of_order := n |>) s4 k m6 posts t)
    as (s5 & m7 & -> & Hs5 & Ef5 & Et5 & Q5 & R5 & C5); [done|done|done|].
  exists s5, m7, posts. split; [done|]. split; [done|]. split; [congruence|]. split; [congruence|].
  assert (sm_rsp m7 = sm_rsp m2) as Hr7 by (rewrite R5, R4, R3, R2; done).
  split; [rewrite Q5, Q4, Q3, Q2; done|]. split; [by rewrite Hr7|].
  split; [rewrite C5, C4, C3, C2; simpl; by rewrite Hcyc|].
  rewrite Hr7. subst posts. clearbody ok. destruct ok; [by rewrite Hq2|done].
Qed.

(** A doorbell has rung and a request is queued. *)
Lemma scanner_round_answers k t s msg q :
  scanner_map_wf k -> scanner_service_wf s -> 0 <= t < 2 ^ 62 -> sem_req <> sem_rsp ->
  0 <= health_bytes <= PLC_IPC_MAX_FRAME_BYTES ->
  0 < sem_value k sem_req -> 0 <= sem_value k sem_rsp < SEM_VALUE_MAX ->
  queue (sm_req (deref pid k base)) = msg :: q ->
  exists frame s' m' posts, msg_of frame = msg /\ frame_ok frame /\
    service_round backend pid base sem_req sem_rsp core_timeout_us health_bytes s (World k t [])
      = (Continue, s', World (stored pid base (sem_set k sem_req (sem_value k sem_req - 1)) m' posts) t []) /\
    scanner_service_wf s' /\ queue (sm_req m') = q /\ ring_wf (sm_req m') /\ ring_wf (sm_rsp m') /\
    sx_last_request_us s' = t / 1000 /\
    let '(n, s1) := swap_images backend health_bytes (s <| sx_frame := frame |> <| sx_last_request_us := t / 1000 |>) in
    0 <= n <= PLC_IPC_MAX_FRAME_BYTES - health_bytes /\ zlen (sx_reply s1) = PLC_IPC_MAX_FRAME_BYTES /\
    if zlen (queue (sm_rsp (deref pid k base))) <? PLC_IPC_RING_SLOTS
    then queue (sm_rsp m') = queue (sm_rsp (deref pid k base)) ++ [Msg (m_seq msg) 0 (bslice 0 (health_bytes + n) (sx_reply s1))] /\
         posts = [(sem_rsp, sem_value k sem_rsp + 1)]
    else queue (sm_rsp m') = [] /\ posts = [].
Proof.
  intros (Hmap & Hq & Hr) Hs Ht Hne Hh Hreq Hrsp Eq. set (m := deref pid k base) in *.
  unfold service_round. rewrite wait_silent by (unfold SERVICE_WAIT_US; lia).
  destruct (Z.ltb_spec 0 (sem_value k sem_req)); [|lia]. set (k1 := sem_set k sem_req _).
  assert (deref pid k1 base = m) as Hd by done.
  unfold req_pop. rewrite mem_op_silent, Hd. pose proof Hs as (Hsf & Hsr & Hsb).
  pose proof (pop_queue (sm_req m) (sx_frame s) Hq Hsf) as Hpop. rewrite Eq in Hpop.
  destruct Hpop as (req' & frame & -> & Hwf' & Hq' & Hmsg & Hfok & _). cbn [fst snd].
  change (default (sx_frame s) (Some frame)) with frame. change (default (sm_req m) (Some req')) with req'.
  set (m1 := m <| sm_req := req' |>). change (is_ok PLC_OK) with true. cbv iota. rewrite now_silent by done.
  rewrite bool_decide_eq_false_2 by done. cbn [negb].
  set (s1 := s <| sx_frame := frame |> <| sx_last_request_us := _ |>).
  assert (sem_value k1 sem_rsp = sem_value k sem_rsp) as Hv
    by (unfold sem_value, k1; simpl; by rewrite lookup_insert_ne).
  assert (scanner_service_wf s1) as Hs1 by (destruct Hfok; done).
  pose proof (swap_images_spec s1 Hs1 (proj1 Hfok) Hh) as Hsw.
  pose proof (scanner_answer_spec k1 t m1 s1 Hmap Hr Hs1 Hfok Hh) as Ha. rewrite Hv in Ha. specialize (Ha Hrsp).
  destruct (swap_images backend health_bytes s1) as [n s2] eqn:Esw. destruct Hsw as (Hn & (_ & Hz & _) & _).
  destruct Ha as (s' & m' & posts & -> & Hs' & Hf' & Hl' & Hreq' & Hw' & _ & Hcase).
  exists frame, s', m', posts. do 3 (split; [done|]). split; [done|]. rewrite Hreq'. do 3 (split; [done|]).
  split; [by rewrite Hl'|]. fold s1. rewrite Esw. do 2 (split; [done|]). rewrite <- Hmsg. exact Hcase.
Qed.

(** Nobody asks: a round passes its wait and compares the time. *)
Lemma scanner_round_idle k t s :
  sem_value k sem_req = 0 -> 0 <= t -> t + SERVICE_WAIT_US * 1000 < 2 ^ 62 ->
  0 <= sx_last_request_us s <= t / 1000 ->
  let t' := t + SERVICE_WAIT_US * 1000 in
  service_round backend pid base sem_req sem_rsp core_timeout_us health_bytes s (World k t [])
    = ((if t' / 1000 - sx_last_request_us s >=? core_timeout_us then CoreGone else Continue), s, World k t' []).
Proof.
  intros Hv Ht Hmax Hl. cbv zeta. unfold service_round.
  rewrite wait_silent by (unfold SERVICE_WAIT_US in *; lia). rewrite Hv. change (0 <? 0) with false. cbv iota.
  rewrite now_silent by (unfold SERVICE_WAIT_US in *; lia). rewrite u64_small.
  - by destruct (_ >=? _).
  - unfold SERVICE_WAIT_US in *. mach.
Qed.

Lemma scanner_loop_ends k t s :
  sem_value k sem_req = 0 -> 0 <= t < 2 ^ 61 -> sx_last_request_us s = t / 1000 -> 0 < core_timeout_us < 2 ^ 32 ->
  exists (rounds : nat) (t' : Z),
    service_loop backend pid base sem_req sem_rsp core_timeout_us health_bytes (replicate rounds false) s (World k t [])
      = Some (CoreGone, s, World k t' []) /\
    core_timeout_us <= t' / 1000 - sx_last_request_us s < core_timeout_us + SERVICE_WAIT_US.
Proof.
  intros Hsem Ht Hlast Hto.
  assert (forall (j : nat) t0, t <= t0 -> t0 / 1000 - t / 1000 < core_timeout_us ->
    core_timeout_us - (t0 / 1000 - t / 1000) <= Z.of_nat j * SERVICE_WAIT_US ->
    exists (rounds : nat) t',
      service_loop backend pid base sem_req sem_rsp core_timeout_us health_bytes (replicate rounds false) s (World k t0 [])
        = Some (CoreGone, s, World k t' []) /\
      core_timeout_us <= t' / 1000 - sx_last_request_us s < core_timeout_us + SERVICE_WAIT_US) as Hind.
  2:{ apply (Hind (Z.to_nat core_timeout_us) t); unfold SERVICE_WAIT_US; lia. }
  assert (forall t0, (t0 + SERVICE_WAIT_US * 1000) / 1000 = t0 / 1000 + SERVICE_WAIT_US) as E1
    by (intros; unfold SERVICE_WAIT_US; rewrite Z.div_add by lia; done).
  induction j as [|j IH]; intros t0 Hle Hlt Hj; [lia|].
  assert (t0 < 2 ^ 61 + 2 ^ 43) as Hb by mach.
  assert (t / 1000 <= t0 / 1000) as Hm by (apply Z.div_le_mono; lia).
  pose proof (scanner_round_idle k t0 s Hsem) as Hr.
  specialize (Hr ltac:(lia) ltac:(unfold SERVICE_WAIT_US; lia) ltac:(rewrite Hlast; split; [apply Z.div_pos; lia|lia])).
  cbv zeta in Hr. rewrite E1 in Hr.
  destruct (Z.geb_spec (t0 / 1000 + SERVICE_WAIT_US - sx_last_request_us s) core_timeout_us).
  - exists 1%nat, (t0 + SERVICE_WAIT_US * 1000). cbn [replicate service_loop]. rewrite Hr. split; [done|]. rewrite E1. lia.
  - destruct (IH (t0 + SERVICE_WAIT_US * 1000)) as (rounds & t' & Hl & Hb'); [unfold SERVICE_WAIT_US; lia|rewrite E1; lia|rewrite E1; lia|].
    exists (S rounds), t'. cbn [replicate service_loop]. by rewrite Hr.
Qed.
End Round.

(** ** Theorems *)

(** Every request gets its own reply, health block first.  When the
    doorbell has rung and a request is queued, one round of the scanner process
    takes exactly that request, swaps images with the backend however often the
    stack thread polls in between, and queues one reply behind those already
    there: with the request's sequence number, [health_bytes] bytes of health
    and then the T->O data, all within the frame; and it rings the core's
    doorbell once.  If the core has left four replies unread they are dropped
    and no doorbell is rung. *)
Theorem scanner_service_answers {B : Type} (backend : eip_scanner_backend B) `{ScannerBackendLaws B backend}
    (pid base sem_req sem_rsp core_timeout_us health_bytes : Z) (k : kernel eip_scanner_shm) (t : Z)
    (s : scanner_service B) (msg : message) (q : list message)
    (Hmap : scanner_map_wf pid base k) (Hs : scanner_service_wf backend s) (Ht : 0 <= t < 2 ^ 62)
    (Hne : sem_req <> sem_rsp) (Hh : 0 <= health_bytes <= PLC_IPC_MAX_FRAME_BYTES)
    (Hreq : 0 < sem_value k sem_req) (Hrsp : 0 <= sem_value k sem_rsp < SEM_VALUE_MAX)
    (Hq : queue (sm_req (deref pid k base)) = msg :: q) :
  let '(r, s', w') := service_round backend pid base sem_req sem_rsp core_timeout_us health_bytes s (World k t []) in
  let m := deref pid k base in
  let m' := deref pid (w_k w') base in
  exists frame, msg_of frame = msg /\ frame_ok frame /\
  let '(n, s1) := swap_images backend health_bytes (s <| sx_frame := frame |> <| sx_last_request_us := t / 1000 |>) in
  r = Continue /\ scanner_service_wf backend s' /\ queue (sm_req m') = q /\
  sem_value (w_k w') sem_req = sem_value k sem_req - 1 /\
  if zlen (queue (sm_rsp m)) <? PLC_IPC_RING_SLOTS
  then let payload := bslice 0 (health_bytes + n) (sx_reply s1) in
       queue (sm_rsp m') = queue (sm_rsp m) ++ [Msg (m_seq msg) 0 payload] /\
       zlen payload = health_bytes + n /\ zlen payload <= PLC_IPC_MAX_FRAME_BYTES /\
       sem_value (w_k w') sem_rsp = sem_value k sem_rsp + 1
  else queue (sm_rsp m') = [] /\ sem_value (w_k w') sem_rsp = sem_value k sem_rsp.
Proof.
  destruct (scanner_round_answers backend pid base sem_req sem_rsp core_timeout_us health_bytes k t s msg q)
    as (frame & s' & m' & posts & Hf & Hok & -> & Hs' & Hq' & _ & _ & _ & Hcase); try done.
  exists frame. split; [done|split; [done|]].
  destruct (swap_images _ _ _) as [n s1]. destruct Hcase as (Hn & Hz & Hcase). cbn [w_k].
  set (k1 := sem_set k sem_req _) in *. destruct Hmap as [Hmap _].
  rewrite (deref_stored pid base k1 m' posts Hmap).
  assert (sem_value k1 sem_req = sem_value k sem_req - 1 /\ sem_value k1 sem_rsp = sem_value k sem_rsp) as [V1 V2].
  { unfold sem_value, k1; simpl. by rewrite lookup_insert_eq, lookup_insert_ne. }
  do 3 (split; [done|]). destruct (_ <? _); destruct Hcase as [Hqr ->].
  - split.
    + rewrite <- V1, <- (stored_sem pid base k1 m' sem_req). unfold sem_value, stored; simpl. by rewrite lookup_insert_ne.
    + split; [done|]. rewrite zlen_bslice by lia. split; [done|split; [lia|]].
      unfold sem_value, stored; simpl. by rewrite lookup_insert_eq.
  - rewrite !stored_sem. done.
Qed.

(** A backend whose devices echo the O->T image and are all online. *)
Definition echo_backend : eip_scanner_backend unit :=
  ScannerBackend "echo" (fun _ b => (PLC_OK, b)) (fun b => b) (fun _ b => b)
    (fun o2t len health health_len t2o cap b =>
       let n := Z.min len cap in
       (n, replicate (Z.to_nat health_len) 1, bwrite 0 (bslice 0 n o2t) t2o, b))
    (fun _ => 1) (fun _ => 1) (fun _ => 0) (fun _ => 0).

#[export] Instance echo_backend_laws : ScannerBackendLaws echo_backend.
Proof.
  refine {| sb_inv _ := True |}; [done|]. intros o2t len health health_len t2o cap b _ Ho Hl Hh Ht. cbn [sb_exchange_images echo_backend].
  pose proof (zlen_nonneg health). pose proof (zlen_nonneg t2o). split; [lia|].
  split; [unfold zlen; rewrite length_replicate; lia|]. split; [|done]. rewrite zlen_bwrite; rewrite ?zlen_bslice; lia.
Defined.

(** Process 2 maps a region in which request 41 waits. *)
Definition scanner_request : plc_spsc_ring :=
  default ring_zero (plc_spsc_push (Some ring_zero) 41 (Some [1; 2; 3; 4]) 4).2.
Definition scanner_service_kernel : kernel eip_scanner_shm :=
  Kernel ∅ {[4 := Inode 4480 (eip_scanner_shm_zero <| sm_req := scanner_request |>) (Some (1, 5))]} ∅
         {[(2, 10) := 4]} ∅ {[7 := 1; 8 := 0]} 11.
Definition scanner_service_example : scanner_service unit :=
  ScannerService frame_zero (zeros PLC_IPC_MAX_FRAME_BYTES) 5 tt [2%nat; 0%nat; 1%nat].

Lemma scanner_service_kernel_wf : scanner_map_wf 2 10 scanner_service_kernel.
Proof. split; [by eexists|]. split; [exact (proj1 (proj2 service_kernel_wf))|exact ring_zero_wf]. Qed.

Lemma scanner_service_example_wf : scanner_service_wf echo_backend scanner_service_example.
Proof. split; [reflexivity|split; [reflexivity|exact I]]. Qed.

Lemma scanner_service_answers_witness :
  let '(r, s', w') := service_round echo_backend 2 10 7 8 2000000 2 scanner_service_example
                        (World scanner_service_kernel 5000 []) in
  r = Continue /\ queue (sm_req (deref 2 (w_k w') 10)) = [] /\ sem_value (w_k w') 7 = 0.
Proof.
  pose proof (scanner_service_answers echo_backend 2 10 7 8 2000000 2 scanner_service_kernel 5000 scanner_service_example
                (Msg 41 0 [1; 2; 3; 4]) []) as Ht.
  destruct (service_round echo_backend 2 10 7 8 2000000 2 scanner_service_example (World scanner_service_kernel 5000 []))
    as [[r s'] w'].
  destruct Ht as (frame & _ & _ & Ht);
    [exact scanner_service_kernel_wf|exact scanner_service_example_wf|lia|lia|unfold PLC_IPC_MAX_FRAME_BYTES; lia
    |vm_compute; congruence|vm_compute; split; congruence|vm_compute; reflexivity|].
  destruct (swap_images _ _ _) as [n s1]. destruct Ht as (Hr & _ & Hq & Hv & _).
  exact (conj Hr (conj Hq Hv)).
Defined.

(** A core that has gone is noticed, but the process stays.  If no request
    arrives any more and no signal comes, the service loop ends by itself within
    one doorbell wait of its timeout; the join of the stack thread that follows
    never returns, because that thread leaves its loop only on [g_stop], which
    nothing has set: the process neither closes the device connections nor
    exits, however long it is given. *)
Theorem scanner_core_gone_never_exits {B : Type} (backend : eip_scanner_backend B)
    (pid : Z) (getenv : cstr -> option cstr) (table : cfg_table) (base sem_req sem_rsp core_timeout_us : Z)
    (frame : plc_ipc_frame) (reply : list Z) (polls : list nat) (b : B) (k : kernel eip_scanner_shm) (t : Z)
    (Hsem : sem_value k sem_req = 0) (Ht : 0 <= t < 2 ^ 61) (Hto : 0 < core_timeout_us < 2 ^ 32) :
  (exists (rounds : nat) (s' : scanner_service B) (t' : Z),
     service_loop backend pid base sem_req sem_rsp core_timeout_us (sm_health_bytes (deref pid k base))
       (replicate rounds false) (ScannerService frame reply (t / 1000) b polls) (World k t [])
       = Some (CoreGone, s', World k t' []) /\
     core_timeout_us <= t' / 1000 - t / 1000 < core_timeout_us + SERVICE_WAIT_US) /\
  (forall rounds n : nat,
     scanner_serve backend pid getenv table (replicate rounds false) (replicate n false) base sem_req sem_rsp
       frame reply polls b (World k t []) = None).
Proof.
  split.
  - destruct (scanner_loop_ends backend pid base sem_req sem_rsp core_timeout_us (sm_health_bytes (deref pid k base)) k t
      (ScannerService frame reply (t / 1000) b polls)) as (rounds & t' & El & Hb); [done..|].
    exists rounds, (ScannerService frame reply (t / 1000) b polls), t'. done.
  - intros rounds n. unfold scanner_serve. destruct (peek _ _ _ _) as [h w1]. destruct (plc_now_us w1) as [now w2].
    destruct (service_loop _ _ _ _ _ _ _ _ _ w2) as [[[r s] w3]|]; [|done].
    assert (forall c, stack_thread backend (replicate n false) c = None) as ->; [|done].
    induction n as [|n IH]; intros c; [done|]. simpl. apply IH.
Qed.

Lemma scanner_core_gone_never_exits_witness :
  forall rounds n : nat,
    scanner_serve echo_backend 2 (fun _ => None) (Table [] []) (replicate rounds false) (replicate n false) 10 8 7
      frame_zero [] [] tt (World scanner_service_kernel 5000 []) = None.
Proof.
  apply (scanner_core_gone_never_exits echo_backend 2 (fun _ => None) (Table [] []) 10 8 7 2000000 frame_zero [] [] tt
           scanner_service_kernel 5000); [vm_compute; reflexivity|lia|lia].
Defined.
