(* ===== verification/ScannerBackends.v ===== *)
(** * The backends of the scanner process

    [src/adapters/eip_scanner/eip_scanner_backend_mirror.cpp], which needs no
    network, and [eip_scanner_backend_eipscanner.cpp], which drives the
    EIPScanner library: a connection per device, the receive and close
    listeners, the reconnects, and the image swap with the failsafe of each
    device.

    What the library answers, when it calls the listeners, and the steady clock are
    a script: every call that reaches it takes the next [answer].  A theorem about
    all scripts is one about every behaviour of the library and of the network.
    A call of one of the two threads is one step, and the steps come in any order.
    The lock makes that so for the images, the outputs and the flags about data.
    [Device::connected] is written outside the lock, by the close listener and by
    [connect_device], and read under it by the swap: that a swap may fall between
    two such writes of one poll is not modelled.

    The theorems: both fulfil [ScannerBackendLaws], so that what [ScannerService]
    shows holds of them.  A history of what the library did, connections opened,
    frames, closings, determines for each device alone the slice, the health byte and
    the freshness it should have; a swap writes exactly those, and a device is fresh
    only by a frame on a connection of its own.  The comparison of sequence counts
    accepts exactly the frames newer than all before. *)

From Stdlib Require Import ZArith Lia Ascii.
From stdpp Require Import base gmap list strings tactics.
From S2P Require Import Prelude PlcTypes SpscRing Adapter Config Shm IpcProxy ScannerConfig ScannerProxy EipService ScannerService.

Definition EIP_DEVICE_OFFLINE : Z := 0.
Definition EIP_DEVICE_ONLINE : Z := 1.
Definition EIP_DEVICE_FAILSAFE : Z := 2.

(** [if (i < health_len) health[i] = v]. *)
Definition set_health (i v health_len : Z) (health : list Z) : list Z :=
  if i <? health_len then bwrite i [v] health else health.

(** ** The mirror *)

(** [strtoul(v, NULL, 0)]: the prefix picks the base. *)
Definition digit_of (c : Ascii.ascii) : Z :=
  if isdigit c then code c - 48
  else if (97 <=? code c) && (code c <=? 102) then code c - 87
  else if (65 <=? code c) && (code c <=? 70) then code c - 55
  else 99.
Fixpoint digits_in (base acc : Z) (s : cstr) : Z :=
  match s with
  | c :: s => if digit_of c <? base then digits_in base (acc * base + digit_of c) s else acc
  | [] => acc
  end.
Definition strtoul0 (v : cstr) : Z :=
  let v := skip_spaces v in
  let '(neg, v) := match v with
                   | c :: v' => if ceq c "-" then (true, v') else if ceq c "+" then (false, v') else (false, v)
                   | [] => (false, v)
                   end in
  let n := match v with
           | z :: x :: d :: v' =>
               if ceq z "0" && (ceq x "x" || ceq x "X") && (digit_of d <? 16) then digits_in 16 0 (d :: v')
               else if ceq z "0" then digits_in 8 0 v else digits_in 10 0 v
           | z :: _ => if ceq z "0" then digits_in 8 0 v else digits_in 10 0 v
           | [] => 0
           end in
  if n >? ULONG_MAX then ULONG_MAX else if neg then u64 (- n) else n.

Record mirror_state : Type := MirrorState {
  mi_cfg : eip_scanner_config;
  mi_mirror : list Z;
  mi_forced_down : Z;  (** a bit per device *)
  mi_losses : Z
}.
#[export] Instance eta_mirror_state : Eta mirror_state := fun r =>
  MirrorState (mi_cfg r) (mi_mirror r) (mi_forced_down r) (mi_losses r).

Section Mirror.
Context (getenv : cstr -> option cstr) (table : cfg_table).
Implicit Types (g : mirror_state).

Definition mirror_init (cfg : eip_scanner_config) g : plc_status * mirror_state :=
  let down := match plc_cfg_str getenv table (Some (txt "SOFTPLC_SCANNER_MIRROR_DOWN")) None with
              | Some v => u32 (strtoul0 v)
              | None => 0
              end in
  (PLC_OK, MirrorState cfg (zeros (sc_total_t2o_bytes cfg)) down 0).

Definition mirror_shutdown g : mirror_state := g.
Definition mirror_poll (budget_us : Z) g : mirror_state := g.

(** The body of the loop, for device [d] at index [i]: health, T->O, mirror. *)
Definition mirror_device (o2t : list Z) (o2t_len n health_len down i : Z) (d : eip_scanner_device)
    (health t2o mirror : list Z) : list Z * list Z * list Z :=
  if u32 (d_t2o_offset d + d_t2o_bytes d) >? n then (health, t2o, mirror)
  else if negb (Z.land (Z.shiftr down i) 1 =? 0) then
    let t2o := match d_failsafe_policy d with
               | PLC_FAILSAFE_CLEAR => bwrite (d_t2o_offset d) (zeros (d_t2o_bytes d)) t2o
               | PLC_FAILSAFE_HOLD => bwrite (d_t2o_offset d) (bslice (d_t2o_offset d) (d_t2o_bytes d) mirror) t2o
               end in
    (set_health i EIP_DEVICE_FAILSAFE health_len health, t2o, mirror)
  else
    let copy := if d_o2t_bytes d <? d_t2o_bytes d then d_o2t_bytes d else d_t2o_bytes d in
    let t2o := if (d_o2t_offset d + copy <=? o2t_len) && negb (copy =? 0)
               then bwrite (d_t2o_offset d) (bslice (d_o2t_offset d) copy o2t) t2o else t2o in
    let t2o := if copy <? d_t2o_bytes d
               then bwrite (d_t2o_offset d + copy) (zeros (d_t2o_bytes d - copy)) t2o else t2o in
    let mirror := bwrite (d_t2o_offset d) (bslice (d_t2o_offset d) (d_t2o_bytes d) t2o) mirror in
    (set_health i EIP_DEVICE_ONLINE health_len health, t2o, mirror).

Fixpoint mirror_loop (o2t : list Z) (o2t_len n health_len down i : Z) (ds : list eip_scanner_device)
    (health t2o mirror : list Z) : list Z * list Z * list Z :=
  match ds with
  | [] => (health, t2o, mirror)
  | d :: ds =>
      let '(health, t2o, mirror) := mirror_device o2t o2t_len n health_len down i d health t2o mirror in
      mirror_loop o2t o2t_len n health_len down (i + 1) ds health t2o mirror
  end.

Definition mirror_exchange (o2t : list Z) (o2t_len : Z) (health : list Z) (health_len : Z) (t2o : list Z) (t2o_cap : Z)
    g : Z * list Z * list Z * mirror_state :=
  let n := if sc_total_t2o_bytes (mi_cfg g) <? t2o_cap then sc_total_t2o_bytes (mi_cfg g) else t2o_cap in
  let '(health, t2o, mirror) :=
    mirror_loop o2t o2t_len n health_len (mi_forced_down g) 0 (sc_devices (mi_cfg g)) health t2o (mi_mirror g) in
  (n, health, t2o, g <| mi_mirror := mirror |>).

Fixpoint online_from (down i : Z) (ds : list eip_scanner_device) : Z :=
  match ds with
  | [] => 0
  | _ :: ds => (if Z.land (Z.shiftr down i) 1 =? 0 then 1 else 0) + online_from down (i + 1) ds
  end.
Definition mirror_online g : Z := online_from (mi_forced_down g) 0 (sc_devices (mi_cfg g)).
Definition mirror_forward_opens g : Z := sc_device_count (mi_cfg g).
Definition mirror_losses g : Z := mi_losses g.
Definition mirror_out_of_order g : Z := 0.

Definition kMirror : eip_scanner_backend mirror_state :=
  ScannerBackend "mirror" mirror_init mirror_shutdown mirror_poll mirror_exchange mirror_online
    mirror_forward_opens mirror_losses mirror_out_of_order.
End Mirror.

(** ** EIPScanner *)

(** [kReconnectInterval], in nanoseconds of the steady clock. *)
Definition kReconnectInterval : Z := 2000000000.
Definition kEipPort : Z := 0xAF12.

(** What a connection is asked for. *)
Record connection_params : Type := ConnParams {
  cp_path : list Z;
  cp_o2t_bytes : Z;  (** or-ed into the network connection parameters *)
  cp_t2o_bytes : Z;
  cp_o2t_rpi : Z;
  cp_t2o_rpi : Z;
  cp_timeout_multiplier : Z
}.
#[export] Instance eta_connection_params : Eta connection_params := fun r =>
  ConnParams (cp_path r) (cp_o2t_bytes r) (cp_t2o_bytes r) (cp_o2t_rpi r) (cp_t2o_rpi r)
    (cp_timeout_multiplier r).

Definition make_params (d : eip_scanner_device) : connection_params :=
  ConnParams [0x20; 0x04; 0x24; u8 (d_config_assembly d); 0x2C; u8 (d_o2t_assembly d); 0x2C; u8 (d_t2o_assembly d)]
    (d_o2t_bytes d) (d_t2o_bytes d) (d_o2t_rpi_us d) (d_t2o_rpi_us d) (d_timeout_multiplier d).

Inductive open_answer : Type :=
| Opened
| Rejected  (** an expired pointer *)
| Threw.

(** What the library does while connections are serviced. *)
Inductive stack_event : Type :=
| Received (conn : Z) (sequence : Z) (data : list Z)
| ConnClosed (conn : Z).

(** The library's side of one call: the steady clock at the call, whether the
    session is established, what [forwardOpen] answers, what happens while
    connections are serviced. *)
Record answer : Type := Answer {
  la_now : Z;
  la_session : bool;
  la_open : open_answer;
  la_events : list stack_event
}.

Record device_state : Type := DeviceState {
  dv_cfg : eip_scanner_device;
  dv_session : bool;
  dv_io : option Z;  (** the connection, which may be gone *)
  dv_connected : bool;
  dv_has_data : bool;  (** this connection has delivered a frame *)
  dv_ever_data : bool;  (** some connection has *)
  dv_last_seq : Z;
  dv_have_seq : bool;
  dv_last_good : list Z;
  dv_latest : list Z;
  dv_to_send : list Z;
  dv_next_retry : Z
}.
#[export] Instance eta_device_state : Eta device_state := fun r =>
  DeviceState (dv_cfg r) (dv_session r) (dv_io r) (dv_connected r) (dv_has_data r)
    (dv_ever_data r) (dv_last_seq r) (dv_have_seq r) (dv_last_good r) (dv_latest r)
    (dv_to_send r) (dv_next_retry r).

(** The globals; [sn_cm] is the connection manager: its open connections, each
    with the device its listeners serve, what it was asked for, and the data it
    sends. *)
Record scanner_state : Type := ScannerState {
  sn_cfg : eip_scanner_config;
  sn_devices : list device_state;
  sn_cm : option (gmap Z (nat * connection_params * list Z));
  sn_next : Z;  (** the next connection *)
  sn_forward_opens : Z;
  sn_losses : Z;
  sn_out_of_order : Z;
  sn_rejects : Z;
  sn_script : list answer
}.
#[export] Instance eta_scanner_state : Eta scanner_state := fun r =>
  ScannerState (sn_cfg r) (sn_devices r) (sn_cm r) (sn_next r) (sn_forward_opens r)
    (sn_losses r) (sn_out_of_order r) (sn_rejects r) (sn_script r).

Implicit Types (s : scanner_state) (d : device_state).

Definition on_device (i : nat) (f : device_state -> device_state) s : scanner_state :=
  s <| sn_devices := alter f i (sn_devices s) |>.

Definition ask_library s : answer * scanner_state :=
  (default (Answer 0 false Rejected []) (head (sn_script s)), s <| sn_script := tail (sn_script s) |>).

(** The listener: whether the frame was accepted, and the device. *)
Definition receive (sequence : Z) (data : list Z) d : bool * device_state :=
  if dv_have_seq d && (s16 (u16 sequence - dv_last_seq d) <=? 0) then (false, d)
  else
    let d := d <| dv_last_seq := u16 sequence |> <| dv_have_seq := true |> in
    let n := Z.min (zlen data) (zlen (dv_latest d)) in
    let latest := bwrite 0 (bslice 0 n data) (dv_latest d) in
    let latest := bwrite n (zeros (zlen latest - n)) latest in
    (true, d <| dv_latest := latest |> <| dv_last_good := latest |> <| dv_has_data := true |> <| dv_ever_data := true |>).

(** A listener runs, on the stack thread inside [handleConnections]. *)
Definition stack_step (now : Z) (e : stack_event) s : scanner_state :=
  match e, sn_cm s with
  | Received c sequence data, Some cm =>
      match cm !! c with
      | Some (i, _, _) =>
          match sn_devices s !! i with
          | Some d => let '(ok, d') := receive sequence data d in
                      let s := on_device i (fun _ => d') s in
                      if ok then s else s <| sn_out_of_order := u64 (sn_out_of_order s + 1) |>
          | None => s
          end
      | None => s
      end
  | ConnClosed c, Some cm =>
      match cm !! c with
      | Some (i, _, _) =>
          let s := s <| sn_cm := Some (delete c cm) |> in
          let s := on_device i (fun d => d <| dv_connected := false |> <| dv_next_retry := now + kReconnectInterval |>) s in
          s <| sn_losses := u64 (sn_losses s + 1) |>
      | None => s
      end
  | _, None => s
  end.

(** Why a target refused a ForwardOpen, by its extended status. *)
Definition forward_open_reasons : list (Z * string) :=
  [ (0x0100, "connection already in use, or a duplicate ForwardOpen");
    (0x0103, "transport class or trigger combination not supported");
    (0x0106, "ownership conflict - another scanner owns this connection");
    (0x0107, "target connection not found");
    (0x0108, "invalid network connection parameter");
    (0x0109, "invalid connection size");
    (0x0110, "target for the connection is not configured");
    (0x0111, "RPI not supported");
    (0x0112, "RPI outside the range the target accepts");
    (0x0113, "no connection slots left on the target");
    (0x0114, "vendor id or product code in the key does not match");
    (0x0115, "device type in the key does not match");
    (0x0116, "revision in the key does not match");
    (0x0119, "non-listen-only connection not opened");
    (0x011A, "target object is out of connections");
    (0x0126, "configuration assembly is the wrong size");
    (0x0127, "O->T size does not match the target's consuming assembly");
    (0x0128, "T->O size does not match the target's producing assembly");
    (0x0129, "configuration assembly instance does not exist on the target");
    (0x012A, "consumed (O->T) assembly instance does not exist on the target");
    (0x012B, "produced (T->O) assembly instance does not exist on the target");
    (0x012F, "the assembly instances requested cannot be used together");
    (0x0311, "port not available on the target");
    (0x0312, "link address not valid");
    (0x0315, "invalid segment in the connection path - the target does not recognise an assembly instance in it");
    (0x0316, "the connection path and the connection to close do not match");
    (0x0317, "scheduling priority not specified");
    (0x0318, "link address to self is not valid") ].
Definition forward_open_reason (extended : Z) : option string :=
  option_map snd (List.find (fun r => r.1 =? extended) forward_open_reasons).

(** [%04X] of a 16-bit value. *)
Definition hex_digit (d : Z) : Ascii.ascii := Ascii.ascii_of_nat (Z.to_nat (if d <? 10 then 48 + d else 55 + d)).
Definition hex4 (v : Z) : string :=
  String (hex_digit (v / 4096 mod 16)) (String (hex_digit (v / 256 mod 16))
    (String (hex_digit (v / 16 mod 16)) (String (hex_digit (v mod 16)) EmptyString))).

(** [detail], which the log line about a rejected ForwardOpen ends with. *)
Definition reject_detail (ext : Z) : string :=
  snprintf_s 192 match forward_open_reason ext with
                 | Some why => why
                 | None => "extended status 0x" +:+ hex4 ext
                 end.

(** Whether an exception came out, and the state. *)
Definition connect_device (i : nat) s : bool * scanner_state :=
  let '(a, s) := ask_library s in
  match sn_devices s !! i, sn_cm s with
  | Some d, Some cm =>
      if la_now a <? dv_next_retry d then (false, s)
      else
        let s := on_device i (fun d => d <| dv_next_retry := la_now a + kReconnectInterval |>) s in
        if negb (la_session a) then (false, on_device i (fun d => d <| dv_session := false |>) s)
        else
          let s := on_device i (fun d => d <| dv_session := true |>) s in
          match la_open a with
          | Threw => (true, s)
          | Rejected => (false, on_device i (fun d => d <| dv_session := false |>)
                                  (s <| sn_rejects := u64 (sn_rejects s + 1) |>))
          | Opened =>
              let c := sn_next s in
              let s := s <| sn_cm := Some (<[c := (i, make_params (dv_cfg d), dv_to_send d)]> cm) |> <| sn_next := c + 1 |> in
              let s := on_device i (fun d => d <| dv_has_data := false |> <| dv_have_seq := false |>
                                               <| dv_io := Some c |> <| dv_connected := true |>) s in
              (false, s <| sn_forward_opens := u64 (sn_forward_opens s + 1) |>)
          end
  | _, _ => (false, s)
  end.

Definition device_start (c : eip_scanner_device) : device_state :=
  DeviceState c false None false false false 0 false (zeros (d_t2o_bytes c)) (zeros (d_t2o_bytes c)) (zeros (d_o2t_bytes c)) 0.

(** The loop of [scanner_init]; [None] is an exception that leaves it. *)
Fixpoint init_loop (idx : list nat) s : option scanner_state :=
  match idx with
  | [] => Some s
  | i :: idx => let '(threw, s) := connect_device i s in if threw then None else init_loop idx s
  end.

(** [None]: the process has been terminated by an exception. *)
Definition scanner_init (cfg : option eip_scanner_config) s : option (plc_status * scanner_state) :=
  match cfg with
  | None => Some (PLC_ERR_INVAL, s)
  | Some cfg =>
      if sc_device_count cfg =? 0 then Some (PLC_ERR_INVAL, s)
      else
        let s := s <| sn_cfg := cfg |> <| sn_cm := Some ∅ |> <| sn_devices := map device_start (sc_devices cfg) |> in
        match init_loop (seq 0 (length (sc_devices cfg))) s with
        | None => None
        | Some s => Some (PLC_OK, s)
        end
  end.

(** [d.io.lock()]. *)
Definition alive (cm : gmap Z (nat * connection_params * list Z)) d : option Z :=
  match dv_io d with Some c => match cm !! c with Some _ => Some c | None => None end | None => None end.

(** The loop closes every connection that is still there; the manager goes with
    the rest. *)
Definition scanner_shutdown s : scanner_state := s <| sn_cm := None |> <| sn_devices := [] |>.

(** The first loop of [scanner_poll]: outputs handed to each live connection. *)
Definition hand_over (i : nat) s : scanner_state :=
  match sn_devices s !! i, sn_cm s with
  | Some d, Some cm =>
      if negb (dv_connected d) then s
      else match alive cm d with
           | Some c => s <| sn_cm := Some (alter (fun '(j, p, _) => (j, p, dv_to_send d)) c cm) |>
           | None => on_device i (fun d => d <| dv_connected := false |>) s
           end
  | _, _ => s
  end.

Definition reconnect (i : nat) s : scanner_state :=
  match sn_devices s !! i with
  | Some d => if dv_connected d then s else (connect_device i s).2
  | None => s
  end.

(** Exceptions of the servicing and of the reconnects are caught.  Servicing that
    throws has run the events before it. *)
Definition scanner_poll (budget_us : Z) s : scanner_state :=
  match sn_cm s with
  | None => s
  | Some _ =>
      let idx := seq 0 (length (sn_devices s)) in
      let s := foldl (fun s i => hand_over i s) s idx in
      let s := if bool_decide (default ∅ (sn_cm s) = ∅) then s
               else let '(a, s) := ask_library s in foldl (fun s e => stack_step (la_now a) e s) s (la_events a) in
      foldl (fun s i => reconnect i s) s idx
  end.

(** The body of the swap, for one device: the device, health, T->O. *)
Definition swap_device (o2t : list Z) (o2t_len total health_len i : Z) d (health t2o : list Z)
    : device_state * list Z * list Z :=
  let c := dv_cfg d in
  let d := if u32 (d_o2t_offset c + d_o2t_bytes c) <=? o2t_len
           then d <| dv_to_send := bwrite 0 (bslice (d_o2t_offset c) (d_o2t_bytes c) o2t) (dv_to_send d) |> else d in
  if u32 (d_t2o_offset c + d_t2o_bytes c) >? total then (d, health, t2o)
  else if dv_connected d && dv_has_data d then
    (d, set_health i EIP_DEVICE_ONLINE health_len health,
     bwrite (d_t2o_offset c) (bslice 0 (d_t2o_bytes c) (dv_latest d)) t2o)
  else
    let t2o := match d_failsafe_policy c with
               | PLC_FAILSAFE_CLEAR => bwrite (d_t2o_offset c) (zeros (d_t2o_bytes c)) t2o
               | PLC_FAILSAFE_HOLD => bwrite (d_t2o_offset c) (bslice 0 (d_t2o_bytes c) (dv_last_good d)) t2o
               end in
    (d, set_health i (if dv_ever_data d then EIP_DEVICE_FAILSAFE else EIP_DEVICE_OFFLINE) health_len health, t2o).

Fixpoint swap_loop (o2t : list Z) (o2t_len total health_len i : Z) (ds : list device_state) (health t2o : list Z)
    : list device_state * list Z * list Z :=
  match ds with
  | [] => ([], health, t2o)
  | d :: ds =>
      let '(d, health, t2o) := swap_device o2t o2t_len total health_len i d health t2o in
      let '(ds, health, t2o) := swap_loop o2t o2t_len total health_len (i + 1) ds health t2o in
      (d :: ds, health, t2o)
  end.

Definition scanner_exchange (o2t : list Z) (o2t_len : Z) (health : list Z) (health_len : Z) (t2o : list Z) (t2o_cap : Z)
    s : Z * list Z * list Z * scanner_state :=
  let total := Z.min (sc_total_t2o_bytes (sn_cfg s)) t2o_cap in
  let '(ds, health, t2o) := swap_loop o2t o2t_len total health_len 0 (sn_devices s) health t2o in
  (total, health, t2o, s <| sn_devices := ds |>).

Definition scanner_online s : Z := zlen (List.filter (fun d => dv_connected d && dv_has_data d) (sn_devices s)).
Definition scanner_forward_opens s : Z := sn_forward_opens s.
Definition scanner_losses s : Z := sn_losses s.
Definition scanner_out_of_order s : Z := sn_out_of_order s.

(** [init] is wrapped: a termination cannot be a result of the C interface. *)
Definition kEipScanner : eip_scanner_backend scanner_state :=
  ScannerBackend "eipscanner" (fun cfg s => default (PLC_ERR_IO, s) (scanner_init (Some cfg) s)) scanner_shutdown scanner_poll
    scanner_exchange scanner_online scanner_forward_opens scanner_losses scanner_out_of_order.

(** ** Rejected connections *)

(** The text of the log line names the status: whole, and one text per status. *)
Definition reject_text (ext : Z) : string :=
  match forward_open_reason ext with Some why => why | None => "extended status 0x" +:+ hex4 ext end.

Lemma reason_find ext why : forward_open_reason ext = Some why -> In (ext, why) forward_open_reasons.
Proof.
  unfold forward_open_reason. destruct (List.find _ _) as [[e r]|] eqn:E; [|done]. apply List.find_some in E as [Hin He].
  simpl in He. apply Z.eqb_eq in He as ->. intros [= <-]. done.
Qed.

Lemma reject_detail_whole ext : reject_detail ext = reject_text ext.
Proof.
  unfold reject_detail. fold (reject_text ext). apply snprintf_id. unfold reject_text.
  destruct (forward_open_reason ext) as [why|] eqn:E; [|done]. apply reason_find in E.
  assert (List.forallb (fun r => Z.of_nat (String.length r.2) <? 192) forward_open_reasons = true) as Hall by (vm_compute; reflexivity).
  rewrite List.forallb_forall in Hall. apply Hall in E. simpl in E. lia.
Qed.

Lemma hex_digit_inj a b : 0 <= a < 16 -> 0 <= b < 16 -> hex_digit a = hex_digit b -> a = b.
Proof.
  intros Ha Hb E. unfold hex_digit in E. apply (f_equal Ascii.nat_of_ascii) in E.
  destruct (Z.ltb_spec a 10), (Z.ltb_spec b 10); rewrite !Ascii.nat_ascii_embedding in E by lia; lia.
Qed.

Lemma hex4_inj a b : 0 <= a < 2 ^ 16 -> 0 <= b < 2 ^ 16 -> hex4 a = hex4 b -> a = b.
Proof.
  intros Ha Hb E. injection E as E1 E2 E3 E4.
  apply hex_digit_inj in E1; [|apply Z.mod_pos_bound; lia..]. apply hex_digit_inj in E2; [|apply Z.mod_pos_bound; lia..].
  apply hex_digit_inj in E3; [|apply Z.mod_pos_bound; lia..]. apply hex_digit_inj in E4; [|apply Z.mod_pos_bound; lia..].
  assert (forall v, 0 <= v < 2 ^ 16 -> v = v / 4096 mod 16 * 4096 + v / 256 mod 16 * 256 + v / 16 mod 16 * 16 + v mod 16) as H
    by (intros v Hv; Z.div_mod_to_equations; lia).
  rewrite (H a), (H b) by done. congruence.
Qed.

Lemma reject_detail_inj a b : 0 <= a < 2 ^ 16 -> 0 <= b < 2 ^ 16 -> reject_detail a = reject_detail b -> a = b.
Proof.
  intros Ha Hb. rewrite !reject_detail_whole. unfold reject_text.
  assert (forall w v, In w (map snd forward_open_reasons) -> w <> "extended status 0x" +:+ hex4 v) as Hne.
  { intros w v Hw ->. revert Hw. simpl. intros Hw. repeat (destruct Hw as [Hw|Hw]; [discriminate Hw|]). done. }
  destruct (forward_open_reason a) as [wa|] eqn:Ea, (forward_open_reason b) as [wb|] eqn:Eb.
  - apply reason_find in Ea, Eb. intros <-.
    assert (NoDup (map snd forward_open_reasons)) as Hnd by (apply (bool_decide_unpack _); vm_compute; exact I).
    apply list_elem_of_In, list_elem_of_lookup in Ea as [i Hi]. apply list_elem_of_In, list_elem_of_lookup in Eb as [j Hj].
    assert (i = j) as <-; [|congruence].
    apply (NoDup_lookup _ i j wa Hnd); rewrite list_lookup_fmap; [by rewrite Hi|by rewrite Hj].
  - intros E. exfalso. apply reason_find in Ea. apply (Hne wa b); [by apply (in_map snd) in Ea|done].
  - intros E. exfalso. apply reason_find in Eb. apply (Hne wb a); [by apply (in_map snd) in Eb|done].
  - intros E. injection E as E1 E2 E3 E4. apply hex4_inj; [done|done|]. unfold hex4. by rewrite E1, E2, E3, E4.
Qed.

(** ** Buffers *)

(** Writing a byte of health. *)
Lemma zlen_set_health i v n health : 0 <= i -> zlen health = n -> zlen (set_health i v n health) = n.
Proof.
  intros Hi Hn. unfold set_health. destruct (Z.ltb_spec i n); [|done]. rewrite zlen_bwrite; [done|done|].
  change (zlen [v]) with 1. lia.
Qed.

Lemma byte_at_bwrite i v l : 0 <= i < zlen l -> byte_at (bwrite i [v] l) i = v.
Proof.
  intros Hi. pose proof (byte_at_lookup (bwrite i [v] l) i) as Hl.
  rewrite zlen_bwrite in Hl by (change (zlen [v]) with 1; lia). specialize (Hl Hi).
  rewrite lookup_bwrite_inside, Nat.sub_diag in Hl by (change (zlen [v]) with 1; simpl; lia). simpl in Hl. congruence.
Qed.

Lemma byte_at_bwrite_ne i j v l : 0 <= i < zlen l -> 0 <= j < zlen l -> i <> j -> byte_at (bwrite i [v] l) j = byte_at l j.
Proof.
  intros Hi Hj Hne. pose proof (byte_at_lookup (bwrite i [v] l) j) as Hl. pose proof (byte_at_lookup l j Hj) as Hl'.
  rewrite zlen_bwrite in Hl by (change (zlen [v]) with 1; lia). specialize (Hl Hj).
  rewrite lookup_bwrite_outside in Hl by (change (zlen [v]) with 1; simpl; lia). congruence.
Qed.

(** Slices written one after the other: offset, bytes, health byte. *)
Fixpoint put_all (i health_len : Z) (ws : list (Z * list Z * Z)) (health t2o : list Z) : list Z * list Z :=
  match ws with
  | [] => (health, t2o)
  | (off, bs, h) :: ws => put_all (i + 1) health_len ws (set_health i h health_len health) (bwrite off bs t2o)
  end.

(** Each slice follows the ones before it, and all lie inside [n] bytes. *)
Fixpoint laid_out (from n : Z) (ws : list (Z * list Z * Z)) : Prop :=
  match ws with
  | [] => True
  | (off, bs, _) :: ws => from <= off /\ off + zlen bs <= n /\ laid_out (off + zlen bs) n ws
  end.

Lemma put_all_spec ws : forall i from health_len health t2o,
  0 <= i -> 0 <= from -> laid_out from (zlen t2o) ws -> zlen health = health_len ->
  let '(health', t2o') := put_all i health_len ws health t2o in
  zlen health' = health_len /\ zlen t2o' = zlen t2o /\
  (forall off len, 0 <= off -> 0 <= len -> off + len <= from -> bslice off len t2o' = bslice off len t2o) /\
  (forall j, 0 <= j < i -> j < health_len -> byte_at health' j = byte_at health j) /\
  (forall k off bs h, ws !! k = Some (off, bs, h) ->
     bslice off (zlen bs) t2o' = bs /\ (i + Z.of_nat k < health_len -> byte_at health' (i + Z.of_nat k) = h)).
Proof.
  induction ws as [|[[off bs] h] ws IH]; intros i from health_len health t2o Hi Hf Hl Hh; simpl.
  { split; [done|]. split; [done|]. split; [done|]. split; [done|]. intros k off bs h Hk. by rewrite lookup_nil in Hk. }
  destruct Hl as (Ho & Hn & Hl). pose proof (zlen_nonneg bs) as Hz.
  assert (zlen (bwrite off bs t2o) = zlen t2o) as Ez by (apply zlen_bwrite; lia).
  specialize (IH (i + 1) (off + zlen bs) health_len (set_health i h health_len health) (bwrite off bs t2o)
    ltac:(lia) ltac:(lia) ltac:(by rewrite Ez) (zlen_set_health i h health_len health Hi Hh)).
  destruct (put_all _ _ _ _ _) as [health' t2o']. destruct IH as (H1 & H2 & H3 & H4 & H5).
  split; [done|]. split; [lia|]. split; [|split].
  - intros o len Ho0 Hlen Hle. rewrite H3 by lia. apply bslice_bwrite_disjoint; lia.
  - intros j Hj Hjl. rewrite H4 by lia. unfold set_health. destruct (Z.ltb_spec i health_len); [|done].
    apply byte_at_bwrite_ne; lia.
  - intros [|k] o b h' Hk; simpl in Hk.
    + injection Hk as <- <- <-. rewrite H3 by lia. split; [apply bslice_bwrite_same; lia|]. rewrite Z.add_0_r. intros Hlt.
      rewrite H4 by lia. unfold set_health. destruct (Z.ltb_spec i health_len); [|lia]. apply byte_at_bwrite. lia.
    + destruct (H5 k o b h' Hk) as [A B]. split; [done|]. replace (i + Z.of_nat (S k)) with (i + 1 + Z.of_nat k) by lia. done.
Qed.

(** ** The layout of the table *)

Definition sizes_ok (c : eip_scanner_device) : Prop := 0 <= d_o2t_bytes c < 2 ^ 16 /\ 0 <= d_t2o_bytes c < 2 ^ 16.

Lemma packed_from size off cs : forall pre,
  packed size off (pre ++ cs) -> forall k c, cs !! k = Some c -> off c = sum_of size pre + sum_of size (take k cs).
Proof.
  intros pre Hp k c Hk. rewrite <- sum_of_app.
  apply (Hp (pre ++ take k cs) c (drop (S k) cs)). rewrite <- app_assoc. f_equal. symmetry. by apply take_drop_middle.
Qed.

(** ** One swap of the EIPScanner backend *)

(** What the source promises of a device's slice and of its health byte. *)
Definition fresh d : bool := dv_connected d && dv_has_data d.
Definition slice_of d : list Z :=
  if fresh d then dv_latest d
  else match d_failsafe_policy (dv_cfg d) with
       | PLC_FAILSAFE_CLEAR => zeros (d_t2o_bytes (dv_cfg d))
       | PLC_FAILSAFE_HOLD => dv_last_good d
       end.
Definition health_of d : Z :=
  if fresh d then EIP_DEVICE_ONLINE else if dv_ever_data d then EIP_DEVICE_FAILSAFE else EIP_DEVICE_OFFLINE.
Definition staged (o2t : list Z) (o2t_len : Z) d : device_state :=
  if d_o2t_offset (dv_cfg d) + d_o2t_bytes (dv_cfg d) <=? o2t_len
  then d <| dv_to_send := bslice (d_o2t_offset (dv_cfg d)) (d_o2t_bytes (dv_cfg d)) o2t |> else d.

Definition buffers_ok d : Prop :=
  zlen (dv_latest d) = d_t2o_bytes (dv_cfg d) /\ zlen (dv_last_good d) = d_t2o_bytes (dv_cfg d) /\
  zlen (dv_to_send d) = d_o2t_bytes (dv_cfg d).

Lemma staged_cfg o2t len d : dv_cfg (staged o2t len d) = dv_cfg d.
Proof. unfold staged. by destruct (_ <=? _). Qed.

Lemma zlen_slice_of d : buffers_ok d -> 0 <= d_t2o_bytes (dv_cfg d) -> zlen (slice_of d) = d_t2o_bytes (dv_cfg d).
Proof.
  intros (H1 & H2 & _) Hn. unfold slice_of. destruct (fresh d); [done|].
  destruct (d_failsafe_policy _); [done|by rewrite zlen_zeros].
Qed.

Lemma bwrite_0_whole src l : zlen src = zlen l -> bwrite 0 src l = src.
Proof.
  unfold zlen, bwrite. intros E. simpl. rewrite drop_ge by lia. by rewrite app_nil_r.
Qed.

Lemma swap_device_spec o2t o2t_len total health_len i d health t2o :
  buffers_ok d -> 0 <= d_o2t_offset (dv_cfg d) -> 0 <= d_t2o_offset (dv_cfg d) -> sizes_ok (dv_cfg d) ->
  d_o2t_offset (dv_cfg d) < 2 ^ 16 -> o2t_len <= zlen o2t ->
  d_t2o_offset (dv_cfg d) + d_t2o_bytes (dv_cfg d) <= total -> total < 2 ^ 32 ->
  swap_device o2t o2t_len total health_len i d health t2o =
    (staged o2t o2t_len d, set_health i (health_of d) health_len health, bwrite (d_t2o_offset (dv_cfg d)) (slice_of d) t2o).
Proof.
  intros (H1 & H2 & H3) Hoo Hto [Ho Ht] Hoo' Hlen Htot H32. unfold swap_device. cbv zeta.
  rewrite !u32_small by lia.
  assert ((if d_o2t_offset (dv_cfg d) + d_o2t_bytes (dv_cfg d) <=? o2t_len
           then d <| dv_to_send := bwrite 0 (bslice (d_o2t_offset (dv_cfg d)) (d_o2t_bytes (dv_cfg d)) o2t) (dv_to_send d) |> else d)
          = staged o2t o2t_len d) as ->.
  { unfold staged. destruct (Z.leb_spec (d_o2t_offset (dv_cfg d) + d_o2t_bytes (dv_cfg d)) o2t_len); [|done].
    rewrite bwrite_0_whole; [done|]. rewrite zlen_bslice; lia. }
  destruct (Z.gtb_spec (d_t2o_offset (dv_cfg d) + d_t2o_bytes (dv_cfg d)) total); [lia|].
  assert (dv_connected (staged o2t o2t_len d) = dv_connected d /\ dv_has_data (staged o2t o2t_len d) = dv_has_data d /\
    dv_ever_data (staged o2t o2t_len d) = dv_ever_data d /\ dv_latest (staged o2t o2t_len d) = dv_latest d /\
    dv_last_good (staged o2t o2t_len d) = dv_last_good d) as (-> & -> & -> & -> & ->) by (unfold staged; by destruct (_ <=? _)).
  unfold slice_of, health_of, fresh. rewrite <- H1 at 1. rewrite bslice_all. rewrite <- H2 at 1. rewrite bslice_all.
  destruct (dv_connected d && dv_has_data d); [done|]. by destruct (d_failsafe_policy _).
Qed.

(** Whatever fits is written inside its slice. *)
Lemma swap_device_frame o2t o2t_len total health_len i d health t2o :
  buffers_ok d -> 0 <= d_o2t_offset (dv_cfg d) < 2 ^ 16 -> 0 <= d_t2o_offset (dv_cfg d) < 2 ^ 16 -> sizes_ok (dv_cfg d) ->
  o2t_len <= zlen o2t -> total <= zlen t2o -> total < 2 ^ 32 -> 0 <= i -> zlen health = health_len ->
  let '(d', health', t2o') := swap_device o2t o2t_len total health_len i d health t2o in
  d' = staged o2t o2t_len d /\ zlen health' = health_len /\ zlen t2o' = zlen t2o.
Proof.
  intros Hb Ho Ht Hs Hlen Htot H32 Hi Hh.
  destruct (decide (d_t2o_offset (dv_cfg d) + d_t2o_bytes (dv_cfg d) <= total)) as [Hle|Hgt].
  - rewrite swap_device_spec by (done || lia). split; [done|]. split; [by apply zlen_set_health|].
    apply zlen_bwrite; [lia|]. rewrite zlen_slice_of; [lia|done|]. destruct Hs. lia.
  - pose proof (swap_device_spec o2t o2t_len (2 ^ 31) health_len i d health t2o Hb ltac:(lia) ltac:(lia) Hs ltac:(lia) Hlen) as Hx.
    destruct Hs as [Hso Hst]. unfold swap_device in *. cbv zeta in *. rewrite !u32_small in * by lia.
    destruct (Z.gtb_spec (d_t2o_offset (dv_cfg d) + d_t2o_bytes (dv_cfg d)) total); [|lia].
    destruct (Z.gtb_spec (d_t2o_offset (dv_cfg d) + d_t2o_bytes (dv_cfg d)) (2 ^ 31)); [lia|].
    specialize (Hx ltac:(lia) ltac:(lia)). split; [|done]. apply (f_equal (fun x => x.1.1)) in Hx. simpl in Hx.
    revert Hx. by destruct (_ && _).
Qed.

Definition device_placed (c : eip_scanner_device) : Prop :=
  0 <= d_o2t_offset c < 2 ^ 16 /\ 0 <= d_t2o_offset c < 2 ^ 16 /\ sizes_ok c.

Lemma swap_loop_frame o2t o2t_len total health_len ds : forall i health t2o,
  Forall (fun d => buffers_ok d /\ device_placed (dv_cfg d)) ds ->
  o2t_len <= zlen o2t -> total <= zlen t2o -> total < 2 ^ 32 -> 0 <= i -> zlen health = health_len ->
  let '(ds', health', t2o') := swap_loop o2t o2t_len total health_len i ds health t2o in
  ds' = map (staged o2t o2t_len) ds /\ zlen health' = health_len /\ zlen t2o' = zlen t2o.
Proof.
  induction ds as [|d ds IH]; intros i health t2o HF Hlen Htot H32 Hi Hh; [done|].
  apply Forall_cons_1 in HF as [(Hb & Ho & Ht & Hs) HF]. cbn [swap_loop].
  pose proof (swap_device_frame o2t o2t_len total health_len i d health t2o Hb Ho Ht Hs Hlen Htot H32 Hi Hh) as Hd.
  destruct (swap_device _ _ _ _ _ _ _ _) as [[d1 health1] t2o1]. destruct Hd as (-> & Hh1 & Ht1).
  specialize (IH (i + 1) health1 t2o1 HF Hlen ltac:(lia) H32 ltac:(lia) Hh1).
  destruct (swap_loop _ _ _ _ _ _ _ _) as [[ds' health'] t2o']. destruct IH as (-> & ? & ?). split; [done|]. split; [done|lia].
Qed.

Lemma swap_loop_spec o2t o2t_len total health_len ds : forall i health t2o,
  Forall (fun d => buffers_ok d /\ device_placed (dv_cfg d) /\
                   d_t2o_offset (dv_cfg d) + d_t2o_bytes (dv_cfg d) <= total) ds ->
  o2t_len <= zlen o2t -> total < 2 ^ 32 ->
  swap_loop o2t o2t_len total health_len i ds health t2o =
    (map (staged o2t o2t_len) ds,
     (put_all i health_len (map (fun d => (d_t2o_offset (dv_cfg d), slice_of d, health_of d)) ds) health t2o).1,
     (put_all i health_len (map (fun d => (d_t2o_offset (dv_cfg d), slice_of d, health_of d)) ds) health t2o).2).
Proof.
  induction ds as [|d ds IH]; intros i health t2o HF Hlen H32; [done|].
  apply Forall_cons_1 in HF as [(Hb & ([Ho1 Ho2] & [Ht1 Ht2] & Hs) & Hle) HF]. cbn [swap_loop].
  rewrite swap_device_spec by done. by rewrite IH.
Qed.

(** The slices of devices that follow each other. *)
Lemma laid_out_devices ds : forall pre n,
  packed d_t2o_bytes d_t2o_offset (pre ++ map dv_cfg ds) -> Forall (fun d => buffers_ok d /\ device_placed (dv_cfg d)) ds ->
  sum_of d_t2o_bytes (pre ++ map dv_cfg ds) <= n ->
  laid_out (sum_of d_t2o_bytes pre) n (map (fun d => (d_t2o_offset (dv_cfg d), slice_of d, health_of d)) ds).
Proof.
  induction ds as [|d ds IH]; intros pre n Hp HF Hn; [done|]. apply Forall_cons_1 in HF as [(Hb & _ & _ & _ & Hs) HF].
  cbn [map laid_out]. rewrite zlen_slice_of by (done || lia).
  assert (d_t2o_offset (dv_cfg d) = sum_of d_t2o_bytes pre) as Eo
    by (pose proof (packed_from _ _ (map dv_cfg (d :: ds)) pre Hp 0 (dv_cfg d) eq_refl) as E; simpl in E; lia).
  assert (pre ++ map dv_cfg (d :: ds) = (pre ++ [dv_cfg d]) ++ map dv_cfg ds) as Eapp by (by rewrite <- app_assoc).
  assert (0 <= sum_of d_t2o_bytes (map dv_cfg ds)) as Hnn.
  { apply sum_of_nonneg, List.Forall_map. eapply List.Forall_impl; [|exact HF]. intros x (_ & _ & _ & _ & ?). lia. }
  pose proof Hn as Hn'. rewrite sum_of_app in Hn'. simpl in Hn'. split; [lia|]. split; [lia|].
  assert (sum_of d_t2o_bytes (pre ++ [dv_cfg d]) = sum_of d_t2o_bytes pre + d_t2o_bytes (dv_cfg d)) as Es by (rewrite sum_of_app; simpl; lia).
  rewrite Eo, <- Es. apply IH; [by rewrite <- Eapp|done|by rewrite <- Eapp].
Qed.

(** ** What every call keeps *)

Definition scanner_inv s : Prop :=
  table_inv (sn_cfg s) /\ map dv_cfg (sn_devices s) = sc_devices (sn_cfg s) /\ Forall buffers_ok (sn_devices s).

Lemma table_placed cfg : table_inv cfg ->
  Forall (fun c => device_placed c /\ d_t2o_offset c + d_t2o_bytes c <= sc_total_t2o_bytes cfg) (sc_devices cfg) /\
  0 <= sc_total_t2o_bytes cfg <= PLC_IPC_MAX_FRAME_BYTES.
Proof.
  intros (_ & HF & Ho & Ht & Hol & Htl & Hpo & Hpt). unfold PLC_IPC_MAX_FRAME_BYTES in *.
  assert (forall (sz : eip_scanner_device -> Z) l, (forall c, device_ok c -> 0 <= sz c) -> Forall device_ok l -> 0 <= sum_of sz l) as Hnn.
  { intros sz l Hsz Hl. apply sum_of_nonneg. eapply List.Forall_impl; [|exact Hl]. done. }
  assert (forall c, device_ok c -> 0 <= d_o2t_bytes c <= 496 /\ 0 <= d_t2o_bytes c <= 496) as Hb
    by (intros c (?&?&?&?&?&?&_); unfold PLC_IPC_MAX_FRAME_BYTES in *; lia).
  split; [|split; [rewrite Ht; apply Hnn; [intros c Hc; apply Hb in Hc; lia|done]|done]].
  apply List.Forall_forall. intros c Hin. apply list_elem_of_In, list_elem_of_lookup in Hin as [k Hk].
  pose proof (take_drop_middle _ _ _ Hk) as Hm.
  assert (Forall device_ok (take k (sc_devices cfg)) /\ device_ok c /\ Forall device_ok (drop (S k) (sc_devices cfg))) as (F1 & F2 & F3).
  { rewrite <- Hm in HF. apply Forall_app in HF as [F1 F2]. apply Forall_cons_1 in F2 as [F2 F3]. done. }
  unfold device_placed, sizes_ok. rewrite (Hpo _ _ _ (eq_sym Hm)), (Hpt _ _ _ (eq_sym Hm)). destruct (Hb c F2) as [B1 B2].
  rewrite <- Hm in Ho, Ht at 1. rewrite sum_of_app in Ho, Ht. simpl in Ho, Ht.
  pose proof (Hnn d_o2t_bytes _ (fun c Hc => proj1 (proj1 (Hb c Hc))) F1). pose proof (Hnn d_t2o_bytes _ (fun c Hc => proj1 (proj2 (Hb c Hc))) F1).
  pose proof (Hnn d_o2t_bytes _ (fun c Hc => proj1 (proj1 (Hb c Hc))) F3). pose proof (Hnn d_t2o_bytes _ (fun c Hc => proj1 (proj2 (Hb c Hc))) F3).
  lia.
Qed.

Lemma devices_placed s : scanner_inv s ->
  Forall (fun d => buffers_ok d /\ device_placed (dv_cfg d) /\
                   d_t2o_offset (dv_cfg d) + d_t2o_bytes (dv_cfg d) <= sc_total_t2o_bytes (sn_cfg s)) (sn_devices s).
Proof.
  intros (Ht & Hc & Hb). destruct (table_placed _ Ht) as [Hp _]. rewrite <- Hc in Hp. rewrite List.Forall_map in Hp.
  rewrite List.Forall_forall in *. intros d Hd. destruct (Hp d Hd). auto.
Qed.

(** A change to one device that leaves its table entry and the sizes alone. *)
Definition device_kept (f : device_state -> device_state) : Prop :=
  forall d, dv_cfg (f d) = dv_cfg d /\ (buffers_ok d -> buffers_ok (f d)).

Lemma on_device_inv i f s : device_kept f -> scanner_inv s -> scanner_inv (on_device i f s).
Proof.
  intros Hf (Ht & Hc & Hb). split; [done|]. simpl. split.
  - rewrite <- Hc. apply list_eq. intros k. rewrite !list_lookup_fmap. destruct (decide (k = i)) as [->|Hne].
    + rewrite list_lookup_alter_eq. destruct (sn_devices s !! i) as [d|]; [|done]. simpl. by rewrite (proj1 (Hf d)).
    + by rewrite list_lookup_alter_ne.
  - apply Forall_lookup. intros k d Hk. destruct (decide (k = i)) as [->|Hne].
    + rewrite list_lookup_alter_eq in Hk. destruct (sn_devices s !! i) as [d0|] eqn:E; [|done]. simpl in Hk. injection Hk as <-.
      apply Hf. by eapply Forall_lookup_1.
    + rewrite list_lookup_alter_ne in Hk by done. by eapply Forall_lookup_1.
Qed.

(** The state but for the devices. *)
Lemma scanner_inv_ext s s' :
  sn_cfg s' = sn_cfg s -> sn_devices s' = sn_devices s -> scanner_inv s -> scanner_inv s'.
Proof. unfold scanner_inv. by intros -> ->. Qed.

(** Cut or extended with zeros. *)
Definition fitted (n : Z) (data : list Z) : list Z := bslice 0 n data ++ zeros (n - zlen data).

Lemma receive_latest data (latest : list Z) (n := Z.min (zlen data) (zlen latest)) :
  bwrite n (zeros (zlen (bwrite 0 (bslice 0 n data) latest) - n)) (bwrite 0 (bslice 0 n data) latest) = fitted (zlen latest) data.
Proof.
  pose proof (zlen_nonneg data) as Hd. pose proof (zlen_nonneg latest) as Hl.
  assert (zlen (bslice 0 n data) = n) as En by (apply zlen_bslice; lia).
  assert (zlen (bwrite 0 (bslice 0 n data) latest) = zlen latest) as -> by (apply zlen_bwrite; lia).
  rewrite <- En at 1. change (zlen (bslice 0 n data)) with (0 + zlen (bslice 0 n data)) at 1.
  rewrite bwrite_bwrite by (rewrite ?En, ?zlen_zeros; lia).
  rewrite bwrite_0_whole by (rewrite zlen_app, En, zlen_zeros; lia). unfold fitted. f_equal.
  - unfold n. destruct (Z.min_spec (zlen data) (zlen latest)) as [[? ->]|[? ->]]; [|done].
    rewrite bslice_all. unfold bslice, zlen in *. simpl. rewrite drop_0, take_ge; [done|lia].
  - unfold zeros. f_equal. lia.
Qed.

Lemma zlen_fitted n data : 0 <= n -> zlen (fitted n data) = n.
Proof.
  intros Hn. unfold fitted, zeros, bslice, zlen. rewrite length_app, length_take, length_drop, length_replicate. lia.
Qed.

Lemma receive_kept sequence data d :
  dv_cfg (receive sequence data d).2 = dv_cfg d /\ (buffers_ok d -> buffers_ok (receive sequence data d).2).
Proof.
  unfold receive. destruct (_ && _); [done|]. cbv zeta. simpl. split; [done|]. intros (H1 & H2 & H3).
  pose proof (receive_latest data (dv_latest d)) as E. cbv zeta in E. unfold buffers_ok. simpl. rewrite E.
  rewrite zlen_fitted by apply zlen_nonneg. done.
Qed.

Lemma kept_plain (f : device_state -> device_state) :
  (forall d, dv_cfg (f d) = dv_cfg d /\ dv_latest (f d) = dv_latest d /\ dv_last_good (f d) = dv_last_good d /\
             dv_to_send (f d) = dv_to_send d) -> device_kept f.
Proof. intros Hf d. destruct (Hf d) as (E1 & E2 & E3 & E4). split; [done|]. unfold buffers_ok. by rewrite E1, E2, E3, E4. Qed.

Lemma stack_step_inv now e s : scanner_inv s -> scanner_inv (stack_step now e s).
Proof.
  intros Hs. unfold stack_step. destruct e as [c sequence data|c], (sn_cm s) as [cm|]; try done.
  - destruct (cm !! c) as [[[i p] w]|]; [|done]. destruct (sn_devices s !! i) as [d|] eqn:Ed; [|done].
    pose proof (receive_kept sequence data d) as [Hc Hb]. destruct (receive sequence data d) as [ok d']. simpl in Hc, Hb.
    assert (scanner_inv (on_device i (fun _ => d') s)) as Hs'.
    { destruct Hs as (Ht & Hm & HF). split; [done|]. simpl. assert (alter (fun _ => d') i (sn_devices s) = <[i := d']> (sn_devices s)) as ->.
      { apply list_eq. intros k. destruct (decide (k = i)) as [->|Hne].
        - rewrite list_lookup_alter_eq, Ed. simpl. by rewrite list_lookup_insert_eq by (by eapply lookup_lt_Some).
        - by rewrite list_lookup_alter_ne, list_lookup_insert_ne. }
      split.
      - rewrite <- Hm. rewrite (list_fmap_insert dv_cfg). rewrite Hc. apply list_insert_id. change (map dv_cfg (sn_devices s) !! i) with ((dv_cfg <$> sn_devices s) !! i). by rewrite list_lookup_fmap, Ed.
      - apply Forall_insert; [done|]. apply Hb. by eapply Forall_lookup_1. }
    destruct ok; [done|]. by apply (scanner_inv_ext (on_device i (fun _ => d') s)).
  - destruct (cm !! c) as [[[i p] w]|]; [|done]. eapply scanner_inv_ext; [| |apply (on_device_inv i); [|exact Hs]]; [done| |];
      [cbn; reflexivity|by apply kept_plain].
Qed.

Lemma connect_inv i s : scanner_inv s -> scanner_inv (connect_device i s).2.
Proof.
  intros Hs. unfold connect_device. destruct (ask_library s) as [a s1] eqn:Ea.
  assert (scanner_inv s1) as Hs1 by (injection Ea as _ <-; by apply (scanner_inv_ext s)). clear Ea Hs.
  destruct (sn_devices s1 !! i) as [d|]; [|done]. destruct (sn_cm s1) as [cm|]; [|done].
  destruct (_ <? _); [done|].
  set (s2 := on_device i _ s1). assert (scanner_inv s2) as Hs2 by (apply on_device_inv; [by apply kept_plain|done]).
  destruct (negb _); [apply on_device_inv; [by apply kept_plain|done]|].
  set (s3 := on_device i _ s2). assert (scanner_inv s3) as Hs3 by (apply on_device_inv; [by apply kept_plain|done]).
  destruct (la_open a); cbn [snd].
  - eapply scanner_inv_ext; [| |apply (on_device_inv i); [|exact Hs3]]; [done|cbn; reflexivity|by apply kept_plain].
  - apply on_device_inv; [by apply kept_plain|]. by apply (scanner_inv_ext s3).
  - done.
Qed.

Lemma hand_over_inv i s : scanner_inv s -> scanner_inv (hand_over i s).
Proof.
  intros Hs. unfold hand_over. destruct (sn_devices s !! i) as [d|]; [|done]. destruct (sn_cm s) as [cm|]; [|done].
  destruct (negb _); [done|]. destruct (alive cm d); [by apply (scanner_inv_ext s)|].
  apply on_device_inv; [by apply kept_plain|done].
Qed.

Lemma reconnect_inv i s : scanner_inv s -> scanner_inv (reconnect i s).
Proof.
  intros Hs. unfold reconnect. destruct (sn_devices s !! i) as [d|]; [|done]. destruct (dv_connected d); [done|by apply connect_inv].
Qed.

Lemma foldl_inv {T} (P : scanner_state -> Prop) (f : scanner_state -> T -> scanner_state) l :
  (forall s x, P s -> P (f s x)) -> forall s, P s -> P (foldl f s l).
Proof. intros Hf. induction l as [|x l IH]; intros s Hs; [done|]. apply IH. by apply Hf. Qed.

Lemma poll_inv us s : scanner_inv s -> scanner_inv (scanner_poll us s).
Proof.
  intros Hs. unfold scanner_poll. destruct (sn_cm s); [|done]. cbv zeta.
  apply foldl_inv; [intros; by apply reconnect_inv|].
  set (s1 := foldl _ s _). assert (scanner_inv s1) as H1 by (apply foldl_inv; [intros; by apply hand_over_inv|done]). clearbody s1.
  destruct (bool_decide _); [done|]. destruct (ask_library s1) as [a s2] eqn:Ea.
  apply foldl_inv; [intros; by apply stack_step_inv|]. injection Ea as _ <-. by apply (scanner_inv_ext s1).
Qed.

Lemma staged_ok o2t o2t_len d : buffers_ok d -> device_placed (dv_cfg d) -> o2t_len <= zlen o2t -> buffers_ok (staged o2t o2t_len d).
Proof.
  intros (H1 & H2 & H3) (Ho & _ & Hs) Hlen. destruct Hs. unfold staged. destruct (Z.leb_spec (d_o2t_offset (dv_cfg d) + d_o2t_bytes (dv_cfg d)) o2t_len); [|done].
  split; [done|split; [done|]]. simpl. apply zlen_bslice; lia.
Qed.

Lemma exchange_frame o2t o2t_len health health_len t2o cap s :
  scanner_inv s -> o2t_len <= zlen o2t -> zlen health = health_len -> zlen t2o = cap ->
  let '(n, health', t2o', s') := scanner_exchange o2t o2t_len health health_len t2o cap s in
  n = Z.min (sc_total_t2o_bytes (sn_cfg s)) cap /\ zlen health' = health_len /\ zlen t2o' = cap /\
  s' = s <| sn_devices := map (staged o2t o2t_len) (sn_devices s) |> /\ scanner_inv s'.
Proof.
  intros Hs Hlen Hh Ht. pose proof (devices_placed s Hs) as Hp. unfold scanner_exchange.
  destruct Hs as (Htab & Hc & Hb). destruct (table_placed _ Htab) as [_ Hn]. unfold PLC_IPC_MAX_FRAME_BYTES in Hn.
  pose proof (swap_loop_frame o2t o2t_len (Z.min (sc_total_t2o_bytes (sn_cfg s)) cap) health_len (sn_devices s) 0 health t2o) as Hx.
  destruct (swap_loop _ _ _ _ _ _ _ _) as [[ds h'] t'].
  destruct Hx as (-> & Hh' & Ht'); [eapply List.Forall_impl; [|exact Hp]; simpl; tauto|done|lia|lia|lia|done|].
  split; [done|split; [done|split; [lia|split; [done|]]]]. split; [done|]. simpl. split.
  - rewrite <- Hc, map_map. apply map_ext. intros d. apply staged_cfg.
  - apply List.Forall_map. eapply List.Forall_impl; [|exact Hp]. intros d (? & ? & _). by apply staged_ok.
Qed.

(** The backend fulfils what the scanner process relies on. *)
#[export] Instance eipscanner_laws : ScannerBackendLaws kEipScanner.
Proof.
  refine {| sb_inv := scanner_inv |}.
  - intros us s. apply poll_inv.
  - intros o2t len health health_len t2o cap s Hs Ho Hlen Hh Ht. cbn [sb_exchange_images kEipScanner].
    pose proof (exchange_frame o2t len health health_len t2o cap s Hs ltac:(lia) Hh Ht) as Hx.
    destruct (scanner_exchange _ _ _ _ _ _ _) as [[[n h'] t'] s']. destruct Hx as (-> & ? & ? & _ & ?).
    pose proof (zlen_nonneg t2o). destruct Hs as (Htab & _). destruct (table_placed _ Htab) as [_ Hn]. split; [lia|done].
Defined.

(** ** The mirror keeps its sizes *)

Definition mirror_inv (g : mirror_state) : Prop := table_inv (mi_cfg g) /\ zlen (mi_mirror g) = sc_total_t2o_bytes (mi_cfg g).

Lemma mirror_device_frame o2t o2t_len n health_len down i (d : eip_scanner_device) health t2o mirror :
  device_placed d -> d_t2o_offset d + d_t2o_bytes d <= zlen mirror -> o2t_len <= zlen o2t -> n <= zlen t2o -> n < 2 ^ 32 ->
  0 <= i -> zlen health = health_len ->
  let '(health', t2o', mirror') := mirror_device o2t o2t_len n health_len down i d health t2o mirror in
  zlen health' = health_len /\ zlen t2o' = zlen t2o /\ zlen mirror' = zlen mirror.
Proof.
  intros (Ho & Ht & Hso & Hst) Hm Hlen Hn H32 Hi Hh. unfold mirror_device. rewrite u32_small by lia.
  destruct (Z.gtb_spec (d_t2o_offset d + d_t2o_bytes d) n); [done|].
  assert (forall v, zlen (set_health i v health_len health) = health_len) as Hv by (intros v; by apply zlen_set_health).
  destruct (negb _).
  { split; [done|]. split; [|done]. destruct (d_failsafe_policy d); apply zlen_bwrite; rewrite ?zlen_zeros, ?zlen_bslice; lia. }
  set (copy := if d_o2t_bytes d <? d_t2o_bytes d then d_o2t_bytes d else d_t2o_bytes d). assert (0 <= copy <= d_t2o_bytes d) as Hc
    by (subst copy; destruct (Z.ltb_spec (d_o2t_bytes d) (d_t2o_bytes d)); lia). clearbody copy.
  set (t1 := if (_ <=? o2t_len) && _ then _ else t2o). assert (zlen t1 = zlen t2o) as E1.
  { subst t1. destruct (Z.leb_spec (d_o2t_offset d + copy) o2t_len); [|done]. destruct (negb _); [|done].
    simpl. apply zlen_bwrite; rewrite ?zlen_bslice; lia. }
  clearbody t1. set (t2 := if copy <? d_t2o_bytes d then _ else t1). assert (zlen t2 = zlen t2o) as E2.
  { subst t2. destruct (copy <? d_t2o_bytes d); [|done]. rewrite zlen_bwrite; rewrite ?zlen_zeros; lia. }
  clearbody t2. split; [done|]. split; [done|]. apply zlen_bwrite; rewrite ?zlen_bslice; lia.
Qed.

Lemma mirror_loop_frame o2t o2t_len n health_len down ds : forall i health t2o mirror,
  Forall (fun d : eip_scanner_device => device_placed d /\ d_t2o_offset d + d_t2o_bytes d <= zlen mirror) ds -> o2t_len <= zlen o2t ->
  n <= zlen t2o -> n < 2 ^ 32 -> 0 <= i -> zlen health = health_len ->
  let '(health', t2o', mirror') := mirror_loop o2t o2t_len n health_len down i ds health t2o mirror in
  zlen health' = health_len /\ zlen t2o' = zlen t2o /\ zlen mirror' = zlen mirror.
Proof.
  induction ds as [|d ds IH]; intros i health t2o mirror HF Hlen Hn H32 Hi Hh; [done|].
  apply Forall_cons_1 in HF as [[Hd Hm] HF]. cbn [mirror_loop].
  pose proof (mirror_device_frame o2t o2t_len n health_len down i d health t2o mirror Hd Hm Hlen Hn H32 Hi Hh) as Hx.
  destruct (mirror_device _ _ _ _ _ _ _ _ _ _) as [[h1 t1] m1]. destruct Hx as (E1 & E2 & E3).
  specialize (IH (i + 1) h1 t1 m1). rewrite E3 in IH. specialize (IH HF Hlen ltac:(lia) H32 ltac:(lia) E1).
  destruct (mirror_loop _ _ _ _ _ _ _ _ _ _) as [[h2 t2] m2]. destruct IH as (? & ? & ?). split; [done|split; lia].
Qed.

#[export] Instance mirror_laws getenv table : ScannerBackendLaws (kMirror getenv table).
Proof.
  refine {| sb_inv := mirror_inv |}.
  - done.
  - intros o2t len health health_len t2o cap g [Ht Hm] Ho Hlen Hh Hcap. cbn [sb_exchange_images kMirror].
    unfold mirror_exchange. cbv zeta. destruct (table_placed _ Ht) as [Hp Hn]. unfold PLC_IPC_MAX_FRAME_BYTES in Hn.
    set (n := if _ <? _ then _ else _). pose proof (zlen_nonneg t2o).
    assert (0 <= n <= cap /\ n <= 496) as [Hnc Hn'] by (subst n; destruct (Z.ltb_spec (sc_total_t2o_bytes (mi_cfg g)) cap); lia).
    clearbody n. rewrite <- Hm in Hp.
    pose proof (mirror_loop_frame o2t len n health_len (mi_forced_down g) (sc_devices (mi_cfg g)) 0 health t2o (mi_mirror g)
      Hp ltac:(lia) ltac:(lia) ltac:(lia) ltac:(lia) Hh) as Hx.
    destruct (mirror_loop _ _ _ _ _ _ _ _ _ _) as [[h' t'] m']. destruct Hx as (? & ? & E).
    split; [done|split; [done|split; [lia|]]]. split; [done|]. simpl. congruence.
Defined.

(** ** Running states of the EIPScanner backend *)

(** What [init], the polls of the stack thread and the swaps of the service can
    bring about, in any order and whatever the library does. *)
Inductive running (cfg : eip_scanner_config) : scanner_state -> Prop :=
| run_init s0 s : scanner_init (Some cfg) s0 = Some (PLC_OK, s) -> running cfg s
| run_poll s us : running cfg s -> running cfg (scanner_poll us s)
| run_swap s o2t o2t_len health health_len t2o cap :
    running cfg s -> o2t_len <= zlen o2t -> zlen health = health_len -> zlen t2o = cap ->
    running cfg (scanner_exchange o2t o2t_len health health_len t2o cap s).2.

Lemma init_loop_inv idx : forall s s', scanner_inv s -> init_loop idx s = Some s' -> scanner_inv s'.
Proof.
  induction idx as [|i idx IH]; intros s s' Hs Hx; simpl in Hx; [by injection Hx as <-|].
  pose proof (connect_inv i s Hs) as Hc. destruct (connect_device i s) as [[] s1]; [done|]. by eapply IH.
Qed.

Lemma init_inv cfg s0 s : table_inv cfg -> scanner_init (Some cfg) s0 = Some (PLC_OK, s) -> scanner_inv s.
Proof.
  intros Ht. unfold scanner_init. destruct (_ =? 0); [done|]. destruct (init_loop _ _) as [s1|] eqn:E; [|done].
  intros [= <-]. eapply init_loop_inv; [|exact E]. split; [done|]. simpl. split.
  - rewrite map_map. apply map_id.
  - apply List.Forall_map. destruct (table_placed _ Ht) as [Hp _]. eapply List.Forall_impl; [|exact Hp].
    intros c ((_ & _ & Hs) & _). destruct Hs. unfold buffers_ok, device_start. simpl. rewrite !zlen_zeros by lia. done.
Qed.

Lemma running_inv cfg s : table_inv cfg -> running cfg s -> scanner_inv s.
Proof.
  intros Ht. induction 1 as [s0 s Hi|s us _ IH|s o2t len health hl t2o cap _ IH Hlen Hh Hc].
  - by eapply init_inv.
  - by apply poll_inv.
  - pose proof (exchange_frame o2t len health hl t2o cap s IH Hlen Hh Hc) as Hx.
    destruct (scanner_exchange _ _ _ _ _ _ _) as [[[n h'] t'] s']. simpl. tauto.
Qed.

(** ** Properties *)

(** The device table stays the one [init] was given. *)
Lemma foldl_cfg {A} (f : scanner_state -> A -> scanner_state) l s :
  (forall s a, sn_cfg (f s a) = sn_cfg s) -> sn_cfg (foldl f s l) = sn_cfg s.
Proof. intros Hf. revert s. induction l as [|a l IH]; intros s; [done|]. simpl. by rewrite IH. Qed.

Lemma connect_cfg i s : sn_cfg (connect_device i s).2 = sn_cfg s.
Proof.
  unfold connect_device. destruct (ask_library s) as [a s1] eqn:E. assert (sn_cfg s1 = sn_cfg s) as H1 by (by injection E as _ <-).
  destruct (sn_devices s1 !! i), (sn_cm s1); try done. destruct (_ <? _); [done|]. destruct (la_session a); [|done]. by destruct (la_open a).
Qed.

Lemma poll_cfg us s : sn_cfg (scanner_poll us s) = sn_cfg s.
Proof.
  unfold scanner_poll. destruct (sn_cm s); [|done]. rewrite foldl_cfg.
  2:{ intros s0 i. unfold reconnect. destruct (sn_devices s0 !! i) as [d|]; [|done]. destruct (dv_connected d); [done|apply connect_cfg]. }
  set (s1 := foldl _ s _). assert (sn_cfg s1 = sn_cfg s) as E1.
  { apply foldl_cfg. intros s0 i. unfold hand_over. destruct (sn_devices s0 !! i) as [d|], (sn_cm s0); try done.
    destruct (dv_connected d); [|done]. by destruct (alive _ _). }
  case_bool_decide; [done|]. destruct (ask_library s1) as [a s2] eqn:E. rewrite foldl_cfg; [by injection E as _ <-|].
  intros s0 [c q data|c]; unfold stack_step; destruct (sn_cm s0) as [cm|]; try done; destruct (cm !! c) as [[[i ?] ?]|]; try done.
  destruct (sn_devices s0 !! i); [|done]. by destruct (receive _ _ _) as [[] ?].
Qed.

Lemma running_cfg cfg s : running cfg s -> sn_cfg s = cfg.
Proof.
  induction 1 as [s0 s E|s us _ IH|s o2t len health hl t2o cap _ IH _ _ _].
  - simpl in E. destruct (_ =? 0); [done|]. destruct (init_loop _ _) as [s1|] eqn:El; [|done]. injection E as <-.
    revert El.
    match goal with |- init_loop _ ?x = _ -> _ => assert (sn_cfg x = cfg) as H2 by done; revert H2; generalize x end.
    induction (seq 0 (length (sc_devices cfg))) as [|i idx IH]; intros s3 H2 El; [by injection El as <-|]. simpl in El.
    pose proof (connect_cfg i s3) as Hc. destruct (connect_device i s3) as [[] s4]; [done|]. apply (IH s4); [|done]. simpl in Hc. congruence.
  - by rewrite poll_cfg.
  - unfold scanner_exchange. by destruct (swap_loop _ _ _ _ _ _ _ _) as [[? ?] ?].
Qed.

(** A swap, device by device. *)
Lemma exchange_per_device (cfg : eip_scanner_config) (s : scanner_state) (o2t health t2o : list Z) (o2t_len health_len cap : Z)
    (Ht : table_inv cfg) (Hs : running cfg s) (Hlen : o2t_len <= zlen o2t) (Hh : zlen health = health_len)
    (Hc : zlen t2o = cap) (Hcap : sc_total_t2o_bytes (sn_cfg s) <= cap) :
  let '(n, health', t2o', s') := scanner_exchange o2t o2t_len health health_len t2o cap s in
  n = sc_total_t2o_bytes (sn_cfg s) /\
  forall k d, sn_devices s !! k = Some d ->
    bslice (d_t2o_offset (dv_cfg d)) (d_t2o_bytes (dv_cfg d)) t2o' = slice_of d /\
    (Z.of_nat k < health_len -> byte_at health' (Z.of_nat k) = health_of d) /\
    sn_devices s' !! k = Some (staged o2t o2t_len d).
Proof.
  pose proof (running_inv cfg s Ht Hs) as Hinv. pose proof (devices_placed s Hinv) as Hp. unfold scanner_exchange.
  destruct Hinv as (Htab & Hcfg & _). destruct (table_placed _ Htab) as [_ Hn]. unfold PLC_IPC_MAX_FRAME_BYTES in Hn.
  rewrite Z.min_l by done. rewrite swap_loop_spec by (done || lia). split; [done|]. intros k d Hk.
  set (ws := map _ (sn_devices s)).
  assert (laid_out 0 (zlen t2o) ws) as Hl.
  { destruct Htab as (_ & _ & _ & Et & _ & _ & _ & Hpk).
    rewrite <- Hcfg in Et, Hpk. subst ws. assert (0 = sum_of d_t2o_bytes []) as -> by done.
    apply laid_out_devices; [done|eapply List.Forall_impl; [|exact Hp]; simpl; tauto|simpl; lia]. }
  pose proof (put_all_spec ws 0 0 health_len health t2o ltac:(lia) ltac:(lia) Hl Hh) as Hx.
  destruct (put_all _ _ _ _ _) as [h' t']. destruct Hx as (_ & _ & _ & _ & Hx).
  destruct (Hx k (d_t2o_offset (dv_cfg d)) (slice_of d) (health_of d)) as [H1 H2].
  { subst ws. change (map ?f ?l !! k) with ((f <$> l) !! k). by rewrite list_lookup_fmap, Hk. }
  assert (zlen (slice_of d) = d_t2o_bytes (dv_cfg d)) as Ez.
  { rewrite Forall_lookup in Hp. destruct (Hp k d Hk) as (Hb & (_ & _ & _ & Hs2) & _). apply zlen_slice_of; [done|lia]. }
  rewrite Ez in H1. split; [done|]. split; [done|]. simpl. change (map ?f ?l !! k) with ((f <$> l) !! k). by rewrite list_lookup_fmap, Hk.
Qed.

(** ** What happened, and what a device should make of it *)

(** An observer of the library and of the network sees connections opened for
    devices, frames, and closings. *)
Inductive obs : Type :=
| OpenedFor (i : nat) (c : Z)
| Happened (e : stack_event).

(** One device, as the observer would run it: its open connection, the number of
    the newest frame on that connection, whether there was one, and the last frame
    accepted on any connection.  Other devices do not occur. *)
Record seen : Type := Seen {
  se_conn : option Z;
  se_newest : option Z;
  se_delivered : bool;
  se_image : option (list Z)
}.

#[export] Instance stack_event_eq : EqDecision stack_event.
Proof. solve_decision. Defined.
#[export] Instance obs_eq : EqDecision obs.
Proof. solve_decision. Defined.
#[export] Instance seen_eq : EqDecision seen.
Proof. solve_decision. Defined.

Definition newer (newest : option Z) (sequence : Z) : bool :=
  match newest with Some b => 0 <? s16 (sequence - b) | None => true end.

Definition see (i : nat) (v : seen) (o : obs) : seen :=
  match o with
  | OpenedFor j c => if bool_decide (j = i) then Seen (Some c) None false (se_image v) else v
  | Happened (Received c sequence data) =>
      if bool_decide (se_conn v = Some c) && newer (se_newest v) sequence
      then Seen (se_conn v) (Some sequence) true (Some data) else v
  | Happened (ConnClosed c) =>
      if bool_decide (se_conn v = Some c) then Seen None (se_newest v) (se_delivered v) (se_image v) else v
  end.
Definition seen_of (i : nat) (h : list obs) : seen := foldl (see i) (Seen None None false None) h.

Definition seen_fresh (v : seen) : bool := bool_decide (is_Some (se_conn v)) && se_delivered v.
(** The slice and the health byte of a device with table entry [c]. *)
Definition due_slice (c : eip_scanner_device) (v : seen) : list Z :=
  let image := fitted (d_t2o_bytes c) (default [] (se_image v)) in
  if seen_fresh v then image
  else match d_failsafe_policy c with PLC_FAILSAFE_CLEAR => zeros (d_t2o_bytes c) | PLC_FAILSAFE_HOLD => image end.
Definition due_health (v : seen) : Z :=
  if seen_fresh v then EIP_DEVICE_ONLINE
  else if bool_decide (is_Some (se_image v)) then EIP_DEVICE_FAILSAFE else EIP_DEVICE_OFFLINE.

(** What the library did during a call. *)
Definition connect_log (i : nat) s : list obs :=
  if sn_next (connect_device i s).2 =? sn_next s then [] else [OpenedFor i (sn_next s)].
Definition reconnect_log (i : nat) s : list obs :=
  match sn_devices s !! i with Some d => if dv_connected d then [] else connect_log i s | None => [] end.
Fixpoint reconnects_log (idx : list nat) s : list obs :=
  match idx with [] => [] | i :: idx => reconnect_log i s ++ reconnects_log idx (reconnect i s) end.
Fixpoint init_log (idx : list nat) s : list obs :=
  match idx with [] => [] | i :: idx => connect_log i s ++ init_log idx (connect_device i s).2 end.
Definition poll_log s : list obs :=
  match sn_cm s with
  | None => []
  | Some _ =>
      let idx := seq 0 (length (sn_devices s)) in
      let s := foldl (fun s i => hand_over i s) s idx in
      let '(es, s) := if bool_decide (default ∅ (sn_cm s) = ∅) then ([], s)
                      else let '(a, s) := ask_library s in (la_events a, foldl (fun s e => stack_step (la_now a) e s) s (la_events a)) in
      map Happened es ++ reconnects_log idx s
  end.

(** The states the backend can be in, with what the library did until then. *)
Inductive ran (cfg : eip_scanner_config) : list obs -> scanner_state -> Prop :=
| ran_init s0 s :
    scanner_init (Some cfg) s0 = Some (PLC_OK, s) ->
    ran cfg (init_log (seq 0 (length (sc_devices cfg)))
               (s0 <| sn_cfg := cfg |> <| sn_cm := Some ∅ |> <| sn_devices := map device_start (sc_devices cfg) |>)) s
| ran_poll h s us : ran cfg h s -> ran cfg (h ++ poll_log s) (scanner_poll us s)
| ran_swap h s o2t o2t_len health health_len t2o cap :
    ran cfg h s -> o2t_len <= zlen o2t -> zlen health = health_len -> zlen t2o = cap ->
    ran cfg h (scanner_exchange o2t o2t_len health health_len t2o cap s).2.

Lemma running_ran cfg s : running cfg s <-> exists h, ran cfg h s.
Proof.
  split.
  - induction 1 as [s0 s E|s us _ [h IH]|s o2t len health hl t2o cap _ [h IH] ? ? ?]; eexists.
    + by eapply ran_init.
    + by eapply ran_poll.
    + by apply (ran_swap _ h).
  - intros [h Hr]. induction Hr as [s0 s E|h s us _ IH|h s o2t len health hl t2o cap _ IH ? ? ?].
    + by eapply run_init.
    + by apply run_poll.
    + by apply run_swap.
Qed.

(** *** The device does what it should *)

Lemma s16_u16_sub n m : s16 (u16 n - u16 m) = s16 (n - m).
Proof. unfold s16, u16. by rewrite <- Zplus_mod_idemp_l, <- Zminus_mod, Zplus_mod_idemp_l. Qed.

Lemma seen_of_snoc i h o : seen_of i (h ++ [o]) = see i (seen_of i h) o.
Proof. unfold seen_of. by rewrite foldl_app. Qed.

(** A device that has seen [v]. *)
Definition device_tracks (v : seen) d : Prop :=
  dv_connected d = bool_decide (is_Some (se_conn v)) /\ (is_Some (se_conn v) -> dv_io d = se_conn v) /\
  dv_has_data d = se_delivered v /\
  match se_newest v with Some b => dv_have_seq d = true /\ dv_last_seq d = u16 b | None => dv_have_seq d = false end /\
  dv_ever_data d = bool_decide (is_Some (se_image v)) /\
  dv_latest d = fitted (d_t2o_bytes (dv_cfg d)) (default [] (se_image v)) /\ dv_last_good d = dv_latest d.

(** Which device a connection serves. *)
Definition owner (cm : gmap Z (nat * connection_params * list Z)) (c : Z) : option nat := (fun x => x.1.1) <$> cm !! c.

Definition tracks (h : list obs) s : Prop :=
  (forall i d, sn_devices s !! i = Some d -> device_tracks (seen_of i h) d) /\
  exists cm, sn_cm s = Some cm /\
    (forall c i, owner cm c = Some i <-> (i < length (sn_devices s))%nat /\ se_conn (seen_of i h) = Some c) /\
    (forall c, is_Some (owner cm c) -> c < sn_next s).

Lemma tracks_due v d : device_tracks v d -> slice_of d = due_slice (dv_cfg d) v /\ health_of d = due_health v /\ fresh d = seen_fresh v.
Proof.
  intros (Hc & _ & Hd & _ & He & Hl & Hg). unfold slice_of, health_of, fresh, due_slice, due_health, seen_fresh.
  rewrite Hc, Hd, He, Hg, Hl. done.
Qed.

Lemma tracks_ext h s s' :
  sn_devices s' = sn_devices s -> sn_cm s' = sn_cm s -> sn_next s' = sn_next s -> tracks h s -> tracks h s'.
Proof. unfold tracks. by intros -> -> ->. Qed.

Lemma length_on_device j f s : length (sn_devices (on_device j f s)) = length (sn_devices s).
Proof. simpl. apply length_alter. Qed.

Lemma lookup_on_device j f s i d :
  sn_devices (on_device j f s) !! i = Some d -> exists d0, sn_devices s !! i = Some d0 /\ d = if bool_decide (i = j) then f d0 else d0.
Proof.
  simpl. case_bool_decide as E; [subst; rewrite list_lookup_alter_eq|rewrite list_lookup_alter_ne by done; eauto].
  destruct (sn_devices s !! j) as [d0|]; [|done]. intros [= <-]. eauto.
Qed.

(** A change to one device that its observer does not see. *)
Lemma tracks_on h j f s :
  (forall v d, device_tracks v d -> device_tracks v (f d)) -> tracks h s -> tracks h (on_device j f s).
Proof.
  intros Hf (Hd & cm & Ecm & H1 & H2). split.
  - intros i d Hi. apply lookup_on_device in Hi as (d0 & Hi & ->). case_bool_decide; eauto.
  - exists cm. split; [done|]. by rewrite length_on_device.
Qed.

Lemma fitted_again n data data' : fitted (zlen (fitted n data')) data = fitted n data.
Proof.
  destruct (Z.le_gt_cases 0 n) as [Hn|Hn]; [by rewrite zlen_fitted|].
  assert (forall k l, k <= 0 -> fitted k l = []) as E.
  { intros k l Hk. pose proof (zlen_nonneg l). unfold fitted, bslice, zeros.
    assert (Z.to_nat k = 0%nat /\ Z.to_nat (k - zlen l) = 0%nat) as [-> ->] by lia. done. }
  rewrite (E n data') by lia. change (zlen []) with 0. by rewrite !E by lia.
Qed.

Lemma receive_tracks v c sequence data d i :
  se_conn v = Some c -> device_tracks v d ->
  device_tracks (see i v (Happened (Received c sequence data))) (receive sequence data d).2.
Proof.
  intros Ec (T1 & T2 & T3 & T4 & T5 & T6 & T7). simpl. rewrite bool_decide_eq_true_2 by done.
  assert (dv_have_seq d && (s16 (u16 sequence - dv_last_seq d) <=? 0) = negb (newer (se_newest v) sequence)) as Eg.
  { unfold newer. destruct (se_newest v) as [b|]; [|by rewrite T4]. destruct T4 as [-> ->]. rewrite s16_u16_sub.
    destruct (Z.leb_spec (s16 (sequence - b)) 0), (Z.ltb_spec 0 (s16 (sequence - b))); try done; lia. }
  unfold receive. rewrite Eg. destruct (newer (se_newest v) sequence); cbn [negb andb]; [|done]. cbv zeta.
  pose proof (receive_latest data (dv_latest d)) as E. cbv zeta in E. simpl. rewrite E. unfold device_tracks; simpl.
  rewrite Ec in *. split; [done|]. split; [done|]. split; [done|]. split; [done|]. split; [done|].
  by rewrite T6, fitted_again.
Qed.

(** A frame reaches the device its connection was opened for, and no other. *)
Lemma received_tracks h now c sequence data s :
  tracks h s -> tracks (h ++ [Happened (Received c sequence data)]) (stack_step now (Received c sequence data) s).
Proof.
  set (o := Happened _). intros (Hd & cm & Ecm & H1 & H2).
  assert (forall i, se_conn (seen_of i (h ++ [o])) = se_conn (seen_of i h)) as Hcn
    by (intros i; rewrite seen_of_snoc; simpl; by destruct (_ && _)).
  assert (forall i, (i < length (sn_devices s))%nat -> owner cm c <> Some i -> seen_of i (h ++ [o]) = seen_of i h) as Hoth.
  { intros i Hi Hne. rewrite seen_of_snoc. simpl. rewrite bool_decide_eq_false_2; [done|]. rewrite H1 in Hne. tauto. }
  assert (forall s', sn_cm s' = Some cm -> sn_next s' = sn_next s -> length (sn_devices s') = length (sn_devices s) ->
    (forall i d, sn_devices s' !! i = Some d -> device_tracks (seen_of i (h ++ [o])) d) -> tracks (h ++ [o]) s') as Hend.
  { intros s' E1 E2 E3 E4. split; [done|]. exists cm. rewrite E1, E2, E3. setoid_rewrite Hcn. done. }
  unfold stack_step. rewrite Ecm. destruct (cm !! c) as [[[j p] w]|] eqn:Ec.
  2:{ apply Hend; try done. intros i d Hi. rewrite Hoth; [auto|by eapply lookup_lt_Some|unfold owner; by rewrite Ec]. }
  assert (owner cm c = Some j) as Ejo by (unfold owner; by rewrite Ec). pose proof (proj1 (H1 _ _) Ejo) as [Hj Ej].
  destruct (sn_devices s !! j) as [d|] eqn:Ed; [|by apply lookup_ge_None in Ed; lia].
  pose proof (receive_tracks (seen_of j h) c sequence data d j Ej (Hd j d Ed)) as Hr. rewrite <- seen_of_snoc in Hr. fold o in Hr.
  destruct (receive sequence data d) as [ok d']. cbn [snd] in Hr.
  assert (tracks (h ++ [o]) (on_device j (fun _ => d') s)) as Ht.
  { apply Hend; [done|done|apply length_on_device|]. intros i x Hx. apply lookup_on_device in Hx as (d0 & Hi & ->).
    case_bool_decide as E; [by subst|]. rewrite Hoth; [auto|by eapply lookup_lt_Some|congruence]. }
  destruct ok; [done|]. by eapply tracks_ext; [..|exact Ht].
Qed.

Lemma closed_tracks h now c s :
  tracks h s -> tracks (h ++ [Happened (ConnClosed c)]) (stack_step now (ConnClosed c) s).
Proof.
  set (o := Happened _). intros (Hd & cm & Ecm & H1 & H2).
  assert (forall i, (i < length (sn_devices s))%nat -> owner cm c <> Some i -> seen_of i (h ++ [o]) = seen_of i h) as Hoth.
  { intros i Hi Hne. rewrite seen_of_snoc. simpl. rewrite bool_decide_eq_false_2; [done|]. rewrite H1 in Hne. tauto. }
  unfold stack_step. rewrite Ecm. destruct (cm !! c) as [[[j p] w]|] eqn:Ec.
  2:{ assert (forall i, owner cm c <> Some i) as Hno by (unfold owner; by rewrite Ec). split.
      - intros i d Hi. rewrite Hoth; [auto|by eapply lookup_lt_Some|done].
      - exists cm. split; [done|]. split; [|done]. intros c' i. rewrite H1. split; intros [Hi E]; (split; [done|]);
          [by rewrite Hoth|by rewrite Hoth in E]. }
  assert (owner cm c = Some j) as Ej by (unfold owner; by rewrite Ec). pose proof (proj1 (H1 _ _) Ej) as [Hj Ejc].
  apply (tracks_ext _ (on_device j (fun d => d <| dv_connected := false |> <| dv_next_retry := now + kReconnectInterval |>)
    (s <| sn_cm := Some (delete c cm) |>))); [done..|].
  assert (forall i, (i < length (sn_devices s))%nat ->
    se_conn (seen_of i (h ++ [o])) = if bool_decide (i = j) then None else se_conn (seen_of i h)) as Hcn.
  { intros i Hi. case_bool_decide as E; [subst; rewrite seen_of_snoc; simpl; by rewrite Ejc, bool_decide_eq_true_2|].
    rewrite Hoth; [done|done|congruence]. }
  split.
  - intros i d Hi. apply lookup_on_device in Hi as (d0 & Hi & ->). simpl in Hi. case_bool_decide as E.
    + subst i. destruct (Hd j d0 Hi) as (T1 & T2 & T3 & T4 & T5 & T6 & T7). rewrite seen_of_snoc. simpl.
      rewrite Ejc, bool_decide_eq_true_2 by done. split; [by rewrite bool_decide_eq_false_2 by (intros [? [=]])|]. split; [by intros [? [=]]|done].
    + rewrite Hoth; [auto|by eapply lookup_lt_Some|congruence].
  - exists (delete c cm). split; [done|]. split.
    + intros c' i. rewrite length_on_device. cbn [sn_devices]. unfold owner. destruct (decide (c' = c)) as [->|Hne].
      * rewrite lookup_delete_eq. split; [done|]. intros [Hi E]. rewrite Hcn in E by done. case_bool_decide; [done|].
        assert (owner cm c = Some i) by (by apply H1). congruence.
      * rewrite lookup_delete_ne by done. fold (owner cm c'). rewrite H1. split; intros [Hi E]; (split; [done|]).
        -- rewrite Hcn by done. case_bool_decide; [congruence|done].
        -- rewrite Hcn in E by done. by case_bool_decide.
    + intros c' Hc'. apply H2. unfold owner in *. destruct (decide (c' = c)) as [->|Hne]; [by rewrite lookup_delete_eq in Hc'; destruct Hc'|].
      by rewrite lookup_delete_ne in Hc'.
Qed.

(** Connection [c], whose number is new, is opened for device [i], which had none. *)
Lemma opened_tracks h i cm p w s :
  tracks h s -> sn_cm s = Some cm -> (forall d, sn_devices s !! i = Some d -> dv_connected d = false) ->
  is_Some (sn_devices s !! i) ->
  let c := sn_next s in
  tracks (h ++ [OpenedFor i c])
    (on_device i (fun d => d <| dv_has_data := false |> <| dv_have_seq := false |> <| dv_io := Some c |> <| dv_connected := true |>)
       (s <| sn_cm := Some (<[c := (i, p, w)]> cm) |> <| sn_next := c + 1 |>)).
Proof.
  intros (Hd & cm' & Ecm & H1 & H2) Ecm' Hnc [d Ed] c. rewrite Ecm in Ecm'. injection Ecm' as ->.
  assert (forall c', owner cm c' <> Some i) as Hno.
  { intros c' E. apply H1 in E as [_ E]. destruct (Hd i d Ed) as (T1 & _). rewrite Hnc, E in T1 by done. done. }
  assert (owner cm c = None) as Hc by (destruct (owner cm c) eqn:E; [|done]; specialize (H2 c ltac:(by rewrite E)); lia).
  assert (forall j, j <> i -> seen_of j (h ++ [OpenedFor i c]) = seen_of j h) as Hoth
    by (intros j Hj; rewrite seen_of_snoc; simpl; by rewrite bool_decide_eq_false_2).
  assert (seen_of i (h ++ [OpenedFor i c]) = Seen (Some c) None false (se_image (seen_of i h))) as Ei
    by (rewrite seen_of_snoc; simpl; by rewrite bool_decide_eq_true_2).
  split.
  - intros j x Hj. apply lookup_on_device in Hj as (d0 & Hj & ->). simpl in Hj. case_bool_decide as E.
    + subst j. rewrite Ei. destruct (Hd i d0 Hj) as (_ & _ & _ & _ & T5 & T6 & T7). by split_and!.
    + rewrite Hoth by done. auto.
  - eexists. split; [done|]. rewrite length_on_device. cbn [sn_devices sn_next].
    assert (forall c', owner (<[c := (i, p, w)]> cm) c' = if decide (c' = c) then Some i else owner cm c') as Eo.
    { intros c'. unfold owner. destruct (decide (c' = c)) as [->|]; [by rewrite lookup_insert_eq|by rewrite lookup_insert_ne]. }
    split; [|intros c' Hc'; rewrite Eo in Hc'; simpl; destruct (decide (c' = c)); [lia|]; specialize (H2 c' Hc'); lia].
    intros c' j. rewrite Eo. destruct (decide (c' = c)) as [->|Hne], (decide (j = i)) as [->|Hji].
    + rewrite Ei. split; [intros _; split; [by eapply lookup_lt_Some|done]|done].
    + rewrite Hoth by done. rewrite <- H1. split; [congruence|]. congruence.
    + rewrite Ei. split; [intros E; by apply Hno in E|]. intros [_ [= E]]. done.
    + rewrite Hoth by done. apply H1.
Qed.

(** A new connection, for a device that had none. *)
Lemma connect_tracks h i s :
  tracks h s -> (forall d, sn_devices s !! i = Some d -> dv_connected d = false) ->
  tracks (h ++ connect_log i s) (connect_device i s).2 /\
  forall j, j <> i -> sn_devices (connect_device i s).2 !! j = sn_devices s !! j.
Proof.
  intros Ht Hnc. unfold connect_log, connect_device. destruct (ask_library s) as [a s1] eqn:Ea.
  assert (s1 = s <| sn_script := tail (sn_script s) |>) as -> by (by injection Ea as _ <-).
  assert (tracks h (s <| sn_script := tail (sn_script s) |>)) as Ht1 by (by eapply tracks_ext; [..|exact Ht]).
  revert Ht1. set (s1 := s <| sn_script := _ |>). intros Ht1. change (sn_devices s !! i) with (sn_devices s1 !! i) in Hnc.
  change (sn_next s) with (sn_next s1). change (sn_devices s) with (sn_devices s1). clearbody s1. clear Ht Ea s.
  destruct (sn_devices s1 !! i) as [d|] eqn:Ed; [|by rewrite Z.eqb_refl, app_nil_r].
  destruct (sn_cm s1) as [cm|] eqn:Ecm; [|by rewrite Z.eqb_refl, app_nil_r].
  assert (forall g f j, j <> i -> sn_devices (on_device i f g) !! j = sn_devices g !! j) as Hne
    by (intros; simpl; by rewrite list_lookup_alter_ne).
  destruct (_ <? _); [by rewrite Z.eqb_refl, app_nil_r|]. set (s2 := on_device i _ s1).
  assert (tracks h s2) as H2 by (by apply tracks_on).
  destruct (negb _).
  { cbn [snd]. rewrite Z.eqb_refl, app_nil_r. split; [by apply tracks_on|]. intros j Hj. unfold s2. by rewrite !Hne. }
  set (s3 := on_device i _ s2). assert (tracks h s3) as H3 by (by apply tracks_on).
  destruct (la_open a); cbn [snd].
  - change (sn_next (_ <| sn_forward_opens := _ |>)) with (sn_next s1 + 1). rewrite (proj2 (Z.eqb_neq _ _)) by lia.
    split; [|intros j Hj; unfold s3, s2; simpl; by rewrite !list_lookup_alter_ne by done].
    assert (forall d0, sn_devices s3 !! i = Some d0 -> dv_connected d0 = false) as Hnc3.
    { intros d0 Hd0. unfold s3, s2 in Hd0. apply lookup_on_device in Hd0 as (d1 & Hd0 & ->). apply lookup_on_device in Hd0 as (d2 & Hd0 & ->).
      rewrite bool_decide_eq_true_2 by done. rewrite Ed in Hd0. injection Hd0 as <-. simpl. by apply Hnc. }
    eapply tracks_ext; [..|apply (opened_tracks h i cm (make_params (dv_cfg d)) (dv_to_send d) s3 H3 Ecm Hnc3)]; try done.
    unfold s3, s2. simpl. rewrite !list_lookup_alter_eq, Ed. by eexists.
  - rewrite Z.eqb_refl, app_nil_r. split; [|intros j Hj; unfold s3, s2; simpl; by rewrite !list_lookup_alter_ne by done]. apply tracks_on; [done|]. by eapply tracks_ext; [..|exact H3].
  - rewrite Z.eqb_refl, app_nil_r. split; [done|]. intros j Hj. unfold s3, s2. by rewrite !Hne.
Qed.

Lemma hand_over_tracks h i s : tracks h s -> tracks h (hand_over i s).
Proof.
  intros Ht. pose proof Ht as (Hd & cm & Ecm & H1 & H2). unfold hand_over. destruct (sn_devices s !! i) as [d|] eqn:Ed; [|done].
  rewrite Ecm. destruct (dv_connected d) eqn:Ec; [|done]. cbn [negb].
  destruct (Hd i d Ed) as (T1 & T2 & _). rewrite Ec in T1. symmetry in T1. apply bool_decide_eq_true in T1 as [c Esc].
  assert (owner cm c = Some i) as Eo by (apply H1; split; [by eapply lookup_lt_Some|done]).
  unfold alive. rewrite T2, Esc by (by rewrite Esc). unfold owner in Eo. destruct (cm !! c) as [x|] eqn:Ex; [|done].
  split; [exact Hd|]. eexists. split; [done|]. simpl.
  assert (forall c', owner (alter (fun '(j, p, _) => (j, p, dv_to_send d)) c cm) c' = owner cm c') as E.
  { intros c'. unfold owner. destruct (decide (c' = c)) as [->|]; [|by rewrite lookup_alter_ne].
    rewrite lookup_alter_eq, Ex. by destruct x as [[j p] w]. }
  setoid_rewrite E. done.
Qed.

Lemma stack_tracks now es : forall h s,
  tracks h s -> tracks (h ++ map Happened es) (foldl (fun s e => stack_step now e s) s es).
Proof.
  induction es as [|e es IH]; intros h s Ht; [by rewrite app_nil_r|]. cbn [map foldl].
  replace (h ++ Happened e :: map Happened es) with ((h ++ [Happened e]) ++ map Happened es) by (by rewrite <- app_assoc).
  apply IH. destruct e; [by apply received_tracks|by apply closed_tracks].
Qed.

Lemma reconnects_track idx : forall h s,
  tracks h s -> tracks (h ++ reconnects_log idx s) (foldl (fun s i => reconnect i s) s idx).
Proof.
  induction idx as [|i idx IH]; intros h s Ht; [by rewrite app_nil_r|]. cbn [reconnects_log foldl]. rewrite app_assoc. apply IH.
  unfold reconnect_log, reconnect. destruct (sn_devices s !! i) as [d|] eqn:Ed; [|by rewrite app_nil_r].
  destruct (dv_connected d) eqn:Ec; [by rewrite app_nil_r|]. apply connect_tracks; [done|]. intros d0 Hd0. congruence.
Qed.

Lemma poll_tracks h us s : tracks h s -> tracks (h ++ poll_log s) (scanner_poll us s).
Proof.
  intros Ht. unfold poll_log, scanner_poll. pose proof Ht as (_ & cm & -> & _). cbv zeta.
  set (s1 := foldl _ s _). assert (tracks h s1) as H1 by (apply foldl_inv; [intros; by apply hand_over_tracks|done]). clearbody s1.
  case_bool_decide; [by apply reconnects_track|]. destruct (ask_library s1) as [a s2] eqn:Ea.
  rewrite app_assoc. apply reconnects_track, stack_tracks. injection Ea as _ <-. by eapply tracks_ext; [..|exact H1].
Qed.

(** While [init] is at device [k], the ones from there on are as they start. *)
Lemma init_tracks n : forall k h s s',
  tracks h s -> (forall j d, (k <= j)%nat -> sn_devices s !! j = Some d -> dv_connected d = false) ->
  init_loop (seq k n) s = Some s' -> tracks (h ++ init_log (seq k n) s) s'.
Proof.
  induction n as [|n IH]; intros k h s s' Ht Hn Hi; [injection Hi as <-; by rewrite app_nil_r|]. cbn [seq init_loop init_log] in *.
  destruct (connect_tracks h k s Ht ltac:(intros d; apply Hn; lia)) as [Ht1 Hoth].
  destruct (connect_device k s) as [[] s1]; [done|]. rewrite app_assoc. apply IH; [done| |done].
  intros j d Hj Hd. apply (Hn j); [lia|]. rewrite <- Hd. symmetry. apply Hoth. lia.
Qed.

Lemma start_tracks cfg s0 :
  tracks [] (s0 <| sn_cfg := cfg |> <| sn_cm := Some ∅ |> <| sn_devices := map device_start (sc_devices cfg) |>).
Proof.
  split.
  - intros i d Hi. simpl in Hi. change (map ?f ?l !! i) with ((f <$> l) !! i) in Hi. rewrite list_lookup_fmap in Hi.
    destruct (sc_devices cfg !! i) as [c|]; [|done]. injection Hi as <-. split; [done|]. split; [by intros [? [=]]|]. do 3 (split; [done|]). split; [|done].
    unfold fitted, device_start, bslice; simpl. by rewrite take_nil, Z.sub_0_r.
  - exists ∅. split; [done|]. unfold owner. split; [|intros c [? E]; by rewrite lookup_empty in E].
    intros c i. rewrite lookup_empty. split; [done|by intros [_ [=]]].
Qed.

Lemma ran_tracks cfg h s : table_inv cfg -> ran cfg h s -> tracks h s.
Proof.
  intros Ht. induction 1 as [s0 s E|h s us _ IH|h s o2t len health hl t2o cap Hr IH Hlen Hh Hc].
  - unfold scanner_init in E. destruct (_ =? 0); [done|]. destruct (init_loop _ _) as [s1|] eqn:El; [|done]. injection E as <-.
    eapply (init_tracks _ 0 []); [apply start_tracks| |done]. intros j d _ Hd. simpl in Hd.
    change (map ?f ?l !! j) with ((f <$> l) !! j) in Hd. rewrite list_lookup_fmap in Hd. destruct (sc_devices cfg !! j); [|done]. by injection Hd as <-.
  - by apply poll_tracks.
  - assert (scanner_inv s) as Hinv by (apply (running_inv cfg); [done|apply running_ran; by eexists]).
    pose proof (exchange_frame o2t len health hl t2o cap s Hinv Hlen Hh Hc) as Hx.
    destruct (scanner_exchange _ _ _ _ _ _ _) as [[[n h'] t'] s']. destruct Hx as (_ & _ & _ & -> & _). cbn [snd].
    destruct IH as (Hd & cm & Ecm & H1 & H2). split.
    + intros i d Hi. simpl in Hi. change (map ?f ?l !! i) with ((f <$> l) !! i) in Hi. rewrite list_lookup_fmap in Hi.
      destruct (sn_devices s !! i) as [d0|] eqn:E; [|done]. injection Hi as <-. specialize (Hd i d0 E). unfold staged.
      by destruct (_ <=? _).
    + exists cm. split; [done|]. simpl. by rewrite length_map.
Qed.

(** [C21] Every device gets its own slice, whatever the others do.  Take any state the
    backend can be in, with all that the library and the network have done since
    [init].  One swap writes, for each device of the table, exactly its slice of the
    T->O image, and that slice is a function of what happened to that device's own
    connections: while its connection is open and has delivered a frame, the newest
    frame accepted on it, cut or extended with zeros to the device's size;
    otherwise, by the device's own policy, zeros or the last frame that was accepted
    on any of its connections (zeros if there was none).  The health byte says which
    of the two, and whether there ever was data.  The device's slice of the outputs
    is staged for its connection. *)
Theorem scanner_swap_per_device (cfg : eip_scanner_config) (h : list obs) (s : scanner_state) (o2t health t2o : list Z)
    (o2t_len health_len cap : Z)
    (Ht : table_inv cfg) (Hs : ran cfg h s) (Hlen : o2t_len <= zlen o2t) (Hh : zlen health = health_len)
    (Hc : zlen t2o = cap) (Hcap : sc_total_t2o_bytes cfg <= cap) :
  let '(n, health', t2o', s') := scanner_exchange o2t o2t_len health health_len t2o cap s in
  n = sc_total_t2o_bytes cfg /\
  forall k c, sc_devices cfg !! k = Some c ->
    bslice (d_t2o_offset c) (d_t2o_bytes c) t2o' = due_slice c (seen_of k h) /\
    (Z.of_nat k < health_len -> byte_at health' (Z.of_nat k) = due_health (seen_of k h)) /\
    exists d', sn_devices s' !! k = Some d' /\
      (d_o2t_offset c + d_o2t_bytes c <= o2t_len -> dv_to_send d' = bslice (d_o2t_offset c) (d_o2t_bytes c) o2t).
Proof.
  assert (running cfg s) as Hr by (apply running_ran; by eexists). pose proof (running_cfg cfg s Hr) as Ec.
  pose proof (exchange_per_device cfg s o2t health t2o o2t_len health_len cap Ht Hr Hlen Hh Hc ltac:(by rewrite Ec)) as Hx.
  destruct (scanner_exchange _ _ _ _ _ _ _) as [[[n h'] t'] s']. rewrite Ec in Hx. destruct Hx as [-> Hx]. split; [done|]. intros k c Hk.
  destruct (running_inv cfg s Ht Hr) as (_ & Em & _). rewrite Ec in Em.
  rewrite <- Em in Hk. change (map ?f ?l !! k) with ((f <$> l) !! k) in Hk. rewrite list_lookup_fmap in Hk.
  destruct (sn_devices s !! k) as [d|] eqn:Ed; [|done]. injection Hk as <-. destruct (Hx k d Ed) as (X1 & X2 & X3).
  destruct (tracks_due (seen_of k h) d) as (<- & <- & _); [by apply (ran_tracks cfg h s)|]. split; [done|]. split; [done|].
  eexists. split; [done|]. intros Hle. unfold staged. by rewrite (proj2 (Z.leb_le _ _) Hle).
Qed.

(** *** Sequence counts *)

Lemma s16_u16_diff n m : - 2 ^ 15 < n - m < 2 ^ 15 -> s16 (u16 n - u16 m) = n - m.
Proof.
  intros H. unfold s16, u16. rewrite <- Zplus_mod_idemp_l, <- Zminus_mod, Zplus_mod_idemp_l. rewrite Z.mod_small by lia. lia.
Qed.

Lemma u16_idem n : u16 (u16 n) = u16 n.
Proof. apply u16_small. apply Z.mod_pos_bound. lia. Qed.

(** Frames with the number the sender gave them, before it is cut to sixteen bits. *)
Abbreviation frames := (list (Z * list Z)).

Fixpoint receive_all d (fs : frames) : list bool * device_state :=
  match fs with
  | [] => ([], d)
  | (n, data) :: fs => let '(ok, d) := receive (u16 n) data d in
                       let '(oks, d) := receive_all d fs in (ok :: oks, d)
  end.

(** The reference: a frame counts when it is newer than all before it. *)
Fixpoint newer_than (m : option Z) (ns : list Z) : list bool :=
  match ns with
  | [] => []
  | n :: ns => if match m with Some m => m <? n | None => true end then true :: newer_than (Some n) ns else false :: newer_than m ns
  end.
Fixpoint newest (best : option (Z * list Z)) (fs : frames) : option (Z * list Z) :=
  match fs with
  | [] => best
  | f :: fs => newest (if match best with Some b => b.1 <? f.1 | None => true end then Some f else best) fs
  end.

(** No frame is further than half the range from the newest before it. *)
Fixpoint near (m : option Z) (ns : list Z) : Prop :=
  match ns with
  | [] => True
  | n :: ns => match m with Some m => - 2 ^ 15 < n - m < 2 ^ 15 | None => True end /\
               near (Some (match m with Some m => Z.max m n | None => n end)) ns
  end.

Lemma receive_accepts n data d :
  dv_have_seq d && (s16 (u16 (u16 n) - dv_last_seq d) <=? 0) = false ->
  receive (u16 n) data d =
    (true, d <| dv_last_seq := u16 n |> <| dv_have_seq := true |> <| dv_latest := fitted (zlen (dv_latest d)) data |>
             <| dv_last_good := fitted (zlen (dv_latest d)) data |> <| dv_has_data := true |> <| dv_ever_data := true |>).
Proof.
  intros H. unfold receive. rewrite H, u16_idem. cbv zeta.
  pose proof (receive_latest data (dv_latest d)) as E. cbv zeta in E. simpl. rewrite E. done.
Qed.

(** The device remembers the newest frame. *)
Definition remembers (best : option (Z * list Z)) d : Prop :=
  match best with
  | None => dv_have_seq d = false
  | Some (m, data) => dv_have_seq d = true /\ dv_last_seq d = u16 m /\ dv_latest d = fitted (zlen (dv_latest d)) data
  end.

Lemma receive_all_spec fs : forall best d,
  remembers best d -> near (fst <$> best) (map fst fs) ->
  (receive_all d fs).1 = newer_than (fst <$> best) (map fst fs) /\ remembers (newest best fs) (receive_all d fs).2 /\
  zlen (dv_latest (receive_all d fs).2) = zlen (dv_latest d).
Proof.
  induction fs as [|[n data] fs IH]; intros best d Hr Hn; [done|]. cbn [receive_all map newest newer_than]. destruct Hn as [Hn Hnear].
  assert (forall d', d' = d <| dv_last_seq := u16 n |> <| dv_have_seq := true |> <| dv_latest := fitted (zlen (dv_latest d)) data |>
             <| dv_last_good := fitted (zlen (dv_latest d)) data |> <| dv_has_data := true |> <| dv_ever_data := true |> ->
    remembers (Some (n, data)) d' /\ zlen (dv_latest d') = zlen (dv_latest d)) as Hacc.
  { intros d' ->. simpl. rewrite zlen_fitted by apply zlen_nonneg. done. }
  destruct best as [[m dm]|]; simpl in Hr, Hn, Hnear |- *.
  - destruct Hr as (Hh & Hm & Hl). pose proof (s16_u16_diff n m Hn) as Hd. destruct (Z.ltb_spec m n).
    + rewrite receive_accepts by (rewrite Hh, Hm, u16_idem, Hd; simpl; lia). destruct (Hacc _ eq_refl) as [Hr' Hz].
      rewrite Z.max_r in Hnear by lia. destruct (IH (Some (n, data)) _ Hr' Hnear) as (E1 & E2 & E3). clear Hacc.
      destruct (receive_all _ fs) as [oks d2]. simpl in *. rewrite E1. split; [done|]. split; [done|]. lia.
    + unfold receive. rewrite Hh, Hm, u16_idem, Hd. destruct (Z.leb_spec (n - m) 0); [|lia]. cbn [andb].
      rewrite Z.max_l in Hnear by lia. destruct (IH (Some (m, dm)) d (conj Hh (conj Hm Hl)) Hnear) as (E1 & E2 & E3).
      destruct (receive_all d fs) as [oks d2]. simpl in *. by rewrite E1.
  - rewrite receive_accepts by (by rewrite Hr). destruct (Hacc _ eq_refl) as [Hr' Hz].
    destruct (IH (Some (n, data)) _ Hr' Hnear) as (E1 & E2 & E3). clear Hacc.
    destruct (receive_all _ fs) as [oks d2]. simpl in *. rewrite E1. split; [done|]. split; [done|]. lia.
Qed.

(** The newest frame wins.  On a new connection, whatever the order in which
    frames arrive, however often they are repeated, and however often the sixteen
    bits of the count wrap: the listener accepts exactly the frames whose number is
    greater than every number before, as long as none is half the range away from
    the newest; and the image is then the newest frame's, cut or extended with
    zeros to the device's size, so that it never steps backwards. *)
Theorem scanner_newest_frame_wins (d : device_state) (fs : list (Z * list Z))
    (Hd : dv_have_seq d = false) (Hn : near None (map fst fs)) :
  (receive_all d fs).1 = newer_than None (map fst fs) /\
  match newest None fs with
  | None => fs = []
  | Some (_, data) => dv_latest (receive_all d fs).2 = fitted (zlen (dv_latest d)) data
  end.
Proof.
  destruct (receive_all_spec fs None d Hd Hn) as (E1 & E2 & E3). split; [exact E1|].
  assert (newest None fs = None -> fs = []) as Hnil.
  { destruct fs as [|f fs]; [done|]. simpl. assert (forall b gs, is_Some (newest (Some b) gs)) as Hs.
    { intros b gs. revert b. induction gs as [|g gs IH]; intros b; simpl; [by eexists|]. destruct (_ <? _); apply IH. }
    intros Hx. destruct (Hs f fs) as [x Hx']. congruence. }
  destruct (newest None fs) as [[m data]|]; [|by apply Hnil]. destruct E2 as (_ & _ & E2). by rewrite E3 in E2.
Qed.

Definition ex_entry : eip_scanner_device := Device (txt "10.0.0.7") 1 100 101 2 2 10000 10000 1 PLC_FAILSAFE_HOLD 0 0.

(** Numbers 65535, 65536 and 65537, the second one late and the third one twice. *)
Lemma scanner_newest_frame_wins_witness :
  (receive_all (device_start ex_entry) [(65535, [1; 1]); (65537, [3]); (65536, [2; 2]); (65537, [3; 3])]).1 = [true; true; false; false] /\
  dv_latest (receive_all (device_start ex_entry) [(65535, [1; 1]); (65537, [3]); (65536, [2; 2]); (65537, [3; 3])]).2 = [3; 0].
Proof.
  destruct (scanner_newest_frame_wins (device_start ex_entry) [(65535, [1; 1]); (65537, [3]); (65536, [2; 2]); (65537, [3; 3])] eq_refl)
    as [H1 H2]; [simpl; lia|].
  split; [exact H1|exact H2].
Defined.

(** *** Freshness *)

(** Connection [c] of device [i] is neither closed nor replaced. *)
Definition undisturbed (i : nat) (c : Z) (l : list obs) : Prop :=
  forall o, In o l -> o <> Happened (ConnClosed c) /\ forall c', o <> OpenedFor i c'.

Lemma undisturbed_nil i c : undisturbed i c [].
Proof. by intros o []. Qed.

Lemma undisturbed_app i c l l' : undisturbed i c l -> undisturbed i c l' -> undisturbed i c (l ++ l').
Proof. intros H1 H2 o [Ho|Ho]%in_app_or; auto. Qed.

(** What follows a connection that stays. *)
Lemma undisturbed_one i c v o :
  se_conn v = Some c -> se_conn (see i v o) = Some c -> (forall c', o <> OpenedFor i c') -> undisturbed i c [o].
Proof.
  intros E E' Hn o' [<-|[]]. split; [|done]. intros ->. simpl in E'. by rewrite E, bool_decide_eq_true_2 in E'.
Qed.

Lemma conn_opened i c h :
  se_conn (seen_of i h) = Some c -> exists before rest, h = before ++ OpenedFor i c :: rest /\ undisturbed i c rest.
Proof.
  induction h as [|o h IH] using rev_ind; [done|]. rewrite seen_of_snoc. intros E.
  destruct (decide (o = OpenedFor i c)) as [->|Hne]; [exists h, []; split; [done|apply undisturbed_nil]|].
  assert ((forall c', o <> OpenedFor i c') /\ se_conn (seen_of i h) = Some c) as [Ho Eh].
  { destruct o as [j c'|[c' sq data|c']]; simpl in E; case_bool_decide as B; simpl in E.
    - subst. injection E as ->. done.
    - split; [congruence|done].
    - split; [done|]. by destruct (newer _ _).
    - done.
    - done.
    - done. }
  destruct (IH Eh) as (before & rest & -> & Hu). exists before, (rest ++ [o]). split; [by rewrite <- app_assoc|].
  apply undisturbed_app; [done|]. by eapply undisturbed_one.
Qed.

(** A device becomes fresh by a frame on the connection it has. *)
Lemma fresh_by_frame i h l :
  seen_fresh (seen_of i h) = false -> seen_fresh (seen_of i (h ++ l)) = true ->
  exists l1 c sequence data l2, l = l1 ++ Happened (Received c sequence data) :: l2 /\
    se_conn (seen_of i (h ++ l1)) = Some c /\ undisturbed i c l2 /\
    se_conn (seen_of i (h ++ l)) = Some c /\ se_image (seen_of i (h ++ l)) = Some data.
Proof.
  intros H0. induction l as [|o l IH] using rev_ind; [rewrite app_nil_r; congruence|]. rewrite app_assoc, seen_of_snoc. intros Hf.
  set (v := seen_of i (h ++ l)) in *.
  destruct (decide (see i v o = v)) as [E|Hne].
  - rewrite E in *. destruct (IH Hf) as (l1 & c & sq & data & l2 & -> & Hc & Hu & Hce & Him).
    exists l1, c, sq, data, (l2 ++ [o]). split; [by rewrite <- app_assoc|]. split; [done|]. split; [|done].
    apply undisturbed_app; [done|]. apply (undisturbed_one i c v); [done|by rewrite E|]. intros c' ->. simpl in E, Hf.
    rewrite bool_decide_eq_true_2 in E by done. rewrite <- E in Hf. by unfold seen_fresh in Hf.
  - destruct o as [j c|[c sq data|c]]; simpl in Hne, Hf |- *.
    + case_bool_decide; [|done]. by unfold seen_fresh in Hf.
    + case_bool_decide as B; [|done]. destruct (newer _ _); [|done]. simpl. exists l, c, sq, data, [].
      split; [done|]. split; [done|]. split; [apply undisturbed_nil|done].
    + case_bool_decide; [|done]. by unfold seen_fresh in Hf.
Qed.

(** [C22] A device is online only by a frame of its own connection.  Take any state
    the backend can be in, with what happened since [init], and any poll, whatever the
    library does during it.  If a device was not fresh before the poll and is after
    it, then during the poll a frame arrived on a connection that was opened for this
    very device, that has been neither closed nor replaced since, and that frame is
    what the device's image now holds.  So a reconnect alone never makes the previous
    connection's image count as fresh, and no device is refreshed by another's
    frames. *)
Theorem scanner_fresh_only_by_frame (cfg : eip_scanner_config) (h : list obs) (s : scanner_state) (us : Z) (i : nat)
    (d d' : device_state) (Ht : table_inv cfg) (Hs : ran cfg h s)
    (Hd : sn_devices s !! i = Some d) (Hstale : fresh d = false)
    (Hd' : sn_devices (scanner_poll us s) !! i = Some d') (Hfresh : fresh d' = true) :
  exists before c between l1 sequence data l2,
    poll_log s = l1 ++ Happened (Received c sequence data) :: l2 /\
    h ++ l1 = before ++ OpenedFor i c :: between /\ undisturbed i c (between ++ l2) /\
    dv_latest d' = fitted (d_t2o_bytes (dv_cfg d')) data.
Proof.
  pose proof (ran_tracks cfg h s Ht Hs) as Htr. pose proof (poll_tracks h us s Htr) as Htr'.
  pose proof (proj1 Htr i d Hd) as T. pose proof (proj1 Htr' i d' Hd') as T'.
  destruct (tracks_due _ _ T) as (_ & _ & F). destruct (tracks_due _ _ T') as (_ & _ & F'). rewrite F in Hstale. rewrite F' in Hfresh.
  destruct (fresh_by_frame i h (poll_log s) Hstale Hfresh) as (l1 & c & sq & data & l2 & El & Hc & Hu & _ & Him).
  destruct (conn_opened i c (h ++ l1) Hc) as (before & between & Eb & Hu').
  exists before, c, between, l1, sq, data, l2. do 2 (split; [done|]). split; [by apply undisturbed_app|].
  destruct T' as (_ & _ & _ & _ & _ & -> & _). by rewrite Him.
Qed.

(** ** An example: two devices, one of which answers *)

Definition ex_second : eip_scanner_device := Device (txt "10.0.0.8") 1 100 101 2 3 10000 10000 1 PLC_FAILSAFE_CLEAR 2 2.
Definition ex_table : eip_scanner_config := ScannerConfig [ex_entry; ex_second] 4 5.

Lemma ex_table_inv : table_inv ex_table.
Proof.
  unfold table_inv. split; [vm_compute; discriminate|]. split; [|do 4 (split; [vm_compute; congruence|])].
  - repeat constructor; vm_compute; congruence.
  - split; intros pre d post E; (destruct pre as [|a [|b [|c pre]]]; injection E as; subst; try reflexivity; try discriminate).
Qed.

Definition scanner_zero (script : list answer) : scanner_state := ScannerState scanner_config_zero [] None 1 0 0 0 0 script.
(** Both are tried; the first opens, the second is rejected; then a frame arrives. *)
Definition ex_script : list answer :=
  [Answer 1 true Opened []; Answer 2 true Rejected []; Answer 3 true Opened [Received 1 7 [5; 6]]].
Definition ex_started : scanner_state :=
  match scanner_init (Some ex_table) (scanner_zero ex_script) with Some (_, s) => s | None => scanner_zero [] end.

Definition ex_polled : scanner_state := Eval vm_compute in scanner_poll 2000 ex_started.
Definition ex_before : scanner_state := Eval vm_compute in ex_started.

Lemma ex_polled_eq : scanner_poll 2000 ex_before = ex_polled.
Proof. vm_compute. reflexivity. Qed.

Lemma ex_running : running ex_table ex_polled.
Proof. rewrite <- ex_polled_eq. apply run_poll. apply (run_init _ (scanner_zero ex_script)). vm_compute. reflexivity. Qed.

(** The same, and then the connection is lost. *)
Definition ex_script_lost : list answer :=
  ex_script ++ [Answer 4 false Rejected []; Answer 5 true Opened [ConnClosed 1]; Answer 5 false Rejected []; Answer 5 false Rejected []].
Definition ex_lost_before : scanner_state :=
  Eval vm_compute in match scanner_init (Some ex_table) (scanner_zero ex_script_lost) with Some (_, s) => s | None => scanner_zero [] end.
Definition ex_lost_polled : scanner_state := Eval vm_compute in scanner_poll 2000 ex_lost_before.
Definition ex_lost : scanner_state := Eval vm_compute in scanner_poll 2000 ex_lost_polled.

Lemma ex_ran_before : ran ex_table [OpenedFor 0 1] ex_lost_before.
Proof. apply (ran_init ex_table (scanner_zero ex_script_lost)). vm_compute. reflexivity. Qed.

Lemma ex_lost_polled_eq : scanner_poll 2000 ex_lost_before = ex_lost_polled.
Proof. vm_compute. reflexivity. Qed.

Lemma ex_ran_polled : ran ex_table [OpenedFor 0 1; Happened (Received 1 7 [5; 6])] ex_lost_polled.
Proof. rewrite <- ex_lost_polled_eq. exact (ran_poll ex_table _ _ 2000 ex_ran_before). Qed.

Lemma ex_ran_lost : ran ex_table [OpenedFor 0 1; Happened (Received 1 7 [5; 6]); Happened (ConnClosed 1)] ex_lost.
Proof. exact (ran_poll ex_table _ _ 2000 ex_ran_polled). Qed.

(** The first device holds its last frame, the second never had one. *)
Lemma scanner_swap_per_device_witness :
  let '(n, health', t2o', _) := scanner_exchange [1; 2; 3; 4] 4 [9; 9] 2 [8; 8; 8; 8; 8; 8] 6 ex_lost in
  n = 5 /\ bslice 0 2 t2o' = [5; 6] /\ bslice 2 3 t2o' = [0; 0; 0] /\ byte_at health' 0 = EIP_DEVICE_FAILSAFE /\
  byte_at health' 1 = EIP_DEVICE_OFFLINE.
Proof.
  pose proof (scanner_swap_per_device ex_table _ ex_lost [1; 2; 3; 4] [9; 9] [8; 8; 8; 8; 8; 8] 4 2 6
    ex_table_inv ex_ran_lost ltac:(vm_compute; discriminate) eq_refl eq_refl ltac:(vm_compute; discriminate)) as Ht.
  destruct (scanner_exchange _ _ _ _ _ _ _) as [[[n h'] t'] s']. destruct Ht as [En Ht]. split; [exact En|].
  destruct (Ht 0%nat _ eq_refl) as (A1 & A2 & _). destruct (Ht 1%nat _ eq_refl) as (B1 & B2 & _).
  split; [exact A1|]. split; [exact B1|]. split; [exact (A2 eq_refl)|exact (B2 eq_refl)].
Defined.

Lemma ex_polled_first :
  exists d, sn_devices (scanner_poll 2000 ex_lost_before) !! 0%nat = Some d /\ fresh d = true /\ dv_latest d = [5; 6] /\ d_t2o_bytes (dv_cfg d) = 2.
Proof. rewrite ex_lost_polled_eq. eexists. split; [reflexivity|]. done. Qed.

Lemma scanner_fresh_only_by_frame_witness :
  exists before c between l1 sequence data l2,
    [Happened (Received 1 7 [5; 6])] = l1 ++ Happened (Received c sequence data) :: l2 /\
    [OpenedFor 0 1] ++ l1 = before ++ OpenedFor 0 c :: between /\ undisturbed 0 c (between ++ l2) /\ [5; 6] = fitted 2 data.
Proof.
  destruct ex_polled_first as (d' & Hd' & Hf & El & Eb).
  pose proof (scanner_fresh_only_by_frame ex_table _ ex_lost_before 2000 0 _ d' ex_table_inv ex_ran_before eq_refl eq_refl Hd' Hf) as Ht.
  rewrite El, Eb in Ht. exact Ht.
Defined.

(** An exception of [forwardOpen] during [init] is not caught: where a poll goes on
    with the other devices, [init] ends the process. *)
Theorem scanner_init_ends_on_exception :
  scanner_init (Some ex_table) (scanner_zero [Answer 1 true Threw []]) = None /\
  is_Some (sn_cm (scanner_poll 2000 (ex_started <| sn_script := [Answer 3 true Opened []; Answer 3000000000 true Threw []] |>))).
Proof. split; [vm_compute; reflexivity|]. eexists. vm_compute. reflexivity. Qed.
