(* ===== verification/ScannerLink.v ===== *)
(** * Core and scanner process together

    The proxy of [ScannerProxy] in one process and the service loop of
    [ScannerService] in another, over one region, with any backend that obeys
    [ScannerBackendLaws]: an exchange during which the service gets to run one
    round, while the stack thread polls as often as it likes.  With the EIPScanner
    backend of [ScannerBackends] the theorem reaches from the core's process image
    to the devices: every device's health byte and data arrive at its place in the
    core's input image, and its outputs are staged for its connection. *)

From Stdlib Require Import ZArith Lia.
From stdpp Require Import base gmap list strings tactics.
From S2P Require Import Prelude PlcTypes SpscRing Adapter Config Shm IpcProxy ScannerConfig ScannerProxy EipService IpcLink ScannerService ScannerBackends.

(** One round of the service, as something that happens to the kernel. *)
Definition scanner_move {B} (backend : eip_scanner_backend B) (pid base sem_req sem_rsp core_timeout_us health_bytes t : Z)
    (s : scanner_service B) (k : kernel eip_scanner_shm) : kernel eip_scanner_shm :=
  w_k (service_round backend pid base sem_req sem_rsp core_timeout_us health_bytes s (World k t [])).2.

(** The service runs while the proxy waits. *)
Definition scanner_served {B} (backend : eip_scanner_backend B) (pid base sem_req sem_rsp core_timeout_us health_bytes t : Z)
    (s : scanner_service B) (k : kernel eip_scanner_shm) : world eip_scanner_shm :=
  peered (scanner_move backend pid base sem_req sem_rsp core_timeout_us health_bytes t s) t k.

(** The service with a request in its frame. *)
Definition with_request {B} (s : scanner_service B) (frame : plc_ipc_frame) (t : Z) : scanner_service B :=
  s <| sx_frame := frame |> <| sx_last_request_us := t / 1000 |>.

(** ** The exchange *)

(** A round trip during which the service answers. *)
Lemma round_trip_scanned {B} (backend : eip_scanner_backend B) `{ScannerBackendLaws B backend}
    core_pid core_base svc_pid svc_base sem_req sem_rsp core_timeout_us health_bytes k t p (s : scanner_service B) out :
  link_ready core_pid core_base svc_pid svc_base sem_req sem_rsp k p -> scanner_service_wf backend s -> 0 <= t < 2 ^ 62 ->
  zlen out <= PLC_IPC_MAX_FRAME_BYTES -> 0 <= health_bytes <= PLC_IPC_MAX_FRAME_BYTES ->
  exists req f w', msg_of req = Msg (px_next_seq p) 0 out /\ frame_ok req /\ frame_ok f /\
    (let '(n, s1) := swap_images backend health_bytes (with_request s req t) in
     0 <= n <= PLC_IPC_MAX_FRAME_BYTES - health_bytes /\ zlen (sx_reply s1) = PLC_IPC_MAX_FRAME_BYTES /\
     msg_of f = Msg (px_next_seq p) 0 (bslice 0 (health_bytes + n) (sx_reply s1))) /\
    forall fuel, proxy_round_trip core_pid (S (S fuel)) p core_base (Some out) (zlen out)
        (scanner_served backend svc_pid svc_base sem_req sem_rsp core_timeout_us health_bytes t s k)
      = Some (t / 1000, None, p <| px_next_seq := u32 (px_next_seq p + 1) |> <| px_scratch := f |>, w').
Proof.
  intros Hl Hs Ht Hout Hh. pose proof Hl as ((_ & _ & _ & _ & _ & Hne & _) & _). unfold scanner_served. set (move := scanner_move _ _ _ _ _ _ _ _ _).
  destruct (round_trip_peer core_pid core_base svc_pid svc_base sem_req sem_rsp k t p out move Hl Ht Hout)
    as (k1 & (Hi1 & Hm1 & Hw1 & Hw2 & Hq1 & Hq2 & Hr1 & Hr2) & Hx). cbn [ch_req ch_rsp scanner_channel] in *.
  destruct (scanner_round_answers backend svc_pid svc_base sem_req sem_rsp core_timeout_us health_bytes k1 t s
    (Msg (px_next_seq p) 0 out) []) as (req & s' & m' & posts & Hmsg & Hfok & Er & _ & _ & _ & Hwr & _ & Hrep); try done;
    [lia|rewrite Hr2; unfold SEM_VALUE_MAX; lia|].
  fold (with_request s req t) in Hrep. destruct (swap_images backend health_bytes (with_request s req t)) as [n s1] eqn:Esw.
  destruct Hrep as (Hn & Hz & Hrep). rewrite Hq2 in Hrep. change (zlen [] <? PLC_IPC_RING_SLOTS) with true in Hrep.
  destruct Hrep as (Hq' & ->). rewrite Hr2 in Er.
  assert (move k1 = stored svc_pid svc_base (sem_set k1 sem_req (sem_value k1 sem_req - 1)) m' [(sem_rsp, 0 + 1)]) as Emv
    by (unfold move, scanner_move; by rewrite Er).
  assert (deref core_pid (move k1) core_base = m') as Hd2 by (rewrite Emv; by apply deref_peer).
  destruct (Hx 0 (bslice 0 (health_bytes + n) (sx_reply s1))) as (f & Hf & Hok & Ew).
  { split; [rewrite Emv, value_posted; lia|]. by rewrite Hd2. }
  exists req, f, (reply_taken core_pid core_base sem_rsp p k1 move t). do 3 (split; [done|]). rewrite Esw. split; [done|]. exact Ew.
Qed.

(** A matched reply is delivered, and the state follows the devices online. *)
Lemma scanner_exchange_takes core_pid p base out i w t0 p1 w1 :
  px_map p = Some base -> px_state p <> PLC_ADAPTER_CLOSED ->
  zlen out <= cap_output_bytes (px_caps p) -> zlen i <= cap_input_bytes (px_caps p) -> frame_ok (px_scratch p1) ->
  (forall fuel, proxy_round_trip core_pid (S (S fuel)) p base (Some out) (zlen out) w = Some (t0, None, p1, w1)) ->
  exists p' w', (px_state p' = PLC_ADAPTER_ONLINE \/ px_state p' = PLC_ADAPTER_DEGRADED) /\
    returns (fun fuel => proxy_exchange core_pid fuel p (Some out) (zlen out) (Some i) (zlen i) w)
      (PLC_OK, p', Some (reply_image (px_scratch p1) (zlen i)), w').
Proof.
  intros Emap Hst Hout Hin [Hl Hz] Hrt. unfold proxy_exchange. rewrite Emap, bool_decide_eq_false_2 by done.
  destruct (Z.gtb_spec (zlen out) (cap_output_bytes (px_caps p))); [lia|].
  destruct (Z.gtb_spec (zlen i) (cap_input_bytes (px_caps p))); [lia|]. cbn [orb].
  pose proof (proxy_deliver_image p1 i Hl Hz) as Hd. cbv zeta in Hd.
  destruct (proxy_account (p1 <| px_last_good := bwrite 0 (reply_image (px_scratch p1) (zlen i)) (px_last_good p1) |>) t0 w1) as [p2 w2] eqn:Ea.
  destruct (mem_op core_pid w2 base (fun m => (ss_devices_online (sm_status m), m))) as [online w3] eqn:Em.
  eexists (if online =? 0 then if bool_decide (px_state p2 = PLC_ADAPTER_DEGRADED) then p2 else p2 <| px_state := PLC_ADAPTER_DEGRADED |>
           else if bool_decide (px_state p2 = PLC_ADAPTER_ONLINE) then p2 else p2 <| px_state := PLC_ADAPTER_ONLINE |>), w3.
  split.
  - destruct (online =? 0); case_bool_decide; simpl; auto.
  - exists 2%nat. intros [|[|fuel]] Hfu; [lia|lia|]. rewrite Hrt, Hd, Ea, Em. done.
Qed.

(** ** The EIPScanner backend behind the link *)

Lemma running_polled cfg (s : scanner_service scanner_state) :
  running cfg (sx_backend s) -> running cfg (sx_backend (polled kEipScanner s)).
Proof.
  intros Hr. change (running cfg (Nat.iter (default 0%nat (head (sx_polls s))) (scanner_poll POLL_BUDGET_US) (sx_backend s))). generalize (default 0%nat (head (sx_polls s))). intros n.
  induction n as [|n IH]; [done|]. exact (run_poll cfg _ POLL_BUDGET_US IH).
Qed.

Lemma bslice_app_r a b off len : 0 <= off -> bslice (zlen a + off) len (a ++ b) = bslice off len b.
Proof.
  intros Ho. unfold bslice. replace (Z.to_nat (zlen a + off)) with (length a + Z.to_nat off)%nat by (unfold zlen; lia).
  by rewrite drop_app_add.
Qed.

Lemma byte_at_app_l a b i : 0 <= i < zlen a -> byte_at (a ++ b) i = byte_at a i.
Proof. intros Hi. unfold byte_at. apply app_nth1. unfold zlen in Hi. lia. Qed.

Lemma fit_exact n l : zlen l = n -> fit n l = l.
Proof.
  intros <-. unfold fit. rewrite Z.min_id, bslice_all. replace (zlen l - zlen l) with 0 by lia. apply app_nil_r.
Qed.

(** The reply of the EIPScanner backend, device by device. *)
Lemma swap_images_per_device cfg (s : scanner_service scanner_state) out hb :
  table_inv cfg -> running cfg (sx_backend s) -> zlen (sx_reply s) = PLC_IPC_MAX_FRAME_BYTES ->
  zlen (fr_data (sx_frame s)) = PLC_IPC_MAX_FRAME_BYTES -> fr_len (sx_frame s) <= PLC_IPC_MAX_FRAME_BYTES ->
  bslice 0 (fr_len (sx_frame s)) (fr_data (sx_frame s)) = out -> 0 <= fr_len (sx_frame s) ->
  0 <= hb -> hb + sc_total_t2o_bytes cfg <= PLC_IPC_MAX_FRAME_BYTES ->
  let '(n, s1) := swap_images kEipScanner hb s in
  let image := bslice 0 (hb + n) (sx_reply s1) in
  n = sc_total_t2o_bytes cfg /\ zlen image = hb + n /\
  forall j d, sn_devices (sx_backend (polled kEipScanner s)) !! j = Some d ->
    (Z.of_nat j < hb -> byte_at image (Z.of_nat j) = health_of d) /\
    bslice (hb + d_t2o_offset (dv_cfg d)) (d_t2o_bytes (dv_cfg d)) image = slice_of d /\
    sn_devices (sx_backend s1) !! j = Some (staged out (zlen out) d).
Proof.
  intros Ht Hr Hz Hf Hl Hout Hl0 Hh Hfit. apply running_polled in Hr. unfold swap_images.
  pose proof (running_cfg _ _ Hr) as Ecfg. pose proof (running_inv cfg _ Ht Hr) as Hinv. pose proof (devices_placed _ Hinv) as Hp.
  destruct (table_placed _ Ht) as [_ HT]. set (reply := bwrite 0 (zeros hb) (sx_reply s)).
  assert (zlen reply = PLC_IPC_MAX_FRAME_BYTES) as Hzr by (unfold reply; rewrite zlen_bwrite; rewrite ?zlen_zeros; lia).
  rewrite u64_small by (unfold PLC_IPC_MAX_FRAME_BYTES in *; lia). cbn [sb_exchange_images kEipScanner].
  set (b := sx_backend (polled kEipScanner s)) in *. change (sx_frame (polled kEipScanner s)) with (sx_frame s).
  assert (zlen (drop (Z.to_nat hb) reply) = PLC_IPC_MAX_FRAME_BYTES - hb) as Hzd by (unfold zlen in *; rewrite length_drop; lia).
  assert (zlen (bslice 0 hb reply) = hb) as Hzh by (apply zlen_bslice; lia).
  pose proof (exchange_per_device cfg b (fr_data (sx_frame s)) (bslice 0 hb reply) (drop (Z.to_nat hb) reply)
    (fr_len (sx_frame s)) hb (PLC_IPC_MAX_FRAME_BYTES - hb) Ht Hr ltac:(lia) Hzh Hzd ltac:(rewrite Ecfg; lia)) as Hx.
  pose proof (exchange_frame (fr_data (sx_frame s)) (fr_len (sx_frame s)) (bslice 0 hb reply) hb (drop (Z.to_nat hb) reply)
    (PLC_IPC_MAX_FRAME_BYTES - hb) b Hinv ltac:(lia) Hzh Hzd) as Hfr.
  destruct (scanner_exchange _ _ _ _ _ _ _) as [[[n health] t2o] b']. rewrite Ecfg in Hx. destruct Hx as [-> Hx].
  destruct Hfr as (_ & Hfh & Hft & _). cbn [sx_reply sx_backend setf]. split; [done|].
  set (T := sc_total_t2o_bytes cfg) in *.
  assert (zlen (health ++ t2o) = PLC_IPC_MAX_FRAME_BYTES) as Hza by (rewrite zlen_app; lia).
  split; [apply zlen_bslice; lia|]. intros j d Hj. destruct (Hx j d Hj) as (H1 & H2 & H3).
  rewrite Forall_lookup in Hp. destruct (Hp j d Hj) as (_ & (_ & _ & Ho & _) & Hsz). rewrite Ecfg in Hsz.
  assert (Hob : 0 <= d_t2o_offset (dv_cfg d) /\ 0 <= d_t2o_bytes (dv_cfg d)) by (destruct (Hp j d Hj) as (_ & (? & ? & ? & ?) & _); lia).
  split; [|split].
  - intros Hj'. rewrite <- (H2 Hj'). transitivity (byte_at (health ++ t2o) (Z.of_nat j)); [|apply byte_at_app_l; lia].
    unfold byte_at. rewrite !nth_lookup, lookup_bslice by lia. f_equal.
  - rewrite bslice_bslice by lia. rewrite <- Hfh. rewrite bslice_app_r by lia. exact H1.
  - rewrite H3. f_equal. unfold staged. assert (zlen out = fr_len (sx_frame s)) as -> by (rewrite <- Hout; apply zlen_bslice; lia).
    destruct (Z.leb_spec (d_o2t_offset (dv_cfg d) + d_o2t_bytes (dv_cfg d)) (fr_len (sx_frame s))); [|done].
    rewrite <- Hout. rewrite bslice_bslice; [done|..]; destruct (Hp j d Hj) as (_ & (? & ? & ? & ?) & _); lia.
Qed.

Lemma table_total_nonneg cfg : table_inv cfg -> 0 <= sc_total_t2o_bytes cfg.
Proof.
  intros (_ & HF & _ & -> & _). apply sum_of_nonneg. eapply List.Forall_impl; [|exact HF]. intros d Hd. unfold device_ok in Hd. lia.
Qed.

(** [C6] From the core's image to the devices and back.  Both processes map one region,
    the doorbells are quiet and no request is left over; old replies may be.  If the
    scanner process runs one round while the proxy waits, however often its stack
    thread polls meanwhile, the exchange returns [PLC_OK]; in the input image the
    [j]-th byte is the health of the [j]-th device and each device's slice behind the
    health bytes is that device's: its latest frame while its connection delivers,
    otherwise its own failsafe policy.  Each device whose slice the outputs cover has
    exactly that slice staged for its connection. *)
Theorem scanner_link_per_device (cfg : eip_scanner_config)
    (core_pid core_base svc_pid svc_base sem_req sem_rsp core_timeout_us health_bytes : Z)
    (k : kernel eip_scanner_shm) (t : Z) (p : ipc_proxy) (s : scanner_service scanner_state) (out i : list Z)
    (Hlink : link_ready core_pid core_base svc_pid svc_base sem_req sem_rsp k p)
    (Ht : 0 <= t < 2 ^ 62) (Htab : table_inv cfg) (Hrun : running cfg (sx_backend s))
    (Hframe : zlen (fr_data (sx_frame s)) = PLC_IPC_MAX_FRAME_BYTES) (Hreply : zlen (sx_reply s) = PLC_IPC_MAX_FRAME_BYTES)
    (Hout : zlen out <= cap_output_bytes (px_caps p)) (Hin : zlen i <= cap_input_bytes (px_caps p))
    (Hh : 0 <= health_bytes) (Hsize : zlen i = health_bytes + sc_total_t2o_bytes cfg) :
  let w := scanner_served kEipScanner svc_pid svc_base sem_req sem_rsp core_timeout_us health_bytes t s k in
  exists p' i' w' req,
    returns (fun fuel => proxy_exchange core_pid fuel p (Some out) (zlen out) (Some i) (zlen i) w) (PLC_OK, p', Some i', w') /\
    (px_state p' = PLC_ADAPTER_ONLINE \/ px_state p' = PLC_ADAPTER_DEGRADED) /\ zlen i' = zlen i /\
    msg_of req = Msg (px_next_seq p) 0 out /\
    forall j d, sn_devices (sx_backend (polled kEipScanner s)) !! j = Some d ->
      (Z.of_nat j < health_bytes -> byte_at i' (Z.of_nat j) = health_of d) /\
      bslice (health_bytes + d_t2o_offset (dv_cfg d)) (d_t2o_bytes (dv_cfg d)) i' = slice_of d /\
      sn_devices (sx_backend (swap_images kEipScanner health_bytes (with_request s req t)).2) !! j = Some (staged out (zlen out) d).
Proof.
  pose proof Hlink as (_ & Emap & _ & _ & Hinv & Hst & _).
  pose proof Hinv as (Hci & Hco & _). cbv zeta. destruct (table_placed _ Htab) as [_ HT]. pose proof (zlen_nonneg i).
  assert (scanner_service_wf kEipScanner s) as Hs by (split; [done|split; [done|by apply (running_inv cfg)]]).
  assert (health_bytes <= PLC_IPC_MAX_FRAME_BYTES) as Hhm by (pose proof (table_total_nonneg cfg Htab); lia).
  destruct (round_trip_scanned kEipScanner core_pid core_base svc_pid svc_base sem_req sem_rsp core_timeout_us health_bytes k t p s out)
    as (req & f & w1 & Hreq & [Hrl Hrz] & Hok & Hrep & Hrt); try done; [lia|].
  pose proof (swap_images_per_device cfg (with_request s req t) out health_bytes Htab Hrun Hreply Hrz (proj2 Hrl)) as Hsw.
  set (p1 := p <| px_next_seq := _ |> <| px_scratch := f |>) in Hrt. assert (px_scratch p1 = f) as Ef by done.
  rewrite <- Ef in Hok. destruct (scanner_exchange_takes core_pid p core_base out i _ _ p1 _ Emap Hst Hout Hin Hok Hrt) as (p' & w' & Hstate & Hret).
  destruct (swap_images kEipScanner health_bytes (with_request s req t)) as [n s1] eqn:Esw.
  destruct Hrep as (_ & _ & Hf). destruct Hsw as (En & Hz & Hdev); [by injection Hreq|exact (proj1 Hrl)|lia|lia|].
  exists p', (bslice 0 (health_bytes + n) (sx_reply s1)), w', req. split.
  { rewrite reply_image_fit, Ef, Hf in Hret by done. simpl m_payload in Hret. rewrite fit_exact in Hret by lia. exact Hret. }
  split; [done|]. split; [lia|]. split; [done|]. rewrite Esw. exact Hdev.
Qed.

(** Process 1 is the core, process 2 the scanner process with two devices, of which
    one has delivered a frame. *)
Definition scanner_link_kernel : kernel eip_scanner_shm :=
  Kernel ∅ {[4 := Inode 4480 (eip_scanner_shm_zero <| sm_rsp := scanner_request |>) (Some (1, 5))]} ∅
         {[(1, 6) := 4; (2, 10) := 4]} ∅ {[7 := 0; 8 := 0]} 11.
Definition scanner_link_proxy : ipc_proxy :=
  scanner_example <| px_caps := Caps 1 "eipscan0" "ethernet-ip-scanner" 7 4 PLC_FAILSAFE_CLEAR 5000 100000 1 0 |>.
Definition scanner_link_service : scanner_service scanner_state :=
  ScannerService frame_zero (zeros PLC_IPC_MAX_FRAME_BYTES) 5 ex_polled [].

Lemma scanner_link_kernel_ready : link_ready 1 6 2 10 7 8 scanner_link_kernel scanner_link_proxy.
Proof.
  split.
  - split; [by exists 4|]. split; [by eexists|]. split; [exact ring_zero_wf|]. split; [exact (proj1 (proj2 service_kernel_wf))|].
    split; [vm_compute; reflexivity|]. split; [lia|]. split; reflexivity.
  - do 3 (split; [reflexivity|]). split; [|split; [discriminate|reflexivity]].
    destruct (px_inv_sized _ scanner_example_inv) as (_ & _ & _ & H4). split; [vm_compute; split; discriminate|].
    split; [vm_compute; split; discriminate|]. split; [vm_compute; split; congruence|]. exact H4.
Qed.

Lemma scanner_link_per_device_witness :
  exists p' i' w', returns (fun fuel => proxy_exchange 1 fuel scanner_link_proxy (Some [1; 2; 3; 4]) 4 (Some (zeros 7)) 7
      (scanner_served kEipScanner 2 10 7 8 2000000 2 5000 scanner_link_service scanner_link_kernel)) (PLC_OK, p', Some i', w') /\
    byte_at i' 0 = EIP_DEVICE_ONLINE /\ byte_at i' 1 = EIP_DEVICE_OFFLINE /\ bslice 2 2 i' = [5; 6] /\ bslice 4 3 i' = [0; 0; 0].
Proof.
  destruct (scanner_link_per_device ex_table 1 6 2 10 7 8 2000000 2 scanner_link_kernel 5000 scanner_link_proxy scanner_link_service
    [1; 2; 3; 4] (zeros 7)) as (p' & i' & w' & req & Hret & _ & _ & _ & Hd);
    [exact scanner_link_kernel_ready|lia|exact ex_table_inv|exact ex_running|reflexivity|reflexivity
    |vm_compute; discriminate|vm_compute; discriminate|lia|reflexivity|].
  destruct (Hd 0%nat _ eq_refl) as (A1 & A2 & _). destruct (Hd 1%nat _ eq_refl) as (B1 & B2 & _).
  exists p', i', w'. split; [exact Hret|]. split; [exact (A1 eq_refl)|]. split; [exact (B1 eq_refl)|]. split; [exact A2|exact B2].
Defined.
