(* ===== verification/CoreLink.v ===== *)
(** * The whole system in mirror mode

    The scan engine of [Runtime], the EtherNet/IP proxy of [EipProxy] bound to
    it, the region and the doorbells of [Shm], and the adapter process of
    [EipService] with its mirror backend, run together for any number of scans.

    The specification is [mirror_scan]: a plant without processes, rings,
    doorbells, frames or sequence numbers, whose field hands the latched
    outputs back.  The theorem is that the composed system computes the same
    thing: every scan returns [PLC_OK], and the process image, the programs'
    memory, the latched outputs and the scan's counters are the
    specification's.  So the outputs a program computes come back to it as
    inputs one scan later, scan after scan. *)

From Stdlib Require Import ZArith Lia.
From stdpp Require Import base gmap list strings tactics.
From S2P Require Import Prelude PlcTypes ProcessImage SpscRing Adapter Runtime Config Shm IpcProxy EipProxy EipService IpcLink EipLink RuntimeProps.

(** ** The specification *)

(** What an observer sees of the engine between two scans. *)
Record mirror_plant (U : Type) : Type := MirrorPlant {
  mp_user : U;
  mp_pi : plc_process_image;
  mp_latched : list Z;  (** the [%Q] of the last scan *)
  mp_now : Z;  (** the clock, in nanoseconds *)
  mp_scan : Z;
  mp_last : Z;  (** when the last scan began *)
  mp_first : bool
}.
Arguments MirrorPlant {U}.
Arguments mp_user {U}.
Arguments mp_pi {U}.
Arguments mp_latched {U}.
Arguments mp_now {U}.
Arguments mp_scan {U}.
Arguments mp_last {U}.
Arguments mp_first {U}.

(** What an assembly of [asm] bytes (as many as were sent, when [asm] is zero)
    makes of the outputs [out] in [n] bytes of input. *)
Definition reflected (asm n : Z) (out : list Z) : list Z :=
  fit n (bslice 0 (if asm =? 0 then zlen out else asm) out).

(** A scan [dt] nanoseconds later. *)
Definition mirror_scan {U} (b : plc_io_binding) (ps : list (plc_program U)) (mp : mirror_plant U) (step : Z * Z) : mirror_plant U :=
  let '(dt, asm) := step in
  let now := mp_now mp + dt in
  let out := bslice (b_q_offset b) (cap_output_bytes (b_caps b)) (mp_latched mp) in
  let pi := store_n (mp_pi mp) (PLC_AREA_I, b_i_offset b) 0 (reflected asm (cap_input_bytes (b_caps b)) out) in
  let ctx := PouCtx now (if mp_first mp then 0 else s64 (now - mp_last mp)) (mp_scan mp) (mp_first mp) 0 in
  let '(u, pi) := run_programs ps ctx (mp_user mp) pi in
  MirrorPlant u pi (view pi PLC_AREA_Q) now (u64 (mp_scan mp + 1)) now false.

(** ** The system *)

(** The two processes and what they share. *)
Record wiring : Type := Wiring {
  wr_core_pid : Z; wr_core_base : Z; wr_svc_pid : Z; wr_svc_base : Z;
  wr_sem_req : Z; wr_sem_rsp : Z; wr_core_timeout_us : Z
}.

Section CoreLink.
Context {U : Type} (wr : wiring) (getenv : cstr -> option cstr) (table : cfg_table) (fuel : nat).
Implicit Types (rt : plc_runtime U) (p : ipc_proxy) (k : kernel eip_shm) (s : service loopback_state).

(** The core's memory: its one adapter is the proxy. *)
Definition core_mem (w : world eip_shm) p (u : U) : mem (world eip_shm) ipc_proxy U :=
  Mem w [Adapter (Some (kEipVtbl (wr_core_pid wr) getenv table (S (S fuel)))) p] u.

(** A scan that begins [dt] nanoseconds from now and during whose exchange the
    adapter process, in state [s], gets to run one round. *)
Definition linked_scan (dt : Z) s rt (m : mem (world eip_shm) ipc_proxy U)
    : option (plc_status * option (plc_runtime U) * mem (world eip_shm) ipc_proxy U) :=
  let k := w_k (mm_world m) in
  let t := w_ns (mm_world m) in
  let w := served (kLoopbackBackend getenv table) (wr_svc_pid wr) (wr_svc_base wr) (wr_sem_req wr) (wr_sem_rsp wr)
             (wr_core_timeout_us wr) (t + dt) s k in
  plc_runtime_scan_once (Some rt) (m <| mm_world := World k t (Event dt None 0 :: w_script w) |>).

(** Scan after scan; the statuses they returned. *)
Fixpoint linked_scans (steps : list (Z * service loopback_state)) rt (m : mem (world eip_shm) ipc_proxy U)
    : option (list plc_status * plc_runtime U * mem (world eip_shm) ipc_proxy U) :=
  match steps with
  | [] => Some ([], rt, m)
  | (dt, s) :: steps =>
      match linked_scan dt s rt m with
      | Some (st, Some rt, m) =>
          match linked_scans steps rt m with
          | Some (sts, rt, m) => Some (st :: sts, rt, m)
          | None => None
          end
      | _ => None
      end
  end.

(** What the specification's state stands for. *)
Definition plant_of rt (m : mem (world eip_shm) ipc_proxy U) : mirror_plant U :=
  MirrorPlant (mm_user m) (rt_pi rt) (bslice 0 (rt_q_shadow_len rt) (rt_q_shadow rt)) (w_ns (mm_world m))
              (rt_scan_no rt) (rt_last_scan_ns rt) (rt_first_scan rt).

(** The engine is in order and bound to the proxy alone, and the link is ready. *)
Definition linked (b : plc_io_binding) rt (m : mem (world eip_shm) ipc_proxy U) : Prop :=
  rt_inv rt /\ Forall (fun g => pou_ok (prog_fn g)) (rt_programs rt) /\ rt_bindings rt = [b] /\ b_adapter b = 0%nat /\
  exists k t p u, m = core_mem (World k t []) p u /\ 0 <= t /\ b_caps b = px_caps p /\ bytes (px_last_good p) /\
    link_ready (wr_core_pid wr) (wr_core_base wr) (wr_svc_pid wr) (wr_svc_base wr) (wr_sem_req wr) (wr_sem_rsp wr) k p.
End CoreLink.

(** ** Only the sent bytes of the outputs matter *)

Section Sent.
Context {M : Type} `{Channel M} (pid : Z).

Lemma push_sent r seq l n : 0 <= n -> plc_spsc_push (Some r) seq (Some l) n = plc_spsc_push (Some r) seq (Some (take (Z.to_nat n) l)) n.
Proof.
  intros Hn. unfold plc_spsc_push, plc_spsc_push_flagged. rewrite !bool_decide_eq_false_2 by done.
  cbn [from_option]. unfold id. by rewrite take_take, Nat.min_id.
Qed.

Lemma push_nothing r seq : plc_spsc_push (Some r) seq None 0 = plc_spsc_push (Some r) seq (Some []) 0.
Proof. done. Qed.

Lemma round_trip_ext fuel p base out out' n (w : world M) :
  (forall r, plc_spsc_push (Some r) (px_next_seq p) out (u32 n) = plc_spsc_push (Some r) (px_next_seq p) out' (u32 n)) ->
  proxy_round_trip pid fuel p base out n w = proxy_round_trip pid fuel p base out' n w.
Proof.
  intros Hpush. unfold proxy_round_trip. destruct (plc_now_us w) as [t0 w1]. destruct (plc_sem_drain _ _ _) as [w2|]; [|done].
  unfold req_push, mem_op. destruct (pause w2) as [e w3]. by rewrite Hpush.
Qed.
End Sent.

Lemma exchange_sent pid fuel p l n inb in_len (w : world eip_shm) :
  0 <= n <= PLC_IPC_MAX_FRAME_BYTES ->
  proxy_exchange pid fuel p (if negb (n =? 0) then Some l else None) n inb in_len w
    = proxy_exchange pid fuel p (Some (take (Z.to_nat n) l)) n inb in_len w.
Proof.
  intros Hn. unfold proxy_exchange. destruct (px_map p) as [base|]; [|done].
  rewrite (round_trip_ext pid fuel p base (if negb (n =? 0) then Some l else None) (Some (take (Z.to_nat n) l)) n w); [done|].
  intros r. rewrite u32_small by (unfold PLC_IPC_MAX_FRAME_BYTES in *; lia).
  destruct (Z.eqb_spec n 0) as [->|]; [done|]. apply push_sent. lia.
Qed.

(** ** Padding keeps bytes bytes *)

Lemma zlen_fit n l : 0 <= n -> zlen (fit n l) = n.
Proof. intros. pose proof (zlen_nonneg l). unfold fit. rewrite zlen_app, zlen_bslice, zlen_zeros by lia. lia. Qed.

Lemma bytes_fit n l : bytes l -> bytes (fit n l).
Proof. intros Hl. unfold fit. apply Forall_app. split; [by apply bytes_bslice|]. apply bytes_zeros. Qed.

(** ** The clock of a scan *)

Lemma now_ns_after (k : kernel eip_shm) t dt s :
  0 <= t -> 0 <= dt -> t + dt < 2 ^ 62 -> now_ns (World k t (Event dt None 0 :: s)) = (t + dt, World k (t + dt) s).
Proof.
  intros Ht Hd Hb. unfold now_ns, clock_gettime, world_clock, pause. cbn [w_script ev_errno ev_move ev_ns w_k w_ns].
  rewrite (Z.max_r 0 dt) by lia. replace (Z.max 0 _) with (t + dt) by lia. f_equal.
  pose proof (Z.div_mod (t + dt) 1000000000 ltac:(lia)). pose proof (Z.mod_pos_bound (t + dt) 1000000000 ltac:(lia)).
  rewrite (s64_small (_ * _)) by lia. rewrite s64_small; lia.
Qed.

Lemma now_ns_silent (k : kernel eip_shm) t :
  0 <= t < 2 ^ 62 -> now_ns (World k t []) = (t, World k t []).
Proof.
  intros Ht. pose proof (now_ns_after k t 0 [] ltac:(lia) ltac:(lia) ltac:(lia)) as E.
  unfold now_ns, clock_gettime, world_clock, pause in E |- *. cbn [w_script ev_errno ev_move ev_ns w_k w_ns] in E |- *.
  rewrite Z.max_id, Z.add_0_r in E. exact E.
Qed.

(** ** One scan *)

Section Scan.
Context {U : Type} (wr : wiring) (getenv : cstr -> option cstr) (table : cfg_table) (fuel : nat).
Implicit Types (rt : plc_runtime U) (p : ipc_proxy) (k : kernel eip_shm) (s : service loopback_state).

Let ready := link_ready (wr_core_pid wr) (wr_core_base wr) (wr_svc_pid wr) (wr_svc_base wr) (wr_sem_req wr) (wr_sem_rsp wr).
Let mirror := kLoopbackBackend getenv table.
Let serving := served mirror (wr_svc_pid wr) (wr_svc_base wr) (wr_sem_req wr) (wr_sem_rsp wr) (wr_core_timeout_us wr).

(** The exchange as the engine makes it: the slice of the shadow goes out, the
    image that comes back is stored. *)
Lemma binding_exchanges rt b p u (w w' : world eip_shm) st p' i' :
  rt_inv rt -> binding_ok rt b -> b_adapter b = 0%nat -> cap_output_bytes (b_caps b) <= PLC_IPC_MAX_FRAME_BYTES ->
  let out := bslice (b_q_offset b) (cap_output_bytes (b_caps b)) (rt_q_shadow rt) in
  let before := bslice (b_i_offset b) (cap_input_bytes (b_caps b)) (view (rt_pi rt) PLC_AREA_I) in
  zlen out = cap_output_bytes (b_caps b) /\ zlen before = cap_input_bytes (b_caps b) /\
  (proxy_exchange (wr_core_pid wr) (S (S fuel)) p (Some out) (zlen out) (Some before) (zlen before) w = Some (st, p', Some i', w') ->
   exchange_binding rt (PLC_AREA_I, 0) b (core_mem wr getenv table fuel w p u)
     = Some (st, rt <| rt_pi := store_n (rt_pi rt) (PLC_AREA_I, b_i_offset b) 0 i' |>, core_mem wr getenv table fuel w' p' u)).
Proof.
  intros Hrt Hb H0 Hmax out before. pose proof Hrt as (Hwf & _).
  pose proof Hb as (Hb1 & Hb2 & Hb3 & Hb4 & Hb5 & Hb6). destruct (shadow_slice rt b Hrt Hb) as (Hs1 & Hs2 & _).
  assert (zlen before = cap_input_bytes (b_caps b)) as Hbl.
  { apply zlen_bslice; [lia|lia|]. rewrite zlen_view by (done || apply area_I_valid). lia. }
  assert (zlen out = cap_output_bytes (b_caps b)) as Hol by (unfold out, bslice, zlen in *; rewrite length_take; lia).
  do 2 (split; [done|]). rewrite Hol, Hbl. intros Hx. unfold exchange_binding. rewrite H0. cbv zeta. cbn [fst snd].
  rewrite Z.add_0_l, load_n_view by (done || apply area_I_valid). fold before.
  rewrite (proj2 (Z.leb_le _ _)) by done. rewrite andb_true_r. unfold plc_adapter_exchange, Adapter.entry. cbn [core_mem mm_adapters lookup list_lookup].
  cbn [ad_vtbl ad_impl kEipVtbl vt_exchange core_mem mm_world]. rewrite (bool_decide_eq_false_2 (Some before = None)) by done.
  assert (negb (cap_output_bytes (b_caps b) =? 0) && bool_decide ((if negb (cap_output_bytes (b_caps b) =? 0)
    then Some (drop (Z.to_nat (b_q_offset b)) (rt_q_shadow rt)) else None) = None) = false) as ->.
  { destruct (negb _); [|done]. by rewrite bool_decide_eq_false_2. }
  rewrite andb_false_r. cbn [orb]. rewrite exchange_sent by lia. change (take _ (drop _ _)) with out. rewrite Hx. done.
Qed.

(** With the adapter process answering. *)
Lemma binding_reflects rt b p k t s u :
  rt_inv rt -> binding_ok rt b -> b_adapter b = 0%nat -> b_caps b = px_caps p -> ready k p ->
  service_wf mirror s -> mirror_usable getenv table = true -> 0 <= t < 2 ^ 62 ->
  let out := bslice (b_q_offset b) (cap_output_bytes (b_caps b)) (rt_q_shadow rt) in
  let inputs := reflected (g_input_bytes (sv_backend s)) (cap_input_bytes (b_caps b)) out in
  exists p' k', ready k' p' /\ px_caps p' = px_caps p /\ px_last_good p' = bwrite 0 inputs (px_last_good p) /\
    forall rt0, rt_inv rt0 -> rt_pi rt0 = rt_pi rt -> rt_q_shadow rt0 = rt_q_shadow rt ->
    exchange_binding rt0 (PLC_AREA_I, 0) b (core_mem wr getenv table fuel (serving t s k) p u)
      = Some (PLC_OK, rt0 <| rt_pi := store_n (rt_pi rt) (PLC_AREA_I, b_i_offset b) 0 inputs |>,
              core_mem wr getenv table fuel (World k' t []) p' u).
Proof.
  intros Hrt Hb H0 Hc Hl Hs Hu Ht out inputs. pose proof Hl as (_ & _ & _ & _ & (Hci & Hco & _) & _).
  set (before := bslice (b_i_offset b) (cap_input_bytes (b_caps b)) (view (rt_pi rt) PLC_AREA_I)).
  assert (zlen out = cap_output_bytes (b_caps b) /\ zlen before = cap_input_bytes (b_caps b)) as [Hol Hbl].
  { destruct (binding_exchanges rt b p u (serving t s k) (serving t s k) PLC_OK p [] Hrt Hb H0) as (? & ? & _); [rewrite Hc; lia|done]. }
  destruct (exchange_mirrors getenv table (wr_core_pid wr) (wr_core_base wr) (wr_svc_pid wr) (wr_svc_base wr)
    (wr_sem_req wr) (wr_sem_rsp wr) (wr_core_timeout_us wr) k t p s out before) as (p' & k' & Hl' & _ & Hc' & Hg' & Hx);
    try done; [by rewrite Hol, Hc|by rewrite Hbl, Hc|].
  rewrite Hbl in Hg'. exists p', k'. do 3 (split; [done|]). intros rt0 Hrt0 Epi Eq.
  assert (binding_ok rt0 b) as Hb0 by (unfold binding_ok in *; by rewrite Epi).
  rewrite <- Epi. apply binding_exchanges; [done|done|done|rewrite Hc; lia|]. rewrite Epi, Eq. fold out before. rewrite Hx, Hbl. done.
Qed.

(** What follows the input phase, to the last field an observer sees; the scan began at [t0]. *)
Lemma execute_exact t0 t1 st rt k p u :
  rt_inv rt -> Forall (fun g => pou_ok (prog_fn g)) (rt_programs rt) -> 0 <= t1 < 2 ^ 62 ->
  let ctx := PouCtx t0 (if rt_first_scan rt then 0 else s64 (t0 - rt_last_scan_ns rt)) (rt_scan_no rt) (rt_first_scan rt) 0 in
  let '(u', pi') := run_programs (rt_programs rt) ctx u (rt_pi rt) in
  exists rt', scan_execute t0 st rt (core_mem wr getenv table fuel (World k t1 []) p u)
      = (st, Some rt', core_mem wr getenv table fuel (World k t1 []) p u') /\
    rt_inv rt' /\ rt_programs rt' = rt_programs rt /\ rt_bindings rt' = rt_bindings rt /\ rt_cfg rt' = rt_cfg rt /\
    plant_of rt' (core_mem wr getenv table fuel (World k t1 []) p u')
      = MirrorPlant u' pi' (view pi' PLC_AREA_Q) t1 (u64 (rt_scan_no rt + 1)) t0 false.
Proof.
  intros Hrt Hps Ht ctx. destruct (run_programs_wf (rt_programs rt) ctx u (rt_pi rt) Hps) as [Hwf Hsz]; [apply Hrt|].
  destruct (run_programs (rt_programs rt) ctx u (rt_pi rt)) as [u' pi'] eqn:Er. simpl in Hwf, Hsz.
  pose proof (rt_inv_pi rt pi' Hrt Hwf Hsz) as Hrt1. destruct (latch_spec _ Hrt1) as (sh & Esh & Hz & Hb & Hl).
  unfold scan_execute. fold ctx. cbn [core_mem mm_user mm_world]. rewrite Er, Esh.
  change (mm_world (_ <| mm_user := u' |>)) with (World k t1 []). rewrite now_ns_silent, account_frame by done.
  eexists. split; [done|]. simpl in Hz, Hb, Hl. split; [|split; [done|split; [done|split; [done|]]]].
  - destruct Hrt1 as (H1 & H2 & H3 & H4 & H5 & H6 & H7 & H8). simpl in *.
    split; [done|split; [done|split; [simpl; lia|split; [done|]]]]. do 3 (split; [done|]). simpl. apply u64_range.
  - unfold plant_of. simpl. by rewrite Hl.
Qed.

(** A scan whose one exchange ends with status [st] and image [inputs] at [t1]. *)
Lemma scan_through rt b p u k t dt evs st inputs k' t1 p' :
  rt_inv rt -> Forall (fun g => pou_ok (prog_fn g)) (rt_programs rt) -> rt_bindings rt = [b] ->
  0 <= t -> 0 <= dt -> t + dt < 2 ^ 62 -> 0 <= t1 < 2 ^ 62 -> is_ok st || rc_continue_on_io_fault (rt_cfg rt) = true ->
  bytes inputs -> zlen inputs = cap_input_bytes (b_caps b) ->
  let t0 := t + dt in
  let pi := store_n (rt_pi rt) (PLC_AREA_I, b_i_offset b) 0 inputs in
  (forall rt0, rt_inv rt0 -> rt_pi rt0 = rt_pi rt -> rt_q_shadow rt0 = rt_q_shadow rt ->
     exchange_binding rt0 (PLC_AREA_I, 0) b (core_mem wr getenv table fuel (World k t0 evs) p u)
       = Some (st, rt0 <| rt_pi := pi |>, core_mem wr getenv table fuel (World k' t1 []) p' u)) ->
  let ctx := PouCtx t0 (if rt_first_scan rt then 0 else s64 (t0 - rt_last_scan_ns rt)) (rt_scan_no rt) (rt_first_scan rt) 0 in
  let '(u', pi') := run_programs (rt_programs rt) ctx u pi in
  let m' := core_mem wr getenv table fuel (World k' t1 []) p' u' in
  exists rt', plc_runtime_scan_once (Some rt) (core_mem wr getenv table fuel (World k t (Event dt None 0 :: evs)) p u) = Some (st, Some rt', m') /\
    rt_inv rt' /\ rt_programs rt' = rt_programs rt /\ rt_bindings rt' = [b] /\ rt_cfg rt' = rt_cfg rt /\
    plant_of rt' m' = MirrorPlant u' pi' (view pi' PLC_AREA_Q) t1 (u64 (rt_scan_no rt + 1)) t0 false.
Proof.
  intros Hrt Hps Hbs Ht Hdt Ht0 Ht1 Hgo Hby Hz t0 pi Hx ctx. pose proof Hrt as (Hwf & _ & _ & _ & _ & _ & HF & Hsn).
  rewrite Hbs in HF. pose proof (List.Forall_inv HF) as (Hb1 & _ & Hb3 & _ & Hb5 & _).
  destruct (store_n_wf (rt_pi rt) PLC_AREA_I (b_i_offset b) 0 inputs) as (Hp1 & Hp2 & _);
    [done|apply area_I_valid|done|lia|done|lia|]. fold pi in Hp1, Hp2.
  set (rt0 := if rt_first_scan rt then rt <| rt_started_ns := t0 |> <| rt_last_scan_ns := t0 |> else rt).
  set (rt1 := (if is_ok st then rt0 <| rt_pi := pi |> else rt0 <| rt_pi := pi |> <| rt_stats := rt_stats (rt0 <| rt_pi := pi |>)
                 <| rs_io_faults := u64 (rs_io_faults (rt_stats (rt0 <| rt_pi := pi |>)) + 1) |> |>)).
  assert (rt_inv rt0 /\ rt_pi rt0 = rt_pi rt /\ rt_q_shadow rt0 = rt_q_shadow rt /\ rt_bindings rt0 = [b]) as (Hrt0 & Epi & Eq & Eb).
  { subst rt0. destruct (rt_first_scan rt); [|done]. split; [apply (rt_inv_ext rt); done|done]. }
  assert (rt_inv rt1 /\ rt_pi rt1 = pi) as [Hrt1 Epi1].
  { assert (rt_inv (rt0 <| rt_pi := pi |>)) as Hi by (apply rt_inv_pi; [done|done|by rewrite Epi]).
    unfold rt1. destruct (is_ok st); [done|]. split; [|done]. apply (rt_inv_ext (rt0 <| rt_pi := pi |>)); try done. apply Hrt0. }
  pose proof (execute_exact t0 t1 st rt1 k' p' u Hrt1) as He. cbv zeta in He.
  assert (rt_programs rt1 = rt_programs rt /\ rt_bindings rt1 = [b] /\ rt_cfg rt1 = rt_cfg rt /\ rt_scan_no rt1 = rt_scan_no rt /\
    PouCtx t0 (if rt_first_scan rt1 then 0 else s64 (t0 - rt_last_scan_ns rt1)) (rt_scan_no rt1) (rt_first_scan rt1) 0 = ctx)
    as (Ep1 & Eb1 & Ec1 & Es1 & Ectx).
  { unfold ctx, rt1, rt0. rewrite <- Hbs. destruct (is_ok st), (rt_first_scan rt) eqn:Ef; simpl; rewrite ?Ef; done. }
  rewrite Ectx, Ep1, Eb1, Ec1, Es1, Epi1 in He. specialize (He Hps Ht1).
  destruct (run_programs (rt_programs rt) ctx u pi) as [u' pi']. destruct He as (rt' & E & He). cbv zeta. exists rt'. split; [|done].
  cbn [plc_runtime_scan_once]. cbn [core_mem mm_world]. rewrite now_ns_after by done. fold t0. fold rt0.
  change (_ <| mm_world := World k t0 evs |>) with (core_mem wr getenv table fuel (World k t0 evs) p u).
  unfold scan_io. rewrite Eb. cbn [scan_io_loop]. unfold plc_pi_area. rewrite (area_ok_wf _ _ (proj1 Hrt0)).
  cbn [andb Z.leb Z.ltb PLC_AREA_I]. change (if _ : bool then Some _ else None) with (Some (PLC_AREA_I, 0)). cbv iota. rewrite Hx by done.
  replace (if is_ok st then PLC_OK else st) with st by (by destruct st). fold rt1. rewrite Ec1.
  assert (negb (is_ok st) && negb (rc_continue_on_io_fault (rt_cfg rt)) = false) as ->.
  { destruct (is_ok st), (rc_continue_on_io_fault (rt_cfg rt)); done. }
  by rewrite E.
Qed.

(** One scan of the system is one scan of the specification. *)
Lemma linked_scan_reflects b rt m dt s :
  linked wr getenv table fuel b rt m -> service_wf mirror s -> mirror_usable getenv table = true ->
  0 <= dt -> w_ns (mm_world m) + dt < 2 ^ 62 ->
  exists rt' m', linked_scan wr getenv table dt s rt m = Some (PLC_OK, Some rt', m') /\
    linked wr getenv table fuel b rt' m' /\ rt_programs rt' = rt_programs rt /\
    plant_of rt' m' = mirror_scan b (rt_programs rt) (plant_of rt m) (dt, g_input_bytes (sv_backend s)).
Proof.
  intros (Hrt & Hps & Hbs & H0 & k & t & p & u & -> & Ht0 & Hc & Hby & Hl) Hs Hu Hdt Hmax. cbn [core_mem mm_world w_ns] in Hmax.
  pose proof Hrt as (_ & Hq & Hz & Hsb & _ & _ & HF & _). rewrite Hbs in HF. pose proof (List.Forall_inv HF) as Hb.
  pose proof Hb as (Hb1 & Hb2 & Hb3 & Hb4 & Hb5 & Hb6).
  destruct (binding_reflects rt b p k (t + dt) s u Hrt Hb H0 Hc Hl Hs Hu ltac:(lia)) as (p' & k' & Hl' & Hc' & Hg' & Hx).
  set (out := bslice (b_q_offset b) (cap_output_bytes (b_caps b)) (rt_q_shadow rt)) in *.
  set (inputs := reflected _ _ out) in *.
  assert (bytes inputs) as Hib by (apply bytes_fit, bytes_bslice; by apply bytes_bslice).
  assert (zlen inputs = cap_input_bytes (b_caps b)) as Hiz by (apply zlen_fit; lia).
  pose proof (scan_through rt b p u k t dt (w_script (serving (t + dt) s k)) PLC_OK inputs k' (t + dt) p' Hrt Hps Hbs Ht0 Hdt Hmax
    ltac:(lia) eq_refl Hib Hiz Hx) as Hs'. cbv zeta in Hs'.
  assert (bslice (b_q_offset b) (cap_output_bytes (b_caps b)) (bslice 0 (rt_q_shadow_len rt) (rt_q_shadow rt)) = out) as Eo
    by (apply bslice_bslice; lia).
  unfold mirror_scan. unfold plant_of. cbn [core_mem mm_user mm_world w_ns mp_now mp_latched mp_pi mp_user mp_first mp_last mp_scan].
  rewrite Eo. fold inputs.
  destruct (run_programs _ _ _ _) as [u' pi']. destruct Hs' as (rt' & E & Hrt' & Ep & Eb & _ & Epl).
  exists rt', (core_mem wr getenv table fuel (World k' (t + dt) []) p' u'). split; [exact E|]. split; [|done].
  split; [done|]. rewrite Ep, Eb. do 3 (split; [done|]). exists k', (t + dt), p', u'. split; [done|]. split; [lia|].
  split; [by rewrite Hc'|]. split; [rewrite Hg'; by apply bytes_bwrite|done].
Qed.
End Scan.

(** ** Scan after scan *)

Definition elapsed {S : Type} (steps : list (Z * S)) : Z := foldr (fun step acc => step.1 + acc) 0 steps.

Lemma elapsed_nonneg {S : Type} (P : S -> Prop) (steps : list (Z * S)) :
  Forall (fun step => 0 <= step.1 /\ P step.2) steps -> 0 <= elapsed steps.
Proof. induction 1 as [|[dt s] steps [Hd _] _ IH]; simpl in *; lia. Qed.

(** [C1] The composed system refines a plant without processes.  The scan engine is
    bound to the EtherNet/IP proxy, and the adapter process runs its mirror backend
    in another process over one region; the link is ready and the mirror usable.
    However many scans follow, at whatever times, with whatever the adapter
    process's buffers hold, if it gets to run one round during each exchange then
    every scan returns [PLC_OK], the link is ready again, and the process image, the
    programs' memory, the latched outputs, the clock and the scan counter are the
    ones of [mirror_scan], in which each scan's inputs are the outputs the scan
    before it latched, cut to the assembly and extended with zeros. *)
Theorem core_link_refines_mirror {U : Type} (wr : wiring) (getenv : cstr -> option cstr) (table : cfg_table) (fuel : nat)
    (b : plc_io_binding) (rt : plc_runtime U) (m : mem (world eip_shm) ipc_proxy U) (steps : list (Z * service loopback_state))
    (Hlinked : linked wr getenv table fuel b rt m) (Husable : mirror_usable getenv table = true)
    (Hsteps : Forall (fun step => 0 <= step.1 /\ service_wf (kLoopbackBackend getenv table) step.2) steps)
    (Htime : w_ns (mm_world m) + elapsed steps < 2 ^ 62) :
  exists rt' m',
    linked_scans wr getenv table steps rt m = Some (replicate (length steps) PLC_OK, rt', m') /\
    linked wr getenv table fuel b rt' m' /\
    plant_of rt' m' = foldl (mirror_scan b (rt_programs rt)) (plant_of rt m)
                            (map (fun step => (step.1, g_input_bytes (sv_backend step.2))) steps).
Proof.
  revert rt m Hlinked Htime. induction Hsteps as [|[dt s] steps [Hdt Hs] Hsteps IH]; intros rt m Hl Ht; [by exists rt, m|].
  pose proof (elapsed_nonneg _ _ Hsteps). cbn [elapsed foldr fst snd] in *. fold (elapsed steps) in *.
  destruct (linked_scan_reflects wr getenv table fuel b rt m dt s Hl Hs Husable Hdt ltac:(lia)) as (rt1 & m1 & E & Hl1 & Ep & Epl).
  destruct (IH rt1 m1 Hl1) as (rt' & m' & E' & Hl' & Epl').
  { change (w_ns (mm_world m1)) with (mp_now (plant_of rt1 m1)). rewrite Epl. unfold mirror_scan.
    destruct (run_programs _ _ _ _). cbn [mp_now plant_of]. lia. }
  exists rt', m'. cbn [linked_scans]. rewrite E, E'. split; [done|]. split; [done|].
  rewrite Epl', Ep. cbn [map foldl fst snd]. by rewrite Epl.
Qed.

(** A program that counts with the field in the loop: [%QB0 := %IB0 + 1]. *)
Definition count_pou : plc_pou_fn unit := fun ctx u pi =>
  (u, default pi (plc_pi_set_byte (Some pi) PLC_AREA_Q 0 (u8 (plc_pi_get_byte (Some pi) PLC_AREA_I 0 + 1)))).

Lemma count_pou_ok : pou_ok count_pou.
Proof.
  intros ctx u pi Hwf. unfold count_pou.
  destruct (set_byte_writes pi PLC_AREA_Q 0 (u8 (plc_pi_get_byte (Some pi) PLC_AREA_I 0 + 1)))
    as (pi1 & -> & Hwf1 & Hsz & _); [done|lia|apply u8_range|]. done.
Qed.

Definition link_binding : plc_io_binding := Binding 0 0 0 eip_caps_example.
Definition link_rt : plc_runtime unit :=
  ex_rt0 <| rt_bindings := [link_binding] |> <| rt_programs := [Program "count" count_pou 0] |>.
Definition link_wiring : wiring := Wiring 1 6 2 10 7 8 2000000.
Definition link_mem : mem (world eip_shm) ipc_proxy unit :=
  core_mem link_wiring (fun _ => None) (Table [] []) 0 (World link_kernel 5000 []) eip_example tt.

Lemma link_rt_linked : linked link_wiring (fun _ => None) (Table [] []) 0 link_binding link_rt link_mem.
Proof.
  split.
  - destruct ex_rt_inv as (H1 & H2 & H3 & H4 & _). do 4 (split; [assumption|]). do 2 (split; [vm_compute; congruence|]).
    split; [|vm_compute; split; congruence]. constructor; [|constructor]. unfold binding_ok. vm_compute. repeat split; congruence.
  - split; [constructor; [exact count_pou_ok|constructor]|]. do 2 (split; [reflexivity|]).
    exists link_kernel, 5000, eip_example, tt. split; [reflexivity|]. split; [lia|]. split; [reflexivity|].
    split; [apply eip_example_inv|exact link_kernel_ready].
Qed.

Lemma core_link_refines_mirror_witness :
  exists rt' m',
    linked_scans link_wiring (fun _ => None) (Table [] []) (replicate 5 (10000000, service_example)) link_rt link_mem
      = Some (replicate 5 PLC_OK, rt', m') /\
    mp_latched (plant_of rt' m') = [5; 0; 0; 0; 0; 0; 0; 0] /\ mp_now (plant_of rt' m') = 50005000.
Proof.
  destruct (core_link_refines_mirror link_wiring (fun _ => None) (Table [] []) 0 link_binding link_rt link_mem
              (replicate 5 (10000000, service_example))) as (rt' & m' & E & _ & Epl);
    [exact link_rt_linked|reflexivity
    |apply Forall_replicate; split; [simpl; lia|exact service_example_wf]|vm_compute; reflexivity|].
  exists rt', m'. split; [exact E|]. rewrite Epl. split; vm_compute; reflexivity.
Defined.
