(* ===== verification/Outage.v ===== *)
(** * The core without its adapter process

    The engine of [CoreLink] after the adapter process has died: nobody answers
    any more.  Each exchange queues its request while the ring has room, waits
    its budget, and gives up; once the ring is full it gives up at once.  The
    scans go on, and the inputs they run on follow the failsafe rule of
    [Adapter]: the last good image inside the window, the policy's after it.

    [outage_scan] is the specification, a function of the time that passes and of
    the number of requests left in the ring; the theorem is that the engine, the
    proxy, the ring and the doorbells compute it, for as many scans as one likes. *)

From Stdlib Require Import ZArith Lia.
From stdpp Require Import base gmap list strings tactics.
From S2P Require Import Prelude PlcTypes ProcessImage SpscRing Adapter Runtime Config Shm IpcProxy EipProxy EipService IpcLink EipLink RuntimeProps CoreLink.

(** ** The specification *)

(** The plant, and the requests nobody has taken. *)
Record outage (U : Type) : Type := Outage {
  ou_plant : mirror_plant U;
  ou_queued : Z
}.
Arguments Outage {U}.
Arguments ou_plant {U}.
Arguments ou_queued {U}.

(** A scan [dt] nanoseconds later.  [held] is the last good image and [since] the
    microsecond it is from. *)
Definition outage_scan {U} (b : plc_io_binding) (ps : list (plc_program U)) (since : Z) (held : list Z) (o : outage U) (dt : Z)
    : outage U :=
  let mp := ou_plant o in
  let caps := b_caps b in
  let room := ou_queued o <? PLC_IPC_RING_SLOTS in
  let now := mp_now mp + dt in
  let given_up := if room then now + cap_exchange_timeout_us caps * 1000 else now in
  let inputs := failsafe_image (cap_failsafe_policy caps) (cap_failsafe_timeout_us caps) (age_at since (given_up / 1000)) held
                  (cap_input_bytes caps) in
  let pi := store_n (mp_pi mp) (PLC_AREA_I, b_i_offset b) 0 inputs in
  let ctx := PouCtx now (if mp_first mp then 0 else s64 (now - mp_last mp)) (mp_scan mp) (mp_first mp) 0 in
  let '(u, pi) := run_programs ps ctx (mp_user mp) pi in
  Outage (MirrorPlant u pi (view pi PLC_AREA_Q) given_up (u64 (mp_scan mp + 1)) now false)
         (if room then ou_queued o + 1 else ou_queued o).

(** ** The system *)

(** A scan during which nobody else acts. *)
Definition lone_scan {U} (dt : Z) (rt : plc_runtime U) (m : mem (world eip_shm) ipc_proxy U)
    : option (plc_status * option (plc_runtime U) * mem (world eip_shm) ipc_proxy U) :=
  let w := mm_world m in
  plc_runtime_scan_once (Some rt) (m <| mm_world := World (w_k w) (w_ns w) [Event dt None 0] |>).

Fixpoint lone_scans {U} (dts : list Z) (rt : plc_runtime U) (m : mem (world eip_shm) ipc_proxy U)
    : option (list plc_status * plc_runtime U * mem (world eip_shm) ipc_proxy U) :=
  match dts with
  | [] => Some ([], rt, m)
  | dt :: dts =>
      match lone_scan dt rt m with
      | Some (st, Some rt, m) =>
          match lone_scans dts rt m with
          | Some (sts, rt, m) => Some (st :: sts, rt, m)
          | None => None
          end
      | _ => None
      end
  end.

(** ** A missed exchange *)

Section Missed.
Context (pid base sem_req sem_rsp : Z).
Implicit Types (k : kernel eip_shm) (p : ipc_proxy).

(** The region as the core leaves it: [n] requests, each with its post. *)
Definition region_alone k (n : Z) : Prop :=
  is_Some (mapped_inode k pid base) /\
  ring_wf (em_req (deref pid k base)) /\ ring_wf (em_rsp (deref pid k base)) /\
  zlen (queue (em_req (deref pid k base))) = n /\
  sem_req <> sem_rsp /\ sem_value k sem_req = n /\ sem_value k sem_rsp = 0.

Lemma queue_bound r : ring_wf r -> 0 <= zlen (queue r) <= PLC_IPC_RING_SLOTS.
Proof. intros (_ & _ & _ & _ & Hc). rewrite zlen_queue. pose proof (u32_range (rg_head r - rg_tail r)). lia. Qed.

Lemma sem_drain_silent k t sem fuel :
  sem_value k sem = 0 -> plc_sem_drain (S fuel) (Some sem) (World k t []) = Some (World k t []).
Proof.
  intros Hv. cbn [plc_sem_drain]. unfold plc_sem_trywait. cbn [length w_script retry_eintr].
  unfold sem_trywait, pause. cbn [w_script w_k]. by rewrite Hv.
Qed.

Lemma round_trip_missed p k t out n :
  px_ready base sem_req sem_rsp p -> region_alone k n -> zlen out <= PLC_IPC_MAX_FRAME_BYTES ->
  0 <= t -> t + cap_exchange_timeout_us (px_caps p) * 1000 < 2 ^ 62 ->
  let room := n <? PLC_IPC_RING_SLOTS in
  exists k', region_alone k' (if room then n + 1 else n) /\
    forall fuel, proxy_round_trip pid (S fuel) p base (Some out) (zlen out) (World k t [])
      = Some (t / 1000, Some PLC_ERR_TIMEOUT, p <| px_next_seq := u32 (px_next_seq p + 1) |>,
              World k' (if room then t + cap_exchange_timeout_us (px_caps p) * 1000 else t) []).
Proof.
  intros (_ & Esq & Esr & (_ & _ & Hto & _) & _ & Hpos) (Hmap & Hreq & Hrsp & Hn & Hne & V1 & V2) Hout Ht Hmax room.
  pose proof (zlen_nonneg out). set (m := deref pid k base) in *.
  set (m1 := m <| em_rsp := Ring (rg_head (em_rsp m)) (rg_head (em_rsp m)) (rg_slots (em_rsp m)) |>).
  destruct (push_either (em_req m) (px_next_seq p) 0 out (zlen out) Hreq ltac:(lia) ltac:(lia)) as (r' & Hwf & Epush & Hq').
  rewrite Hn in Epush, Hq'. fold room in Epush, Hq'.
  set (m2 := m1 <| em_req := r' |>). set (posts := if room then [(sem_req, n + 1)] else []).
  assert (region_alone (stored pid base k m2 posts) (if room then n + 1 else n)) as Halone.
  { split; [by apply mapped_stored|]. rewrite deref_stored by done. split; [done|]. split.
    { destruct Hrsp as (Hh & Htl & HL & HF & Hcnt). unfold m2, m1, ring_wf; simpl. rewrite Z.sub_diag. done. }
    unfold posts. destruct room; [rewrite value_posted, value_other by done|rewrite !stored_sem].
    - simpl. rewrite Hq', zlen_app, Hn. done.
    - simpl. rewrite Hq'. done. }
  exists (stored pid base k m2 posts). split; [done|]. intros fuel. unfold proxy_round_trip. rewrite now_silent by lia.
  unfold rsp_drain. rewrite mem_op_silent. fold m. cbn [fst snd].
  change (ch_set_rsp m _) with m1. change (k_store pid k base m1) with (stored pid base k m1 []).
  change (px_sem_rsp (p <| px_next_seq := _ |>)) with (px_sem_rsp p). rewrite Esr.
  rewrite sem_drain_silent by (by rewrite stored_sem).
  unfold req_push. rewrite mem_op_silent, deref_stored by done. rewrite u32_small by (unfold PLC_IPC_MAX_FRAME_BYTES in *; lia).
  unfold plc_spsc_push. change (ch_req m1) with (em_req m). rewrite Epush. cbn [fst snd].
  rewrite k_store_stored. change (ch_set_req m1 (default (em_req m) (Some r'))) with m2.
  change (px_sem_req (p <| px_next_seq := _ |>)) with (px_sem_req p). rewrite Esq. unfold posts. destruct room eqn:Er; [|done].
  change (is_ok PLC_OK) with true. cbn [negb]. cbv iota. rewrite sem_post_stored by (rewrite V1; unfold room, PLC_IPC_RING_SLOTS, SEM_VALUE_MAX in *; pose proof (zlen_nonneg (queue (em_req m))); lia).
  rewrite V1. cbn [wait_loop]. rewrite now_silent by lia. rewrite Z.sub_diag. change (u64 0) with 0. cbv zeta.
  change (px_caps (p <| px_next_seq := _ |>)) with (px_caps p). change (px_sem_rsp (p <| px_next_seq := _ |>)) with (px_sem_rsp p).
  destruct (Z.geb_spec 0 (cap_exchange_timeout_us (px_caps p))); [lia|]. rewrite Z.sub_0_r, u32_small, Esr by lia.
  rewrite wait_silent by (lia || rewrite value_other by done; lia). rewrite value_other, V2 by done. done.
Qed.

Lemma fail_alone p i k t :
  px_ready base sem_req sem_rsp p -> zlen i <= cap_input_bytes (px_caps p) -> 0 <= t < 2 ^ 62 ->
  let caps := px_caps p in
  exists p', proxy_fail p (Some i) (zlen i) PLC_ERR_TIMEOUT (World k t []) =
    (PLC_ERR_TIMEOUT, p', Some (failsafe_image (cap_failsafe_policy caps) (cap_failsafe_timeout_us caps)
                                  (age_at (since_of p) (t / 1000)) (px_last_good p) (zlen i)), World k t []) /\
    px_ready base sem_req sem_rsp p' /\ px_caps p' = caps /\ px_last_good p' = px_last_good p /\ since_of p' = since_of p.
Proof.
  intros (P1 & P2 & P3 & Hsz & P5 & P6) Hi Ht caps. subst caps. pose proof Hsz as (Hci & _ & _ & Hlg & _). pose proof (zlen_nonneg i).
  assert (forall l, plc_staleness_age_us (Some (px_stale p)) l (World k t [])
    = (age_at (if stl_have_good (px_stale p) then stl_last_good_us (px_stale p) else l) (t / 1000), World k t [])) as Ha.
  { intros l. unfold plc_staleness_age_us. by rewrite now_silent. }
  unfold proxy_fail. cbv zeta. change (px_stale (p <| px_stats := _ |>)) with (px_stale p).
  change (px_opened_us (p <| px_stats := _ |>)) with (px_opened_us p). rewrite Ha. fold (since_of p).
  set (age := age_at _ _). unfold failsafe_image. rewrite Z.geb_leb. simpl.
  destruct (cap_failsafe_timeout_us (px_caps p) <=? age).
  - destruct (bool_decide _); simpl; rewrite (apply_failsafe_image _ i) by (done || lia);
      (eexists; split; [reflexivity|]); (split; [|done]); (do 3 (split; [done|])); done.
  - destruct (bool_decide _); simpl; rewrite (apply_failsafe_image _ i) by (done || lia);
      (eexists; split; [by destruct (cap_failsafe_policy (px_caps p))|]); (split; [|done]); (do 3 (split; [done|])); done.
Qed.

(** An exchange nobody answers. *)
Lemma exchange_alone p k t out i n :
  px_ready base sem_req sem_rsp p -> region_alone k n ->
  zlen out <= cap_output_bytes (px_caps p) -> zlen i <= cap_input_bytes (px_caps p) ->
  0 <= t -> t + cap_exchange_timeout_us (px_caps p) * 1000 < 2 ^ 62 ->
  let caps := px_caps p in
  let t' := if n <? PLC_IPC_RING_SLOTS then t + cap_exchange_timeout_us caps * 1000 else t in
  exists p' k', px_ready base sem_req sem_rsp p' /\ region_alone k' (if n <? PLC_IPC_RING_SLOTS then n + 1 else n) /\
    px_caps p' = caps /\ px_last_good p' = px_last_good p /\ since_of p' = since_of p /\
    forall fuel, proxy_exchange pid (S fuel) p (Some out) (zlen out) (Some i) (zlen i) (World k t []) =
      Some (PLC_ERR_TIMEOUT, p', Some (failsafe_image (cap_failsafe_policy caps) (cap_failsafe_timeout_us caps)
              (age_at (since_of p) (t' / 1000)) (px_last_good p) (zlen i)), World k' t' []).
Proof.
  intros Hp Hk Hout Hin Ht Hmax caps t'. pose proof Hp as (Emap & _ & _ & (_ & Hco & Hto & _) & Hst & _).
  destruct (round_trip_missed p k t out n Hp Hk ltac:(lia) Ht Hmax) as (k' & Hk' & Hrt).
  destruct (fail_alone (p <| px_next_seq := u32 (px_next_seq p + 1) |>) i k' t') as (p' & Ef & Hp' & H2 & H3 & H4);
    [exact Hp|exact Hin|subst t' caps; destruct (n <? _); lia|].
  exists p', k'. do 5 (split; [done|]). intros fuel. unfold proxy_exchange. rewrite Emap, bool_decide_eq_false_2 by done.
  destruct (Z.gtb_spec (zlen out) (cap_output_bytes (px_caps p))); [lia|].
  destruct (Z.gtb_spec (zlen i) (cap_input_bytes (px_caps p))); [lia|]. cbn [orb]. rewrite Hrt. cbv zeta in Hrt. f_equal. exact Ef.
Qed.
End Missed.

(** ** One scan *)

Lemma bytes_failsafe_image policy window age held len : bytes held -> bytes (failsafe_image policy window age held len).
Proof. intros Hh. unfold failsafe_image. destruct policy, (window <=? age); apply bytes_zeros || by apply bytes_bslice. Qed.

Section Alone.
Context {U : Type} (wr : wiring) (getenv : cstr -> option cstr) (table : cfg_table) (fuel : nat).
Implicit Types (rt : plc_runtime U) (p : ipc_proxy).

(** The engine bound to a proxy nobody answers, [n] requests behind. *)
Definition alone (b : plc_io_binding) (since : Z) (held : list Z) (n : Z) rt (m : mem (world eip_shm) ipc_proxy U) : Prop :=
  rt_inv rt /\ Forall (fun g => pou_ok (prog_fn g)) (rt_programs rt) /\ rt_bindings rt = [b] /\ b_adapter b = 0%nat /\
  rc_continue_on_io_fault (rt_cfg rt) = true /\
  exists k t p u, m = core_mem wr getenv table fuel (World k t []) p u /\ 0 <= t /\ b_caps b = px_caps p /\
    bytes (px_last_good p) /\ px_last_good p = held /\ since_of p = since /\
    px_ready (wr_core_base wr) (wr_sem_req wr) (wr_sem_rsp wr) p /\
    region_alone (wr_core_pid wr) (wr_core_base wr) (wr_sem_req wr) (wr_sem_rsp wr) k n.

(** A link that was ready is one with nothing outstanding. *)
Lemma linked_alone b rt w p u :
  linked wr getenv table fuel b rt (core_mem wr getenv table fuel w p u) -> rc_continue_on_io_fault (rt_cfg rt) = true ->
  alone b (since_of p) (px_last_good p) 0 rt (core_mem wr getenv table fuel w p u).
Proof.
  intros (H1 & H2 & H3 & H4 & k & t & p0 & u0 & E & Ht & Hc & Hb & (_ & Hmap & R1 & R2 & R3 & R4 & R5 & R6) & Hp) Hgo.
  injection E as -> -> ->. do 5 (split; [done|]). exists k, t, p0, u0. do 7 (split; [done|]).
  split; [done|]. split; [done|]. split; [done|]. split; [exact (f_equal zlen R3)|done].
Qed.

Lemma binding_alone rt b p k t u n :
  rt_inv rt -> binding_ok rt b -> b_adapter b = 0%nat -> b_caps b = px_caps p ->
  px_ready (wr_core_base wr) (wr_sem_req wr) (wr_sem_rsp wr) p ->
  region_alone (wr_core_pid wr) (wr_core_base wr) (wr_sem_req wr) (wr_sem_rsp wr) k n ->
  0 <= t -> t + cap_exchange_timeout_us (b_caps b) * 1000 < 2 ^ 62 ->
  let caps := b_caps b in
  let t1 := if n <? PLC_IPC_RING_SLOTS then t + cap_exchange_timeout_us caps * 1000 else t in
  let inputs := failsafe_image (cap_failsafe_policy caps) (cap_failsafe_timeout_us caps) (age_at (since_of p) (t1 / 1000))
                  (px_last_good p) (cap_input_bytes caps) in
  exists p' k', px_ready (wr_core_base wr) (wr_sem_req wr) (wr_sem_rsp wr) p' /\
    region_alone (wr_core_pid wr) (wr_core_base wr) (wr_sem_req wr) (wr_sem_rsp wr) k' (if n <? PLC_IPC_RING_SLOTS then n + 1 else n) /\
    px_caps p' = caps /\ px_last_good p' = px_last_good p /\ since_of p' = since_of p /\
    forall rt0, rt_inv rt0 -> rt_pi rt0 = rt_pi rt -> rt_q_shadow rt0 = rt_q_shadow rt ->
    exchange_binding rt0 (PLC_AREA_I, 0) b (core_mem wr getenv table fuel (World k t []) p u)
      = Some (PLC_ERR_TIMEOUT, rt0 <| rt_pi := store_n (rt_pi rt) (PLC_AREA_I, b_i_offset b) 0 inputs |>,
              core_mem wr getenv table fuel (World k' t1 []) p' u).
Proof.
  intros Hrt Hb H0 Hc Hp Hk Ht Hmax caps t1 inputs. pose proof Hp as (_ & _ & _ & (Hci & Hco & _) & _).
  set (out := bslice (b_q_offset b) (cap_output_bytes (b_caps b)) (rt_q_shadow rt)).
  set (before := bslice (b_i_offset b) (cap_input_bytes (b_caps b)) (view (rt_pi rt) PLC_AREA_I)).
  assert (zlen out = cap_output_bytes (b_caps b) /\ zlen before = cap_input_bytes (b_caps b)) as [Hol Hbl].
  { destruct (binding_exchanges wr getenv table fuel rt b p u (World k t []) (World k t []) PLC_OK p [] Hrt Hb H0) as (? & ? & _); [rewrite Hc; lia|done]. }
  destruct (exchange_alone (wr_core_pid wr) (wr_core_base wr) (wr_sem_req wr) (wr_sem_rsp wr) p k t out before n Hp Hk)
    as (p' & k' & Hp' & Hk' & Hc' & Hg' & Hs' & Hx); [by rewrite Hol, Hc|by rewrite Hbl, Hc|done|by rewrite <- Hc|].
  exists p', k'. split; [done|]. split; [done|]. split; [by rewrite Hc', <- Hc|]. do 2 (split; [done|]). intros rt0 Hrt0 Epi Eq.
  assert (binding_ok rt0 b) as Hb0 by (unfold binding_ok in *; by rewrite Epi).
  rewrite <- Epi. apply binding_exchanges; [done|done|done|rewrite Hc; lia|]. rewrite Epi, Eq. fold out before.
  rewrite Hx, Hbl. unfold inputs, t1, caps. by rewrite Hc.
Qed.

(** One scan of the system is one scan of the specification. *)
Lemma lone_scan_fails_safe b since held n rt m dt :
  alone b since held n rt m -> 0 <= dt -> w_ns (mm_world m) + dt + cap_exchange_timeout_us (b_caps b) * 1000 < 2 ^ 62 ->
  let o := outage_scan b (rt_programs rt) since held (Outage (plant_of rt m) n) dt in
  exists rt' m', lone_scan dt rt m = Some (PLC_ERR_TIMEOUT, Some rt', m') /\
    alone b since held (ou_queued o) rt' m' /\ rt_programs rt' = rt_programs rt /\ plant_of rt' m' = ou_plant o.
Proof.
  intros (Hrt & Hps & Hbs & H0 & Hgo & k & t & p & u & -> & Ht0 & Hc & Hby & <- & <- & Hp & Hk) Hdt Hmax.
  cbn [core_mem mm_world w_ns] in Hmax.
  pose proof Hrt as (_ & _ & _ & _ & _ & _ & HF & _). rewrite Hbs in HF. pose proof (List.Forall_inv HF) as Hb.
  pose proof Hp as (_ & _ & _ & (Hci & _ & Hto & Hlg & _) & _ & Hpos).
  destruct (binding_alone rt b p k (t + dt) u n Hrt Hb H0 Hc Hp Hk ltac:(lia) Hmax)
    as (p' & k' & Hp' & Hk' & Hc' & Hg' & Hs' & Hx). cbv zeta in Hx.
  set (t1 := if n <? PLC_IPC_RING_SLOTS then _ else t + dt) in Hx. set (inputs := failsafe_image _ _ _ _ _) in Hx.
  assert (0 <= t1 < 2 ^ 62) as Ht1 by (subst t1; rewrite Hc in *; destruct (n <? _); lia).
  assert (bytes inputs) as Hib by (by apply bytes_failsafe_image).
  assert (zlen inputs = cap_input_bytes (b_caps b)) as Hiz by (apply zlen_failsafe_image; rewrite ?Hc; lia).
  pose proof (scan_through wr getenv table fuel rt b p u k t dt [] PLC_ERR_TIMEOUT inputs k' t1 p' Hrt Hps Hbs Ht0 Hdt ltac:(rewrite Hc in *; lia)
    Ht1 Hgo Hib Hiz Hx) as Hs. cbv zeta in Hs.
  unfold outage_scan. cbv zeta. unfold plant_of. cbn [core_mem mm_user mm_world w_ns mp_now mp_latched mp_pi mp_user mp_first mp_last mp_scan ou_plant ou_queued].
  fold t1 inputs. destruct (run_programs _ _ _ _) as [u' pi']. destruct Hs as (rt' & E & Hrt' & Ep & Eb & Ec & Epl).
  exists rt', (core_mem wr getenv table fuel (World k' t1 []) p' u'). split; [exact E|]. split; [|done].
  split; [done|]. rewrite Ep, Eb, Ec. do 4 (split; [done|]). exists k', t1, p', u'. split; [done|]. split; [lia|].
  rewrite Hg', Hs'. done.
Qed.

Lemma lone_scans_fail_safe b since held dts n rt m :
  alone b since held n rt m -> Forall (fun dt => 0 <= dt) dts ->
  w_ns (mm_world m) + foldr Z.add 0 dts + Z.of_nat (length dts) * (cap_exchange_timeout_us (b_caps b) * 1000) < 2 ^ 62 ->
  let o := foldl (outage_scan b (rt_programs rt) since held) (Outage (plant_of rt m) n) dts in
  exists rt' m', lone_scans dts rt m = Some (replicate (length dts) PLC_ERR_TIMEOUT, rt', m') /\
    alone b since held (ou_queued o) rt' m' /\ plant_of rt' m' = ou_plant o.
Proof.
  intros Ha Hdts. revert n rt m Ha. induction Hdts as [|dt dts Hdt Hdts IH]; intros n rt m Ha Ht; [by exists rt, m|].
  assert (0 <= foldr Z.add 0 dts) by (clear -Hdts; induction Hdts; simpl; lia).
  assert (0 < cap_exchange_timeout_us (b_caps b)) by (destruct Ha as (_ & _ & _ & _ & _ & ? & ? & p & ? & _ & _ & -> & Ha); apply Ha).
  cbn [foldr length foldl] in *. rewrite Nat2Z.inj_succ in Ht.
  destruct (lone_scan_fails_safe b since held n rt m dt Ha Hdt ltac:(nia)) as (rt1 & m1 & E & Ha1 & Ep & Epl). cbv zeta in *.
  set (o1 := outage_scan b (rt_programs rt) since held _ dt) in *.
  destruct (IH (ou_queued o1) rt1 m1 Ha1) as (rt' & m' & E' & Ha' & Epl').
  { change (w_ns (mm_world m1)) with (mp_now (plant_of rt1 m1)). rewrite Epl. unfold o1, outage_scan. cbv zeta.
    destruct (run_programs _ _ _ _). cbn [mp_now plant_of ou_plant ou_queued]. destruct (n <? _); nia. }
  rewrite Ep, Epl in Ha', Epl'. replace (Outage (ou_plant o1) (ou_queued o1)) with o1 in Ha', Epl' by (by destruct o1).
  exists rt', m'. cbn [lone_scans]. by rewrite E, E'.
Qed.
End Alone.

(** ** Scan after scan *)

(** [C4] The core survives the loss of its adapter process.  From any state in which
    the link was ready, let nobody answer any more: however many scans follow, at
    whatever times, each of them returns [PLC_ERR_TIMEOUT], none of them blocks
    longer than the exchange's budget, and the engine goes on running its programs
    (it was configured to, [continue_on_io_fault]).  The process image, the
    programs' memory, the latched outputs, the clock and the scan counter are the
    ones of [outage_scan]: the inputs are the last good image, byte for byte,
    until the failsafe window ends, and then what the policy says; the ring takes
    one request a scan until it is full, after which a scan waits no more. *)
Theorem core_survives_outage {U : Type} (wr : wiring) (getenv : cstr -> option cstr) (table : cfg_table) (fuel : nat)
    (b : plc_io_binding) (rt : plc_runtime U) (w : world eip_shm) (p : ipc_proxy) (u : U) (dts : list Z)
    (Hlinked : linked wr getenv table fuel b rt (core_mem wr getenv table fuel w p u))
    (Hgo : rc_continue_on_io_fault (rt_cfg rt) = true)
    (Hdts : Forall (fun dt => 0 <= dt) dts)
    (Htime : w_ns w + foldr Z.add 0 dts + Z.of_nat (length dts) * (cap_exchange_timeout_us (b_caps b) * 1000) < 2 ^ 62) :
  let m := core_mem wr getenv table fuel w p u in
  exists rt' m',
    lone_scans dts rt m = Some (replicate (length dts) PLC_ERR_TIMEOUT, rt', m') /\ rt_inv rt' /\
    plant_of rt' m' = ou_plant (foldl (outage_scan b (rt_programs rt) (since_of p) (px_last_good p)) (Outage (plant_of rt m) 0) dts).
Proof.
  intros m. destruct (lone_scans_fail_safe wr getenv table fuel b (since_of p) (px_last_good p) dts 0 rt m)
    as (rt' & m' & E & Ha & Epl); [by apply linked_alone|done|done|].
  exists rt', m'. split; [exact E|]. split; [apply Ha|exact Epl].
Qed.

(** Four scans wait their budget of 5 ms, the ring of four being full after them;
    70 scans of 1 ms are inside the window of 100 ms, and 90 are past it: the
    counting program then counts from zero, not from the nine it was last given. *)
Lemma core_survives_outage_witness :
  (exists rt' m', lone_scans (replicate 70 1000000) link_rt link_mem = Some (replicate 70 PLC_ERR_TIMEOUT, rt', m') /\
    mp_now (plant_of rt' m') = 90005000 /\ mp_latched (plant_of rt' m') = [10; 0; 0; 0; 0; 0; 0; 0]) /\
  (exists rt' m', lone_scans (replicate 90 1000000) link_rt link_mem = Some (replicate 90 PLC_ERR_TIMEOUT, rt', m') /\
    mp_now (plant_of rt' m') = 110005000 /\ mp_latched (plant_of rt' m') = [1; 0; 0; 0; 0; 0; 0; 0]).
Proof.
  pose proof (core_survives_outage link_wiring (fun _ => None) (Table [] []) 0 link_binding link_rt
    (World link_kernel 5000 []) eip_example tt) as H.
  split; [destruct (H (replicate 70 1000000)) as (rt' & m' & E & _ & Epl)|destruct (H (replicate 90 1000000)) as (rt' & m' & E & _ & Epl)];
    try exact link_rt_linked; try reflexivity; try (apply Forall_replicate; lia);
    (exists rt', m'; split; [exact E|]; rewrite Epl; split; vm_compute; reflexivity).
Defined.
