(* ===== verification/Startup.v ===== *)
(** * From cold start to a running link

    What precedes the state [CoreLink] starts from: the core creates the
    EtherNet/IP adapter, opens it and binds it to the engine; the adapter
    process attaches to the region and the doorbells and enters its service
    loop.  The theorem is that the two really meet: the names, the layout
    checks, the order in which the core publishes and the configuration handed
    to the backend fit together, so that the state reached is the one from
    which every scan goes through. *)

From Stdlib Require Import ZArith Lia.
From stdpp Require Import base gmap list strings tactics.
From S2P Require Import Prelude PlcTypes ProcessImage SpscRing Adapter Runtime Registry Config Shm IpcProxy EipProxy EipService IpcLink EipLink RuntimeProps CoreLink.

(** [plc_eip_adapter_factory]. *)
Definition plc_eip_adapter_factory (pid : Z) (getenv : cstr -> option cstr) (table : cfg_table) (fuel : nat)
    : plc_adapter_factory (world eip_shm) (plc_protocol_adapter (world eip_shm) ipc_proxy) :=
  Factory (Some "ethernet-ip") "EtherNet/IP adapter (OpENer) in a separate process"
    (Some (eip_create pid getenv table fuel)) (Some (fun a w => eip_destroy pid (Some a) w)).

(** ** Attaching *)

(** The kernel after [pid] has attached to inode [i]. *)
Definition attached_to {M} (pid i : Z) (k : kernel M) : kernel M :=
  Kernel (k_names k) (k_inodes k) (<[(pid, k_next k) := i]> (k_fds k)) (<[(pid, k_next k + 1) := i]> (k_maps k))
         (k_semnames k) (k_sems k) (k_next k + 1 + 1).

Lemma shm_attach_silent {M} `{Region M} pid h name size i o (k : kernel M) t :
  0 <= k_next k -> 0 < size -> size <= ino_size o -> k_names k !! name = Some i -> k_inodes k !! i = Some o ->
  exists shm, shm_base shm = Some (k_next k + 1) /\
    plc_shm_attach pid (Some h) (Some name) size (World k t []) = (PLC_OK, Some shm, World (attached_to pid i k) t []).
Proof.
  intros Hn Hs Ho En Ei. unfold plc_shm_attach. destruct (Z.eqb_spec size 0); [lia|].
  unfold shm_open, pause. cbn. rewrite En. simpl. destruct (Z.ltb_spec (k_next k) 0); [lia|].
  unfold fstat, pause, fd_inode; simpl. rewrite lookup_insert_eq, Ei. simpl. destruct (Z.ltb_spec (ino_size o) size); [lia|].
  unfold mmap, pause; simpl. rewrite lookup_insert_eq. simpl. eexists. split; [|done]. done.
Qed.

Lemma sem_attach_silent {M} `{Region M} name s (k : kernel M) t :
  k_semnames k !! name = Some s -> plc_sem_attach (Some name) (World k t []) = (PLC_OK, Some s, World k t []).
Proof. intros E. unfold plc_sem_attach, sem_open, pause. cbn. by rewrite E. Qed.

(** The adapter process gets from [main] to its service loop. *)
Lemma main_reaches_service {B} (backend : eip_backend B) pid getenv table instance iface ino m lock req rsp b b' (k : kernel eip_shm) t :
  0 <= k_next k -> 0 <= t < 2 ^ 62 ->
  k_names k !! eip_shm_name EIP_SHM_NAME_MAX (Some instance) = Some ino ->
  k_inodes k !! ino = Some (Inode sizeof_eip_shm m lock) ->
  em_magic m = EIP_SHM_MAGIC -> em_abi_version m = EIP_SHM_ABI_VERSION -> em_layout_bytes m = sizeof_eip_shm ->
  k_semnames k !! eip_sem_req_name EIP_SHM_NAME_MAX (Some instance) = Some req ->
  k_semnames k !! eip_sem_rsp_name EIP_SHM_NAME_MAX (Some instance) = Some rsp ->
  be_init backend (Some (backend_config getenv table iface m)) b = (PLC_OK, b') ->
  let base := k_next k + 1 in
  exists shm m', em_req m' = em_req m /\ em_rsp m' = em_rsp m /\
    es_adapter_state (em_status m') = plc_adapter_state_code PLC_ADAPTER_ONLINE /\
    forall stops serve_stops frame reply,
      eip_main backend pid getenv table (false :: stops) serve_stops instance iface frame reply b (World k t [])
        = eip_serve backend pid serve_stops instance shm base (Some req) (Some rsp)
            (plc_cfg_u32 getenv table (Some (txt "SOFTPLC_EIP_CORE_TIMEOUT_US")) CORE_TIMEOUT_US)
            (Service frame reply (t / 1000) b') (World (stored pid base (attached_to pid ino k) m' []) t []).
Proof.
  intros Hn Ht En Ei Hma Hab Hla Hq Hr Hinit base.
  destruct (shm_attach_silent pid (shm_zero <| shm_fd := -1 |>) (eip_shm_name EIP_SHM_NAME_MAX (Some instance)) sizeof_eip_shm ino
    (Inode sizeof_eip_shm m lock) k t) as (shm & Hbase & Eatt); try done.
  set (k2 := attached_to pid ino k) in *.
  assert (mapped_inode k2 pid base = Some (Inode sizeof_eip_shm m lock)) as Hmap.
  { unfold mapped_inode, k2. simpl. by rewrite lookup_insert_eq. }
  pose proof (deref_mapped _ _ _ _ Hmap) as Hd. simpl in Hd. assert (is_Some (mapped_inode k2 pid base)) as Hs by eauto.
  set (state st (x : eip_shm) := x <| em_status := em_status x <| es_adapter_state := plc_adapter_state_code st |> |>).
  exists shm, (state PLC_ADAPTER_ONLINE (state PLC_ADAPTER_OPENING m)). do 3 (split; [done|]). intros stops serve_stops frame reply.
  unfold eip_main. cbn [attach]. rewrite Eatt. change (default (shm_zero <| shm_fd := -1 |>) (Some shm)) with shm.
  change (is_ok PLC_OK) with true. cbv iota. rewrite Hbase. change (default 0 (Some (k_next k + 1))) with base.
  rewrite check_region_silent by done. rewrite Hd, Hma, Hab, Hla. change (EIP_SHM_MAGIC =? 0) with false. rewrite !Z.eqb_refl. cbn [andb negb]. cbv iota.
  change (is_ok PLC_OK) with true. cbn [negb]. cbv iota.
  rewrite (sem_attach_silent _ req) by done. change (is_ok PLC_OK) with true. cbv iota.
  rewrite (sem_attach_silent _ rsp) by done. change (is_ok PLC_OK) with true. cbn [negb]. cbv iota.
  change (default 0 (Some base)) with base. rewrite peek_silent, Hd, Hinit by done. change (is_ok PLC_OK) with true. cbn [negb]. cbv iota.
  assert (set_adapter_state pid base PLC_ADAPTER_OPENING (World k2 t []) = World (stored pid base k2 (state PLC_ADAPTER_OPENING m) []) t []) as ->.
  { unfold set_adapter_state, status_op. rewrite mem_op_silent, Hd. done. }
  unfold set_adapter_state. rewrite status_op_stored, now_silent by done. done.
Qed.

(** ** The two processes meet *)

Section Startup.
Context {U : Type} (core_pid svc_pid : Z) (getenv : cstr -> option cstr) (table : cfg_table) (fuel : nat).
Implicit Types (rt : plc_runtime U) (cfg : plc_adapter_config) (k : kernel eip_shm).

(** The sizes and the time the adapter is configured for. *)
Definition start_input cfg : Z := cfg_or getenv table (cfg_input_bytes cfg) "SOFTPLC_EIP_INPUT_BYTES" EIP_DEFAULT_INPUT_BYTES.
Definition start_output cfg : Z := cfg_or getenv table (cfg_output_bytes cfg) "SOFTPLC_EIP_OUTPUT_BYTES" EIP_DEFAULT_OUTPUT_BYTES.
Definition start_timeout cfg : Z :=
  cfg_or getenv table (cfg_exchange_timeout_us cfg) "SOFTPLC_EIP_EXCHANGE_TIMEOUT_US" EIP_DEFAULT_EXCHANGE_TIMEOUT_US.
Definition start_instance cfg : string := snprintf_s EIP_INSTANCE_MAX (proxy_instance cfg).

(** A configuration a frame can carry. *)
Definition cfg_fits cfg : Prop :=
  0 <= start_input cfg <= PLC_IPC_MAX_FRAME_BYTES /\ 0 <= start_output cfg <= PLC_IPC_MAX_FRAME_BYTES /\
  0 <= cfg_exchange_timeout_us cfg < 2 ^ 32 /\ 0 < start_timeout cfg.

(** Nobody owns the instance; a region left behind by a crash may be there. *)
Definition instance_free cfg k : Prop :=
  kernel_fresh k /\ region_owned k (eip_shm_name EIP_SHM_NAME_MAX (Some (start_instance cfg))) = false /\
  (forall i, k_names k !! eip_shm_name EIP_SHM_NAME_MAX (Some (start_instance cfg)) = Some i -> is_Some (k_inodes k !! i)).

(** An engine without adapters, whose image has room for the two slices. *)
Definition engine_free cfg rt (i_offset q_offset : Z) : Prop :=
  rt_inv rt /\ Forall (fun g => pou_ok (prog_fn g)) (rt_programs rt) /\ rt_bindings rt = [] /\
  0 <= i_offset /\ i_offset + start_input cfg <= size_of (rt_pi rt) PLC_AREA_I /\
  0 <= q_offset /\ q_offset + start_output cfg <= size_of (rt_pi rt) PLC_AREA_Q.

(** Binding the opened proxy. *)
Lemma bind_links wr rt cfg i_offset q_offset p k t u :
  engine_free cfg rt i_offset q_offset -> 0 <= start_input cfg -> 0 <= start_output cfg ->
  cap_abi_version (px_caps p) = PLC_ADAPTER_ABI_VERSION ->
  cap_input_bytes (px_caps p) = start_input cfg -> cap_output_bytes (px_caps p) = start_output cfg -> 0 <= t -> bytes (px_last_good p) ->
  link_ready (wr_core_pid wr) (wr_core_base wr) (wr_svc_pid wr) (wr_svc_base wr) (wr_sem_req wr) (wr_sem_rsp wr) k p ->
  let m := core_mem wr getenv table fuel (World k t []) p u in
  exists rt', plc_runtime_bind_adapter (Some rt) (Some 0%nat) i_offset q_offset m = (PLC_OK, Some rt') /\
    linked wr getenv table fuel (Binding 0 i_offset q_offset (px_caps p)) rt' m.
Proof.
  intros (Hrt & Hps & Hb & Hi0 & Hi & Hq0 & Hq) H1 H2 Hv Hci Hco Ht Hby Hl m. set (b := Binding 0 i_offset q_offset (px_caps p)).
  exists (rt <| rt_bindings := [b] |>). unfold plc_runtime_bind_adapter. rewrite Hb. change (zlen [] >=? PLC_MAX_BINDINGS) with false. cbv iota.
  cbn [m core_mem mm_adapters lookup list_lookup plc_adapter_get_caps Adapter.entry ad_vtbl kEipVtbl vt_get_caps ad_impl proxy_caps].
  change (default caps_zero (Some (px_caps p))) with (px_caps p). change (is_ok PLC_OK) with true. rewrite Hv, Hci, Hco, Z.eqb_refl. cbn [negb]. cbv iota.
  unfold plc_pi_area_size. rewrite !(area_ok_wf _ _ (proj1 Hrt)). cbn -[size_of].
  destruct (Z.gtb_spec i_offset (size_of (rt_pi rt) PLC_AREA_I)); [lia|].
  destruct (Z.gtb_spec (start_input cfg) (size_of (rt_pi rt) PLC_AREA_I - i_offset)); [lia|].
  destruct (Z.gtb_spec q_offset (size_of (rt_pi rt) PLC_AREA_Q)); [lia|].
  destruct (Z.gtb_spec (start_output cfg) (size_of (rt_pi rt) PLC_AREA_Q - q_offset)); [lia|]. cbn [orb app].
  split; [done|]. destruct Hrt as (R1 & R2 & R3 & R4 & R5 & R6 & R7 & R8). split.
  - do 4 (split; [done|]). split; [simpl; vm_compute; congruence|]. split; [done|]. split; [|done].
    constructor; [|constructor]. unfold binding_ok, b; simpl. rewrite Hci, Hco. lia.
  - split; [done|]. do 2 (split; [done|]). exists k, t, p, u. done.
Qed.
End Startup.

Lemma proxy_zero_inv :
  px_inv (proxy_zero <| px_state := PLC_ADAPTER_CLOSED |> <| px_shm := px_shm proxy_zero <| shm_fd := -1 |> |>).
Proof.
  do 3 (split; [vm_compute; split; congruence|]). split; [reflexivity|]. split; [apply bytes_zeros|].
  split; [|by intros []]. split; [vm_compute; split; congruence|]. split; [reflexivity|apply bytes_zeros].
Qed.

(** Opened, then attached from the other process: the link is ready. *)
Lemma attached_ready core_pid core_base svc_pid ino m lock m' req rsp p (k : kernel eip_shm) :
  core_pid <> svc_pid -> k_maps k !! (core_pid, core_base) = Some ino ->
  mapped_inode k core_pid core_base = Some (Inode sizeof_eip_shm m lock) ->
  em_req m' = ring_zero -> em_rsp m' = ring_zero -> req <> rsp -> sem_value k req = 0 -> sem_value k rsp = 0 ->
  px_map p = Some core_base -> px_sem_req p = Some req -> px_sem_rsp p = Some rsp -> px_inv p ->
  px_state p <> PLC_ADAPTER_CLOSED -> 0 < cap_exchange_timeout_us (px_caps p) ->
  let base := k_next k + 1 in
  link_ready core_pid core_base svc_pid base req rsp (stored svc_pid base (attached_to svc_pid ino k) m' []) p.
Proof.
  intros Hne Hm Hi Eq Er Hs V1 V2 P1 P2 P3 Hinv Hst Hto base. set (k2 := attached_to svc_pid ino k).
  assert (k_maps k2 !! (core_pid, core_base) = Some ino /\ k_maps k2 !! (svc_pid, base) = Some ino) as [M1 M2].
  { unfold k2; simpl. rewrite lookup_insert_ne by congruence. rewrite lookup_insert_eq. done. }
  assert (is_Some (mapped_inode k2 svc_pid base)) as Hs2.
  { unfold mapped_inode in Hi |- *. rewrite Hm in Hi. rewrite M2. unfold k2; simpl. by rewrite Hi. }
  assert (deref core_pid (stored svc_pid base k2 m' []) core_base = m') as Hd by (apply deref_peer; eauto).
  split; [|split; [done|split; [done|split; [done|split; [by apply px_inv_sized|done]]]]].
  split; [exists ino; by rewrite maps_stored|]. split.
  { apply (mapped_peer svc_pid base); [exists ino; by rewrite maps_stored|by apply mapped_stored]. }
  rewrite Hd. cbn [ch_req ch_rsp eip_channel]. rewrite Eq, Er. do 2 (split; [exact ring_zero_wf|]).
  split; [vm_compute; reflexivity|]. split; [done|]. rewrite !stored_sem. done.
Qed.

(** [C5] A cold start reaches the running link.  The instance is free (a region
    a crashed core left behind does not count), the configured sizes fit a frame
    and the engine's image has room for them.  Then the factory's adapter opens;
    the adapter process, started for that instance with the mirror backend, goes
    from [main] into its service loop with buffers and a backend in order and the
    assembly size the core configured; binding the adapter to the engine returns
    [PLC_OK]; and the state reached is the one from which every scan goes
    through. *)
Theorem startup_reaches_link {U : Type} (core_pid svc_pid : Z) (getenv : cstr -> option cstr) (table : cfg_table) (fuel : nat)
    (cfg : plc_adapter_config) (k : kernel eip_shm) (t : Z) (rt : plc_runtime U) (u : U) (i_offset q_offset : Z)
    (iface : string) (frame : plc_ipc_frame) (reply : list Z) (b0 : loopback_state)
    (Hpids : core_pid <> svc_pid) (Hcfg : cfg_fits getenv table cfg) (Hfree : instance_free cfg k)
    (Hrt : engine_free getenv table cfg rt i_offset q_offset) (Ht : 0 <= t < 2 ^ 62)
    (Hframe : zlen (fr_data frame) = PLC_IPC_MAX_FRAME_BYTES) (Hreply : zlen reply = PLC_IPC_MAX_FRAME_BYTES) :
  let factory := plc_eip_adapter_factory core_pid getenv table (S (S fuel)) in
  let mirror := kLoopbackBackend getenv table in
  let instance := start_instance cfg in
  exists a a' k1 shm wr s k2 rt' b,
    match fa_create factory with Some create => create true true | None => None end = Some a /\
    plc_adapter_open (Some a) (Some cfg) (World k t []) = (PLC_OK, Some a', World k1 t []) /\
    (forall stops serve_stops,
       eip_main mirror svc_pid getenv table (false :: stops) serve_stops instance iface frame reply b0 (World k1 t [])
         = eip_serve mirror svc_pid serve_stops instance shm (wr_svc_base wr) (Some (wr_sem_req wr)) (Some (wr_sem_rsp wr))
             (wr_core_timeout_us wr) s (World k2 t [])) /\
    service_wf mirror s /\ g_input_bytes (sv_backend s) = start_input getenv table cfg /\
    plc_runtime_bind_adapter (Some rt) (Some 0%nat) i_offset q_offset (Mem (World k2 t []) [a'] u) = (PLC_OK, Some rt') /\
    linked wr getenv table fuel b rt' (Mem (World k2 t []) [a'] u).
Proof.
  destruct Hcfg as (Hin & Hout & Htmo & Hpos), Hfree as (Hfresh & Hown & Hnames). cbv zeta.
  set (p0 := proxy_zero <| px_state := PLC_ADAPTER_CLOSED |> <| px_shm := px_shm proxy_zero <| shm_fd := -1 |> |>).
  destruct (open_silent core_pid getenv table p0 cfg k t) as (p' & k1 & ino & base & req & rsp & Eopen & Hinv & Hst & _ & Hver &
    Hci & Hco & Hto & P1 & P2 & P3 & En & Em & Hnext & [lock Hmap] & Sq & Sr & Hne & V1 & V2); try done.
  { exact proxy_zero_inv. }
  set (m := publish getenv table _ _ eip_shm_zero <| em_magic := EIP_SHM_MAGIC |>) in Hmap.
  destruct (main_reaches_service (kLoopbackBackend getenv table) svc_pid getenv table (start_instance cfg) iface ino m lock req rsp b0
    (lb_init (Some (backend_config getenv table iface m)) b0).2 k1 t) as (shm & m' & Hm1 & Hm2 & _ & Emain); try done.
  { unfold mapped_inode in Hmap. by rewrite Em in Hmap. }
  set (wr := Wiring core_pid base svc_pid (k_next k1 + 1) req rsp
    (plc_cfg_u32 getenv table (Some (txt "SOFTPLC_EIP_CORE_TIMEOUT_US")) CORE_TIMEOUT_US)).
  pose proof (attached_ready core_pid base svc_pid ino m lock m' req rsp p' k1 Hpids Em Hmap Hm1 Hm2 Hne V1 V2 P1 P2 P3 Hinv
    ltac:(by rewrite Hst) ltac:(by rewrite Hto)) as Hready. cbv zeta in Hready.
  set (k2 := stored _ _ _ _ _) in *.
  destruct (bind_links getenv table fuel wr rt cfg i_offset q_offset p' k2 t u Hrt ltac:(lia) ltac:(lia) Hver Hci Hco ltac:(lia) ltac:(apply Hinv) Hready)
    as (rt' & Ebind & Hlinked). cbv zeta in Ebind, Hlinked.
  set (v := kEipVtbl core_pid getenv table (S (S fuel))).
  eexists (Adapter (Some v) p0), (Adapter (Some v) p'), k1, shm, wr, _, k2, rt', _. split; [done|]. split; [|split; [intros stops serve_stops; exact (Emain stops serve_stops frame reply)|split; [|split; [done|split; [exact Ebind|exact Hlinked]]]]].
  - unfold plc_adapter_open, Adapter.entry. cbn [v ad_vtbl kEipVtbl vt_open ad_impl]. by rewrite Eopen.
  - do 2 (split; [done|]). split; [done|]. split; [simpl; lia|]. simpl. exact (proj1 Hin).
Qed.

(** An engine with the counting program, and an adapter of four bytes each way. *)
Definition start_cfg : plc_adapter_config := Config (Some "eip0"%string) (Some "line1"%string) 4 4 PLC_FAILSAFE_HOLD 0 0.
Definition start_rt : plc_runtime unit := ex_rt0 <| rt_programs := [Program "count" count_pou 0] |>.

Lemma start_engine_free : engine_free (fun _ => None) (Table [] []) start_cfg start_rt 0 0.
Proof.
  split; [|split; [constructor; [exact count_pou_ok|constructor]|split; [reflexivity|vm_compute; repeat split; congruence]]].
  destruct ex_rt_inv as (H1 & H2 & H3 & H4 & _). do 4 (split; [assumption|]). do 2 (split; [vm_compute; congruence|]).
  split; [constructor|vm_compute; split; congruence].
Qed.

Lemma startup_reaches_link_witness :
  exists a' k1 wr k2 rt' b,
    plc_adapter_open (eip_create 1 (fun _ => None) (Table [] []) 2 true true) (Some start_cfg) (World kernel_empty 5000 [])
      = (PLC_OK, Some a', World k1 5000 []) /\
    plc_runtime_bind_adapter (Some start_rt) (Some 0%nat) 0 0 (Mem (World k2 5000 []) [a'] tt) = (PLC_OK, Some rt') /\
    linked wr (fun _ => None) (Table [] []) 0 b rt' (Mem (World k2 5000 []) [a'] tt).
Proof.
  destruct (startup_reaches_link 1 2 (fun _ => None) (Table [] []) 0 start_cfg kernel_empty 5000 start_rt tt 0 0 "eth0"%string
              frame_zero (zeros PLC_IPC_MAX_FRAME_BYTES) (sv_backend service_example))
    as (a & a' & k1 & shm & wr & s & k2 & rt' & b & Ha & Ho & _ & _ & _ & Hb & Hl).
  - lia.
  - vm_compute. repeat split; congruence.
  - split; [|split; [reflexivity|intros i Hi; simpl in Hi; by rewrite lookup_empty in Hi]].
    split; [vm_compute; congruence|]. do 3 (split; [apply map_Forall_empty|]). apply map_Forall_empty.
  - exact start_engine_free.
  - lia.
  - reflexivity.
  - reflexivity.
  - exists a', k1, wr, k2, rt', b. split; [|split; [exact Hb|exact Hl]]. injection Ha as Ha. rewrite <- Ha in Ho. exact Ho.
Defined.
