(* ===== verification/App.v ===== *)
(** * The PLC core process

    [src/app/softplc_main.c]: the commands, the role and the adapter list, the
    adapters opened and bound back to back, the demo program, the run, and the
    teardown of every path.

    The process image, the runtime, the registry, the configuration and the
    program are those of the other files; adapters are whatever the registered
    factories make.  Lines printed to standard output are a list; the log is left
    out.  [softplc_print_status] is an argument, [Status] models it.

    The theorems: the adapters' slices are laid out back to back in the order of
    the list and never overlap; every adapter that was created is destroyed
    exactly once on every path; a list that is written out is read back; and
    [main] returns when it is given a scan limit. *)

From Stdlib Require Import ZArith Lia Ascii.
From stdpp Require Import base list strings tactics.
From S2P Require Import Prelude PlcTypes StdFb ProcessImage Adapter Loopback Runtime RuntimeProps Demo Registry Config.

Definition MAX_ADAPTERS : Z := PLC_MAX_BINDINGS.
Definition LIST_BYTES : Z := 256.
Definition EXIT_SUCCESS : Z := 0.
Definition EXIT_FAILURE : Z := 1.

Definition str (s : cstr) : string := String.string_of_list_ascii s.

(** [%-ns]: padded with spaces on the right. *)
Definition pad (n : nat) (s : cstr) : cstr := s ++ replicate (n - length s) " "%char.

(** ** The adapter list *)

(** The pieces between separators. *)
Fixpoint split_on (sep : ascii) (s : cstr) : list cstr :=
  match s with
  | [] => [[]]
  | c :: s =>
      if ceq c sep then [] :: split_on sep s
      else match split_on sep s with
           | t :: ts => (c :: t) :: ts
           | [] => [[c]]
           end
  end.

(** What [strtok_r(list, ",")] yields, call by call: the non-empty pieces. *)
Definition strtok (s : cstr) : list cstr := List.filter (fun t => negb (bool_decide (t = []))) (split_on "," s).

(** [while ( *tok == ' ') tok++]. *)
Fixpoint skip_blank (s : cstr) : cstr :=
  match s with c :: s' => if ceq c " " then skip_blank s' else s | [] => [] end.

(** The copy in [list[256]] of the explicit list, or of the role's. *)
Definition adapter_list (explicit_list : option cstr) (role_adapters : cstr) : cstr :=
  take (Z.to_nat (LIST_BYTES - 1)) (default role_adapters explicit_list).

(** [main]'s variables while it opens adapters.  An adapter is named by its
    index in the store; [ap_freed] are those destroyed so far, oldest first. *)
Record app (W A : Type) : Type := App {
  ap_rt : plc_runtime (list demo_state);
  ap_mem : mem W A (list demo_state);
  ap_opened : list (plc_adapter_factory W (plc_protocol_adapter W A) * nat);
  ap_i_offset : Z;
  ap_q_offset : Z;
  ap_freed : list nat;
  ap_out : list cstr
}.
Arguments App {W A}.
Arguments ap_rt {W A}.
Arguments ap_mem {W A}.
Arguments ap_opened {W A}.
Arguments ap_i_offset {W A}.
Arguments ap_q_offset {W A}.
Arguments ap_freed {W A}.
Arguments ap_out {W A}.
#[export] Instance eta_app W A : Eta (app W A) := fun r =>
  App (ap_rt r) (ap_mem r) (ap_opened r) (ap_i_offset r) (ap_q_offset r) (ap_freed r) (ap_out r).

Section App.
Context {W A : Type} `{Clock W, Tasking W}.
Abbreviation factory := (plc_adapter_factory W (plc_protocol_adapter W A)).

Definition list_adapters (g : list factory) : list cstr :=
  txt "available protocol adapters:" ::
  map (fun f => txt "  " ++ pad 14 (txt (default "" (fa_protocol f))) ++ txt " " ++ txt (fa_description f)) g.

(** [factory->destroy(adapter)]. *)
Definition destroy (f : factory) (h : nat) (a : app W A) : app W A :=
  let m := ap_mem a in
  let w := match fa_destroy f, mm_adapters m !! h with
           | Some d, Some o => d o (mm_world m)
           | _, _ => mm_world m
           end in
  a <| ap_mem := m <| mm_world := w |> |> <| ap_freed := ap_freed a ++ [h] |>.

(** The body of the loop, from [plc_adapter_registry_find] on: whether it went
    through, or jumped to [fail].  [alloc] are the answers of the allocations. *)
Definition open_adapter (g : list factory) (instance : cstr) (policy : plc_failsafe_policy)
    (alloc : bool * bool) (tok : cstr) (a : app W A) : bool * app W A :=
  match plc_adapter_registry_find (Some (str tok)) g with
  | None => (false, a <| ap_out := ap_out a ++ list_adapters g |>)
  | Some f =>
      match fa_create f ≫= fun create => create alloc.1 alloc.2 with
      | None => (false, a)
      | Some o =>
          let m := ap_mem a in
          let h := length (mm_adapters m) in
          let ac := default (Config None None 0 0 PLC_FAILSAFE_HOLD 0 0)
                      (plc_adapter_config_init (Some (Config None None 0 0 PLC_FAILSAFE_HOLD 0 0))) in
          let ac := ac <| cfg_name := Some (str tok) |> <| cfg_endpoint := Some (str instance) |>
                       <| cfg_failsafe_policy := policy |> in
          let '(st, o', w) := plc_adapter_open (Some o) (Some ac) (mm_world m) in
          let a := a <| ap_mem := m <| mm_world := w |> <| mm_adapters := mm_adapters m ++ [default o o'] |> |> in
          if negb (is_ok st) then (false, destroy f h a)
          else
            let a := a <| ap_opened := ap_opened a ++ [(f, h)] |> in
            let '(st, rt) := plc_runtime_bind_adapter (Some (ap_rt a)) (Some h) (ap_i_offset a) (ap_q_offset a) (ap_mem a) in
            let a := a <| ap_rt := default (ap_rt a) rt |> in
            if negb (is_ok st) then (false, a)
            else
              let '(_, caps) := plc_adapter_get_caps (mm_adapters (ap_mem a) !! h) (Some caps_zero) in
              let caps := default caps_zero caps in
              (true, a <| ap_i_offset := u64 (ap_i_offset a + cap_input_bytes caps) |>
                       <| ap_q_offset := u64 (ap_q_offset a + cap_output_bytes caps) |>)
      end
  end.

(** The [for] over [strtok_r]; [allocs] are the answers, one pair per adapter. *)
Fixpoint open_adapters (g : list factory) (instance : cstr) (policy : plc_failsafe_policy)
    (allocs : list (bool * bool)) (toks : list cstr) (a : app W A) : bool * app W A :=
  match toks with
  | [] => (true, a)
  | tok :: toks =>
      if zlen (ap_opened a) <? MAX_ADAPTERS then
        match skip_blank tok with
        | [] => open_adapters g instance policy allocs toks a
        | tok =>
            let '(ok, a) := open_adapter g instance policy (default (true, true) (head allocs)) tok a in
            if ok then open_adapters g instance policy (tail allocs) toks a else (false, a)
        end
      else (true, a)
  end.

Definition destroy_all (a : app W A) : app W A := foldl (fun a '(f, h) => destroy f h a) a (ap_opened a).

(** How [main] ends: the exit code, what was printed, the adapters' fate and the
    live heap blocks. *)
Record exit_state : Type := Exit {
  ex_code : Z;
  ex_out : list cstr;
  ex_created : nat;
  ex_freed : list nat;
  ex_live : Z
}.

Definition finish (code : Z) (live : Z) (a : app W A) : exit_state :=
  let a := destroy_all a in
  Exit code (ap_out a) (length (mm_adapters (ap_mem a))) (ap_freed a) (plc_runtime_destroy (Some (ap_rt a)) live).

(** From the adapter loop to the end; [demo] is state 1 of the user memory. *)
Definition serve (fuel : nat) (g : list factory) (instance : cstr) (policy : plc_failsafe_policy) (max_scans : Z)
    (allocs : list (bool * bool)) (toks : list cstr) (live : Z) (a : app W A) : option exit_state :=
  let '(ok, a) := open_adapters g instance policy allocs toks a in
  if negb ok then Some (finish EXIT_FAILURE live a)
  else
    let '(st, rt) := plc_runtime_add_program (Some (ap_rt a)) (Some "demo") (Some demo_program) 1 in
    let a := a <| ap_rt := default (ap_rt a) rt |> in
    if negb (is_ok st) then Some (finish EXIT_FAILURE live a)
    else
      match plc_runtime_run fuel (Some (ap_rt a)) max_scans (ap_mem a) with
      | None => None
      | Some (run_st, rt, m) =>
          let a := a <| ap_rt := default (ap_rt a) rt |> <| ap_mem := m |> in
          Some (finish (if is_ok run_st then EXIT_SUCCESS else EXIT_FAILURE) live a)
      end.

Context (with_eip with_scanner : bool) (getenv : cstr -> option cstr) (fs : cstr -> file).
Context (print_status : cstr -> Z * list cstr).

Fixpoint role_lines (n : nat) (i : Z) : list cstr :=
  match n with
  | O => []
  | S n =>
      match plc_adapter_role_at with_eip with_scanner i with
      | None => []
      | Some role => (txt "  " ++ pad 10 (txt role) ++ txt " " ++
                        txt (default "" (plc_adapter_role_adapters with_eip with_scanner (Some role)))) :: role_lines n (i + 1)
      end
  end.
(** The loop ends at the first index without a role, and there are at most three. *)
Definition list_roles : list cstr := txt "available roles:" :: role_lines 4 0.

Definition setting (name value : cstr) (note : string) : cstr := txt "  " ++ pad 32 name ++ txt " = " ++ value ++ txt note.

Definition show_config (t : cfg_table) : list cstr :=
  (if plc_config_count t =? 0 then
     [txt "config file: none (" ++ PLC_CONFIG_DEFAULT_PATH ++ txt " absent and SOFTPLC_CONFIG unset)"]
   else
     (txt "config file: " ++ plc_config_path t) ::
     map (fun e => let effective := default [] (plc_cfg_str getenv t (Some (e_key e)) (Some (e_value e))) in
                   setting (e_key e) (e_value e)
                     (if bool_decide (effective = e_value e) then "" else "   (overridden by the environment)")) (ct_entries t)) ++
  let role := default [] (plc_cfg_str getenv t (Some (txt "SOFTPLC_ROLE")) (Some (txt "none"))) in
  let from_role := plc_adapter_role_adapters with_eip with_scanner (Some (str role)) in
  [txt "resolved:";
   setting (txt "SOFTPLC_ROLE") role (match from_role with Some _ => "" | None => "   *** unknown role ***" end);
   setting (txt "SOFTPLC_ADAPTERS")
     (default [] (plc_cfg_str getenv t (Some (txt "SOFTPLC_ADAPTERS")) (Some (txt (default "?" from_role))))) "";
   setting (txt "SOFTPLC_INSTANCE") (default [] (plc_cfg_str getenv t (Some (txt "SOFTPLC_INSTANCE")) (Some (txt "default")))) "";
   setting (txt "SOFTPLC_CYCLE_US") (decimal 10 (plc_cfg_u32 getenv t (Some (txt "SOFTPLC_CYCLE_US")) 10000)) "";
   setting (txt "SOFTPLC_FAILSAFE") (default [] (plc_cfg_str getenv t (Some (txt "SOFTPLC_FAILSAFE")) (Some (txt "hold")))) ""].

(** The commands: exit code and output, or [None] when [main] is to run. *)
Definition command (g : list factory) (t : cfg_table) (args : list cstr) (role : cstr) (role_adapters : option string)
    : option (Z * list cstr) :=
  match args with
  | [] => None
  | arg :: rest =>
      if bool_decide (arg = txt "--list-adapters") then Some (EXIT_SUCCESS, list_adapters g)
      else if bool_decide (arg = txt "--list-roles") then Some (EXIT_SUCCESS, list_roles)
      else if bool_decide (arg = txt "--status") then
        Some (print_status (match rest with
                            | i :: _ => i
                            | [] => default [] (plc_cfg_str getenv t (Some (txt "SOFTPLC_INSTANCE")) (Some (txt "default")))
                            end))
      else if bool_decide (arg = txt "--show-config") then Some (EXIT_SUCCESS, show_config t)
      else if bool_decide (arg = txt "--print-config") then
        match rest with
        | [] => Some (EXIT_FAILURE, [])
        | key :: _ => Some (EXIT_SUCCESS, [default [] (plc_cfg_str getenv t (Some key) (Some []))])
        end
      else if bool_decide (arg = txt "--role") then
        match role_adapters with
        | None => Some (EXIT_FAILURE, list_roles)
        | Some _ => Some (EXIT_SUCCESS, [role])
        end
      else None
  end.

(** [args] are the arguments after the program's name; the allocations answer
    [malloc_ok] for the file, [rt_ok], [area_ok] and [q_ok] for the runtime and
    [allocs] for the adapters. *)
Definition softplc_main (fuel : nat) (loopback eip scanner : factory) (malloc_ok rt_ok : bool) (area_ok : Z -> bool)
    (q_ok : bool) (allocs : list (bool * bool)) (args : list cstr) (w : W) : option exit_state :=
  let '(rc, t) := plc_config_bootstrap getenv fs malloc_ok (Table [] []) in
  if negb (rc =? 0) then Some (Exit EXIT_FAILURE [] 0 [] 0)
  else
    let g := plc_adapter_register_builtins with_eip with_scanner loopback eip scanner [] in
    let role := default [] (plc_cfg_str getenv t (Some (txt "SOFTPLC_ROLE")) (Some (txt "none"))) in
    let role_adapters := plc_adapter_role_adapters with_eip with_scanner (Some (str role)) in
    match command g t args role role_adapters with
    | Some (code, out) => Some (Exit code out 0 [] 0)
    | None =>
        match role_adapters with
        | None => Some (Exit EXIT_FAILURE list_roles 0 [] 0)
        | Some role_list =>
            let instance := default [] (plc_cfg_str getenv t (Some (txt "SOFTPLC_INSTANCE")) (Some (txt "default"))) in
            let failsafe := default [] (plc_cfg_str getenv t (Some (txt "SOFTPLC_FAILSAFE")) (Some (txt "hold"))) in
            let policy := if bool_decide (failsafe = txt "clear") then PLC_FAILSAFE_CLEAR else PLC_FAILSAFE_HOLD in
            let rc := default (RtConfig 0 0 0 0 false) (plc_runtime_config_init (Some (RtConfig 0 0 0 0 false))) in
            let rc := rc <| rc_cycle_us := plc_cfg_u32 getenv t (Some (txt "SOFTPLC_CYCLE_US")) (rc_cycle_us rc) |> in
            match plc_runtime_create rt_ok area_ok q_ok (Some rc) 0 with
            | (None, live) => Some (Exit EXIT_FAILURE [] 0 [] live)
            | (Some rt, live) =>
                let explicit_list := plc_cfg_str getenv t (Some (txt "SOFTPLC_ADAPTERS")) None in
                let toks := strtok (adapter_list explicit_list (txt role_list)) in
                let max_scans := plc_cfg_u32 getenv t (Some (txt "SOFTPLC_MAX_SCANS")) 0 in
                serve fuel g instance policy max_scans allocs toks live
                  (App rt (Mem w [] [demo_zero]) [] 0 0 [] [])
            end
        end
    end.
End App.

(** ** Every adapter's fate *)

Section Fate.
Context {W A : Type} `{Clock W, Tasking W}.
Implicit Types (a : app W A) (m : mem W A (list demo_state)).

(** Each adapter created so far is either open or destroyed. *)
Definition accounted a : Prop := map snd (ap_opened a) ++ ap_freed a = seq 0 (length (mm_adapters (ap_mem a))).

Lemma open_adapter_accounted g instance policy alloc tok a ok a' :
  open_adapter g instance policy alloc tok a = (ok, a') -> accounted a -> ap_freed a = [] ->
  accounted a' /\ (ok = true -> ap_freed a' = []).
Proof.
  unfold open_adapter, accounted. intros Hx Ha Hf. rewrite Hf, app_nil_r in Ha.
  destruct (plc_adapter_registry_find _ g) as [f|]; [|injection Hx as <- <-; simpl; by rewrite Hf, app_nil_r].
  destruct (_ ≫= _) as [o|]; [|injection Hx as <- <-; by rewrite Hf, app_nil_r].
  cbv zeta in Hx. destruct (plc_adapter_open _ _ _) as [[st o'] w].
  assert (forall l, seq 0 (length (mm_adapters (ap_mem a) ++ [l])) = map snd (ap_opened a) ++ [length (mm_adapters (ap_mem a))]) as Hs.
  { intros l. rewrite Ha, length_app, Nat.add_1_r. apply seq_S. }
  destruct (negb (is_ok st)); [injection Hx as <- <-; cbn -[seq length]; rewrite Hf, Hs; done|].
  destruct (plc_runtime_bind_adapter _ _ _ _ _) as [st2 rt].
  destruct (negb (is_ok st2)).
  { injection Hx as <- <-. cbn -[seq length]. rewrite Hf, app_nil_r, map_app, Hs. done. }
  destruct (plc_adapter_get_caps _ _) as [st3 caps]. injection Hx as <- <-. cbn -[seq length].
  rewrite Hf, app_nil_r, map_app, Hs. done.
Qed.

Lemma open_adapters_accounted g instance policy toks : forall allocs a ok a',
  open_adapters g instance policy allocs toks a = (ok, a') -> accounted a -> ap_freed a = [] -> accounted a'.
Proof.
  induction toks as [|tok toks IH]; intros allocs a ok a' Hx Ha Hf; simpl in Hx; [by injection Hx as <- <-|].
  destruct (_ <? _); [|by injection Hx as <- <-]. destruct (skip_blank tok) as [|c t]; [by eapply IH|].
  destruct (open_adapter g instance policy _ (c :: t) a) as [ok1 a1] eqn:E.
  destruct (open_adapter_accounted _ _ _ _ _ _ _ _ E Ha Hf) as [Ha1 Hf1].
  destruct ok1; [|by injection Hx as <- <-]. by eapply IH; eauto.
Qed.

Lemma destroy_all_freed a :
  ap_freed (destroy_all a) = ap_freed a ++ map snd (ap_opened a) /\
  length (mm_adapters (ap_mem (destroy_all a))) = length (mm_adapters (ap_mem a)) /\ ap_rt (destroy_all a) = ap_rt a.
Proof.
  unfold destroy_all. generalize (ap_opened a) as l. intros l. revert a.
  induction l as [|[f h] l IH]; intros a; simpl; [by rewrite app_nil_r|].
  destruct (IH (destroy f h a)) as (-> & -> & ->). simpl. by rewrite <- app_assoc.
Qed.

(** What a run leaves alone: how many adapters there are, the programs, and the
    heap blocks of the process image. *)
Definition blocks (pi : plc_process_image) : bool * list bool :=
  (pi_owns_memory pi, map (fun p => match p with Some _ => true | None => false end) (pi_area pi)).
Definition kept (rt : plc_runtime (list demo_state)) m (rt' : plc_runtime (list demo_state)) m' : Prop :=
  length (mm_adapters m') = length (mm_adapters m) /\ rt_programs rt' = rt_programs rt /\
  blocks (rt_pi rt') = blocks (rt_pi rt).
Definition keeps_blocks (p : plc_program (list demo_state)) : Prop :=
  forall ctx u pi, blocks (prog_fn p ctx u pi).2 = blocks pi.

Lemma kept_trans rt m rt1 m1 rt2 m2 : kept rt m rt1 m1 -> kept rt1 m1 rt2 m2 -> kept rt m rt2 m2.
Proof. unfold kept. intuition congruence. Qed.

Lemma store_blocks pi p i src : blocks (store_n pi p i src) = blocks pi.
Proof.
  unfold store_n, blocks. destruct (area_of pi p.1) as [l|] eqn:E; [|done]. simpl. f_equal.
  apply list_eq. intros k. rewrite !list_lookup_fmap. destruct (decide (k = Z.to_nat p.1)) as [->|Hne].
  - unfold area_of in E. rewrite nth_lookup in E. destruct (pi_area pi !! Z.to_nat p.1) as [x|] eqn:Ex; [|done].
    simpl in E. subst x. rewrite list_lookup_insert_eq by (by eapply lookup_lt_Some). done.
  - by rewrite list_lookup_insert_ne.
Qed.

Lemma demo_keeps_blocks name user : keeps_blocks (Program name demo_program user).
Proof.
  intros ctx u pi. unfold prog_fn, demo_program. destruct (ctx_user ctx =? 0); [done|].
  destruct (u !! _) as [st|]; [|done]. cbv zeta. cbn [snd].
  set (st' := demo_logic _ _ _ _ st). generalize (rs_Q1 (ds_running st')) (tp_Q (ds_lamp_pulse st')) (u16 (ctu_CV (ds_part_counter st'))).
  intros motor lamp n. unfold plc_pi_set_bit, plc_pi_set_word, with_slot.
  repeat (match goal with |- context [slot ?a ?b ?c ?d] => destruct (slot a b c d) end; cbn -[store_n slot]);
    by rewrite ?store_blocks.
Qed.

Lemma scan_io_kept bs : forall worst rt m st rt' m', scan_io_loop bs worst rt m = Some (st, rt', m') -> kept rt m rt' m'.
Proof.
  induction bs as [|b bs IH]; intros worst rt m st rt' m' Hx; [by injection Hx as <- <- <-|]. cbn [scan_io_loop] in Hx.
  destruct (plc_pi_area _ _) as [base|]; [|by injection Hx as <- <- <-].
  destruct (exchange_binding rt base b m) as [[[st1 rt1] m1]|] eqn:E; [|done].
  apply IH in Hx. eapply kept_trans; [|exact Hx]. unfold exchange_binding in E.
  destruct (plc_adapter_exchange _ _ _ _ _ _) as [[[[st2 o] inb] w]|]; [|done]. injection E as <- <- <-.
  unfold kept. simpl. rewrite store_blocks. destruct o; [|done]. by rewrite length_insert.
Qed.

Lemma programs_blocks ps : forall ctx u pi, Forall keeps_blocks ps -> blocks (run_programs ps ctx u pi).2 = blocks pi.
Proof.
  induction ps as [|p ps IH]; intros ctx u pi Hp; [done|]. apply Forall_cons_1 in Hp as [Hp Hps]. simpl.
  specialize (Hp (ctx <| ctx_user := prog_user p |>) u pi). destruct (prog_fn p _ u pi) as [u1 pi1]. simpl in Hp.
  by rewrite IH.
Qed.

Lemma execute_kept t0 st rt m :
  Forall keeps_blocks (rt_programs rt) ->
  match scan_execute t0 st rt m with (_, Some rt', m') => kept rt m rt' m' | _ => True end.
Proof.
  intros Hp. unfold scan_execute. pose proof (programs_blocks (rt_programs rt)) as Hb.
  set (ctx := PouCtx _ _ _ _ _). specialize (Hb ctx (mm_user m) (rt_pi rt) Hp).
  destruct (run_programs _ _ _ _) as [u pi]. simpl in Hb. cbv zeta. destruct (now_ns _) as [t1 w].
  rewrite account_frame. unfold kept. simpl. destruct (plc_pi_area _ _); [|done]. by destruct (_ =? 0).
Qed.

Lemma scan_once_kept rt m st rt' m' :
  Forall keeps_blocks (rt_programs rt) -> plc_runtime_scan_once (Some rt) m = Some (st, Some rt', m') -> kept rt m rt' m'.
Proof.
  intros Hp. cbn [plc_runtime_scan_once]. destruct (now_ns (mm_world m)) as [t0 w]. cbv zeta.
  set (rt0 := if rt_first_scan rt then _ else rt).
  assert (kept rt m rt0 (m <| mm_world := w |>)) as Hk0 by (unfold kept, rt0; by destruct (rt_first_scan rt)).
  unfold scan_io. destruct (scan_io_loop _ _ _ _) as [[[st1 rt1] m1]|] eqn:E; [|done]. apply scan_io_kept in E.
  pose proof (kept_trans _ _ _ _ _ _ Hk0 E) as Hk1. clear Hk0 E.
  set (rt2 := if is_ok st1 then rt1 else _).
  assert (kept rt m rt2 m1) as H2 by (unfold kept, rt2 in *; by destruct (is_ok st1)). clearbody rt2.
  destruct (_ && _); [by intros [= _ <- <-]|]. intros Hx. injection Hx as Hx. eapply kept_trans; [exact H2|].
  pose proof (execute_kept t0 st1 rt2 m1) as He. rewrite Hx in He. apply He. destruct H2 as (_ & -> & _). exact Hp.
Qed.

Lemma run_loop_kept fuel : forall max_scans period deadline rt m st rt' m',
  Forall keeps_blocks (rt_programs rt) ->
  run_loop fuel max_scans period deadline rt m = Some (st, rt', m') -> kept rt m rt' m'.
Proof.
  induction fuel as [|fuel IH]; intros max_scans period deadline rt m st rt' m' Hp Hx; [done|]. cbn [run_loop] in Hx.
  destruct (signal_pending (mm_world m)) as [sig w]. cbv zeta in Hx.
  set (rt0 := if sig then _ else rt) in Hx.
  assert (kept rt m rt0 (m <| mm_world := w |>)) as Hk0 by (unfold kept, rt0; by destruct sig).
  destruct (rt_stop rt0); [by injection Hx as <- <- <-|].
  destruct (plc_runtime_scan_once _ _) as [[[st1 [rt1|]] m1]|] eqn:E; [|done|done].
  apply scan_once_kept in E; [|by destruct Hk0 as (_ & -> & _)].
  pose proof (kept_trans _ _ _ _ _ _ Hk0 E) as Hk1. clear Hk0 E.
  assert (Forall keeps_blocks (rt_programs rt1)) as Hp1 by (by destruct Hk1 as (_ & -> & _)).
  destruct (negb _ && negb _); [by injection Hx as <- <- <-|]. destruct (negb _ && _); [by injection Hx as <- <- <-|].
  destruct (period >? 0); [|apply IH in Hx; [by eapply kept_trans|done]].
  destruct (now_ns (mm_world m1)) as [t w1]. destruct (sleep_until _ _ _) as [w2|]; [|done].
  apply IH in Hx; [|done]. eapply kept_trans; [exact Hk1|exact Hx].
Qed.

Lemma run_kept fuel rt max_scans m st rt' m' :
  Forall keeps_blocks (rt_programs rt) -> plc_runtime_run fuel (Some rt) max_scans m = Some (st, rt', m') ->
  exists rt1, rt' = Some rt1 /\ kept rt m rt1 m'.
Proof.
  unfold plc_runtime_run. intros Hp. destruct (now_ns _) as [d w].
  destruct (run_loop _ _ _ _ _ _) as [[[st1 rt1] m1]|] eqn:E; [|done]. apply run_loop_kept in E; [|done].
  intros [= <- <- <-]. by exists rt1.
Qed.

(** The heap after the engine is gone depends on nothing else. *)
Lemma destroy_blocks (rt rt' : plc_runtime (list demo_state)) live :
  blocks (rt_pi rt') = blocks (rt_pi rt) -> plc_runtime_destroy (Some rt') live = plc_runtime_destroy (Some rt) live.
Proof.
  unfold blocks, plc_runtime_destroy, plc_pi_free. intros [= Ho Ha]. rewrite Ho. destruct (pi_owns_memory (rt_pi rt)); [|done].
  f_equal. revert Ha. generalize (live - 1). generalize (pi_area (rt_pi rt)) as l. generalize (pi_area (rt_pi rt')) as l'.
  induction l' as [|x l' IH]; intros [|y l] n Ha; try done. simpl in *. injection Ha as Hxy Ha.
  rewrite (IH l) by done. by destruct x, y.
Qed.

(** Opening adapters leaves the engine's memory alone. *)
Lemma open_adapters_blocks g instance policy toks : forall allocs a ok a',
  open_adapters g instance policy allocs toks a = (ok, a') ->
  blocks (rt_pi (ap_rt a')) = blocks (rt_pi (ap_rt a)) /\ rt_programs (ap_rt a') = rt_programs (ap_rt a).
Proof.
  assert (forall allocs tok a ok a', open_adapter g instance policy allocs tok a = (ok, a') ->
    rt_pi (ap_rt a') = rt_pi (ap_rt a) /\ rt_programs (ap_rt a') = rt_programs (ap_rt a)) as H1.
  { intros alloc tok a ok a' Hx. unfold open_adapter in Hx.
    destruct (plc_adapter_registry_find _ g) as [f|]; [|by injection Hx as <- <-].
    destruct (fa_create f ≫= _) as [o|]; [|by injection Hx as <- <-]. cbv zeta in Hx.
    destruct (plc_adapter_open _ _ _) as [[st o'] w]. destruct (negb (is_ok st)); [by injection Hx as <- <-|].
    destruct (plc_runtime_bind_adapter _ _ _ _ _) as [st2 rt] eqn:E. simpl in E.
    assert (rt_pi (default (ap_rt a) rt) = rt_pi (ap_rt a) /\ rt_programs (default (ap_rt a) rt) = rt_programs (ap_rt a)) as Hr.
    { revert E. repeat (case_match; try (intros [= <- <-]; done)). }
    destruct (negb (is_ok st2)); [by injection Hx as <- <-|].
    destruct (plc_adapter_get_caps _ _) as [st3 caps]. by injection Hx as <- <-. }
  induction toks as [|tok toks IH]; intros allocs a ok a' Hx; simpl in Hx; [by injection Hx as <- <-|].
  destruct (_ <? _); [|by injection Hx as <- <-]. destruct (skip_blank tok) as [|c t]; [by eapply IH|].
  destruct (open_adapter g instance policy _ (c :: t) a) as [ok1 a1] eqn:E. apply H1 in E as [E1 E2].
  destruct ok1; [|by injection Hx as <- <-; rewrite E1, E2]. apply IH in Hx as [-> ->]. by rewrite E1, E2.
Qed.

Lemma finish_freed code live a :
  accounted a ->
  ex_freed (finish code live a) ≡ₚ seq 0 (ex_created (finish code live a)) /\
  ex_live (finish code live a) = plc_runtime_destroy (Some (ap_rt a)) live.
Proof.
  intros Ha. unfold finish. simpl. destruct (destroy_all_freed a) as (-> & -> & ->). split; [|done].
  rewrite <- Ha. by rewrite (comm (++)).
Qed.

Lemma serve_freed fuel g instance policy max_scans allocs toks live a ex :
  accounted a -> ap_freed a = [] -> rt_programs (ap_rt a) = [] ->
  serve fuel g instance policy max_scans allocs toks live a = Some ex ->
  ex_freed ex ≡ₚ seq 0 (ex_created ex) /\ ex_live ex = plc_runtime_destroy (Some (ap_rt a)) live.
Proof.
  intros Ha Hf Hp. unfold serve. destruct (open_adapters _ _ _ _ _ _) as [ok a1] eqn:E.
  pose proof (open_adapters_blocks _ _ _ _ _ _ _ _ E) as [Hb Hp1]. rewrite Hp in Hp1.
  apply open_adapters_accounted in E; [|done|done]. rewrite <- (destroy_blocks _ _ live Hb).
  destruct ok; cbn [negb]; [|intros [= <-]; by apply finish_freed].
  unfold plc_runtime_add_program. rewrite Hp1.
  change (zlen [] >=? PLC_MAX_PROGRAMS) with false. cbn -[finish plc_runtime_run plc_runtime_destroy].
  destruct (plc_runtime_run _ _ _ _) as [[[rst rt'] m']|] eqn:Er; [|done]. intros [= <-].
  apply run_kept in Er as (rt2 & -> & Hl & _ & Hb2); [|constructor; [apply demo_keeps_blocks|constructor]].
  match goal with |- context [finish ?c live ?x] => destruct (finish_freed c live x) as [H1 H2] end.
  - unfold accounted in *. cbn -[seq] in *. by rewrite Hl.
  - split; [exact H1|]. rewrite H2. apply destroy_blocks. exact Hb2.
Qed.
End Fate.

(** ** The layout *)

(** The bindings follow each other without gaps, from [i] in [%I] and [q] in [%Q]. *)
Fixpoint back_to_back (i q : Z) (bs : list plc_io_binding) : Prop :=
  match bs with
  | [] => True
  | b :: bs => b_i_offset b = i /\ b_q_offset b = q /\
               back_to_back (i + cap_input_bytes (b_caps b)) (q + cap_output_bytes (b_caps b)) bs
  end.
Definition i_total (bs : list plc_io_binding) : Z := foldr (fun b n => cap_input_bytes (b_caps b) + n) 0 bs.
Definition q_total (bs : list plc_io_binding) : Z := foldr (fun b n => cap_output_bytes (b_caps b) + n) 0 bs.

Lemma back_to_back_snoc bs : forall i q b,
  back_to_back i q bs -> b_i_offset b = i + i_total bs -> b_q_offset b = q + q_total bs -> back_to_back i q (bs ++ [b]).
Proof.
  induction bs as [|c bs IH]; intros i q b Hp Hi Hq; simpl in *; [split; [lia|split; [lia|done]]|].
  destruct Hp as (? & ? & Hp). split; [done|split; [done|]]. apply IH; [done|lia|lia].
Qed.

Lemma totals_snoc bs b :
  i_total (bs ++ [b]) = i_total bs + cap_input_bytes (b_caps b) /\ q_total (bs ++ [b]) = q_total bs + cap_output_bytes (b_caps b).
Proof. unfold i_total, q_total. induction bs as [|c bs [IHi IHq]]; simpl; [lia|]. rewrite IHi, IHq. lia. Qed.

(** Packed slices do not overlap. *)
Lemma back_to_back_after bs : forall i q,
  back_to_back i q bs -> Forall (fun b => 0 <= cap_input_bytes (b_caps b)) bs -> Forall (fun b => i <= b_i_offset b) bs.
Proof.
  induction bs as [|b bs IH]; intros i q Hp Hn; constructor; simpl in Hp; apply Forall_cons_1 in Hn as [Hb Hn]; [lia|].
  destruct Hp as (_ & _ & Hp). eapply List.Forall_impl; [|exact (IH _ _ Hp Hn)]. simpl. lia.
Qed.

Lemma back_to_back_disjoint bs : forall i q,
  back_to_back i q bs -> Forall (fun b => 0 <= cap_input_bytes (b_caps b)) bs -> ForallOrdPairs slices_disjoint bs.
Proof.
  induction bs as [|b bs IH]; intros i q Hp Hn; constructor; simpl in Hp; apply Forall_cons_1 in Hn as [Hb Hn];
    destruct Hp as (Hi & _ & Hp); [|by eapply IH].
  pose proof (back_to_back_after _ _ _ Hp Hn) as Ha. eapply List.Forall_impl; [|exact Ha]. simpl. intros c Hc. left. lia.
Qed.

Section Layout.
Context {W A : Type} `{ClockLaws W, !Tasking W}.
Implicit Types (a : app W A) (f : plc_adapter_factory W (plc_protocol_adapter W A)).

(** What the application relies on in a factory: what it makes obeys the
    contract once it has opened, its exchange returns, and its image sizes are
    unsigned 32-bit numbers. *)
Definition factory_lawful f : Prop :=
  forall create x y o, fa_create f = Some create -> create x y = Some o ->
  exists v (L : AdapterLaws v) open, ad_vtbl o = Some v /\ AdapterReturns v /\ vt_open v = Some open /\
    forall cfg w i' w', world_ok w -> cfg_input_bytes cfg = 0 -> cfg_output_bytes cfg = 0 ->
      open (ad_impl o) cfg w = (PLC_OK, i', w') ->
      world_ok w' /\ ad_inv i' /\
      0 <= cap_input_bytes (ad_caps i') < 2 ^ 32 /\ 0 <= cap_output_bytes (ad_caps i') < 2 ^ 32.

(** While the adapters are being opened. *)
Definition opening a : Prop :=
  rt_inv (ap_rt a) /\ rt_programs (ap_rt a) = [] /\ rt_scan_no (ap_rt a) = 0 /\
  size_of (rt_pi (ap_rt a)) PLC_AREA_I < 2 ^ 32 /\ size_of (rt_pi (ap_rt a)) PLC_AREA_Q < 2 ^ 32 /\
  back_to_back 0 0 (rt_bindings (ap_rt a)) /\
  ap_i_offset a = i_total (rt_bindings (ap_rt a)) /\ ap_q_offset a = q_total (rt_bindings (ap_rt a)) /\
  0 <= ap_i_offset a <= size_of (rt_pi (ap_rt a)) PLC_AREA_I /\ 0 <= ap_q_offset a <= size_of (rt_pi (ap_rt a)) PLC_AREA_Q /\
  map b_adapter (rt_bindings (ap_rt a)) = seq 0 (length (mm_adapters (ap_mem a))) /\
  length (ap_opened a) = length (rt_bindings (ap_rt a)) /\
  world_ok (mm_world (ap_mem a)) /\ all_lawful (rt_bindings (ap_rt a)) (ap_mem a) /\ all_return (ap_mem a).

(** Binding an adapter that has just been opened. *)
Lemma bind_opens a o caps f h (a1 := a <| ap_mem := ap_mem a <| mm_adapters := mm_adapters (ap_mem a) ++ [o] |> |>) :
  opening a -> h = length (mm_adapters (ap_mem a)) -> lawful caps o ->
  (forall v, ad_vtbl o = Some v -> AdapterReturns v) ->
  0 <= cap_input_bytes caps < 2 ^ 32 -> 0 <= cap_output_bytes caps < 2 ^ 32 ->
  is_ok (bind_status (ap_rt a) caps (ap_i_offset a) (ap_q_offset a)) = true ->
  opening (a1 <| ap_opened := ap_opened a ++ [(f, h)] |>
              <| ap_rt := ap_rt a <| rt_bindings := rt_bindings (ap_rt a) ++ [Binding h (ap_i_offset a) (ap_q_offset a) caps] |> |>
              <| ap_i_offset := u64 (ap_i_offset a + cap_input_bytes caps) |>
              <| ap_q_offset := u64 (ap_q_offset a + cap_output_bytes caps) |>).
Proof.
  intros (Hrt & Hp & Hsn & HI & HQ & Hpk & Ei & Eq & Hi & Hq & Had & Hlen & Hw & Hlaw & Hret) -> Ho Hro Hci Hco Hok.
  unfold bind_status in Hok. destruct (Z.leb_spec PLC_MAX_BINDINGS (zlen (rt_bindings (ap_rt a)))) as [|Hmax]; [done|].
  destruct (negb _); [done|].
  destruct (Z.leb_spec (ap_i_offset a + cap_input_bytes caps) (size_of (rt_pi (ap_rt a)) PLC_AREA_I)) as [Hbi|]; [|done].
  destruct (Z.leb_spec (ap_q_offset a + cap_output_bytes caps) (size_of (rt_pi (ap_rt a)) PLC_AREA_Q)) as [Hbq|]; [|done].
  set (h := length (mm_adapters (ap_mem a))). set (b := Binding h (ap_i_offset a) (ap_q_offset a) caps).
  destruct (totals_snoc (rt_bindings (ap_rt a)) b) as [Ti Tq]. unfold opening. simpl.
  rewrite !u64_small by lia. rewrite Ti, Tq, length_app, map_app, Had, length_app, seq_app.
  split; [|split; [done|split; [done|split; [done|split; [done|split; [apply back_to_back_snoc; [done|simpl; lia|simpl; lia]|]]]]]].
  - destruct Hrt as (? & ? & ? & ? & ? & ? & ? & ?). unfold rt_inv. simpl.
    split_and!; try done; try lia; [rewrite zlen_app; change (zlen [b]) with 1; lia|].
    apply Forall_app_2; [done|]. constructor; [|constructor]. unfold binding_ok; simpl. lia.
  - split; [simpl; lia|split; [simpl; lia|split; [lia|split; [lia|split; [done|split; [rewrite length_app, Hlen; done|]]]]]].
    split; [done|split].
    + intros c [Hc|[<-|[]]]%in_app_or.
      * destruct (Hlaw c Hc) as (oc & Hoc & Hl). exists oc. split; [|done]. by apply lookup_app_l_Some.
      * exists o. split; [|done]. simpl. unfold h. by rewrite lookup_app_r, Nat.sub_diag.
    + intros x v [Hx|[<-|[]]]%in_app_or Hv; [by eapply Hret|by apply Hro].
Qed.

Lemma open_adapter_opening g instance policy alloc tok a a' :
  Forall factory_lawful g -> opening a -> open_adapter g instance policy alloc tok a = (true, a') ->
  opening a' /\ length (rt_bindings (ap_rt a')) = S (length (rt_bindings (ap_rt a))) /\
  rt_cfg (ap_rt a') = rt_cfg (ap_rt a).
Proof.
  intros Hg Ha Hx. pose proof Ha as (Hrt & _ & _ & _ & _ & _ & _ & _ & Hi & Hq & _ & _ & Hw & _ & _).
  unfold open_adapter in Hx.
  destruct (plc_adapter_registry_find (Some (str tok)) g) as [f|] eqn:Ef; [|done]. simpl in Ef.
  apply registry_scan_some in Ef as [Hin _]. rewrite List.Forall_forall in Hg. specialize (Hg f Hin).
  destruct (fa_create f) as [create|] eqn:Ec; [|done]. simpl in Hx.
  destruct (create alloc.1 alloc.2) as [o|] eqn:Eo; [|done].
  destruct (Hg create _ _ o Ec Eo) as (v & L & open & Hv & Hret & Hopen & Hlaw). destruct o as [ov oi]. simpl in Hv. subst ov.
  set (ac := Config _ _ _ _ _ _ _) in Hx. unfold plc_adapter_open in Hx. simpl in Hx. rewrite Hopen in Hx. simpl in Hx.
  destruct (open oi ac (mm_world (ap_mem a))) as [[st i'] w'] eqn:Eopen.
  destruct (negb (is_ok st)) eqn:Est; [done|]. apply negb_false_iff, is_ok_true in Est. subst st.
  destruct (Hlaw ac _ i' w' Hw eq_refl eq_refl Eopen) as (Hw' & Hinv & Hci & Hco).
  set (o := Adapter (Some v) i') in *. set (h := length (mm_adapters (ap_mem a))) in *.
  assert (lawful (ad_caps i') o) as Hl by (by exists v, L).
  set (a0 := a <| ap_mem := ap_mem a <| mm_world := w' |> |>).
  assert (opening a0) as Ha0 by (destruct Ha as (?&?&?&?&?&?&?&?&?&?&?&?&?&?&?); unfold opening; do 14 (split; [done|]); done).
  set (m1 := Mem w' (mm_adapters (ap_mem a) ++ [o]) (mm_user (ap_mem a))).
  assert (mm_adapters m1 !! h = Some o) as Hlook by (simpl; unfold h; by rewrite lookup_app_r, Nat.sub_diag).
  simpl in Hx. change (with_impl (Adapter (Some v) oi) i') with o in Hx.
  pose proof (bind_spec (ap_rt a) m1 h o (ad_caps i') (ap_i_offset a) (ap_q_offset a) Hrt Hlook Hl
    (proj1 Hci) (proj1 Hco) (proj1 Hi) (proj1 Hq)) as Hb.
  unfold m1 in Hb. simpl in Hb. rewrite Hb in Hx. clear Hb.
  set (bst := bind_status (ap_rt a) (ad_caps i') (ap_i_offset a) (ap_q_offset a)) in *.
  destruct (is_ok bst) eqn:Eb; cbn [negb] in Hx; [|done].
  change ((mm_adapters (ap_mem a) ++ [o]) !! h) with (mm_adapters m1 !! h) in Hx. rewrite Hlook in Hx.
  destruct (law_caps i' caps_zero) as (fc & Hfc & Efc). unfold plc_adapter_get_caps in Hx. simpl in Hx.
  rewrite Hfc in Hx. simpl in Hx. rewrite Efc in Hx. injection Hx as <-.
  pose proof (bind_opens a0 o (ad_caps i') f h Ha0 eq_refl Hl) as Hfin. simpl in Hfin.
  split; [apply Hfin; [by intros v' [= <-]|done|done|exact Eb]|]. simpl. rewrite length_app. simpl. split; [lia|done].
Qed.
End Layout.

(** The protocols a list names: its pieces without leading blanks, blank ones left out. *)
Definition names (toks : list cstr) : list cstr :=
  List.filter (fun t => negb (bool_decide (t = []))) (map skip_blank toks).

Section Loop.
Context {W A : Type} `{ClockLaws W, !Tasking W}.
Implicit Types (a : app W A).

Lemma open_adapter_protocol g instance policy alloc tok a a' :
  open_adapter g instance policy alloc tok a = (true, a') ->
  map (fun o => fa_protocol o.1) (ap_opened a') = map (fun o => fa_protocol o.1) (ap_opened a) ++ [Some (str tok)].
Proof.
  intros Hx. unfold open_adapter in Hx.
  destruct (plc_adapter_registry_find _ g) as [f|] eqn:Ef; [|done]. apply registry_scan_some in Ef as [_ Ef].
  destruct (fa_create f ≫= _) as [o|]; [|done]. cbv zeta in Hx.
  destruct (plc_adapter_open _ _ _) as [[st o'] w]. destruct (negb (is_ok st)); [done|].
  destruct (plc_runtime_bind_adapter _ _ _ _ _) as [st2 rt]. destruct (negb (is_ok st2)); [done|].
  destruct (plc_adapter_get_caps _ _) as [st3 caps]. injection Hx as <-. simpl. by rewrite map_app, <- Ef.
Qed.

Lemma open_adapters_opening g instance policy toks : forall allocs a a',
  Forall factory_lawful g -> opening a -> open_adapters g instance policy allocs toks a = (true, a') ->
  opening a' /\ rt_cfg (ap_rt a') = rt_cfg (ap_rt a) /\
  map (fun o => fa_protocol o.1) (ap_opened a') =
    map (fun o => fa_protocol o.1) (ap_opened a) ++
    map (fun t => Some (str t)) (take (Z.to_nat MAX_ADAPTERS - length (ap_opened a)) (names toks)).
Proof.
  induction toks as [|tok toks IH]; intros allocs a a' Hg Ha Hx; cbn [open_adapters] in Hx.
  { injection Hx as <-. change (names []) with (@nil cstr). rewrite take_nil, app_nil_r. done. }
  destruct (Z.ltb_spec (zlen (ap_opened a)) MAX_ADAPTERS) as [Hlt|Hge].
  - unfold names. simpl map. cbn [List.filter]. destruct (skip_blank tok) as [|c t] eqn:Es.
    { cbn [bool_decide]. rewrite bool_decide_true by done. by apply (IH allocs). }
    rewrite bool_decide_false by done. cbn [negb].
    destruct (open_adapter g instance policy _ (c :: t) a) as [ok a1] eqn:E. destruct ok; [|done].
    pose proof (open_adapter_protocol _ _ _ _ _ _ _ E) as Hp.
    destruct (open_adapter_opening _ _ _ _ _ _ _ Hg Ha E) as (Ha1 & Hl & Hc).
    destruct (IH _ a1 a' Hg Ha1 Hx) as (Ha' & Hc' & Hn). split; [done|split; [congruence|]]. rewrite Hn, Hp.
    assert (length (ap_opened a1) = S (length (ap_opened a))) as ->.
    { destruct Ha as (_&_&_&_&_&_&_&_&_&_&_&E0&_), Ha1 as (_&_&_&_&_&_&_&_&_&_&_&E1&_). congruence. }
    unfold zlen in Hlt. replace (Z.to_nat MAX_ADAPTERS - length (ap_opened a))%nat
      with (S (Z.to_nat MAX_ADAPTERS - S (length (ap_opened a)))) by lia.
    rewrite <- app_assoc. done.
  - injection Hx as <-. unfold zlen in Hge. replace (Z.to_nat MAX_ADAPTERS - length (ap_opened a))%nat with 0%nat by lia.
    rewrite take_0, app_nil_r. done.
Qed.

(** [main]'s variables before the loop. *)
Definition fresh_app (rt : plc_runtime (list demo_state)) (w : W) : app W A := App rt (Mem w [] [demo_zero]) [] 0 0 [] [].

Lemma fresh_opening rt w :
  rt_inv rt -> rt_bindings rt = [] -> rt_programs rt = [] -> rt_scan_no rt = 0 -> world_ok w ->
  0 <= size_of (rt_pi rt) PLC_AREA_I < 2 ^ 32 -> 0 <= size_of (rt_pi rt) PLC_AREA_Q < 2 ^ 32 -> opening (fresh_app rt w).
Proof.
  intros Hi Hb Hp Hs Hw HI HQ. unfold opening. simpl. rewrite Hb. simpl.
  do 12 (split; [done || lia|]). split; [done|]. split; [by intros b []|by intros o v []].
Qed.

(** With the program added, an opened application is wired. *)
Lemma opening_wired a :
  opening a ->
  exists rt, plc_runtime_add_program (Some (ap_rt a)) (Some "demo") (Some demo_program) 1 = (PLC_OK, Some rt) /\
    wired rt (ap_mem a) /\ rt_bindings rt = rt_bindings (ap_rt a) /\ rt_programs rt = [Program "demo" demo_program 1] /\
    rt_cfg rt = rt_cfg (ap_rt a) /\ rt_scan_no rt = 0 /\ rt_pi rt = rt_pi (ap_rt a).
Proof.
  intros (Hrt & Hp & Hs & _ & _ & Hpk & _ & _ & _ & _ & Had & _ & Hw & Hlaw & _).
  unfold plc_runtime_add_program. rewrite Hp. simpl. eexists. split; [reflexivity|]. simpl.
  split; [|done]. unfold wired. simpl.
  pose proof Hrt as (? & ? & ? & ? & ? & ? & Hb & ?). split; [|split; [|split; [|split; [|done]]]].
  - unfold rt_inv in *. simpl. done.
  - constructor; [exact demo_pou_ok|constructor].
  - rewrite Had. apply NoDup_ListNoDup, seq_NoDup.
  - eapply back_to_back_disjoint; [exact Hpk|]. eapply List.Forall_impl; [|exact Hb]. intros b. unfold binding_ok. lia.
Qed.
End Loop.

(** ** Settings and lists *)

Definition no_comma (s : cstr) : Prop := Forall (fun c => ceq c "," = false) s.

Lemma split_on_one s : no_comma s -> split_on "," s = [s].
Proof. induction s as [|c s IH]; intros Hs; [done|]. apply Forall_cons_1 in Hs as [Hc Hs]. simpl. by rewrite Hc, IH. Qed.

Lemma split_on_comma s rest : no_comma s -> split_on "," (s ++ txt "," ++ rest) = s :: split_on "," rest.
Proof.
  induction s as [|c s IH]; intros Hs; [done|]. apply Forall_cons_1 in Hs as [Hc Hs]. simpl. rewrite Hc.
  simpl in IH. by rewrite IH.
Qed.

(** Names joined the way a person writes the list. *)
Fixpoint join (ns : list cstr) : cstr :=
  match ns with
  | [] => []
  | [n] => n
  | n :: ns => n ++ txt ", " ++ join ns
  end.

(** A protocol name: not empty, no comma, no leading blank. *)
Definition name_ok (n : cstr) : bool :=
  forallb (fun c => negb (ceq c ",")) n && match n with [] => false | c :: _ => negb (ceq c " ") end.

Lemma name_ok_spec n : name_ok n = true -> no_comma n /\ n <> [] /\ skip_blank n = n /\ skip_blank (txt " " ++ n) = n.
Proof.
  unfold name_ok. rewrite andb_true_iff, forallb_forall. intros [Hc Hb]. split.
  - apply List.Forall_forall. intros c Hin. by apply negb_true_iff, Hc.
  - destruct n as [|c n]; [done|]. split; [done|]. apply negb_true_iff in Hb. simpl. by rewrite Hb.
Qed.

Lemma names_join ns : forall pre, pre = [] \/ pre = txt " " -> ns <> [] -> Forall (fun n => name_ok n = true) ns ->
  names (strtok (pre ++ join ns)) = ns.
Proof.
  assert (forall pre n, pre = [] \/ pre = txt " " -> name_ok n = true ->
    no_comma (pre ++ n) /\ pre ++ n <> [] /\ skip_blank (pre ++ n) = n /\ n <> []) as Hpre.
  { intros pre n Hp Hn. destruct (name_ok_spec n Hn) as (H1 & H2 & H3 & H4).
    destruct Hp as [->| ->]; simpl; (split; [|done]); [done|]. by constructor. }
  assert (forall t l, t <> [] -> skip_blank t <> [] ->
    names (List.filter (fun t => negb (bool_decide (t = []))) (t :: l)) =
    skip_blank t :: names (List.filter (fun t => negb (bool_decide (t = []))) l)) as Hcons.
  { intros t l Ht Hs. simpl. rewrite bool_decide_false by done. unfold names. simpl. by rewrite bool_decide_false. }
  induction ns as [|n ns IH]; intros pre Hp Hne HF; [done|]. apply Forall_cons_1 in HF as [Hn HF].
  destruct (Hpre pre n Hp Hn) as (H1 & H2 & H3 & H4). unfold strtok in *. destruct ns as [|n' ns].
  - simpl join. rewrite split_on_one by done. rewrite Hcons, H3; [done|done|by rewrite H3].
  - change (join (n :: n' :: ns)) with (n ++ txt "," ++ txt " " ++ join (n' :: ns)). rewrite (app_assoc pre).
    rewrite split_on_comma by done. rewrite Hcons, H3; [|done|by rewrite H3]. f_equal. apply IH; [by right|done|done].
Qed.

(** ** The application returns *)

Section Returns.
Context {W A : Type} `{ClockLaws W, !Tasking W, !TaskingLaws W}.
Implicit Types (a : app W A).

Lemma serve_returns g instance policy max_scans allocs toks live a :
  Forall factory_lawful g -> opening a -> rc_continue_on_io_fault (rt_cfg (ap_rt a)) = true ->
  0 <= rc_cycle_us (rt_cfg (ap_rt a)) < 2 ^ 32 -> 0 < max_scans < 2 ^ 32 ->
  max_scans * (rc_cycle_us (rt_cfg (ap_rt a)) * 1000) < 2 ^ 62 ->
  exists N ex, (forall fuel, (N <= fuel)%nat ->
      serve fuel g instance policy max_scans allocs toks live a = Some ex) /\
    ex_code ex = if (open_adapters g instance policy allocs toks a).1 then EXIT_SUCCESS else EXIT_FAILURE.
Proof.
  intros Hg Ha Hc Hcy Hm Hl. unfold serve. destruct (open_adapters _ _ _ _ _ _) as [ok a1] eqn:E.
  destruct ok; cbn [negb]; [|exists 0%nat; eexists; split; [reflexivity|done]].
  destruct (open_adapters_opening _ _ _ _ _ _ _ Hg Ha E) as (Ha1 & Ec & _).
  destruct (opening_wired a1 Ha1) as (rt & -> & _ & _ & _ & Ecr & Hs & _). cbn [default is_ok negb]. cbv zeta.
  destruct (runtime_runs rt (ap_mem a1) max_scans) as (N & rt' & m' & Hrun & _); rewrite ?Ecr, ?Ec; try done; try lia.
  { by destruct Ha1 as (_&_&_&_&_&_&_&_&_&_&_&_&_&_&Hr). }
  eexists N, _. split.
  - intros fuel Hf. cbn -[plc_runtime_run finish]. rewrite (Hrun fuel Hf). reflexivity.
  - done.
Qed.
End Returns.

(** ** Properties *)

(** [C18] The adapters are wired the way the list says.  When the loop over the
    adapter list goes through, the opened adapters are the first eight protocols
    the list names, in its order; their slices follow each other without gaps
    from the start of [%I] and of [%Q]; and with the demo program added, the
    engine has everything the scan relies on: the slices fit, they are pairwise
    disjoint, no adapter is bound twice, and every adapter obeys the contract. *)
Theorem app_wired_as_listed {W A : Type} `{ClockLaws W, !Tasking W}
    (g : list (plc_adapter_factory W (plc_protocol_adapter W A))) (instance : cstr) (policy : plc_failsafe_policy)
    (allocs : list (bool * bool)) (toks : list cstr) (rt_ok q_ok : bool) (area_ok : Z -> bool) (rc : plc_runtime_config)
    (rt : plc_runtime (list demo_state)) (live : Z) (w : W) (a : app W A)
    (Hg : Forall factory_lawful g) (Hw : world_ok w)
    (HI : 0 <= rc_i_bytes rc < 2 ^ 32) (HQ : 0 <= rc_q_bytes rc < 2 ^ 32) (HM : 0 <= rc_m_bytes rc < 2 ^ 32)
    (Hc : plc_runtime_create rt_ok area_ok q_ok (Some rc) 0 = (Some rt, live))
    (Ho : open_adapters g instance policy allocs toks (fresh_app rt w) = (true, a)) :
  map (fun o => fa_protocol o.1) (ap_opened a) =
    map (fun t => Some (str t)) (take (Z.to_nat MAX_ADAPTERS) (names toks)) /\
  back_to_back 0 0 (rt_bindings (ap_rt a)) /\
  map b_adapter (rt_bindings (ap_rt a)) = seq 0 (length (mm_adapters (ap_mem a))) /\
  exists rt', plc_runtime_add_program (Some (ap_rt a)) (Some "demo") (Some demo_program) 1 = (PLC_OK, Some rt') /\
    wired rt' (ap_mem a) /\ rt_bindings rt' = rt_bindings (ap_rt a).
Proof.
  pose proof (runtime_created (U := list demo_state) rt_ok q_ok area_ok rc 0) as Hcr. rewrite Hc in Hcr.
  destruct Hcr as (_ & Hi & _ & _ & _ & _ & Esi & Esq & Hb & Hp & Hs); try lia.
  assert (opening (fresh_app rt w : app W A)) as Hop by (apply fresh_opening; try done; lia).
  destruct (open_adapters_opening _ _ _ _ _ _ _ Hg Hop Ho) as (Ha & _ & Hn).
  destruct (opening_wired a Ha) as (rt' & Hadd & Hwd & Hb' & _). simpl in Hn.
  destruct Ha as (_&_&_&_&_&Hpk&_&_&_&_&Had&_). split; [exact Hn|]. split; [done|split; [done|]]. by exists rt'.
Qed.

(** [C19] Nothing is leaked and nothing is destroyed twice.  On every path through
    [main] that returns, whatever fails on the way (an unreadable file, an unknown
    role or protocol, a failed allocation, an adapter that does not open or does
    not fit, a fault of the run), the adapters destroyed are exactly the adapters
    created, each once, and no heap block of the engine is left. *)
Theorem app_frees_everything {W A : Type} `{Clock W, Tasking W} (with_eip with_scanner : bool)
    (getenv : cstr -> option cstr) (fs : cstr -> file) (print_status : cstr -> Z * list cstr) (fuel : nat)
    (loopback eip scanner : plc_adapter_factory W (plc_protocol_adapter W A)) (malloc_ok rt_ok q_ok : bool)
    (area_ok : Z -> bool) (allocs : list (bool * bool)) (args : list cstr) (w : W) (ex : exit_state)
    (Hx : softplc_main with_eip with_scanner getenv fs print_status fuel loopback eip scanner malloc_ok rt_ok area_ok
            q_ok allocs args w = Some ex) :
  ex_freed ex ≡ₚ seq 0 (ex_created ex) /\ ex_live ex = 0.
Proof.
  unfold softplc_main in Hx. destruct (plc_config_bootstrap _ _ _ _) as [rc t].
  destruct (negb (rc =? 0)); [by injection Hx as <-|]. cbv zeta in Hx.
  destruct (command _ _ _ _ _ _ _ _ _) as [[code out]|]; [by injection Hx as <-|].
  destruct (plc_adapter_role_adapters _ _ _) as [l|]; [|by injection Hx as <-].
  set (cfg := default _ (plc_runtime_config_init _) <| rc_cycle_us := _ |>) in Hx.
  pose proof (runtime_created (U := list demo_state) rt_ok q_ok area_ok cfg 0) as Hcr.
  destruct (plc_runtime_create _ _ _ _ _) as [[rt|] live]; simpl in Hcr;
    destruct Hcr as [_ Hcr]; try (unfold cfg; simpl; lia); [|injection Hx as <-; simpl; rewrite Hcr; done].
  destruct Hcr as (_ & _ & _ & _ & Hd & _ & _ & _ & Hp & _).
  apply serve_freed in Hx as [Hf Hl]; [|reflexivity|reflexivity|exact Hp].
  split; [exact Hf|]. rewrite Hl. exact Hd.
Qed.

(** The application's witness: loopback alone, in the ticking world. *)
Definition kLoopback : plc_adapter_factory ticking (plc_protocol_adapter ticking loopback_impl) :=
  Factory (Some "loopback") "in-process echo" (Some lb_create) (Some (fun a w => lb_destroy (Some a) w)).

Lemma loopback_factory_lawful : factory_lawful kLoopback.
Proof.
  intros create x y o [= <-] Ho. unfold lb_create in Ho. destruct x, y; try done. injection Ho as <-.
  exists kLoopbackVtbl, loopback_laws, lb_open. split; [done|split; [exact loopback_returns|split; [done|]]].
  intros cfg w i' w' _ Hi Hq Hx. destruct (lb_open_inv _ _ _ _ _ ltac:(rewrite Hi; lia) ltac:(rewrite Hq; lia) Hx) as [Hinv _].
  split; [done|split; [exact Hinv|]]. destruct Hinv as (? & ? & _). unfold LOOPBACK_MAX_BYTES in *. simpl. lia.
Qed.

Definition ex_rt_cfg : plc_runtime_config :=
  default (RtConfig 0 0 0 0 false) (plc_runtime_config_init (Some (RtConfig 0 0 0 0 false))).
Definition ex_created_rt : plc_runtime (list demo_state) :=
  default (Runtime ex_rt_cfg pi_zero [] [] [] 0 false 0 0 0 false (RtStats 0 0 0 0 0 0 0))
          (plc_runtime_create true (fun _ => true) true (Some ex_rt_cfg) 0).1.

Definition ex_world : ticking := (1000000, 1000).
Abbreviation ex_opened :=
  (open_adapters [kLoopback] (txt "line1") PLC_FAILSAFE_HOLD [] (strtok (txt "loopback, loopback,"))
    (fresh_app ex_created_rt ex_world)).

Lemma ex_rt_made : plc_runtime_create true (fun _ => true) true (Some ex_rt_cfg) 0 = (Some ex_created_rt, 5).
Proof. vm_compute. reflexivity. Qed.

Lemma ex_opened_ok : ex_opened.1 = true.
Proof. vm_compute. reflexivity. Qed.

Lemma went_through {T} (p : bool * T) : p.1 = true -> p = (true, p.2).
Proof. destruct p as [b x]. intros H. simpl in H. by rewrite H. Qed.

Lemma ex_factories_lawful : Forall factory_lawful [kLoopback].
Proof. constructor; [exact loopback_factory_lawful|constructor]. Qed.

Lemma app_wired_as_listed_witness :
  ex_opened.1 = true /\
  map (fun o => fa_protocol o.1) (ap_opened ex_opened.2) =
    map (fun t => Some (str t)) (take (Z.to_nat MAX_ADAPTERS) (names (strtok (txt "loopback, loopback,")))) /\
  back_to_back 0 0 (rt_bindings (ap_rt ex_opened.2)).
Proof.
  pose proof (app_wired_as_listed [kLoopback] (txt "line1") PLC_FAILSAFE_HOLD [] (strtok (txt "loopback, loopback,")) true true
    (fun _ => true) ex_rt_cfg ex_created_rt 5 ex_world ex_opened.2 ex_factories_lawful I ltac:(cbn; lia)
    ltac:(cbn; lia) ltac:(cbn; lia) ex_rt_made (went_through _ ex_opened_ok)) as Hw.
  split; [exact ex_opened_ok|split; [exact (proj1 Hw)|exact (proj1 (proj2 Hw))]].
Defined.

Definition ex_env (key : cstr) : option cstr :=
  if bool_decide (key = txt "SOFTPLC_MAX_SCANS") then Some (txt "3")
  else if bool_decide (key = txt "SOFTPLC_ADAPTERS") then Some (txt "loopback, nonesuch")
  else None.

Lemma app_frees_everything_witness :
  exists ex, softplc_main false false ex_env (fun _ => FileMissing) (fun _ => (0, [])) 20 kLoopback kLoopback kLoopback true true
      (fun _ => true) true [] [] ex_world = Some ex /\
    ex_code ex = 1 /\ ex_freed ex ≡ₚ [0%nat] /\ ex_live ex = 0.
Proof.
  destruct (softplc_main false false ex_env (fun _ => FileMissing) (fun _ => (0, [])) 20 kLoopback kLoopback kLoopback true true
      (fun _ => true) true [] [] ex_world) as [ex|] eqn:E; [|vm_compute in E; discriminate E].
  exists ex. split; [reflexivity|]. pose proof E as E1. vm_compute in E1. injection E1 as E1.
  destruct (app_frees_everything false false ex_env (fun _ => FileMissing) (fun _ => (0, [])) 20 kLoopback kLoopback kLoopback true
      true true (fun _ => true) [] [] ex_world ex E) as [Hf Hl].
  rewrite <- E1 in *. split; [reflexivity|split; [exact Hf|exact Hl]].
Defined.

Lemma builtins_lawful {W A : Type} `{ClockLaws W} with_eip with_scanner
    (loopback eip scanner : plc_adapter_factory W (plc_protocol_adapter W A)) :
  factory_lawful loopback -> factory_lawful eip -> factory_lawful scanner ->
  Forall factory_lawful (plc_adapter_register_builtins with_eip with_scanner loopback eip scanner []).
Proof.
  assert (forall (f : plc_adapter_factory W (plc_protocol_adapter W A)) g, factory_lawful f -> Forall factory_lawful g ->
    Forall factory_lawful (plc_adapter_registry_add (Some f) g).2) as Hadd.
  { intros [p d c e] g Hf Hg. unfold plc_adapter_registry_add.
    repeat (case_match; try done). by apply Forall_app_2; [|constructor]. }
  intros Hl He Hs. unfold plc_adapter_register_builtins. cbv zeta.
  destruct with_scanner, with_eip; repeat (apply Hadd; [done|]); constructor.
Qed.

(** [C20] The core process comes to an end.  With a scan limit in the settings and
    factories whose adapters obey the contract, [main] returns for every
    sufficiently large number of steps, whatever the arguments, the files and the
    answers of the allocations.  The scans asked for take less than 2^62 ns (146
    years) at the configured period. *)
Theorem app_returns {W A : Type} `{ClockLaws W, !Tasking W, !TaskingLaws W} (with_eip with_scanner : bool)
    (getenv : cstr -> option cstr) (fs : cstr -> file) (print_status : cstr -> Z * list cstr)
    (loopback eip scanner : plc_adapter_factory W (plc_protocol_adapter W A)) (malloc_ok rt_ok q_ok : bool)
    (area_ok : Z -> bool) (allocs : list (bool * bool)) (args : list cstr) (w : W)
    (t := (plc_config_bootstrap getenv fs malloc_ok (Table [] [])).2)
    (max_scans := plc_cfg_u32 getenv t (Some (txt "SOFTPLC_MAX_SCANS")) 0)
    (cycle_us := plc_cfg_u32 getenv t (Some (txt "SOFTPLC_CYCLE_US")) 10000)
    (Hl : factory_lawful loopback) (He : factory_lawful eip) (Hs : factory_lawful scanner) (Hw : world_ok w)
    (Hmax : 0 < max_scans) (Hlife : max_scans * (cycle_us * 1000) < 2 ^ 62) :
  exists N ex, forall fuel, (N <= fuel)%nat ->
    softplc_main with_eip with_scanner getenv fs print_status fuel loopback eip scanner malloc_ok rt_ok area_ok
      q_ok allocs args w = Some ex.
Proof.
  assert (0 <= max_scans < 2 ^ 32) as Hm by (apply cfg_u32_range; lia).
  assert (0 <= cycle_us < 2 ^ 32) as Hc by (apply cfg_u32_range; lia).
  unfold softplc_main. subst t. destruct (plc_config_bootstrap _ _ _ _) as [rc t]. simpl in max_scans, cycle_us.
  destruct (negb (rc =? 0)); [by exists 0%nat; eexists|]. cbv zeta.
  destruct (command _ _ _ _ _ _ _ _ _) as [[code out]|]; [by exists 0%nat; eexists|].
  destruct (plc_adapter_role_adapters _ _ _) as [l|]; [|by exists 0%nat; eexists].
  set (cfg := default _ (plc_runtime_config_init _) <| rc_cycle_us := _ |>).
  pose proof (runtime_created (U := list demo_state) rt_ok q_ok area_ok cfg 0) as Hcr.
  destruct (plc_runtime_create _ _ _ _ _) as [[rt|] live]; simpl in Hcr; [|by exists 0%nat; eexists].
  destruct Hcr as (_ & Hi & _ & Ec & _ & _ & Esi & Esq & Hb & Hp & Hs0); try (unfold cfg; simpl; lia).
  assert (opening (fresh_app rt w : app W A)) as Hop
    by (apply fresh_opening; try done; rewrite ?Esi, ?Esq; unfold cfg; simpl; lia).
  match goal with |- context [serve _ ?g ?i ?p _ _ ?tk] =>
    destruct (serve_returns g i p max_scans allocs tk live (fresh_app rt w)) as (N & ex & Hx & _);
      [by apply builtins_lawful|done|simpl; by rewrite Ec|simpl; rewrite Ec; exact Hc|lia|simpl; rewrite Ec; exact Hlife|] end.
  exists N, ex. exact Hx.
Qed.

Lemma app_returns_witness :
  exists N ex, forall fuel, (N <= fuel)%nat ->
    softplc_main false false ex_env (fun _ => FileMissing) (fun _ => (0, [])) fuel kLoopback kLoopback kLoopback true true
      (fun _ => true) true [] [] ex_world = Some ex.
Proof.
  apply (app_returns false false ex_env (fun _ => FileMissing) (fun _ => (0, [])) kLoopback kLoopback kLoopback true true true
    (fun _ => true) [] [] ex_world loopback_factory_lawful loopback_factory_lawful loopback_factory_lawful I);
    vm_compute; reflexivity.
Defined.

(** A list of adapters is read back as written.  Protocol names that are not
    empty and hold no comma and no leading blank, joined with a comma and a blank,
    come out again in order, provided the text fits the 255 characters [main]
    keeps; an explicit list has precedence over the role's. *)
Theorem app_list_read_back (ns : list cstr) (role_adapters : cstr)
    (Hns : Forall (fun n => name_ok n = true) ns) (Hne : ns <> []) (Hlen : zlen (join ns) < LIST_BYTES) :
  names (strtok (adapter_list (Some (join ns)) role_adapters)) = ns.
Proof.
  unfold adapter_list. simpl default. rewrite take_ge by (unfold zlen, LIST_BYTES in *; lia).
  apply (names_join ns []); [by left|done|done].
Qed.

Lemma app_list_read_back_witness :
  names (strtok (adapter_list (Some (txt "ethernet-ip, ethernet-ip-scanner, loopback")) [])) =
    [txt "ethernet-ip"; txt "ethernet-ip-scanner"; txt "loopback"].
Proof.
  apply (app_list_read_back [txt "ethernet-ip"; txt "ethernet-ip-scanner"; txt "loopback"]);
    [repeat constructor|discriminate|vm_compute; reflexivity].
Defined.

(** A ninth adapter is left out without a word: with nine protocols in the
    list, [main] binds eight and exits with success. *)
Theorem app_drops_the_ninth :
  match softplc_main false false
      (fun key => if bool_decide (key = txt "SOFTPLC_MAX_SCANS") then Some (txt "2")
                  else if bool_decide (key = txt "SOFTPLC_ADAPTERS") then Some (join (replicate 9 (txt "loopback"))) else None)
      (fun _ => FileMissing) (fun _ => (0, [])) 20 kLoopback kLoopback kLoopback true true (fun _ => true) true [] []
      ex_world with
  | Some ex => ex_code ex = EXIT_SUCCESS /\ ex_created ex = 8%nat /\ ex_out ex = []
  | None => False
  end.
Proof. vm_compute. done. Qed.
