(* ===== verification/Status.v ===== *)
(** * The health probe

    [src/app/softplc_status.c], [softplc --status]: the region a running instance
    publishes is mapped read-only, its fields are copied out one by one, and one
    JSON object is printed; the exit code says whether the instance is up.

    The two kinds of region are two kernels of [Shm], since their names never
    coincide.  The lines are printed by a [printf] that interprets the format
    strings of the source; an apostrophe in them stands for an escaped quote.

    The theorems: the probe changes nothing and leaves nothing behind, whichever
    of its calls fail; the exit code and the object are exactly what the region
    holds; and the text parses as JSON and gives that object back, provided the
    instance name has no character JSON would want escaped. *)

From Stdlib Require Import ZArith Lia Ascii.
From stdpp Require Import base gmap list strings tactics.
From S2P Require Import Prelude PlcTypes SpscRing Adapter Config Shm IpcProxy EipProxy ScannerConfig ScannerProxy.

Definition STATUS_OK : Z := 0.
Definition STATUS_NOT_READY : Z := 3.
Definition STATUS_ABSENT : Z := 4.

(** ** [printf] *)

Definition quote : ascii := "034"%char.
Definition newline : ascii := "010"%char.

(** A string literal: the apostrophe is an escaped quote. *)
Definition lit (s : string) : cstr := map (fun c => if ceq c "'" then quote else c) (txt s).

Inductive printf_arg : Type :=
| ArgS (s : cstr)
| ArgU (n : Z)
| ArgLLU (n : Z).

(** The directives the formats use; [None] is a directive without its argument, which
    the language leaves undefined.  Twenty digits are enough for [%llu]. *)
Fixpoint printf (fmt : cstr) (args : list printf_arg) : option cstr :=
  match fmt with
  | [] => Some []
  | c :: fmt =>
      if negb (ceq c "%") then (fun t => c :: t) <$> printf fmt args
      else match fmt with
           | [] => None
           | d :: fmt =>
               if ceq d "s" then
                 match args with ArgS s :: args => (fun t => s ++ t) <$> printf fmt args | _ => None end
               else if ceq d "u" then
                 match args with ArgU n :: args => (fun t => decimal 20 n ++ t) <$> printf fmt args | _ => None end
               else if ceq d "l" then
                 match fmt with
                 | l :: u :: fmt =>
                     if ceq l "l" && ceq u "u" then
                       match args with ArgLLU n :: args => (fun t => decimal 20 n ++ t) <$> printf fmt args | _ => None end
                     else None
                 | _ => None
                 end
               else None
           end
  end.

(** ** Reading a region *)

Section Map.
Context {M : Type} `{Region M} (pid : Z).
Implicit Types (w : world M).

(** The address and the region's size; [None] if it is not there, or too small. *)
Definition map_ro (name : string) (want : Z) w : option (Z * Z) * world M :=
  let '(fd, _, w) := shm_open pid w name in
  if fd <? 0 then (None, w)
  else
    let '(st_size, w) := fstat pid w fd in
    match st_size with
    | None => (None, close pid w fd)
    | Some size =>
        if size <? want then (None, close pid w fd)
        else
          let '(p, w) := mmap pid w want fd in
          let w := close pid w fd in
          match p with None => (None, w) | Some p => (Some (p, size), w) end
    end.

(** A load from the mapping; the others may run before it. *)
Definition peek {T} (base : Z) (f : M -> T) w : T * world M :=
  let '(_, w) := pause w in (f (deref pid (w_k w) base), w).

(** [ready ? atomic_load(..) : other]. *)
Definition peek_if {T} (ready : bool) (base : Z) (f : M -> T) (other : T) w : T * world M :=
  if ready then peek base f w else (other, w).
End Map.

Definition state_name (s : Z) : cstr := txt (plc_adapter_state_name s).

(** ** The adapter role *)

Record adapter_report : Type := AdapterReport {
  ar_ready : bool;
  ar_state : Z;
  ar_abi : Z;
  ar_layout : Z;
  ar_conns : Z;
  ar_in_bytes : Z;
  ar_out_bytes : Z;
  ar_produced : Z;
  ar_consumed : Z;
  ar_cycles : Z;
  ar_writes : Z;
  ar_lasterr : Z
}.

(** The format of the adapter's line and the arguments it is printed with. *)
Definition adapter_format : cstr :=
  lit "{'instance':'%s','role':'adapter','region':'%s'," ++
  lit "'ready':%s,'abi_version':%u,'layout_bytes':%u," ++
  lit "'state':'%s','io_connections':%u," ++
  lit "'input_bytes':%u,'output_bytes':%u," ++
  lit "'produced_assembly':%u,'consumed_assembly':%u," ++
  lit "'cycles':%llu,'assembly_writes':%llu,'last_error':%llu}" ++ [newline].

Definition adapter_line (instance : cstr) (name : string) (r : adapter_report) : option cstr :=
  printf adapter_format
    [ArgS instance; ArgS (txt name); ArgS (txt (if ar_ready r then "true" else "false"));
     ArgU (ar_abi r); ArgU (ar_layout r); ArgS (state_name (ar_state r)); ArgU (ar_conns r);
     ArgU (ar_in_bytes r); ArgU (ar_out_bytes r); ArgU (ar_produced r); ArgU (ar_consumed r);
     ArgLLU (ar_cycles r); ArgLLU (ar_writes r);
     ArgLLU (ar_lasterr r)].

Definition adapter_code (r : adapter_report) : Z :=
  if ar_ready r && (ar_state r =? plc_adapter_state_code PLC_ADAPTER_ONLINE) && (ar_conns r >? 0)
  then STATUS_OK else STATUS_NOT_READY.

(** The loads, in the order of the source. *)
Definition read_adapter (pid base : Z) (w : world eip_shm) : adapter_report * world eip_shm :=
  let '(magic, w) := peek pid base em_magic w in
  let ready := magic =? EIP_SHM_MAGIC in
  let '(state, w) := peek_if pid ready base (fun m => es_adapter_state (em_status m)) (plc_adapter_state_code PLC_ADAPTER_CLOSED) w in
  let '(abi, w) := peek pid base em_abi_version w in
  let '(layout, w) := peek pid base em_layout_bytes w in
  let '(conns, w) := peek_if pid ready base (fun m => es_io_connections (em_status m)) 0 w in
  let '(in_bytes, w) := peek pid base em_input_bytes w in
  let '(out_bytes, w) := peek pid base em_output_bytes w in
  let '(produced, w) := peek pid base em_produced_assembly w in
  let '(consumed, w) := peek pid base em_consumed_assembly w in
  let '(cycles, w) := peek_if pid ready base (fun m => es_cycles (em_status m)) 0 w in
  let '(writes, w) := peek_if pid ready base (fun m => es_assembly_writes (em_status m)) 0 w in
  let '(lasterr, w) := peek_if pid ready base (fun m => es_last_error (em_status m)) 0 w in
  (AdapterReport ready state abi layout conns in_bytes out_bytes produced consumed cycles writes lasterr, w).

(** The exit code, the lines printed, the world after. *)
Definition print_adapter (pid : Z) (instance : cstr) (w : world eip_shm) : Z * list cstr * world eip_shm :=
  let name := eip_shm_name EIP_SHM_NAME_MAX (Some (String.string_of_list_ascii instance)) in
  match map_ro pid name sizeof_eip_shm w with
  | (None, w) => (STATUS_ABSENT, [], w)
  | (Some (m, _), w) =>
      let '(r, w) := read_adapter pid m w in
      let w := munmap pid w m in
      (adapter_code r, option_list (adapter_line instance name r), w)
  end.

(** ** The scanner role *)

Record scanner_report : Type := ScannerReport {
  sr_ready : bool;
  sr_state : Z;
  sr_online : Z;
  sr_abi : Z;
  sr_layout : Z;
  sr_devices : Z;
  sr_in_bytes : Z;
  sr_out_bytes : Z;
  sr_cycles : Z;
  sr_fopens : Z;
  sr_losses : Z;
  sr_ooo : Z;
  sr_lasterr : Z
}.

Definition scanner_format : cstr :=
  lit "{'instance':'%s','role':'scanner','region':'%s'," ++
  lit "'ready':%s,'abi_version':%u,'layout_bytes':%u," ++
  lit "'state':'%s','devices':{'online':%u,'total':%u}," ++
  lit "'input_bytes':%u,'output_bytes':%u," ++
  lit "'cycles':%llu,'forward_opens':%llu,'connection_losses':%llu," ++
  lit "'out_of_order':%llu,'last_error':%llu}" ++ [newline].

Definition scanner_line (instance : cstr) (name : string) (r : scanner_report) : option cstr :=
  printf scanner_format
    [ArgS instance; ArgS (txt name); ArgS (txt (if sr_ready r then "true" else "false"));
     ArgU (sr_abi r); ArgU (sr_layout r); ArgS (state_name (sr_state r)); ArgU (sr_online r); ArgU (sr_devices r);
     ArgU (sr_in_bytes r); ArgU (sr_out_bytes r);
     ArgLLU (sr_cycles r); ArgLLU (sr_fopens r);
     ArgLLU (sr_losses r); ArgLLU (sr_ooo r);
     ArgLLU (sr_lasterr r)].

Definition scanner_code (r : scanner_report) : Z :=
  let all_up := sr_ready r && negb (sr_devices r =? 0) && (sr_online r =? sr_devices r) in
  if all_up && (sr_state r =? plc_adapter_state_code PLC_ADAPTER_ONLINE) then STATUS_OK else STATUS_NOT_READY.

Definition read_scanner (pid base : Z) (w : world eip_scanner_shm) : scanner_report * world eip_scanner_shm :=
  let '(magic, w) := peek pid base sm_magic w in
  let ready := magic =? EIP_SCANNER_SHM_MAGIC in
  let '(state, w) := peek_if pid ready base (fun m => ss_adapter_state (sm_status m)) (plc_adapter_state_code PLC_ADAPTER_CLOSED) w in
  let '(online, w) := peek_if pid ready base (fun m => ss_devices_online (sm_status m)) 0 w in
  let '(abi, w) := peek pid base sm_abi_version w in
  let '(layout, w) := peek pid base sm_layout_bytes w in
  let '(devices, w) := peek pid base sm_device_count w in
  let '(in_bytes, w) := peek pid base sm_input_bytes w in
  let '(out_bytes, w) := peek pid base sm_o2t_total_bytes w in
  let '(cycles, w) := peek_if pid ready base (fun m => ss_cycles (sm_status m)) 0 w in
  let '(fopens, w) := peek_if pid ready base (fun m => ss_forward_opens (sm_status m)) 0 w in
  let '(losses, w) := peek_if pid ready base (fun m => ss_connection_losses (sm_status m)) 0 w in
  let '(ooo, w) := peek_if pid ready base (fun m => ss_out_of_order (sm_status m)) 0 w in
  let '(lasterr, w) := peek_if pid ready base (fun m => ss_last_error (sm_status m)) 0 w in
  (ScannerReport ready state online abi layout devices in_bytes out_bytes cycles fopens losses ooo lasterr, w).

Definition print_scanner (pid : Z) (instance : cstr) (w : world eip_scanner_shm) : Z * list cstr * world eip_scanner_shm :=
  let name := eip_scanner_shm_name EIP_SCANNER_SHM_NAME_MAX (Some (String.string_of_list_ascii instance)) in
  match map_ro pid name sizeof_eip_scanner_shm w with
  | (None, w) => (STATUS_ABSENT, [], w)
  | (Some (m, _), w) =>
      let '(r, w) := read_scanner pid m w in
      let w := munmap pid w m in
      (scanner_code r, option_list (scanner_line instance name r), w)
  end.

(** ** Whichever region exists *)

Definition absent_line (instance : cstr) : option cstr :=
  printf (lit "{'instance':'%s','role':null,'ready':false," ++
          lit "'error':'no published region for this instance'}" ++ [newline]) [ArgS instance].

(** The build options say which roles are asked. *)
Definition softplc_print_status (with_eip with_scanner : bool) (pid : Z) (instance : cstr)
    (w : world eip_shm) (ws : world eip_scanner_shm) : Z * list cstr * world eip_shm * world eip_scanner_shm :=
  let '(rc, out, w) := if with_eip then print_adapter pid instance w else (STATUS_ABSENT, [], w) in
  if negb (rc =? STATUS_ABSENT) then (rc, out, w, ws)
  else
    let '(rc, out, ws) := if with_scanner then print_scanner pid instance ws else (STATUS_ABSENT, [], ws) in
    if negb (rc =? STATUS_ABSENT) then (rc, out, w, ws)
    else (STATUS_ABSENT, option_list (absent_line instance), w, ws).

(** ** The objects the lines stand for *)

Inductive json : Type :=
| JNull
| JBool (b : bool)
| JNum (n : Z)
| JStr (s : cstr)
| JObj (l : members)
with members : Type :=
| MNil
| MCons (k : cstr) (v : json) (l : members).

Definition quoted (s : cstr) : cstr := quote :: s ++ [quote].

(** The text of a value, without white space. *)
Fixpoint json_text (j : json) : cstr :=
  match j with
  | JNull => txt "null"
  | JBool b => txt (if b then "true" else "false")
  | JNum n => decimal 20 n
  | JStr s => quoted s
  | JObj l => txt "{" ++ members_text true l
  end
with members_text (first : bool) (l : members) : cstr :=
  match l with
  | MNil => txt "}"
  | MCons k v l => (if first then [] else txt ",") ++ quoted k ++ txt ":" ++ json_text v ++ members_text false l
  end.

Definition obj (l : list (string * json)) : json := JObj (foldr (fun '(k, v) l => MCons (txt k) v l) MNil l).

(** The members of each object, by name. *)
Definition adapter_json (instance : cstr) (name : string) (r : adapter_report) : json :=
  obj [("instance", JStr instance); ("role", JStr (txt "adapter")); ("region", JStr (txt name));
        ("ready", JBool (ar_ready r)); ("abi_version", JNum (ar_abi r)); ("layout_bytes", JNum (ar_layout r));
        ("state", JStr (state_name (ar_state r))); ("io_connections", JNum (ar_conns r));
        ("input_bytes", JNum (ar_in_bytes r)); ("output_bytes", JNum (ar_out_bytes r));
        ("produced_assembly", JNum (ar_produced r)); ("consumed_assembly", JNum (ar_consumed r));
        ("cycles", JNum (ar_cycles r)); ("assembly_writes", JNum (ar_writes r)); ("last_error", JNum (ar_lasterr r))].

Definition scanner_json (instance : cstr) (name : string) (r : scanner_report) : json :=
  obj [("instance", JStr instance); ("role", JStr (txt "scanner")); ("region", JStr (txt name));
        ("ready", JBool (sr_ready r)); ("abi_version", JNum (sr_abi r)); ("layout_bytes", JNum (sr_layout r));
        ("state", JStr (state_name (sr_state r)));
        ("devices", obj [("online", JNum (sr_online r)); ("total", JNum (sr_devices r))]);
        ("input_bytes", JNum (sr_in_bytes r)); ("output_bytes", JNum (sr_out_bytes r));
        ("cycles", JNum (sr_cycles r)); ("forward_opens", JNum (sr_fopens r));
        ("connection_losses", JNum (sr_losses r)); ("out_of_order", JNum (sr_ooo r)); ("last_error", JNum (sr_lasterr r))].

Definition absent_json (instance : cstr) : json :=
  obj [("instance", JStr instance); ("role", JNull); ("ready", JBool false);
        ("error", JStr (txt "no published region for this instance"))].

(** A line: the object and the end of the line. *)
Definition json_line (j : json) : cstr := json_text j ++ [newline].

(** The format strings are the text of the objects: what they print is evaluated. *)
Ltac printed := cbn -[decimal state_name]; repeat (rewrite <- app_assoc; cbn [app]); reflexivity.

Lemma adapter_line_json instance name r : adapter_line instance name r = Some (json_line (adapter_json instance name r)).
Proof. unfold adapter_line, json_line, adapter_json, obj. destruct (ar_ready r); printed. Qed.

Lemma scanner_line_json instance name r : scanner_line instance name r = Some (json_line (scanner_json instance name r)).
Proof. unfold scanner_line, json_line, scanner_json, obj. destruct (sr_ready r); printed. Qed.

Lemma absent_line_json instance : absent_line instance = Some (json_line (absent_json instance)).
Proof. unfold absent_line, json_line, absent_json, obj. printed. Qed.

(** ** Reading the text back *)

Scheme json_mind := Induction for json Sort Prop
  with members_mind := Induction for members Sort Prop.
Combined Scheme json_members_ind from json_mind, members_mind.

Definition starts_with (p s : cstr) : option cstr := if bool_decide (take (length p) s = p) then Some (drop (length p) s) else None.

(** A string literal without escapes, after its opening quote. *)
Definition plain (c : ascii) : bool := negb (ceq c quote) && negb (ceq c "\") && (32 <=? code c).
Fixpoint read_string (s : cstr) : option (cstr * cstr) :=
  match s with
  | [] => None
  | c :: s => if ceq c quote then Some ([], s)
              else if plain c then match read_string s with Some (t, r) => Some (c :: t, r) | None => None end
              else None
  end.

Fixpoint read_digits (acc : Z) (s : cstr) : Z * cstr :=
  match s with
  | c :: s' => if isdigit c then read_digits (acc * 10 + (code c - 48)) s' else (acc, s)
  | [] => (acc, [])
  end.

(** A reader for values; [fuel] bounds the nesting and the members. *)
Fixpoint read_json (fuel : nat) (s : cstr) : option (json * cstr) :=
  match fuel with
  | O => None
  | S fuel =>
      match s with
      | [] => None
      | c :: s' =>
          if ceq c quote then match read_string s' with Some (t, r) => Some (JStr t, r) | None => None end
          else if ceq c "{" then match read_members fuel true s' with Some (l, r) => Some (JObj l, r) | None => None end
          else if isdigit c then let '(n, r) := read_digits 0 s in Some (JNum n, r)
          else match starts_with (txt "null") s, starts_with (txt "true") s, starts_with (txt "false") s with
               | Some r, _, _ => Some (JNull, r)
               | _, Some r, _ => Some (JBool true, r)
               | _, _, Some r => Some (JBool false, r)
               | _, _, _ => None
               end
      end
  end
with read_members (fuel : nat) (first : bool) (s : cstr) : option (members * cstr) :=
  match fuel with
  | O => None
  | S fuel =>
      match starts_with (txt "}") s with
      | Some r => Some (MNil, r)
      | None =>
          match (if first then Some s else starts_with (txt ",") s) with
          | Some (c :: s) =>
              if negb (ceq c quote) then None
              else match read_string s with
                   | Some (k, s) =>
                       match starts_with (txt ":") s with
                       | Some s =>
                           match read_json fuel s with
                           | Some (v, s) =>
                               match read_members fuel false s with
                               | Some (l, s) => Some (MCons k v l, s)
                               | None => None
                               end
                           | None => None
                           end
                       | None => None
                       end
                   | None => None
                   end
          | _ => None
          end
      end
  end.

(** The whole line is one value. *)
Definition parse_json (s : cstr) : option json :=
  match read_json (S (length s)) s with Some (j, r) => if bool_decide (r = [newline]) then Some j else None | None => None end.

Definition plain_text (s : cstr) : bool := forallb plain s.
Fixpoint json_ok (j : json) : bool :=
  match j with
  | JNum n => (0 <=? n) && (n <? 10 ^ 20)
  | JStr s => plain_text s
  | JObj l => members_ok l
  | _ => true
  end
with members_ok (l : members) : bool :=
  match l with MNil => true | MCons k v l => plain_text k && json_ok v && members_ok l end.

Fixpoint json_size (j : json) : nat :=
  match j with JObj l => S (members_size l) | _ => 1 end
with members_size (l : members) : nat :=
  match l with MNil => 1 | MCons k v l => S (json_size v + members_size l) end.

Lemma read_string_quoted s r : plain_text s = true -> read_string (s ++ quote :: r) = Some (s, r).
Proof.
  induction s as [|c s IH]; [done|]. unfold plain_text in *. simpl. rewrite andb_true_iff. intros [Hc Hs].
  rewrite Hc, (IH Hs). unfold plain in Hc. destruct (ceq c quote); [done|done].
Qed.

Lemma quoted_app s r : quoted s ++ r = quote :: s ++ quote :: r.
Proof. unfold quoted. simpl. by rewrite <- app_assoc. Qed.

Lemma starts_with_app p r : starts_with p (p ++ r) = Some r.
Proof. unfold starts_with. by rewrite take_app_length, drop_app_length, bool_decide_true. Qed.

Lemma read_digits_app s : forall acc r,
  Forall (fun c => isdigit c = true) s -> match r with c :: _ => isdigit c = false | [] => True end ->
  read_digits acc (s ++ r) = (digit_value acc s, r).
Proof.
  induction s as [|c s IH]; intros acc r Hs Hr; simpl.
  - destruct r as [|c r]; [done|]. simpl. by rewrite Hr.
  - apply Forall_cons_1 in Hs as [Hc Hs]. rewrite Hc. by rewrite IH.
Qed.

(** What may follow a value. *)
Definition ends (r : cstr) : Prop := match r with c :: _ => isdigit c = false | [] => True end.

Lemma members_ends first l r : ends (members_text first l ++ r).
Proof. destruct l, first; reflexivity. Qed.

Lemma digit_not_json c : isdigit c = true -> ceq c quote = false /\ ceq c "{" = false.
Proof.
  intros H. pose proof (ascii_check (fun c => negb (isdigit c) || (negb (ceq c quote) && negb (ceq c "{"))) eq_refl c) as Hc.
  simpl in Hc. rewrite H in Hc. simpl in Hc. rewrite andb_true_iff, !negb_true_iff in Hc. tauto.
Qed.

Lemma read_back :
  (forall j, json_ok j = true -> forall fuel r, (json_size j <= fuel)%nat -> ends r ->
     read_json fuel (json_text j ++ r) = Some (j, r)) /\
  (forall l, members_ok l = true -> forall fuel first r, (members_size l <= fuel)%nat ->
     read_members fuel first (members_text first l ++ r) = Some (l, r)).
Proof.
  apply json_members_ind.
  - intros _ [|fuel] r Hf Hr; simpl in Hf; [lia|]. reflexivity.
  - intros b _ [|fuel] r Hf Hr; simpl in Hf; [lia|]. by destruct b.
  - intros n Hn [|fuel] r Hf Hr; simpl in Hf; [lia|]. cbn [json_ok] in Hn.
    destruct (decimal_ok 20 n) as (Hd & Hne & Hv); [change (Z.of_nat 20) with 20; lia|lia|].
    cbn [json_text]. destruct (decimal 20 n) as [|c s] eqn:E; [done|]. pose proof (Forall_inv Hd) as Hc.
    destruct (digit_not_json c Hc) as [H1 H2]. cbn [app read_json]. rewrite H1, H2, Hc.
    change (c :: s ++ r) with ((c :: s) ++ r). rewrite read_digits_app by done. by rewrite Hv.
  - intros s Hs [|fuel] r Hf Hr; simpl in Hf; [lia|]. cbn [json_text]. rewrite quoted_app. cbn [read_json].
    rewrite ceq_refl. rewrite read_string_quoted by done. done.
  - intros l IH Hl [|fuel] r Hf Hr; simpl in Hf; [lia|]. cbn [json_text app txt String.list_ascii_of_string].
    cbn [read_json]. change (ceq "{" quote) with false. change (ceq "{" "{") with true. cbv iota.
    rewrite IH; [done|done|lia].
  - intros _ [|fuel] first r Hf; simpl in Hf; [lia|]. reflexivity.
  - intros k v IHv l IHl Hok [|fuel] first r Hf; simpl in Hf; [lia|]. cbn [members_ok] in Hok.
    rewrite !andb_true_iff in Hok. destruct Hok as [[Hk Hv] Hl]. cbn [members_text].
    assert (forall r', read_members (S fuel) first (((if first then [] else txt ",") ++ quoted k ++ txt ":" ++ r')) =
      match read_json fuel r' with
      | Some (v, s) => match read_members fuel false s with Some (l, s) => Some (MCons k v l, s) | None => None end
      | None => None
      end) as Hstep.
    { intros r'. rewrite quoted_app. destruct first; cbn [read_members app txt String.list_ascii_of_string starts_with take drop length].
      - change (starts_with ["}"%char] (quote :: k ++ quote :: ":"%char :: r')) with (@None cstr). cbv iota.
        rewrite ceq_refl. cbn [negb]. rewrite read_string_quoted by done.
        by change (starts_with [":"%char] (":"%char :: r')) with (Some r').
      - change (starts_with ["}"%char] (","%char :: quote :: k ++ quote :: ":"%char :: r')) with (@None cstr). cbv iota.
        change (starts_with [","%char] (","%char :: quote :: k ++ quote :: ":"%char :: r')) with (Some (quote :: k ++ quote :: ":"%char :: r')).
        cbv iota. rewrite ceq_refl. cbn [negb]. rewrite read_string_quoted by done.
        by change (starts_with [":"%char] (":"%char :: r')) with (Some r'). }
    rewrite <- !app_assoc. rewrite Hstep, IHv; [|done|lia|apply members_ends]. by rewrite IHl by (done || lia).
Qed.

Lemma size_text :
  (forall j, json_ok j = true -> (json_size j <= length (json_text j))%nat) /\
  (forall l, members_ok l = true -> forall first, (members_size l <= length (members_text first l))%nat).
Proof.
  apply json_members_ind.
  - simpl. lia.
  - intros [] _; simpl; lia.
  - intros n Hn. cbn [json_ok] in Hn. destruct (decimal_ok 20 n) as (_ & Hne & _); [change (Z.of_nat 20) with 20; lia|lia|].
    cbn [json_text json_size]. destruct (decimal 20 n); [done|simpl; lia].
  - intros s _. simpl. lia.
  - intros l IH Hl. cbn [json_ok] in Hl. specialize (IH Hl true). simpl. lia.
  - intros _ first. simpl. lia.
  - intros k v IHv l IHl Hok first. cbn [members_ok] in Hok. rewrite !andb_true_iff in Hok. destruct Hok as [[Hk Hv] Hl].
    specialize (IHv Hv). specialize (IHl Hl false). cbn [members_size members_text]. unfold quoted.
    rewrite !length_app. simpl. lia.
Qed.

Lemma parse_line j : json_ok j = true -> parse_json (json_line j) = Some j.
Proof.
  intros Hj. unfold parse_json, json_line. pose proof (proj1 size_text j Hj). rewrite length_app.
  rewrite (proj1 read_back j Hj) by (done || lia). by rewrite bool_decide_true.
Qed.

(** ** Reading a region nobody changes *)

(** What a process with that name in hand finds: the structure, if a region of at
    least [want] bytes is published. *)
Definition published {M} (k : kernel M) (name : string) (want : Z) : option M :=
  match k_names k !! name with
  | Some i => match k_inodes k !! i with
              | Some o => if ino_size o <? want then None else Some (ino_data o)
              | None => None
              end
  | None => None
  end.

(** Only the counter of unused numbers has moved. *)
Definition unchanged {M} (k k' : kernel M) : Prop := exists n, k' = k <| k_next := n |>.

Lemma unchanged_refl {M} (k : kernel M) : unchanged k k.
Proof. exists (k_next k). by destruct k. Qed.
Lemma unchanged_next {M} (k : kernel M) n : unchanged k (k <| k_maps := k_maps k |> <| k_next := n |>).
Proof. exists n. by destruct k. Qed.

Section Calm.
Context {M : Type} `{Region M} (pid : Z) (P : event M -> Prop).
Implicit Types (w : world M) (k : kernel M).

(** The others are still; what else the events are is [P]. *)
Definition calm w : Prop := Forall (fun e => ev_move e = None /\ P e) (w_script w).
Definition failing (err : Z) : Prop := exists e, P e /\ ev_errno e = err.

Lemma pause_calm w : calm w -> exists err w', pause w = (err, w') /\ w_k w' = w_k w /\ calm w' /\ (err = 0 \/ failing err).
Proof.
  unfold calm, pause. destruct (w_script w) as [|e s] eqn:E; intros Hc.
  - exists 0, w. rewrite E. auto.
  - apply Forall_cons_1 in Hc as [[He Hp] Hs]. rewrite He. eexists _, _. split; [done|]. simpl.
    split; [done|split; [done|]]. right. by exists e.
Qed.

Lemma peek_calm {T} base (f : M -> T) w :
  calm w -> exists w', peek pid base f w = (f (deref pid (w_k w) base), w') /\ w_k w' = w_k w /\ calm w'.
Proof.
  intros Hc. destruct (pause_calm w Hc) as (err & w' & Hp & Hk & Hc' & _). exists w'. unfold peek. by rewrite Hp, Hk.
Qed.

Lemma peek_if_calm {T} (b : bool) base (f : M -> T) other w :
  calm w -> exists w', peek_if pid b base f other w = ((if b then f (deref pid (w_k w) base) else other), w') /\
    w_k w' = w_k w /\ calm w'.
Proof. intros Hc. destruct b; [by apply peek_calm|]. by exists w. Qed.

Definition some_failure : Prop := exists err, err <> 0 /\ failing err.

Lemma failed err : negb (err =? 0) = true -> err = 0 \/ failing err -> some_failure.
Proof. intros Hn Hor. destruct (Z.eqb_spec err 0); [done|]. exists err. split; [done|]. by destruct Hor. Qed.

(** The kernel [k] with a descriptor of region [i] open and some mappings. *)
Definition opened_by k (i : Z) (maps : gmap (Z * Z) Z) (n : Z) : kernel M :=
  k <| k_fds := <[(pid, k_next k) := i]> (k_fds k) |> <| k_maps := maps |> <| k_next := n |>.

Lemma shm_open_calm name w :
  calm w -> let k := w_k w in
  exists fd err w', shm_open pid w name = (fd, err, w') /\ calm w' /\
    (fd = -1 /\ w_k w' = k /\ (k_names k !! name = None \/ some_failure) \/
     exists i, fd = k_next k /\ k_names k !! name = Some i /\ w_k w' = opened_by k i (k_maps k) (k_next k + 1)).
Proof.
  intros Hc. cbv zeta. unfold shm_open. destruct (pause_calm w Hc) as (e & w1 & -> & Hk & Hc1 & He).
  destruct (fails e ENOENT) eqn:F.
  { eexists _, _, w1. split; [reflexivity|]. split; [done|]. left. split; [done|split; [done|]]. right. eapply failed; [|exact He].
    unfold fails in F. by destruct (negb (e =? 0)). }
  rewrite Hk. destruct (k_names (w_k w) !! name) as [i|] eqn:E.
  - eexists _, _, _. split; [reflexivity|]. split; [exact Hc1|]. right. exists i. simpl. by rewrite Hk.
  - eexists _, _, w1. split; [reflexivity|]. split; [done|]. left. auto.
Qed.

Lemma fstat_calm k i w :
  calm w -> w_k w = opened_by k i (k_maps k) (k_next k + 1) ->
  exists r w', fstat pid w (k_next k) = (r, w') /\ calm w' /\ w_k w' = w_k w /\
    match r with
    | Some n => exists o, k_inodes k !! i = Some o /\ n = ino_size o
    | None => k_inodes k !! i = None \/ some_failure
    end.
Proof.
  intros Hc Hw. unfold fstat. destruct (pause_calm w Hc) as (e & w1 & -> & Hk & Hc1 & He).
  destruct (negb (e =? 0)) eqn:F; eexists _, w1; (split; [reflexivity|]); (split; [done|]); (split; [done|]).
  - right. by eapply failed.
  - rewrite Hk, Hw. unfold fd_inode. simpl. rewrite lookup_insert_eq. destruct (k_inodes k !! i) as [o|]; [by exists o|by left].
Qed.

Lemma mmap_calm k i want w :
  calm w -> w_k w = opened_by k i (k_maps k) (k_next k + 1) ->
  exists r w', mmap pid w want (k_next k) = (r, w') /\ calm w' /\
    match r with
    | Some base => base = k_next k + 1 /\ w_k w' = opened_by k i (<[(pid, base) := i]> (k_maps k)) (base + 1)
    | None => w_k w' = w_k w /\ some_failure
    end.
Proof.
  intros Hc Hw. unfold mmap. destruct (pause_calm w Hc) as (e & w1 & -> & Hk & Hc1 & He).
  destruct (negb (e =? 0)) eqn:F.
  - eexists _, w1. split; [reflexivity|]. split; [done|]. split; [done|]. by eapply failed.
  - rewrite Hk, Hw. unfold opened_by. simpl. rewrite lookup_insert_eq. eexists _, _. split; [reflexivity|]. split; [exact Hc1|]. done.
Qed.

(** Giving the descriptor back. *)
Lemma close_calm k i maps n w :
  calm w -> kernel_fresh k -> w_k w = opened_by k i maps n ->
  calm (close pid w (k_next k)) /\ w_k (close pid w (k_next k)) = k <| k_maps := maps |> <| k_next := n |>.
Proof.
  intros Hc Hfresh Hw. unfold close. destruct (pause_calm w Hc) as (e & w1 & -> & Hk & Hc1 & _). split; [exact Hc1|].
  cbn [w_k]. rewrite Hk, Hw. unfold fd_inode, opened_by. simpl. rewrite lookup_insert_eq.
  pose proof Hfresh as (_ & _ & _ & Hi & _).
  destruct (k_inodes k !! i) as [o|] eqn:Eo; [|simpl; by rewrite delete_insert_id by (by apply fd_fresh)].
  rewrite bool_decide_false; [simpl; by rewrite delete_insert_id by (by apply fd_fresh)|].
  intros Hl. destruct (Hi i o Eo) as [_ Hlk]. apply Hlk in Hl. lia.
Qed.

Lemma map_ro_calm name want w :
  calm w -> kernel_fresh (w_k w) ->
  exists r w', map_ro pid name want w = (r, w') /\ calm w' /\
  match r with
  | None => unchanged (w_k w) (w_k w') /\ (published (w_k w) name want = None \/ some_failure)
  | Some (base, _) =>
      published (w_k w) name want = Some (deref pid (w_k w') base) /\ k_maps (w_k w) !! (pid, base) = None /\
      exists i n, w_k w' = w_k w <| k_maps := <[(pid, base) := i]> (k_maps (w_k w)) |> <| k_next := n |>
  end.
Proof.
  intros Hc Hfresh. pose proof Hfresh as (Hn & _ & Hm & _). unfold map_ro.
  destruct (shm_open_calm name w Hc) as (fd & err & w1 & -> & Hc1 & [(-> & Hk1 & Hf)|(i & -> & En & Hk1)]);
    set (k := w_k w) in *.
  { eexists None, w1. split; [reflexivity|]. split; [done|]. rewrite Hk1. split; [apply unchanged_refl|].
    unfold published. destruct Hf as [->|Hf]; auto. }
  destruct (Z.ltb_spec (k_next k) 0); [lia|].
  assert (forall w, calm w -> w_k w = opened_by k i (k_maps k) (k_next k + 1) ->
    calm (close pid w (k_next k)) /\ unchanged k (w_k (close pid w (k_next k)))) as Hcl.
  { intros w' Hc' Hw'. destruct (close_calm _ _ _ _ _ Hc' Hfresh Hw') as [? ->]. split; [done|]. apply unchanged_next. }
  destruct (fstat_calm k i w1 Hc1 Hk1) as (st & w2 & -> & Hc2 & Hk2 & Hst). rewrite Hk1 in Hk2.
  unfold published. rewrite En. destruct st as [n|].
  2:{ destruct (Hcl w2 Hc2 Hk2). eexists None, _. split; [reflexivity|]. split; [done|]. split; [done|]. destruct Hst as [->|]; auto. }
  destruct Hst as (o & Eo & ->). rewrite Eo. destruct (ino_size o <? want).
  { destruct (Hcl w2 Hc2 Hk2). eexists None, _. split; [reflexivity|]. auto. }
  destruct (mmap_calm k i want w2 Hc2 Hk2) as (r & w3 & -> & Hc3 & Hr). destruct r as [base|].
  - destruct Hr as [-> Hk3]. destruct (close_calm _ _ _ _ _ Hc3 Hfresh Hk3) as [Hc4 Hk4].
    eexists (Some _), _. split; [reflexivity|]. split; [done|]. rewrite Hk4. split; [|split; [|by eexists i, _]].
    + unfold deref. simpl. by rewrite lookup_insert_eq, Eo.
    + destruct (k_maps k !! (pid, k_next k + 1)) eqn:E; [|done]. specialize (Hm _ _ E). simpl in Hm. lia.
  - destruct Hr as [Hk3 Hf]. rewrite Hk2 in Hk3. destruct (Hcl w3 Hc3 Hk3). eexists None, _. split; [reflexivity|]. auto.
Qed.

(** Dropping the mapping brings back the kernel. *)
Lemma munmap_calm k base i n w :
  calm w -> k_maps k !! (pid, base) = None -> w_k w = k <| k_maps := <[(pid, base) := i]> (k_maps k) |> <| k_next := n |> ->
  calm (munmap pid w base) /\ unchanged k (w_k (munmap pid w base)).
Proof.
  intros Hc Hb Hw. unfold munmap. destruct (pause_calm w Hc) as (e & w1 & -> & Hk & Hc1 & _). split; [exact Hc1|].
  exists n. cbn [w_k]. rewrite Hk, Hw. simpl. rewrite delete_insert_id by done. done.
Qed.
End Calm.

(** ** The reports *)

(** What a structure says. *)
Definition adapter_view (m : eip_shm) : adapter_report :=
  let ready := em_magic m =? EIP_SHM_MAGIC in
  let st := em_status m in
  AdapterReport ready (if ready then es_adapter_state st else 0) (em_abi_version m) (em_layout_bytes m)
    (if ready then es_io_connections st else 0) (em_input_bytes m) (em_output_bytes m) (em_produced_assembly m)
    (em_consumed_assembly m) (if ready then es_cycles st else 0) (if ready then es_assembly_writes st else 0)
    (if ready then es_last_error st else 0).

Definition scanner_view (m : eip_scanner_shm) : scanner_report :=
  let ready := sm_magic m =? EIP_SCANNER_SHM_MAGIC in
  let st := sm_status m in
  ScannerReport ready (if ready then ss_adapter_state st else 0) (if ready then ss_devices_online st else 0)
    (sm_abi_version m) (sm_layout_bytes m) (sm_device_count m) (sm_input_bytes m) (sm_o2t_total_bytes m)
    (if ready then ss_cycles st else 0) (if ready then ss_forward_opens st else 0)
    (if ready then ss_connection_losses st else 0) (if ready then ss_out_of_order st else 0)
    (if ready then ss_last_error st else 0).

(** One load at a time. *)
Ltac peek_step :=
  match goal with
  | Hc : calm ?P ?w, Hk : w_k ?w = ?k |- context [peek ?pid ?b ?f ?w] =>
      let w' := fresh "w" in let E := fresh "E" in let Hc' := fresh "Hc" in
      destruct (peek_calm pid P b f w Hc) as (w' & -> & E & Hc'); rewrite Hk in E |- *; clear Hc Hk
  | Hc : calm ?P ?w, Hk : w_k ?w = ?k |- context [peek_if ?pid ?r ?b ?f ?o ?w] =>
      let w' := fresh "w" in let E := fresh "E" in let Hc' := fresh "Hc" in
      destruct (peek_if_calm pid P r b f o w Hc) as (w' & -> & E & Hc'); rewrite Hk in E |- *; clear Hc Hk
  end.

Lemma read_adapter_calm pid P base k w :
  calm P w -> w_k w = k -> exists w', read_adapter pid base w = (adapter_view (deref pid k base), w') /\ w_k w' = k /\ calm P w'.
Proof. intros Hc Hk. unfold read_adapter. repeat peek_step. eexists. split; [reflexivity|]. done. Qed.

Lemma read_scanner_calm pid P base k w :
  calm P w -> w_k w = k -> exists w', read_scanner pid base w = (scanner_view (deref pid k base), w') /\ w_k w' = k /\ calm P w'.
Proof. intros Hc Hk. unfold read_scanner. repeat peek_step. eexists. split; [reflexivity|]. done. Qed.

Definition adapter_region (instance : cstr) : string :=
  eip_shm_name EIP_SHM_NAME_MAX (Some (String.string_of_list_ascii instance)).
Definition scanner_region_name (instance : cstr) : string :=
  eip_scanner_shm_name EIP_SCANNER_SHM_NAME_MAX (Some (String.string_of_list_ascii instance)).

(** What a role prints when it finds [m], or nothing. *)
Definition adapter_answer (instance : cstr) (m : option eip_shm) : Z * list cstr :=
  match m with
  | None => (STATUS_ABSENT, [])
  | Some m => (adapter_code (adapter_view m), [json_line (adapter_json instance (adapter_region instance) (adapter_view m))])
  end.
Definition scanner_answer (instance : cstr) (m : option eip_scanner_shm) : Z * list cstr :=
  match m with
  | None => (STATUS_ABSENT, [])
  | Some m => (scanner_code (scanner_view m), [json_line (scanner_json instance (scanner_region_name instance) (scanner_view m))])
  end.

Lemma print_adapter_calm pid P instance w :
  calm P w -> kernel_fresh (w_k w) ->
  exists m w', print_adapter pid instance w = (adapter_answer instance m, w') /\ unchanged (w_k w) (w_k w') /\
    (m = published (w_k w) (adapter_region instance) sizeof_eip_shm \/ m = None /\ some_failure P).
Proof.
  intros Hc Hf. unfold print_adapter. cbv zeta. fold (adapter_region instance).
  destruct (map_ro_calm pid P (adapter_region instance) sizeof_eip_shm w Hc Hf) as (r & w1 & -> & Hc1 & Hr).
  destruct r as [[base n]|].
  - destruct Hr as (Hp & Hb & i & nx & Hk1). destruct (read_adapter_calm pid P base _ w1 Hc1 eq_refl) as (w2 & -> & Hk2 & Hc2).
    rewrite Hk1 in Hk2. destruct (munmap_calm pid P _ base i nx w2 Hc2 Hb Hk2) as [_ Hu].
    rewrite ?adapter_line_json, ?scanner_line_json. eexists (Some _), _. split; [reflexivity|]. split; [done|]. left. by rewrite Hp.
  - destruct Hr as [Hu Hor]. exists None, w1. split; [reflexivity|]. split; [done|]. destruct Hor as [->|?]; auto.
Qed.

Lemma print_scanner_calm pid P instance w :
  calm P w -> kernel_fresh (w_k w) ->
  exists m w', print_scanner pid instance w = (scanner_answer instance m, w') /\ unchanged (w_k w) (w_k w') /\
    (m = published (w_k w) (scanner_region_name instance) sizeof_eip_scanner_shm \/ m = None /\ some_failure P).
Proof.
  intros Hc Hf. unfold print_scanner. cbv zeta. fold (scanner_region_name instance).
  destruct (map_ro_calm pid P (scanner_region_name instance) sizeof_eip_scanner_shm w Hc Hf) as (r & w1 & -> & Hc1 & Hr).
  destruct r as [[base n]|].
  - destruct Hr as (Hp & Hb & i & nx & Hk1). destruct (read_scanner_calm pid P base _ w1 Hc1 eq_refl) as (w2 & -> & Hk2 & Hc2).
    rewrite Hk1 in Hk2. destruct (munmap_calm pid P _ base i nx w2 Hc2 Hb Hk2) as [_ Hu].
    rewrite ?adapter_line_json, ?scanner_line_json. eexists (Some _), _. split; [reflexivity|]. split; [done|]. left. by rewrite Hp.
  - destruct Hr as [Hu Hor]. exists None, w1. split; [reflexivity|]. split; [done|]. destruct Hor as [->|?]; auto.
Qed.

(** The exit code and the line, given what the two roles found. *)
Definition status_answer (instance : cstr) (a : option eip_shm) (s : option eip_scanner_shm) : Z * list cstr :=
  match a, s with
  | Some m, _ => adapter_answer instance (Some m)
  | None, Some m => scanner_answer instance (Some m)
  | None, None => (STATUS_ABSENT, [json_line (absent_json instance)])
  end.

Lemma adapter_code_present r : (adapter_code r =? STATUS_ABSENT) = false.
Proof. unfold adapter_code. by destruct (_ && _). Qed.
Lemma scanner_code_present r : (scanner_code r =? STATUS_ABSENT) = false.
Proof. unfold scanner_code. by destruct (_ && _). Qed.

Definition asked {T} (b : bool) (m : option T) : option T := if b then m else None.

Lemma status_calm with_eip with_scanner pid P Q instance w ws :
  calm P w -> kernel_fresh (w_k w) -> calm Q ws -> kernel_fresh (w_k ws) ->
  exists a s w' ws', softplc_print_status with_eip with_scanner pid instance w ws = (status_answer instance a s, w', ws') /\
    unchanged (w_k w) (w_k w') /\ unchanged (w_k ws) (w_k ws') /\
    (a = asked with_eip (published (w_k w) (adapter_region instance) sizeof_eip_shm) \/ a = None /\ some_failure P) /\
    (s = asked with_scanner (published (w_k ws) (scanner_region_name instance) sizeof_eip_scanner_shm) \/ s = None /\ some_failure Q
     \/ is_Some a).
Proof.
  intros Hc Hf Hcs Hfs. unfold softplc_print_status.
  assert (exists a w', (if with_eip then print_adapter pid instance w else (STATUS_ABSENT, [], w)) = (adapter_answer instance a, w') /\
    unchanged (w_k w) (w_k w') /\
    (a = asked with_eip (published (w_k w) (adapter_region instance) sizeof_eip_shm) \/ a = None /\ some_failure P)) as Ha.
  { destruct with_eip; [by apply print_adapter_calm|]. exists None, w. split; [done|]. split; [apply unchanged_refl|by left]. }
  destruct Ha as (a & w' & -> & Hu & Ha). destruct a as [m|].
  { cbn [adapter_answer]. rewrite adapter_code_present. cbn [negb]. exists (Some m), None, w', ws.
    split; [done|]. split; [done|]. split; [apply unchanged_refl|]. split; [done|]. right. right. by eexists. }
  cbn [adapter_answer]. rewrite Z.eqb_refl. cbn [negb].
  assert (exists s ws', (if with_scanner then print_scanner pid instance ws else (STATUS_ABSENT, [], ws)) = (scanner_answer instance s, ws') /\
    unchanged (w_k ws) (w_k ws') /\
    (s = asked with_scanner (published (w_k ws) (scanner_region_name instance) sizeof_eip_scanner_shm) \/ s = None /\ some_failure Q)) as Hs.
  { destruct with_scanner; [by apply print_scanner_calm|]. exists None, ws. split; [done|]. split; [apply unchanged_refl|by left]. }
  destruct Hs as (s & ws' & -> & Hus & Hs). exists None, s, w', ws'. destruct s as [m|].
  - cbn [scanner_answer]. rewrite scanner_code_present. cbn [negb]. tauto.
  - cbn [scanner_answer]. rewrite Z.eqb_refl, absent_line_json. cbn [negb]. tauto.
Qed.

Definition status_json (instance : cstr) (a : option eip_shm) (s : option eip_scanner_shm) : json :=
  match a, s with
  | Some m, _ => adapter_json instance (adapter_region instance) (adapter_view m)
  | None, Some m => scanner_json instance (scanner_region_name instance) (scanner_view m)
  | None, None => absent_json instance
  end.

Lemma status_answer_text instance a s : (status_answer instance a s).2 = [json_line (status_json instance a s)].
Proof. by destruct a, s. Qed.

(** ** Well-typed contents *)

Definition is_u32 (n : Z) : bool := (0 <=? n) && (n <? 2 ^ 32).
Definition is_u64 (n : Z) : bool := (0 <=? n) && (n <? 2 ^ 64).

Definition adapter_typed (m : eip_shm) : bool :=
  forallb is_u32 [em_magic m; em_abi_version m; em_layout_bytes m; em_output_bytes m; em_input_bytes m;
                  em_produced_assembly m; em_consumed_assembly m; es_adapter_state (em_status m); es_io_connections (em_status m)] &&
  forallb is_u64 [es_cycles (em_status m); es_assembly_writes (em_status m); es_last_error (em_status m)].
Definition scanner_typed (m : eip_scanner_shm) : bool :=
  forallb is_u32 [sm_magic m; sm_abi_version m; sm_layout_bytes m; sm_device_count m; sm_input_bytes m; sm_o2t_total_bytes m;
                  ss_adapter_state (sm_status m); ss_devices_online (sm_status m)] &&
  forallb is_u64 [ss_cycles (sm_status m); ss_forward_opens (sm_status m); ss_connection_losses (sm_status m);
                  ss_out_of_order (sm_status m); ss_last_error (sm_status m)].

Lemma txt_app s t : txt (s +:+ t) = txt s ++ txt t.
Proof. unfold txt. induction s as [|c s IH]; [done|]. simpl. f_equal. exact IH. Qed.

Lemma txt_substring s : forall n, txt (String.substring 0 n s) = take n (txt s).
Proof. unfold txt. induction s as [|c s IH]; intros [|n]; simpl; try done. f_equal. apply IH. Qed.

Lemma txt_str (s : cstr) : txt (String.string_of_list_ascii s) = s.
Proof. apply String.list_ascii_of_string_of_list_ascii. Qed.

Lemma plain_app s t : plain_text (s ++ t) = plain_text s && plain_text t.
Proof. apply forallb_app. Qed.

Lemma plain_take n s : plain_text s = true -> plain_text (take n s) = true.
Proof.
  intros Hs. rewrite <- (take_drop n s), plain_app in Hs. by apply andb_true_iff in Hs as [? _].
Qed.

Lemma region_plain instance suffix n :
  plain_text instance = true -> plain_text (txt suffix) = true ->
  plain_text (txt (snprintf_s n ("/softplc." +:+
    (if bool_decide (String.string_of_list_ascii instance = "") then "default" else String.string_of_list_ascii instance) +:+ suffix))) = true.
Proof.
  intros Hi Hs. unfold snprintf_s. rewrite txt_substring. apply plain_take. rewrite !txt_app, !plain_app, Hs, andb_true_r.
  case_bool_decide; [reflexivity|]. rewrite txt_str, Hi. reflexivity.
Qed.

Lemma state_name_plain s : plain_text (state_name s) = true.
Proof. unfold state_name, plc_adapter_state_name. by repeat case_match. Qed.

Lemma num_ok n : is_u32 n || is_u64 n = true -> (0 <=? n) && (n <? 10 ^ 20) = true.
Proof. unfold is_u32, is_u64. lia. Qed.

Lemma u32_or (b : bool) n : is_u32 n = true -> is_u32 (if b then n else 0) = true.
Proof. by destruct b. Qed.
Lemma u64_or (b : bool) n : is_u64 n = true -> is_u64 (if b then n else 0) = true.
Proof. by destruct b. Qed.

Lemma status_json_ok instance a s :
  plain_text instance = true -> match a with Some m => adapter_typed m | None => true end = true ->
  match s with Some m => scanner_typed m | None => true end = true ->
  json_ok (status_json instance a s) = true.
Proof.
  intros Hi Ha Hs.
  assert (forall n, is_u32 n = true -> (0 <=? n) && (n <? 10 ^ 20) = true) as N32 by (intros n Hn; apply num_ok; by rewrite Hn).
  assert (forall n, is_u64 n = true -> (0 <=? n) && (n <? 10 ^ 20) = true) as N64 by (intros n Hn; apply num_ok; by rewrite Hn, orb_true_r).
  pose proof (region_plain instance ".eip" 128 Hi eq_refl) as Hr1. pose proof (region_plain instance ".eipscan" 128 Hi eq_refl) as Hr2.
  destruct a as [m|]; [|destruct s as [m|]; [|cbn; by rewrite Hi]].
  - unfold adapter_typed in Ha. cbn [forallb] in Ha. rewrite !andb_true_iff in Ha. cbn -[Z.pow adapter_region state_name txt plain_text].
    rewrite Hi, state_name_plain. change (plain_text (txt (adapter_region instance)) = true) in Hr1. rewrite Hr1.
    rewrite !N32, !N64 by (first [apply u32_or|apply u64_or|idtac]; tauto). reflexivity.
  - unfold scanner_typed in Hs. cbn [forallb] in Hs. rewrite !andb_true_iff in Hs. cbn -[Z.pow scanner_region_name state_name txt plain_text].
    rewrite Hi, state_name_plain. change (plain_text (txt (scanner_region_name instance)) = true) in Hr2. rewrite Hr2.
    rewrite !N32, !N64 by (first [apply u32_or|apply u64_or|idtac]; tauto). reflexivity.
Qed.

(** ** Properties *)

Definition adapter_up (m : eip_shm) : Prop :=
  em_magic m = EIP_SHM_MAGIC /\ es_adapter_state (em_status m) = plc_adapter_state_code PLC_ADAPTER_ONLINE /\
  0 < es_io_connections (em_status m).
Definition scanner_up (m : eip_scanner_shm) : Prop :=
  sm_magic m = EIP_SCANNER_SHM_MAGIC /\ ss_adapter_state (sm_status m) = plc_adapter_state_code PLC_ADAPTER_ONLINE /\
  sm_device_count m <> 0 /\ ss_devices_online (sm_status m) = sm_device_count m.

Lemma adapter_code_up m : adapter_code (adapter_view m) = STATUS_OK <-> adapter_up m.
Proof.
  unfold adapter_code, adapter_view, adapter_up. cbn [ar_ready ar_state ar_conns].
  destruct (Z.eqb_spec (em_magic m) EIP_SHM_MAGIC); [|split; [done|tauto]]. cbn [andb].
  destruct (Z.eqb_spec (es_adapter_state (em_status m)) (plc_adapter_state_code PLC_ADAPTER_ONLINE)); [|split; [done|tauto]].
  cbn [andb]. destruct (Z.gtb_spec (es_io_connections (em_status m)) 0); [tauto|]. split; [done|]. lia.
Qed.

Lemma scanner_code_up m : scanner_code (scanner_view m) = STATUS_OK <-> scanner_up m.
Proof.
  unfold scanner_code, scanner_view, scanner_up. cbn [sr_ready sr_state sr_online sr_devices].
  destruct (Z.eqb_spec (sm_magic m) EIP_SCANNER_SHM_MAGIC); [|split; [done|tauto]]. cbn [andb].
  destruct (Z.eqb_spec (sm_device_count m) 0); [split; [done|tauto]|]. cbn [andb negb].
  destruct (Z.eqb_spec (ss_devices_online (sm_status m)) (sm_device_count m)); [|split; [done|tauto]]. cbn [andb].
  destruct (Z.eqb_spec (ss_adapter_state (sm_status m)) (plc_adapter_state_code PLC_ADAPTER_ONLINE)); [tauto|split; [done|tauto]].
Qed.

Lemma status_answer_ok instance a s :
  (status_answer instance a s).1 = STATUS_OK <->
  match a, s with Some m, _ => adapter_up m | None, Some m => scanner_up m | None, None => False end.
Proof. destruct a as [m|]; [apply adapter_code_up|]. destruct s as [m|]; [apply scanner_code_up|done]. Qed.

Lemma status_answer_absent instance a s : (status_answer instance a s).1 = STATUS_ABSENT <-> a = None /\ s = None.
Proof.
  destruct a as [m|]; [pose proof (adapter_code_present (adapter_view m)) as Hp; apply Z.eqb_neq in Hp; simpl; split; [done|by intros [? ?]]|].
  destruct s as [m|]; [pose proof (scanner_code_present (scanner_view m)) as Hp; apply Z.eqb_neq in Hp; simpl; split; [done|by intros [? ?]]|done].
Qed.

Lemma quiet_calm {M} (w : world M) : quiet w -> calm (fun _ => True) w.
Proof. apply List.Forall_impl. auto. Qed.

(** No event changes anything or makes a call fail. *)
Definition still {M} (w : world M) : Prop := Forall (fun e => ev_move e = None /\ ev_errno e = 0) (w_script w).

Lemma still_no_failure {M} : ~ some_failure (fun e : event M => ev_errno e = 0).
Proof. by intros (err & Hne & e & He & <-). Qed.

Lemma status_still with_eip with_scanner pid instance w ws :
  still w -> kernel_fresh (w_k w) -> still ws -> kernel_fresh (w_k ws) ->
  (softplc_print_status with_eip with_scanner pid instance w ws).1.1 =
    status_answer instance (asked with_eip (published (w_k w) (adapter_region instance) sizeof_eip_shm))
      (asked with_scanner (published (w_k ws) (scanner_region_name instance) sizeof_eip_scanner_shm)).
Proof.
  intros Hw Hk Hws Hks.
  destruct (status_calm with_eip with_scanner pid _ _ instance w ws Hw Hk Hws Hks) as (a & s & w' & ws' & -> & _ & _ & Ha & Hs).
  cbn [fst]. destruct Ha as [<-|[_ Hf]]; [|by apply still_no_failure in Hf].
  destruct Hs as [<-|[[_ Hf]|[m Hm]]]; [done|by apply still_no_failure in Hf|]. by rewrite Hm.
Qed.

(** [C25] The probe is exact.  With nobody changing the regions meanwhile and no
    call failing, the exit code and the line printed are those of the region the
    instance publishes, the adapter's before the scanner's: 4 exactly when neither
    is published (absent, or smaller than the structure), 0 exactly when it is
    ready, ONLINE and has a connection, or all of its devices, and 3 otherwise. *)
Theorem status_exact (with_eip with_scanner : bool) (pid : Z) (instance : cstr) (w : world eip_shm) (ws : world eip_scanner_shm)
    (Hw : still w) (Hk : kernel_fresh (w_k w)) (Hws : still ws) (Hks : kernel_fresh (w_k ws))
    (a := asked with_eip (published (w_k w) (adapter_region instance) sizeof_eip_shm))
    (s := asked with_scanner (published (w_k ws) (scanner_region_name instance) sizeof_eip_scanner_shm)) :
  let '(rc, out, _, _) := softplc_print_status with_eip with_scanner pid instance w ws in
  out = [json_line (status_json instance a s)] /\
  (rc = STATUS_ABSENT <-> a = None /\ s = None) /\
  (rc = STATUS_OK <-> match a, s with Some m, _ => adapter_up m | None, Some m => scanner_up m | None, None => False end) /\
  (rc = STATUS_OK \/ rc = STATUS_NOT_READY \/ rc = STATUS_ABSENT).
Proof.
  pose proof (status_still with_eip with_scanner pid instance w ws Hw Hk Hws Hks) as Hst. fold a s in Hst.
  destruct (softplc_print_status _ _ _ _ _ _) as [[[rc out] w'] ws']. cbn [fst] in Hst.
  pose proof (status_answer_text instance a s) as Ht. pose proof (status_answer_absent instance a s) as Hab.
  pose proof (status_answer_ok instance a s) as Hok.
  assert ((status_answer instance a s).1 = 0 \/ (status_answer instance a s).1 = 3 \/ (status_answer instance a s).1 = 4) as Hc.
  { destruct a, s; simpl; unfold adapter_code, scanner_code; try destruct (_ && _); auto. }
  rewrite <- Hst in *. simpl in *. by subst out.
Qed.

(** The probe only looks.  Whichever of its calls fail, and with whatever
    error, as long as the others do nothing both kernels are afterwards what they
    were: no descriptor, no mapping, no lock and no byte of a region differs; it
    prints one line; and it exits with 0 only if a published region says the
    instance is up. *)
Theorem status_observes_only (with_eip with_scanner : bool) (pid : Z) (instance : cstr) (w : world eip_shm) (ws : world eip_scanner_shm)
    (Hw : quiet w) (Hk : kernel_fresh (w_k w)) (Hws : quiet ws) (Hks : kernel_fresh (w_k ws)) :
  let '(rc, out, w', ws') := softplc_print_status with_eip with_scanner pid instance w ws in
  unchanged (w_k w) (w_k w') /\ unchanged (w_k ws) (w_k ws') /\ length out = 1%nat /\
  (rc = STATUS_OK ->
     (exists m, published (w_k w) (adapter_region instance) sizeof_eip_shm = Some m /\ adapter_up m) \/
     (exists m, published (w_k ws) (scanner_region_name instance) sizeof_eip_scanner_shm = Some m /\ scanner_up m)).
Proof.
  destruct (status_calm with_eip with_scanner pid _ _ instance w ws (quiet_calm w Hw) Hk (quiet_calm ws Hws) Hks)
    as (a & s & w' & ws' & -> & Hu & Hus & Ha & Hs).
  pose proof (status_answer_text instance a s) as Ht. pose proof (status_answer_ok instance a s) as Hok.
  destruct (status_answer instance a s) as [rc out]. simpl in *. subst out. do 2 (split; [done|]). split; [done|].
  intros Hup%Hok. destruct a as [m|].
  - left. exists m. split; [|done]. destruct Ha as [Ha|[? _]]; [|done]. by destruct with_eip.
  - destruct s as [m|]; [|done]. right. exists m. split; [|done]. destruct Hs as [Hs|[[? _]|[? ?]]]; try done. by destruct with_scanner.
Qed.

(** [C26] What the format strings print reads back.  For an instance name without
    quotes, backslashes and control characters, and regions whose fields are
    numbers of their C types, every directive of the three formats meets its
    argument, the line is a JSON text, and reading it gives the object whose members
    are the fields of the region, each under its own name. *)
Theorem status_text_reads_back (with_eip with_scanner : bool) (pid : Z) (instance : cstr) (w : world eip_shm) (ws : world eip_scanner_shm)
    (Hw : still w) (Hk : kernel_fresh (w_k w)) (Hws : still ws) (Hks : kernel_fresh (w_k ws))
    (a := asked with_eip (published (w_k w) (adapter_region instance) sizeof_eip_shm))
    (s := asked with_scanner (published (w_k ws) (scanner_region_name instance) sizeof_eip_scanner_shm))
    (Hi : plain_text instance = true) (Ha : match a with Some m => adapter_typed m | None => true end = true)
    (Hs : match s with Some m => scanner_typed m | None => true end = true) :
  let '(_, out, _, _) := softplc_print_status with_eip with_scanner pid instance w ws in
  exists line, out = [line] /\ parse_json line = Some (status_json instance a s).
Proof.
  pose proof (status_still with_eip with_scanner pid instance w ws Hw Hk Hws Hks) as Hst. fold a s in Hst.
  destruct (softplc_print_status _ _ _ _ _ _) as [[[rc out] w'] ws']. cbn [fst] in Hst.
  pose proof (status_answer_text instance a s) as Ht. rewrite <- Hst in Ht. simpl in Ht. subst out.
  eexists. split; [reflexivity|]. apply parse_line. by apply status_json_ok.
Qed.

(** One adapter region, owned by process 7, and no scanner. *)
Definition ex_line : cstr := txt "line1".
Definition ex_up : eip_shm :=
  EipShm EIP_SHM_MAGIC 2 sizeof_eip_shm 32 32 100 150 (EipStatus 2 1 10 5 0) ring_zero ring_zero.
Definition ex_region (m : eip_shm) : kernel eip_shm :=
  Kernel {[ adapter_region ex_line := 3 ]} {[ 3 := Inode sizeof_eip_shm m (Some (7, 4)) ]} {[ (7, 4) := 3 ]} {[ (7, 5) := 3 ]} ∅ ∅ 6.

Lemma ex_region_fresh m : kernel_fresh (ex_region m).
Proof.
  unfold kernel_fresh, ex_region. simpl. split; [lia|]. split; [|split; [|split]]; apply map_Forall_singleton; simpl.
  - lia.
  - lia.
  - split; [lia|]. intros p fd [= <- <-]. lia.
  - lia.
Qed.

Lemma kernel_empty_fresh {M} : kernel_fresh (@kernel_empty M).
Proof. unfold kernel_fresh, kernel_empty. simpl. split; [lia|]. do 3 (split; [apply map_Forall_empty|]). apply map_Forall_empty. Qed.

Lemma status_exact_witness :
  (softplc_print_status true true 9 ex_line (World (ex_region ex_up) 0 []) (World kernel_empty 0 [])).1.1.1 = STATUS_OK.
Proof.
  pose proof (status_exact true true 9 ex_line (World (ex_region ex_up) 0 []) (World kernel_empty 0 [])
    (List.Forall_nil _) (ex_region_fresh ex_up) (List.Forall_nil _) kernel_empty_fresh) as Ht.
  destruct (softplc_print_status true true 9 ex_line _ _) as [[[rc out] w'] ws']. apply Ht. vm_compute. done.
Defined.

(** [mmap] fails: the region is there, but the answer is that it is not. *)
Lemma status_observes_only_witness :
  let '(rc, out, w', _) := softplc_print_status true false 9 ex_line
      (World (ex_region ex_up) 0 [Event 0 None 0; Event 0 None 0; Event 0 None EMFILE]) (World kernel_empty 0 []) in
  rc = STATUS_ABSENT /\ unchanged (ex_region ex_up) (w_k w').
Proof.
  set (w := World (ex_region ex_up) 0 [Event 0 None 0; Event 0 None 0; Event 0 None EMFILE]).
  assert (quiet w) as Hq by (repeat constructor).
  pose proof (status_observes_only true false 9 ex_line w (World kernel_empty 0 []) Hq (ex_region_fresh ex_up)
    (List.Forall_nil _) kernel_empty_fresh) as Ht.
  assert ((softplc_print_status true false 9 ex_line w (World kernel_empty 0 [])).1.1.1 = STATUS_ABSENT) as Hrc by (vm_compute; reflexivity).
  destruct (softplc_print_status true false 9 ex_line w (World kernel_empty 0 [])) as [[[rc out] w'] ws'].
  split; [exact Hrc|exact (proj1 Ht)].
Defined.

Lemma status_text_reads_back_witness :
  let '(_, out, _, _) := softplc_print_status true true 9 ex_line (World (ex_region ex_up) 0 []) (World kernel_empty 0 []) in
  exists line, out = [line] /\ parse_json line = Some (adapter_json ex_line (adapter_region ex_line) (adapter_view ex_up)).
Proof.
  pose proof (status_text_reads_back true true 9 ex_line (World (ex_region ex_up) 0 []) (World kernel_empty 0 [])
    (List.Forall_nil _) (ex_region_fresh ex_up) (List.Forall_nil _) kernel_empty_fresh eq_refl) as Ht.
  destruct (softplc_print_status true true 9 ex_line _ _) as [[[rc out] w'] ws']. apply Ht; vm_compute; reflexivity.
Defined.

(** The instance name is printed as it is.  A name with quotes in it turns
    into members of its own: for the name below, nothing is published, and the text
    reads as an object that says so under another instance name, and with a member
    [ready] that is true before the one that is false. *)
Theorem status_name_not_escaped :
  let q := [quote] in
  let instance := txt "a" ++ q ++ txt "," ++ q ++ txt "ready" ++ q ++ txt ":true," ++ q ++ txt "b" ++ q ++ txt ":" ++ q ++ txt "c" in
  match softplc_print_status true true 9 instance (World kernel_empty 0 []) (World kernel_empty 0 []) with
  | (rc, [line], _, _) =>
      rc = STATUS_ABSENT /\
      parse_json line = Some (obj [("instance", JStr (txt "a")); ("ready", JBool true); ("b", JStr (txt "c")); ("role", JNull);
                                   ("ready", JBool false); ("error", JStr (txt "no published region for this instance"))])
  | _ => False
  end.
Proof. vm_compute. split; reflexivity. Qed.

(** The fields are read one after the other, so a probe can report a
    combination that never was: the adapter is ONLINE without a connection, then
    has a connection but is no longer ONLINE, and a probe that runs across the
    change exits with 0. *)
Theorem status_mixes_moments :
  let m0 := ex_up <| em_status := EipStatus 2 0 10 5 0 |> in
  let m1 := ex_up <| em_status := EipStatus 3 1 11 5 0 |> in
  let still := Event 0 None 0 in
  let w := World (ex_region m0) 0 [still; still; still; still; still; still;
             Event 0 (Some (fun k => k_set_inode k 3 (Inode sizeof_eip_shm m1 (Some (7, 4))))) 0] in
  ~ adapter_up m0 /\ ~ adapter_up m1 /\
  (softplc_print_status true false 9 ex_line w (World kernel_empty 0 [])).1.1.1 = STATUS_OK.
Proof.
  split; [|split].
  - unfold adapter_up. simpl. lia.
  - unfold adapter_up. simpl. lia.
  - vm_compute. reflexivity.
Qed.
