(* ===== verification/Log.v ===== *)
(** * Logging

    [src/core/plc_log.c]: the threshold and the component tag, and the line a
    message becomes.  [vfprintf]'s expansion of the caller's format is the text
    handed over; the wall clock is an argument.

    The theorem: whatever is called in whatever order, the threshold stays one of
    the four levels and the tag fits its buffer, so a level that passes the filter
    always has a name; and a message is written exactly when its level is at or
    below the threshold. *)

From Stdlib Require Import ZArith Lia Ascii.
From stdpp Require Import base list strings tactics.
From S2P Require Import Prelude PlcTypes Config.

Definition PLC_LOG_LEVEL_ERROR : Z := 0.
Definition PLC_LOG_LEVEL_WARN : Z := 1.
Definition PLC_LOG_LEVEL_INFO : Z := 2.
Definition PLC_LOG_LEVEL_DEBUG : Z := 3.
Definition COMPONENT_BYTES : Z := 32.

(** [g_level] and [g_component]. *)
Record log_state : Type := LogState {
  lg_level : Z;
  lg_component : cstr
}.
#[export] Instance eta_log_state : Eta log_state := fun r =>
  LogState (lg_level r) (lg_component r).

Definition log_start : log_state := LogState PLC_LOG_LEVEL_INFO (txt "softplc").

Definition kNames : list string := ["ERROR"; "WARN"; "INFO"; "DEBUG"].

Definition plc_log_set_level (level : Z) (s : log_state) : log_state :=
  let level := if level <? PLC_LOG_LEVEL_ERROR then PLC_LOG_LEVEL_ERROR else level in
  let level := if level >? PLC_LOG_LEVEL_DEBUG then PLC_LOG_LEVEL_DEBUG else level in
  s <| lg_level := level |>.

Definition plc_log_level (s : log_state) : Z := lg_level s.

Definition plc_log_init (getenv : cstr -> option cstr) (t : cfg_table) (component : option cstr) (s : log_state) : log_state :=
  let s := match component with
           | Some c => s <| lg_component := take (Z.to_nat (COMPONENT_BYTES - 1)) c |>
           | None => s
           end in
  match plc_cfg_str getenv t (Some (txt "SOFTPLC_LOG_LEVEL")) None with
  | None => s
  | Some level =>
      if bool_decide (level = txt "error") then s <| lg_level := PLC_LOG_LEVEL_ERROR |>
      else if bool_decide (level = txt "warn") then s <| lg_level := PLC_LOG_LEVEL_WARN |>
      else if bool_decide (level = txt "info") then s <| lg_level := PLC_LOG_LEVEL_INFO |>
      else if bool_decide (level = txt "debug") then s <| lg_level := PLC_LOG_LEVEL_DEBUG |>
      else s
  end.

(** [%0nd] of a number that is not negative. *)
Definition zero_pad (n : nat) (x : Z) : cstr := let d := decimal 20 x in replicate (n - length d) "0"%char ++ d.

(** [gmtime_r]'s date of a day counted from 1970-01-01: year, month, day. *)
Definition civil_of_days (days : Z) : Z * Z * Z :=
  let z := days + 719468 in
  let era := z / 146097 in
  let doe := z mod 146097 in
  let yoe := (doe - doe / 1460 + doe / 36524 - doe / 146096) / 365 in
  let doy := doe - (365 * yoe + yoe / 4 - yoe / 100) in
  let mp := (5 * doy + 2) / 153 in
  let d := doy - (153 * mp + 2) / 5 + 1 in
  let m := if mp <? 10 then mp + 3 else mp - 9 in
  (yoe + era * 400 + (if m <=? 2 then 1 else 0), m, d).

(** [strftime("%Y-%m-%dT%H:%M:%S")] of a time after the epoch. *)
Definition stamp (sec : Z) : cstr :=
  let '(y, m, d) := civil_of_days (sec / 86400) in
  let t := sec mod 86400 in
  decimal 20 y ++ txt "-" ++ zero_pad 2 m ++ txt "-" ++ zero_pad 2 d ++ txt "T" ++
  zero_pad 2 (t / 3600) ++ txt ":" ++ zero_pad 2 (t / 60 mod 60) ++ txt ":" ++ zero_pad 2 (t mod 60).

(** [%-5s]. *)
Definition pad_right (n : nat) (s : cstr) : cstr := s ++ replicate (n - length s) " "%char.

(** The lines written for a message; [None] is a read outside [kNames]. *)
Definition plc_log_write (level : Z) (now : Z * Z) (text : cstr) (s : log_state) : option (list cstr) :=
  if level >? lg_level s then Some []
  else
    match (if level <? 0 then None else kNames !! Z.to_nat level) with
    | None => None
    | Some name =>
        Some [stamp now.1 ++ txt "." ++ zero_pad 3 (now.2 / 1000000) ++ txt "Z " ++ pad_right 5 (txt name) ++ txt " [" ++
              lg_component s ++ txt "] " ++ text]
    end.

Example stamp_leap : stamp 951827696 = txt "2000-02-29T12:34:56".
Proof. vm_compute. reflexivity. Qed.
Example stamp_recent : stamp 1767225599 = txt "2025-12-31T23:59:59".
Proof. vm_compute. reflexivity. Qed.

(** ** Properties *)

(** A call that changes the state. *)
Inductive log_call : log_state -> log_state -> Prop :=
| call_set_level level s : log_call s (plc_log_set_level level s)
| call_init getenv t component s : log_call s (plc_log_init getenv t component s).

(** The states there can be. *)
Inductive log_reachable : log_state -> Prop :=
| reach_start : log_reachable log_start
| reach_call s s' : log_reachable s -> log_call s s' -> log_reachable s'.

Definition log_inv (s : log_state) : Prop :=
  PLC_LOG_LEVEL_ERROR <= lg_level s <= PLC_LOG_LEVEL_DEBUG /\ zlen (lg_component s) < COMPONENT_BYTES.

Lemma log_call_inv s s' : log_inv s -> log_call s s' -> log_inv s'.
Proof.
  unfold log_inv, PLC_LOG_LEVEL_ERROR, PLC_LOG_LEVEL_DEBUG. intros Hinv Hcall. revert Hinv.
  destruct Hcall as [level s0|getenv t component s0]; intros [Hl Hc].
  - unfold plc_log_set_level, PLC_LOG_LEVEL_ERROR, PLC_LOG_LEVEL_DEBUG. simpl. split; [|done].
    destruct (Z.ltb_spec level 0); [simpl; lia|]. destruct (Z.gtb_spec level 3); lia.
  - unfold plc_log_init. cbv zeta.
    set (s1 := match component with Some c => _ | None => s0 end).
    assert (0 <= lg_level s1 <= 3 /\ zlen (lg_component s1) < COMPONENT_BYTES) as [Hl1 Hc1].
    { subst s1. destruct component as [c|]; [|done]. simpl. split; [done|]. unfold zlen, COMPONENT_BYTES. rewrite length_take. lia. }
    clearbody s1. destruct (plc_cfg_str _ _ _ _) as [l|]; [|done].
    unfold PLC_LOG_LEVEL_ERROR, PLC_LOG_LEVEL_WARN, PLC_LOG_LEVEL_INFO, PLC_LOG_LEVEL_DEBUG.
    repeat (destruct (bool_decide _); [simpl; split; [lia|done]|]). done.
Qed.

(** The log stays inside its tables.  In every state the calls can bring
    about, the threshold is one of the four levels and the tag fits its buffer;
    a message of a level from ERROR on is written, as one line, exactly when its
    level is not above the threshold, and the table of names is never read
    outside its four entries. *)
Theorem log_filters_in_bounds (s : log_state) (level : Z) (now : Z * Z) (text : cstr)
    (Hs : log_reachable s) (Hlevel : PLC_LOG_LEVEL_ERROR <= level) :
  PLC_LOG_LEVEL_ERROR <= plc_log_level s <= PLC_LOG_LEVEL_DEBUG /\ zlen (lg_component s) < COMPONENT_BYTES /\
  exists lines, plc_log_write level now text s = Some lines /\
    (level <= plc_log_level s -> length lines = 1%nat) /\ (plc_log_level s < level -> lines = []).
Proof.
  assert (log_inv s) as [Hl Hc] by (induction Hs; [vm_compute; split; [split; discriminate|reflexivity]|by eapply log_call_inv]).
  split; [exact Hl|split; [exact Hc|]]. unfold plc_log_level, PLC_LOG_LEVEL_ERROR, PLC_LOG_LEVEL_DEBUG in *. unfold plc_log_write.
  destruct (Z.gtb_spec level (lg_level s)); [eexists; split; [reflexivity|]; split; [lia|done]|].
  destruct (Z.ltb_spec level 0); [lia|].
  destruct (lookup_lt_is_Some_2 kNames (Z.to_nat level)) as [name ->]; [simpl; lia|].
  eexists. split; [reflexivity|]. split; [done|lia].
Qed.

Lemma log_filters_in_bounds_witness :
  let s := plc_log_set_level 900 (plc_log_init (fun _ => None) (Table [] []) (Some (txt "eip-adapter")) log_start) in
  plc_log_level s = 3 /\
  exists line, plc_log_write 1 (1767225599, 5000000) (txt "core gone") s = Some [line] /\
    line = txt "2025-12-31T23:59:59.005Z WARN  [eip-adapter] core gone".
Proof.
  intros s.
  assert (log_reachable s) as Hr
    by (eapply reach_call; [eapply reach_call; [apply reach_start|apply call_init]|apply call_set_level]).
  destruct (log_filters_in_bounds s 1 (1767225599, 5000000) (txt "core gone") Hr ltac:(vm_compute; discriminate)) as (_ & _ & lines & Hw & _).
  vm_compute in Hw. injection Hw as Hw. split; [reflexivity|]. eexists. split; [vm_compute; reflexivity|reflexivity].
Defined.
