(* ===== verification/WireFrame.v ===== *)
(** * Frames on the impaired wire

    The part of [tools/cip_impair.c] that looks into a frame: recognising CIP
    I/O datagrams ([is_cip_io]) and repairing the length and checksum fields of a
    frame before it is sent again ([ones_complement], [fix_checksums]).  Offsets
    are from the start of the Ethernet frame; the source's [ip] is offset 14.

    The reference is RFC 1071 addition, one word after the other with the carry
    brought round each time ([oc_sum]); the source adds everything first and
    folds the carries at the end.  The theorem is about the receiver: every check
    an IPv4 stack makes of the header, of a UDP datagram and of a TCP segment
    passes, the length field is one the frame can hold, and no other byte has
    changed. *)

From Stdlib Require Import ZArith Lia.
From stdpp Require Import base list tactics.
From S2P Require Import Prelude.

Definition CIP_IO_PORT : Z := 2222.
Definition MAX_FRAME : Z := 2048.
Definition ETH_P_IP : Z := 2048.
Definition IPPROTO_TCP : Z := 6.
Definition IPPROTO_UDP : Z := 17.

(** [p[off] << 8 | p[off + 1]], and the two assignments that store it. *)
Definition be16 (p : list Z) (off : Z) : Z := Z.lor (Z.shiftl (byte_at p off) 8) (byte_at p (off + 1)).
Definition put_be16 (p : list Z) (off v : Z) : list Z := bwrite off [u8 (Z.shiftr v 8); u8 (Z.land v 255)] p.

(** Offset and length of the payload of a CIP I/O frame. *)
Definition is_cip_io (f : list Z) (len : Z) : option (Z * Z) :=
  if len <? 14 + 20 + 8 then None
  else if negb (be16 f 12 =? ETH_P_IP) then None
  else if negb (Z.shiftr (byte_at f 14) 4 =? 4) then None
  else
    let ihl := Z.land (byte_at f 14) 15 * 4 in
    if negb (byte_at f 23 =? IPPROTO_UDP) || (len <? 14 + ihl + 8) then None
    else
      let udp := 14 + ihl in
      let sport := be16 f udp in
      let dport := be16 f (udp + 2) in
      if negb (sport =? CIP_IO_PORT) && negb (dport =? CIP_IO_PORT) then None
      else
        let payload_off := 14 + ihl + 8 in
        let udp_len := be16 f (udp + 4) in
        let body := if udp_len >? 8 then udp_len - 8 else 0 in
        let on_wire := if len >? payload_off then len - payload_off else 0 in
        Some (payload_off, if negb (body =? 0) && (body <=? on_wire) then body else on_wire).

(** [for (i = 0; i + 1 < n; i += 2)], which makes [n / 2] rounds. *)
Fixpoint add_words (rounds : nat) (p : list Z) (i sum : Z) : Z :=
  match rounds with
  | O => sum
  | S rounds => add_words rounds p (i + 2) (u32 (sum + be16 p i))
  end.

(** [while (sum >> 16)]: two rounds bring any [uint32_t] below [2 ^ 16]
    ([fold_carry_norm]), so a third never happens. *)
Fixpoint fold_carry (rounds : nat) (sum : Z) : Z :=
  match rounds with
  | O => sum
  | S rounds => if Z.shiftr sum 16 =? 0 then sum
                else fold_carry rounds (u32 (Z.land sum 65535 + Z.shiftr sum 16))
  end.

Definition ones_complement (p : list Z) (n start : Z) : Z :=
  let sum := add_words (Z.to_nat (n / 2)) p 0 start in
  let sum := if negb (Z.land n 1 =? 0) then u32 (sum + Z.shiftl (byte_at p (n - 1)) 8) else sum in
  u16 (Z.lnot (fold_carry 3 sum)).

(** The part of [fix_checksums] from the pseudo-header on; [l4] is the offset of
    the UDP or TCP header, whose checksum field is zero. *)
Definition fix_l4 (f : list Z) (l4 l4_len proto : Z) : list Z :=
  let pseudo := add_words 4 (drop 14 f) 12 0 in
  let pseudo := u32 (pseudo + proto) in
  let pseudo := u32 (pseudo + l4_len) in
  let pseudo := fold_carry 3 pseudo in
  let ck := ones_complement (drop (Z.to_nat l4) f) l4_len pseudo in
  let ck := if (proto =? IPPROTO_UDP) && (ck =? 0) then 65535 else ck in
  let off := if proto =? IPPROTO_UDP then 6 else 16 in
  put_be16 f (l4 + off) ck.

Definition fix_checksums (f : list Z) (len : Z) : list Z :=
  if len <? 14 + 20 then f
  else if negb (be16 f 12 =? ETH_P_IP) then f
  else if negb (Z.shiftr (byte_at f 14) 4 =? 4) then f
  else
    let ihl := Z.land (byte_at f 14) 15 * 4 in
    if (ihl <? 20) || (len <? 14 + ihl) then f
    else
      let avail := len - 14 in
      let claimed := be16 f 16 in
      let ip_len := if (ihl <=? claimed) && (claimed <=? avail) then claimed else avail in
      let f := put_be16 f 16 ip_len in
      let f := bwrite 24 [0; 0] f in
      let ipck := ones_complement (drop 14 f) ihl 0 in
      let f := put_be16 f 24 ipck in
      let l4_len := ip_len - ihl in
      let l4 := 14 + ihl in
      let proto := byte_at f 23 in
      if negb (proto =? IPPROTO_UDP) && negb (proto =? IPPROTO_TCP) then f
      else if l4_len <? 8 then f
      else if proto =? IPPROTO_UDP then
        let f := put_be16 f (l4 + 4) l4_len in
        fix_l4 (bwrite (l4 + 6) [0; 0] f) l4 l4_len proto
      else if l4_len <? 20 then f
      else fix_l4 (bwrite (l4 + 16) [0; 0] f) l4 l4_len proto.

(** ** The reference *)

(** The big-endian 16-bit words of a byte string, the last one padded. *)
Fixpoint words (l : list Z) : list Z :=
  match l with
  | a :: b :: l => (256 * a + b) :: words l
  | [a] => [256 * a]
  | [] => []
  end.

(** RFC 1071: addition with the carry brought round. *)
Definition oc_add (a b : Z) : Z := if a + b >? 65535 then a + b - 65535 else a + b.
Definition oc_sum (l : list Z) : Z := foldl oc_add 0 (words l).

(** What [fix_checksums] takes for an IPv4 packet. *)
Definition is_ipv4 (f : list Z) (len : Z) : bool :=
  (34 <=? len) && (be16 f 12 =? ETH_P_IP) && (Z.shiftr (byte_at f 14) 4 =? 4) &&
  (20 <=? Z.land (byte_at f 14) 15 * 4) && (14 + Z.land (byte_at f 14) 15 * 4 <=? len).

(** Header and transport part of a packet as a receiver delimits them, and the
    pseudo-header of RFC 768. *)
Definition ip_ihl (f : list Z) : Z := Z.land (byte_at f 14) 15 * 4.
Definition ip_header (f : list Z) : list Z := bslice 14 (ip_ihl f) f.
Definition l4_size (f : list Z) : Z := be16 f 16 - ip_ihl f.
Definition l4_part (f : list Z) : list Z := bslice (14 + ip_ihl f) (l4_size f) f.
Definition pseudo_header (f : list Z) : list Z :=
  bslice 26 8 f ++ [0; byte_at f 23] ++ [l4_size f / 256; l4_size f mod 256].

(** The fields [fix_checksums] may write. *)
Definition repaired_field (f : list Z) (i : Z) : Prop :=
  i = 16 \/ i = 17 \/ i = 24 \/ i = 25 \/
  (byte_at f 23 = IPPROTO_UDP /\ 14 + ip_ihl f + 4 <= i < 14 + ip_ihl f + 8) \/
  (byte_at f 23 = IPPROTO_TCP /\ 14 + ip_ihl f + 16 <= i < 14 + ip_ihl f + 18).

(** ** Sums modulo 65535 *)

Lemma bytes_cons a l : bytes (a :: l) <-> is_byte a /\ bytes l.
Proof. split; [by inversion 1|]. intros []. by constructor. Qed.

Lemma be16_add p off : bytes p -> be16 p off = 256 * byte_at p off + byte_at p (off + 1).
Proof.
  intros Hp. unfold be16. pose proof (byte_at_byte p (off + 1) Hp) as H. rewrite Z.lor_comm.
  rewrite lor_shiftl_add by (unfold is_byte in H; lia). lia.
Qed.

(** The representative of a sum: zero only for zero. *)
Definition norm (s : Z) : Z := if s =? 0 then 0 else (s - 1) mod 65535 + 1.

Lemma norm_small s : 0 <= s <= 65535 -> norm s = s.
Proof. intros. unfold norm. destruct (Z.eqb_spec s 0); [done|]. rewrite Z.mod_small; lia. Qed.

Lemma norm_range s : 0 <= s -> 0 <= norm s <= 65535.
Proof. intros. unfold norm. destruct (Z.eqb_spec s 0); [lia|]. pose proof (Z.mod_pos_bound (s - 1) 65535). lia. Qed.

(** Taking 65535 off does not change it while something is left. *)
Lemma norm_sub s k : 0 < s -> 0 <= k -> norm (s + k * 65535) = norm s.
Proof.
  intros. unfold norm. destruct (Z.eqb_spec s 0), (Z.eqb_spec (s + k * 65535) 0); [lia..|].
  replace (s + k * 65535 - 1) with (s - 1 + k * 65535) by lia. by rewrite Z_mod_plus_full.
Qed.

(** Adding to the representative is adding to the sum. *)
Lemma norm_add a b : 0 <= a -> 0 <= b -> norm (norm a + b) = norm (a + b).
Proof.
  intros Ha Hb. unfold norm at 2. destruct (Z.eqb_spec a 0) as [->|Hz]; [done|].
  pose proof (Z.div_mod (a - 1) 65535). pose proof (Z.mod_pos_bound (a - 1) 65535).
  assert (0 <= (a - 1) / 65535) by (apply Z.div_pos; lia).
  rewrite <- (norm_sub _ ((a - 1) / 65535)) by lia. f_equal. lia.
Qed.

Lemma norm_multiple s : 0 < s -> (65535 | s) -> norm s = 65535.
Proof.
  intros Hs [k Hk]. replace s with (65535 + (k - 1) * 65535) by lia. rewrite norm_sub by lia. done.
Qed.

Lemma oc_add_norm a b : 0 <= a -> 0 <= b <= 65535 -> oc_add (norm a) b = norm (a + b).
Proof.
  intros Ha Hb. rewrite <- norm_add by lia. pose proof (norm_range a Ha). unfold oc_add.
  destruct (Z.gtb_spec (norm a + b) 65535) as [H1|H1].
  - replace (norm a + b) with (norm a + b - 65535 + 1 * 65535) at 2 by lia.
    rewrite norm_sub by lia. by rewrite (norm_small (norm a + b - 65535)) by lia.
  - by rewrite (norm_small (norm a + b)) by lia.
Qed.

(** The end-around carries folded at the end give the same. *)
Lemma fold_carry_step s : 0 <= s < 2 ^ 32 -> Z.shiftr s 16 <> 0 ->
  let s' := u32 (Z.land s 65535 + Z.shiftr s 16) in 0 < s' /\ s' <= s / 65536 + 65535 /\ norm s' = norm s.
Proof.
  intros Hs Hn. change 65535 with (Z.ones 16). rewrite Z.land_ones by lia. rewrite Z.shiftr_div_pow2 in * by lia.
  change (2 ^ 16) with 65536 in *. cbv zeta. pose proof (Z.div_mod s 65536). pose proof (Z.mod_pos_bound s 65536).
  assert (0 <= s / 65536) by (apply Z.div_pos; lia). assert (s / 65536 < 65536) by (apply Z.div_lt_upper_bound; lia).
  rewrite u32_small by lia. change (Z.ones 16) with 65535. split; [lia|]. split; [lia|].
  rewrite <- (norm_sub _ (s / 65536)) by lia. f_equal. lia.
Qed.

Lemma fold_carry_norm s : 0 <= s < 2 ^ 32 -> forall k, fold_carry (2 + k) s = norm s.
Proof.
  intros Hs k. assert (forall j t, 0 <= t <= 65535 -> fold_carry j t = t) as Hstop.
  { intros [|j] t Ht; [done|]. cbn [fold_carry]. rewrite Z.shiftr_div_pow2, Z.div_small by lia. done. }
  cbn [Nat.add fold_carry]. destruct (Z.eqb_spec (Z.shiftr s 16) 0) as [H0|H0].
  { rewrite Z.shiftr_div_pow2 in H0 by lia. rewrite norm_small; [done|].
    pose proof (Z.div_mod s (2 ^ 16)). pose proof (Z.mod_pos_bound s (2 ^ 16)). lia. }
  destruct (fold_carry_step s Hs H0) as (H1 & H2 & H3). cbv zeta in *. set (t := u32 _) in *. clearbody t. rewrite <- H3.
  assert (s / 65536 < 65536) by (apply Z.div_lt_upper_bound; lia).
  destruct (Z.eqb_spec (Z.shiftr t 16) 0) as [H4|H4].
  { rewrite Z.shiftr_div_pow2 in H4 by lia. rewrite norm_small; [done|].
    pose proof (Z.div_mod t (2 ^ 16)). pose proof (Z.mod_pos_bound t (2 ^ 16)). lia. }
  destruct (fold_carry_step t ltac:(lia) H4) as (H5 & H6 & H7). cbv zeta in *. set (v := u32 _) in *. rewrite <- H7.
  assert (t / 65536 <= 1) by (apply Z.lt_succ_r, Z.div_lt_upper_bound; lia).
  assert (v <= 65535).
  { unfold v. change 65535 with (Z.ones 16) at 1. rewrite Z.land_ones, Z.shiftr_div_pow2 by lia.
    pose proof (Z.div_mod t (2 ^ 16)). pose proof (Z.mod_pos_bound t (2 ^ 16)). change (2 ^ 16) with 65536 in *.
    rewrite u32_small; lia. }
  rewrite Hstop, norm_small by lia. done.
Qed.

(** ** Sums of words *)

Definition word_sum (l : list Z) : Z := foldr Z.add 0 (words l).

Lemma words_ind (P : list Z -> Prop) :
  P [] -> (forall a, P [a]) -> (forall a b l, P l -> P (a :: b :: l)) -> forall l, P l.
Proof.
  intros H0 H1 H2 l. enough (P l /\ forall a, P (a :: l)) by tauto.
  induction l as [|x l [IH1 IH2]]; split; auto.
Qed.

Lemma word_sum_range l : bytes l -> 0 <= word_sum l <= 65535 * zlen l.
Proof.
  unfold word_sum, zlen. induction l as [|a|a b l IH] using words_ind; intros Hl; [done|..];
    apply bytes_cons in Hl as [Ha Hl]; unfold is_byte in Ha; simpl; [lia|].
  apply bytes_cons in Hl as [Hb Hl]. unfold is_byte in Hb. specialize (IH Hl). lia.
Qed.

Lemma word_sum_app l k : Nat.Even (length l) -> word_sum (l ++ k) = word_sum l + word_sum k.
Proof.
  unfold word_sum. induction l as [|a|a b l IH] using words_ind; intros He; [done|destruct He; simpl in *; lia|].
  simpl. rewrite IH; [lia|]. destruct He as [n Hn]. simpl in Hn. exists (n - 1)%nat. lia.
Qed.

Lemma oc_sum_word_sum l : bytes l -> oc_sum l = norm (word_sum l).
Proof.
  intros Hl. unfold oc_sum. enough (forall s, 0 <= s -> foldl oc_add (norm s) (words l) = norm (s + word_sum l)) as H.
  { specialize (H 0 ltac:(lia)). done. }
  unfold word_sum. induction l as [|a|a b l IH] using words_ind; intros s Hs.
  - simpl. by rewrite Z.add_0_r.
  - apply bytes_cons in Hl as [Ha _]. unfold is_byte in Ha. simpl. rewrite oc_add_norm by lia. f_equal. lia.
  - apply bytes_cons in Hl as [Ha Hl]. apply bytes_cons in Hl as [Hb Hl]. unfold is_byte in *.
    cbn [words foldl foldr]. rewrite oc_add_norm by lia. rewrite IH by (done || lia). f_equal. lia.
Qed.

(** The loops of the source compute it. *)
Lemma byte_at_cons a l i : 0 <= i -> byte_at (a :: l) (i + 1) = byte_at l i.
Proof. intros. unfold byte_at. replace (Z.to_nat (i + 1)) with (S (Z.to_nat i)) by lia. done. Qed.

Lemma byte_at_drop l o i : 0 <= o -> 0 <= i -> byte_at (drop (Z.to_nat o) l) i = byte_at l (o + i).
Proof.
  intros. unfold byte_at. rewrite !nth_lookup, lookup_drop. do 2 f_equal. lia.
Qed.

Lemma add_words_sum k : forall p i s, bytes p -> 0 <= i -> i + 2 * Z.of_nat k <= zlen p -> 0 <= s ->
  s + 65535 * 2 * Z.of_nat k < 2 ^ 32 ->
  add_words k p i s = s + word_sum (bslice i (2 * Z.of_nat k) p).
Proof.
  induction k as [|k IH]; intros p i s Hp Hi Hk Hs Hb.
  { simpl. unfold bslice. simpl. unfold word_sum. simpl. lia. }
  cbn [add_words]. pose proof (byte_at_byte p i Hp) as B0. pose proof (byte_at_byte p (i + 1) Hp) as B1.
  unfold is_byte in B0, B1. rewrite be16_add by done. rewrite u32_small by lia. rewrite IH by (done || lia).
  unfold bslice. replace (Z.to_nat (2 * Z.of_nat (S k))) with (S (S (Z.to_nat (2 * Z.of_nat k)))) by lia.
  assert (drop (Z.to_nat i) p = byte_at p i :: byte_at p (i + 1) :: drop (Z.to_nat (i + 2)) p) as ->.
  { replace (Z.to_nat (i + 2)) with (S (S (Z.to_nat i))) by lia.
    rewrite (drop_S p (byte_at p i) (Z.to_nat i)) by (apply byte_at_lookup; lia).
    f_equal. replace (S (Z.to_nat i)) with (Z.to_nat (i + 1)) by lia.
    rewrite (drop_S p (byte_at p (i + 1)) (Z.to_nat (i + 1))) by (apply byte_at_lookup; lia).
    by do 2 f_equal. }
  cbn [firstn take]. unfold word_sum. simpl. lia.
Qed.

Lemma bslice_snoc l n : 0 <= n < zlen l -> bslice 0 (n + 1) l = bslice 0 n l ++ [byte_at l n].
Proof.
  intros Hn. unfold bslice. simpl. rewrite !drop_0. replace (Z.to_nat (n + 1)) with (S (Z.to_nat n)) by lia.
  apply take_S_r, byte_at_lookup. lia.
Qed.

Lemma even_twice n k : n = Z.to_nat (2 * Z.of_nat k) -> Nat.Even n.
Proof. intros ->. exists k. lia. Qed.

Lemma ones_complement_eq p n start :
  bytes p -> 0 <= n <= zlen p -> n <= MAX_FRAME -> 0 <= start <= 65535 ->
  ones_complement p n start = 65535 - norm (start + word_sum (bslice 0 n p)).
Proof.
  intros Hp Hn Hm Hs. unfold MAX_FRAME in Hm. unfold ones_complement.
  pose proof (Z.div_mod n 2 ltac:(lia)) as E. pose proof (Z.mod_pos_bound n 2 ltac:(lia)) as R.
  assert (0 <= n / 2) by (apply Z.div_pos; lia).
  set (k := Z.to_nat (n / 2)). assert (Z.of_nat k = n / 2) as Ek by (unfold k; lia).
  rewrite add_words_sum by (done || lia).
  set (b := bslice 0 (2 * Z.of_nat k) p).
  assert (bytes b) as Hb by (apply bytes_bslice; done). assert (zlen b = 2 * Z.of_nat k) as Lb by (apply zlen_bslice; lia).
  pose proof (word_sum_range b Hb) as Wb. pose proof (byte_at_byte p (n - 1) Hp) as Hlast. unfold is_byte in Hlast.
  assert (forall t, 0 <= t < 2 ^ 32 -> u16 (Z.lnot (fold_carry 3 t)) = 65535 - norm t) as Hfin.
  { intros t Ht. change 3%nat with (2 + 1)%nat. rewrite (fold_carry_norm t Ht). pose proof (norm_range t). unfold u16, Z.lnot.
    symmetry. apply (Z.mod_unique_pos _ _ (-1)); lia. }
  change (Z.land n 1) with (Z.land n (Z.ones 1)). rewrite Z.land_ones by lia. change (2 ^ 1) with 2.
  destruct (Z.eqb_spec (n mod 2) 0) as [H0|H0]; cbn [negb].
  - rewrite Hfin by lia. unfold b. by replace (2 * Z.of_nat k) with n by lia.
  - rewrite Z.shiftl_mul_pow2 by lia. change (2 ^ 8) with 256. rewrite u32_small by lia. rewrite Hfin by lia. do 2 f_equal.
    replace n with (2 * Z.of_nat k + 1) at 2 by lia. rewrite bslice_snoc by lia.
    rewrite word_sum_app by (apply (even_twice _ k); unfold b, zlen in Lb; lia). fold b.
    replace (2 * Z.of_nat k) with (n - 1) by lia. unfold word_sum at 3. simpl. lia.
Qed.

(** ** Writing fields *)

Lemma byte_at_ext l k i : l !! Z.to_nat i = k !! Z.to_nat i -> byte_at l i = byte_at k i.
Proof.
  unfold byte_at. intros H. by rewrite !nth_lookup, H.
Qed.

Lemma byte_at_bwrite_outside off src l i :
  0 <= off -> off + zlen src <= zlen l -> 0 <= i -> i < off \/ off + zlen src <= i ->
  byte_at (bwrite off src l) i = byte_at l i.
Proof. intros. apply byte_at_ext, lookup_bwrite_outside; unfold zlen in *; lia. Qed.

Lemma byte_at_bwrite_inside off src l i :
  0 <= off -> off + zlen src <= zlen l -> off <= i < off + zlen src ->
  byte_at (bwrite off src l) i = byte_at src (i - off).
Proof.
  intros. unfold byte_at. rewrite !nth_lookup, lookup_bwrite_inside by (unfold zlen in *; lia). do 2 f_equal. lia.
Qed.

Lemma bslice_bwrite_inside o n k s l :
  0 <= o -> 0 <= k -> k + zlen s <= n -> o + n <= zlen l ->
  bslice o n (bwrite (o + k) s l) = bwrite k s (bslice o n l).
Proof.
  intros Ho Hk Hn Hl. pose proof (zlen_nonneg s). assert (zlen (bslice o n l) = n) as L by (apply zlen_bslice; lia).
  apply list_eq. intros i. destruct (decide (i < Z.to_nat n)%nat) as [Hi|Hi].
  - rewrite lookup_bslice by done.
    destruct (decide (Z.to_nat k <= i < Z.to_nat k + length s)%nat) as [Hin|Hout].
    + rewrite !lookup_bwrite_inside by (unfold zlen in *; lia). f_equal. lia.
    + rewrite !lookup_bwrite_outside by (unfold zlen in *; lia). by rewrite lookup_bslice.
  - rewrite !lookup_ge_None_2; [done|..].
    + rewrite length_bwrite by lia. unfold zlen in *. lia.
    + unfold bslice. rewrite length_take. lia.
Qed.

Lemma put_be16_bytes p off v : 0 <= v < 65536 -> put_be16 p off v = bwrite off [v / 256; v mod 256] p.
Proof.
  intros Hv. unfold put_be16. rewrite land_255. unfold u8. rewrite Z.shiftr_div_pow2, Z.mod_mod by lia.
  change (2 ^ 8) with 256. assert (v / 256 < 256) by (apply Z.div_lt_upper_bound; lia).
  assert (0 <= v / 256) by (apply Z.div_pos; lia). by rewrite (Z.mod_small (v / 256)) by lia.
Qed.

Lemma bytes_pair v : 0 <= v < 65536 -> bytes [v / 256; v mod 256].
Proof.
  intros Hv. assert (v / 256 < 256) by (apply Z.div_lt_upper_bound; lia).
  assert (0 <= v / 256) by (apply Z.div_pos; lia). pose proof (Z.mod_pos_bound v 256).
  apply bytes_cons. split; [unfold is_byte; lia|]. apply bytes_cons. split; [unfold is_byte; lia|constructor].
Qed.

Lemma be16_put p off v : bytes p -> 0 <= off -> off + 2 <= zlen p -> 0 <= v < 65536 -> be16 (put_be16 p off v) off = v.
Proof.
  intros Hp Ho Hl Hv. rewrite put_be16_bytes by done. rewrite be16_add by (apply bytes_bwrite, Hp; by apply bytes_pair).
  rewrite !byte_at_bwrite_inside by (unfold zlen in *; simpl; lia). rewrite Z.sub_diag.
  replace (off + 1 - off) with 1 by lia. unfold byte_at. simpl. pose proof (Z.div_mod v 256). lia.
Qed.

Lemma be16_bwrite_outside off src l i :
  0 <= off -> off + zlen src <= zlen l -> 0 <= i -> i + 1 < off \/ off + zlen src <= i ->
  be16 (bwrite off src l) i = be16 l i.
Proof. intros. unfold be16. by rewrite !byte_at_bwrite_outside by lia. Qed.

(** A checksum field at an even offset adds its value to the sum. *)
Lemma word_sum_field h (k : nat) a b : (2 * k + 2 <= length h)%nat ->
  word_sum (bwrite (2 * Z.of_nat k) [a; b] h) = word_sum (bwrite (2 * Z.of_nat k) [0; 0] h) + (256 * a + b).
Proof.
  intros Hk. unfold bwrite. do 2 rewrite (word_sum_app (take _ _)) by (rewrite length_take; exists k; lia).
  rewrite (word_sum_app [a; b]), (word_sum_app [0; 0]) by (exists 1%nat; done). cbn [length].
  assert (forall x y, word_sum [x; y] = 256 * x + y) as E by (intros; unfold word_sum; simpl; lia). rewrite !E.
  lia.
Qed.

Lemma bwrite_twice off s1 s2 l : length s1 = length s2 -> 0 <= off -> off + zlen s1 <= zlen l ->
  bwrite off s2 (bwrite off s1 l) = bwrite off s2 l.
Proof.
  intros E Ho Hl. assert (zlen s1 = zlen s2) by (unfold zlen; lia). apply list_eq. intros i.
  destruct (decide (Z.to_nat off <= i < Z.to_nat off + length s2)%nat) as [Hin|Hout].
  - rewrite !lookup_bwrite_inside by (rewrite ?zlen_bwrite; unfold zlen in *; lia). done.
  - rewrite !lookup_bwrite_outside by (rewrite ?zlen_bwrite; unfold zlen in *; lia). done.
Qed.

Lemma norm_congr s : 0 <= s -> (65535 | s - norm s) /\ norm s <= s.
Proof.
  intros Hs. unfold norm. destruct (Z.eqb_spec s 0) as [->|Hz]; [split; [by exists 0|lia]|].
  pose proof (Z.div_mod (s - 1) 65535). assert (0 <= (s - 1) / 65535) by (apply Z.div_pos; lia).
  split; [exists ((s - 1) / 65535)|]; lia.
Qed.

(** With the complement of the rest in it, the sum is minus zero; so it is with
    minus zero in the place of zero. *)
Lemma checksum_verifies start h (k : nat) c :
  bytes h -> (2 * k + 2 <= length h)%nat -> 0 <= start ->
  let s := start + word_sum (bwrite (2 * Z.of_nat k) [0; 0] h) in
  c = 65535 - norm s \/ (norm s = 65535 /\ c = 65535) ->
  norm (start + word_sum (bwrite (2 * Z.of_nat k) [c / 256; c mod 256] h)) = 65535.
Proof.
  intros Hh Hk Hs s Hc. rewrite word_sum_field by done. pose proof (Z.div_mod c 256).
  assert (0 <= s) as S0.
  { unfold s. enough (0 <= word_sum (bwrite (2 * Z.of_nat k) [0; 0] h)) by lia. apply word_sum_range.
    apply bytes_bwrite; [|done]. apply (bytes_zeros 2). }
  pose proof (norm_range s S0). destruct (norm_congr s S0) as [[q Hq] Hle].
  replace (start + _) with (s + c) by (unfold s; lia). apply norm_multiple; [lia|].
  destruct Hc as [->|[E ->]]; [exists (q + 1)|exists (q + 2)]; lia.
Qed.

(** ** The two repairs *)

Lemma ones_complement_drop g o n start :
  bytes g -> 0 <= o -> 0 <= n -> o + n <= zlen g -> n <= MAX_FRAME -> 0 <= start <= 65535 ->
  ones_complement (drop (Z.to_nat o) g) n start = 65535 - norm (start + word_sum (bslice o n g)).
Proof.
  intros. rewrite ones_complement_eq; [|by apply Forall_drop|unfold zlen in *; rewrite length_drop; lia|done..].
  unfold bslice. simpl. by rewrite drop_0.
Qed.

(** The header: the field holds the complement of the rest. *)
Lemma fix_header g ihl :
  bytes g -> 20 <= ihl <= 60 -> 14 + ihl <= zlen g -> exists c, 0 <= c < 65536 /\
  put_be16 (bwrite 24 [0; 0] g) 24 (ones_complement (drop 14 (bwrite 24 [0; 0] g)) ihl 0) = bwrite 24 [c / 256; c mod 256] g /\
  norm (word_sum (bslice 14 ihl (bwrite 24 [c / 256; c mod 256] g))) = 65535.
Proof.
  intros Hg Hi Hl. set (g2 := bwrite 24 [0; 0] g).
  assert (bytes g2) as Hg2 by (apply bytes_bwrite; [apply (bytes_zeros 2)|done]).
  assert (zlen g2 = zlen g) as L2 by (apply zlen_bwrite; unfold zlen; simpl; unfold zlen in *; lia).
  change 14%nat with (Z.to_nat 14). rewrite ones_complement_drop by (done || unfold MAX_FRAME; lia).
  rewrite Z.add_0_l. set (c := 65535 - norm _). assert (0 <= c < 65536) as Hc.
  { unfold c. assert (0 <= word_sum (bslice 14 ihl g2)) by (apply word_sum_range, bytes_bslice, Hg2).
    pose proof (norm_range (word_sum (bslice 14 ihl g2))). lia. }
  exists c. split; [done|]. rewrite put_be16_bytes by done. unfold g2 at 1.
  rewrite bwrite_twice by (unfold zlen in *; simpl; lia). split; [done|].
  rewrite (bslice_bwrite_inside 14 ihl 10) by (unfold zlen in *; simpl; lia).
  rewrite <- (Z.add_0_l (word_sum _)). apply (checksum_verifies 0 _ 5 c); [by apply bytes_bslice|..].
  - enough (zlen (bslice 14 ihl g) = ihl) by (unfold zlen in *; lia). apply zlen_bslice; lia.
  - lia.
  - left. unfold c, g2. rewrite (bslice_bwrite_inside 14 ihl 10) by (unfold zlen in *; simpl; lia). done.
Qed.

(** The transport part, with the pseudo-header in the sum. *)
Lemma fix_l4_spec g l4 n proto off :
  bytes g -> 34 <= l4 -> l4 + n <= zlen g -> n <= MAX_FRAME -> is_byte proto ->
  off = (if proto =? IPPROTO_UDP then 6 else 16) -> off + 2 <= n -> exists c, 0 <= c < 65536 /\
  fix_l4 (bwrite (l4 + off) [0; 0] g) l4 n proto = bwrite (l4 + off) [c / 256; c mod 256] g /\
  (proto = IPPROTO_UDP -> c <> 0) /\
  norm (word_sum (bslice 26 8 g) + proto + n + word_sum (bslice l4 n (bwrite (l4 + off) [c / 256; c mod 256] g))) = 65535.
Proof.
  intros Hg H4 Hn Hm Hp Ho Hon. unfold is_byte in Hp. unfold MAX_FRAME in Hm. assert (6 <= off <= 16) as Bo by (destruct (proto =? IPPROTO_UDP); lia).
  set (g2 := bwrite (l4 + off) [0; 0] g).
  assert (bytes g2) as Hg2 by (apply bytes_bwrite; [apply (bytes_zeros 2)|done]).
  assert (zlen g2 = zlen g) as L2 by (apply zlen_bwrite; unfold zlen; simpl; unfold zlen in *; lia).
  set (P := word_sum (bslice 26 8 g)). assert (0 <= P <= 65535 * 8) as HP.
  { unfold P. pose proof (word_sum_range (bslice 26 8 g) ltac:(by apply bytes_bslice)).
    rewrite zlen_bslice in H by lia. done. }
  assert (add_words 4 (drop 14 g2) 12 0 = P) as HA.
  { rewrite add_words_sum; [|by apply Forall_drop|lia| |lia|lia].
    2:{ unfold zlen in *. rewrite length_drop. lia. }
    rewrite Z.add_0_l. unfold P. f_equal. rewrite <- (bslice_bwrite_disjoint (l4 + off) [0; 0] g 26 8) by (unfold zlen in *; simpl; lia).
    unfold bslice. rewrite drop_drop. done. }
  unfold fix_l4. cbv zeta. rewrite HA, (u32_small (P + proto)), (u32_small (P + proto + n)) by lia. change 3%nat with (2 + 1)%nat. rewrite fold_carry_norm by lia.
  set (Q := P + proto + n). pose proof (norm_range Q ltac:(unfold Q; lia)) as HQ.
  rewrite ones_complement_drop by (done || unfold MAX_FRAME; lia). set (W := word_sum (bslice l4 n g2)).
  assert (0 <= W) as HW by (apply word_sum_range, bytes_bslice, Hg2).
  rewrite norm_add by (unfold Q; lia). pose proof (norm_range (Q + W) ltac:(unfold Q; lia)) as HN.
  set (c := if (proto =? IPPROTO_UDP) && (65535 - norm (Q + W) =? 0) then 65535 else 65535 - norm (Q + W)).
  assert (c = 65535 - norm (Q + W) \/ (norm (Q + W) = 65535 /\ c = 65535)) as Hc.
  { unfold c. destruct (proto =? IPPROTO_UDP); [|by left]. destruct (Z.eqb_spec (65535 - norm (Q + W)) 0); [right; split; [lia|done]|by left]. }
  assert (0 <= c < 65536) as Hcr by lia. exists c. split; [done|]. rewrite <- Ho. rewrite put_be16_bytes by done. unfold g2 at 1.
  rewrite bwrite_twice by (unfold zlen in *; simpl; lia). split; [done|]. split.
  { intros ->. unfold c. rewrite Z.eqb_refl. simpl. destruct (Z.eqb_spec (65535 - norm (Q + W)) 0); lia. }
  rewrite bslice_bwrite_inside by (unfold zlen in *; simpl; lia). fold Q.
  unfold W, g2 in Hc. rewrite bslice_bwrite_inside in Hc by (unfold zlen in *; simpl; lia).
  assert (exists k : nat, off = 2 * Z.of_nat k) as [k ->].
  { rewrite Ho. destruct (proto =? IPPROTO_UDP); [by exists 3%nat|by exists 8%nat]. }
  apply checksum_verifies; [by apply bytes_bslice| |unfold Q; lia|done].
  enough (zlen (bslice l4 n g) = n) by (unfold zlen in *; lia). apply zlen_bslice; lia.
Qed.

Lemma ihl_range f : bytes f -> 0 <= ip_ihl f <= 60.
Proof.
  intros Hf. unfold ip_ihl. pose proof (byte_at_byte f 14 Hf). change 15 with (Z.ones 4).
  rewrite Z.land_ones by lia. pose proof (Z.mod_pos_bound (byte_at f 14) (2 ^ 4)). lia.
Qed.

Lemma be16_range p off : bytes p -> 0 <= be16 p off < 65536.
Proof.
  intros Hp. rewrite be16_add by done. pose proof (byte_at_byte p off Hp). pose proof (byte_at_byte p (off + 1) Hp).
  unfold is_byte in *. lia.
Qed.

Lemma zlen_pair (a b : Z) : zlen [a; b] = 2.
Proof. done. Qed.

(** Bounds of a field inside a frame. *)
Ltac fld := rewrite ?zlen_bwrite; rewrite ?zlen_pair; unfold IPPROTO_UDP, IPPROTO_TCP in *; lia.

Lemma pseudo_sum g : bytes g -> 0 <= l4_size g < 65536 -> 34 <= zlen g ->
  word_sum (pseudo_header g ++ l4_part g) = word_sum (bslice 26 8 g) + byte_at g 23 + l4_size g + word_sum (l4_part g).
Proof.
  intros Hg Hl Hz. pose proof (Z.div_mod (l4_size g) 256). unfold pseudo_header.
  assert (length (bslice 26 8 g) = 8%nat) as L by (apply length_bslice; lia).
  rewrite !word_sum_app; [|by exists 1%nat|rewrite L; by exists 4%nat|rewrite !length_app, L; by exists 6%nat].
  unfold word_sum at 2 3. simpl. lia.
Qed.

(** [fix_checksums] on an IPv4 packet is three writes at most. *)
Lemma fix_checksums_writes f (m := zlen f) (h := ip_ihl f) :
  bytes f -> m <= MAX_FRAME -> is_ipv4 f m = true -> exists n c, let f1 := bwrite 16 [n / 256; n mod 256] f in
  let f3 := bwrite 24 [c / 256; c mod 256] f1 in
  0 <= c < 65536 /\ h <= n <= m - 14 /\ (h <= be16 f 16 <= m - 14 -> n = be16 f 16) /\ 20 <= h /\ 14 + h <= m /\
  norm (word_sum (bslice 14 h f3)) = 65535 /\
  let g := fix_checksums f m in let proto := byte_at f 23 in let l4 := 14 + h in
  (g = f3 /\ (proto = IPPROTO_UDP -> n - h < 8) /\ (proto = IPPROTO_TCP -> n - h < 20)) \/
  (exists k off f4, 0 <= k < 65536 /\ off = (if proto =? IPPROTO_UDP then 6 else 16) /\ off + 2 <= n - h /\
     f4 = (if proto =? IPPROTO_UDP then bwrite (l4 + 4) [(n - h) / 256; (n - h) mod 256] f3 else f3) /\
     (proto = IPPROTO_UDP \/ proto = IPPROTO_TCP) /\
     g = bwrite (l4 + off) [k / 256; k mod 256] f4 /\ (proto = IPPROTO_UDP -> k <> 0) /\
     norm (word_sum (bslice 26 8 f4) + proto + (n - h) + word_sum (bslice l4 (n - h) g)) = 65535).
Proof.
  intros Hf Hm Hip. unfold MAX_FRAME in Hm. pose proof (ihl_range f Hf) as Hh. pose proof (be16_range f 16 Hf) as Hcl.
  unfold is_ipv4 in Hip. rewrite !andb_true_iff, !Z.leb_le, !Z.eqb_eq in Hip. fold (ip_ihl f) in Hip. fold h in Hip, Hh.
  destruct Hip as ((((H1 & H2) & H3) & H4) & H5).
  set (n := if (h <=? be16 f 16) && (be16 f 16 <=? m - 14) then be16 f 16 else m - 14).
  assert (h <= n <= m - 14 /\ (h <= be16 f 16 <= m - 14 -> n = be16 f 16)) as [Hn Hn'].
  { unfold n. destruct (Z.leb_spec h (be16 f 16)), (Z.leb_spec (be16 f 16) (m - 14)); simpl; lia. }
  set (f1 := bwrite 16 [n / 256; n mod 256] f).
  assert (bytes f1) as Hf1 by (apply bytes_bwrite; [apply bytes_pair; lia|done]).
  assert (zlen f1 = m) as L1 by (apply zlen_bwrite; fld).
  destruct (fix_header f1 h Hf1 ltac:(lia) ltac:(lia)) as (c & Hc & Ef3 & Hhd).
  exists n, c. cbv zeta. fold f1. set (f3 := bwrite 24 [c / 256; c mod 256] f1) in *.
  assert (bytes f3) as Hf3 by (apply bytes_bwrite; [apply bytes_pair; lia|done]).
  assert (zlen f3 = m) as L3 by (unfold f3; fld).
  do 6 (split; [done || lia|]).
  assert (byte_at f3 23 = byte_at f 23) as Hp by (unfold f3, f1; rewrite !byte_at_bwrite_outside by fld; done).
  unfold fix_checksums. fold (ip_ihl f). fold h. rewrite H2, H3, !Z.eqb_refl, !(proj2 (Z.ltb_ge _ _)) by lia. cbn [negb orb].
  fold n. rewrite (put_be16_bytes f) by lia. fold f1. rewrite Ef3, Hp.
  pose proof (byte_at_byte f 23 Hf) as Bp. destruct (Z.eqb_spec (byte_at f 23) IPPROTO_UDP) as [U|U]; cbn [negb andb].
  - destruct (Z.ltb_spec (n - h) 8) as [Hs|Hs]; [left; split; [done|fld]|]. right. rewrite (put_be16_bytes f3) by lia.
    set (f4 := bwrite (14 + h + 4) _ f3). assert (bytes f4) as Hf4 by (apply bytes_bwrite; [apply bytes_pair; lia|done]).
    assert (zlen f4 = m) as L4 by (unfold f4; fld).
    destruct (fix_l4_spec f4 (14 + h) (n - h) (byte_at f 23) 6) as (k & Hk & Eg & Hk0 & Hs'); [done || (unfold MAX_FRAME; lia)..| |lia|].
    { by rewrite U. }
    exists k, 6, f4. rewrite Eg. do 4 (split; [done || lia|]). by split; [left|].
  - destruct (Z.eqb_spec (byte_at f 23) IPPROTO_TCP) as [T|T]; cbn [negb]; [|left; split; [done|fld]].
    destruct (Z.ltb_spec (n - h) 8) as [Hs|Hs]; [left; split; [done|fld]|]. destruct (Z.ltb_spec (n - h) 20) as [Hs'|Hs']; [left; split; [done|fld]|].
    right. destruct (fix_l4_spec f3 (14 + h) (n - h) (byte_at f 23) 16) as (k & Hk & Eg & Hk0 & Hv); [done || (unfold MAX_FRAME; lia)..| |lia|].
    { by rewrite T. }
    exists k, 16, f3. rewrite Eg. do 4 (split; [done || lia|]). by split; [right|].
Qed.

(** What a receiver reads after the writes. *)
Lemma repaired_bytes f off v g (i : Z) :
  g = bwrite off [v / 256; v mod 256] f -> 0 <= off -> off + 2 <= zlen f -> 0 <= i -> i < off \/ off + 2 <= i ->
  byte_at g i = byte_at f i.
Proof. intros ->. intros. apply byte_at_bwrite_outside; fld. Qed.

Lemma be16_written p off v : bytes p -> 0 <= off -> off + 2 <= zlen p -> 0 <= v < 65536 ->
  be16 (bwrite off [v / 256; v mod 256] p) off = v.
Proof. intros. rewrite <- put_be16_bytes by done. by apply be16_put. Qed.

Lemma bslice_ext off len l k :
  0 <= off -> zlen l = zlen k -> (forall i, off <= i < off + len -> byte_at l i = byte_at k i) -> bslice off len l = bslice off len k.
Proof.
  intros Ho Hz He. apply list_eq. intros i. destruct (decide (i < Z.to_nat len)%nat) as [Hi|Hi].
  - rewrite !lookup_bslice by done. destruct (decide (off + Z.of_nat i < zlen l)) as [Hl|Hl].
    + replace (Z.to_nat off + i)%nat with (Z.to_nat (off + Z.of_nat i)) by lia.
      rewrite !byte_at_lookup by lia. f_equal. apply He. lia.
    + rewrite !lookup_ge_None_2; [done|..]; unfold zlen in *; lia.
  - rewrite !lookup_ge_None_2; [done|..]; unfold bslice; rewrite length_take; lia.
Qed.

(** What depends on the header only. *)
Lemma header_fields g f3 h : h = ip_ihl f3 -> 20 <= h -> zlen g = zlen f3 ->
  (forall i, 0 <= i < 14 + h -> byte_at g i = byte_at f3 i) ->
  ip_ihl g = h /\ be16 g 16 = be16 f3 16 /\ byte_at g 23 = byte_at f3 23 /\
  ip_header g = bslice 14 h f3 /\ bslice 26 8 g = bslice 26 8 f3.
Proof.
  intros -> Hh Hz He. assert (ip_ihl g = ip_ihl f3) as E by (unfold ip_ihl; rewrite He by lia; done).
  split; [done|]. split; [unfold be16; rewrite !He by lia; done|]. split; [apply He; lia|].
  split; [unfold ip_header; rewrite E|]; apply bslice_ext; (lia || intros; apply He; lia).
Qed.

(** The transport part after its writes. *)
Lemma l4_repaired f3 h n k off f4 g (proto := byte_at f3 23) (l4 := 14 + h) :
  bytes f3 -> h = ip_ihl f3 -> 20 <= h -> n = be16 f3 16 -> h <= n <= zlen f3 - 14 -> 0 <= k < 65536 ->
  off = (if proto =? IPPROTO_UDP then 6 else 16) -> off + 2 <= n - h ->
  f4 = (if proto =? IPPROTO_UDP then bwrite (l4 + 4) [(n - h) / 256; (n - h) mod 256] f3 else f3) ->
  g = bwrite (l4 + off) [k / 256; k mod 256] f4 ->
  norm (word_sum (bslice 26 8 f4) + proto + (n - h) + word_sum (bslice l4 (n - h) g)) = 65535 ->
  zlen g = zlen f3 /\ bytes g /\
  (forall i, 0 <= i -> i < l4 + (if proto =? IPPROTO_UDP then 4 else 16) \/ l4 + off + 2 <= i -> byte_at g i = byte_at f3 i) /\
  l4_size g = n - h /\ oc_sum (pseudo_header g ++ l4_part g) = 65535 /\
  (proto = IPPROTO_UDP -> be16 g (l4 + 4) = n - h /\ be16 g (l4 + 6) = k).
Proof.
  intros Hf Eh Hh En Hn Hk Ho Hfit Ef4 Eg Hv. pose proof (be16_range f3 16 Hf) as Rn.
  assert (bytes f4) as Hf4.
  { rewrite Ef4. destruct (proto =? IPPROTO_UDP); [apply bytes_bwrite; [apply bytes_pair; lia|]|]; done. }
  assert (6 <= off <= 16) as Bo by (rewrite Ho; destruct (proto =? IPPROTO_UDP); lia).
  assert (zlen f4 = zlen f3) as L4 by (rewrite Ef4; destruct (proto =? IPPROTO_UDP); fld).
  assert (zlen g = zlen f3) as Lg by (rewrite Eg; fld).
  assert (bytes g) as Hg by (rewrite Eg; apply bytes_bwrite; [by apply bytes_pair|done]).
  assert (forall i, 0 <= i -> i < l4 + (if proto =? IPPROTO_UDP then 4 else 16) \/ l4 + off + 2 <= i ->
    byte_at g i = byte_at f3 i) as He.
  { intros i Hi Hout. rewrite Eg, byte_at_bwrite_outside by (destruct (proto =? IPPROTO_UDP); fld).
    rewrite Ef4. destruct (proto =? IPPROTO_UDP); [apply byte_at_bwrite_outside; fld|done]. }
  destruct (header_fields g f3 h Eh Hh Lg) as (E1 & E2 & E3 & _ & E5).
  { intros i Hi. apply He; [lia|]. unfold l4. destruct (proto =? IPPROTO_UDP); lia. }
  assert (l4_size g = n - h) as Es by (unfold l4_size; lia). do 4 (split; [done|]). split.
  - assert (bytes (pseudo_header g ++ l4_part g)) as Hb.
    { unfold pseudo_header, l4_part. rewrite Es. repeat apply Forall_app_2; [by apply bytes_bslice| | |by apply bytes_bslice].
      - apply bytes_cons. split; [done|]. apply bytes_cons. split; [by apply byte_at_byte|constructor].
      - apply bytes_pair. lia. }
    rewrite oc_sum_word_sum, pseudo_sum by (done || lia). unfold l4_part. rewrite E5, E3, Es, E1. rewrite <- Hv. do 3 f_equal.
    rewrite Ef4. destruct (proto =? IPPROTO_UDP); [|done]. symmetry. rewrite <- (bslice_bwrite_disjoint (l4 + 4) [(n - h) / 256; (n - h) mod 256] f3 26 8) by fld. done.
  - intros U. rewrite U, Z.eqb_refl in *. subst off. split; [|rewrite Eg; apply be16_written; done || lia].
    rewrite Eg, be16_bwrite_outside by fld. rewrite Ef4. apply be16_written; done || lia.
Qed.

(** [C36] What is sent again passes every check of a receiver.  On any IPv4 frame the
    length field the packet leaves with is one the frame holds, and the packet's
    own wherever that was possible; the header's one's complement sum, carry
    brought round word by word, is minus zero; so is that of a UDP datagram or a
    TCP segment with its pseudo-header, the UDP length is the datagram's, and the
    UDP checksum is never the zero that means none.  No other byte of the frame
    changes, and a frame that is not IPv4 does not change at all. *)
Theorem impair_checksums_verify (f : list Z) :
  bytes f -> zlen f <= MAX_FRAME ->
  let g := fix_checksums f (zlen f) in
  zlen g = zlen f /\ bytes g /\
  (forall i, 0 <= i -> ~ repaired_field f i -> byte_at g i = byte_at f i) /\
  if is_ipv4 f (zlen f) then
    ip_ihl g <= be16 g 16 <= zlen f - 14 /\
    (ip_ihl f <= be16 f 16 <= zlen f - 14 -> be16 g 16 = be16 f 16) /\
    oc_sum (ip_header g) = 65535 /\
    (byte_at g 23 = IPPROTO_UDP -> 8 <= l4_size g ->
       oc_sum (pseudo_header g ++ l4_part g) = 65535 /\
       be16 g (14 + ip_ihl g + 4) = l4_size g /\ be16 g (14 + ip_ihl g + 6) <> 0) /\
    (byte_at g 23 = IPPROTO_TCP -> 20 <= l4_size g -> oc_sum (pseudo_header g ++ l4_part g) = 65535)
  else g = f.
Proof.
  intros Hf Hm g. destruct (is_ipv4 f (zlen f)) eqn:Hip.
  2:{ assert (g = f) as ->; [|by auto]. unfold g, fix_checksums. fold (ip_ihl f). unfold is_ipv4 in Hip. fold (ip_ihl f) in Hip.
      repeat (split_if; [done|]). exfalso. rewrite !orb_false_iff, !Z.ltb_ge, !negb_false_iff in *.
      rewrite !andb_false_iff, !Z.leb_gt in Hip. intuition (congruence || lia). }
  destruct (fix_checksums_writes f Hf Hm Hip) as (n & c & Hc & Hn & Hn' & Hh & Hz & Hsum & Hg). cbv zeta in *. fold g in Hg.
  set (f1 := bwrite 16 [n / 256; n mod 256] f) in *. set (f3 := bwrite 24 [c / 256; c mod 256] f1) in *.
  set (h := ip_ihl f) in *. unfold MAX_FRAME in Hm.
  assert (bytes f1) as Hf1 by (apply bytes_bwrite; [apply bytes_pair; lia|done]).
  assert (zlen f1 = zlen f) as L1 by (unfold f1; fld).
  assert (bytes f3) as Hf3 by (apply bytes_bwrite; [apply bytes_pair; lia|done]).
  assert (zlen f3 = zlen f) as L3 by (unfold f3; fld).
  assert (forall i, 0 <= i -> i <> 16 -> i <> 17 -> i <> 24 -> i <> 25 -> byte_at f3 i = byte_at f i) as E3.
  { intros. unfold f3, f1. rewrite !byte_at_bwrite_outside by fld. done. }
  assert (h = ip_ihl f3) as Eh by (unfold h, ip_ihl; rewrite E3 by lia; done).
  assert (be16 f3 16 = n) as En by (unfold f3; rewrite be16_bwrite_outside by fld; apply be16_written; done || lia).
  destruct Hg as [(-> & Hu & Ht)|(k & off & f4 & Hk & Ho & Hfit & Ef4 & Hpr & Eg & Hk0 & Hv)].
  - split; [done|]. split; [done|]. unfold repaired_field. split; [intros i ? ?; apply E3; lia|].
    rewrite <- Eh, En. split; [done|]. split; [done|]. unfold l4_size. rewrite <- Eh, En, (E3 23) by lia.
    unfold ip_header. rewrite <- Eh, oc_sum_word_sum by (by apply bytes_bslice). split; [done|].
    split; intros HP HL; [specialize (Hu HP)|specialize (Ht HP)]; lia.
  - rewrite <- (E3 23) in Ho, Ef4, Hpr, Hk0, Hv by lia.
    destruct (l4_repaired f3 h n k off f4 g) as (Lg & Hbg & He & Es & Hoc & Hudp); try (done || lia).
    assert (forall i, 0 <= i < 14 + h -> byte_at g i = byte_at f3 i) as Ehd.
    { intros i Hi. apply He; [lia|]. destruct (byte_at f3 23 =? IPPROTO_UDP); lia. }
    destruct (header_fields g f3 h Eh Hh Lg Ehd) as (E1 & E2 & E4 & E5 & _).
    split; [lia|]. split; [done|]. split.
    { intros i Hi Hr. unfold repaired_field in Hr. fold h in Hr. rewrite <- (E3 23) in Hr by lia. rewrite He, E3; try lia.
      destruct (Z.eqb_spec (byte_at f3 23) IPPROTO_UDP); lia. }
    rewrite E1, E2, En, E4, E5, Es. split; [done|]. split; [done|].
    split; [rewrite oc_sum_word_sum by (by apply bytes_bslice); done|].
    split; [|done]. intros U _. destruct (Hudp U) as [-> ->]. auto.
Qed.

(** A UDP datagram from port 2222 in a frame padded to sixty bytes, its checksums
    not yet filled in, and the same bytes as a later fragment of a datagram. *)
Definition ex_packet (fragment : Z) : list Z :=
  [2; 0; 0; 0; 0; 1; 2; 0; 0; 0; 0; 2; 8; 0] ++
  [69; 0; 0; 32; 0; 7; 0; fragment; 64; 17; 0; 0; 10; 0; 0; 1; 10; 0; 0; 2] ++
  [8; 174; 8; 174; 0; 12; 0; 0; 1; 2; 3; 4] ++ zeros 14.

Lemma ex_packet_bytes fragment : is_byte fragment -> bytes (ex_packet fragment).
Proof. intros. unfold ex_packet. simpl. repeat (apply bytes_cons; split; [done || by compute|]). constructor. Qed.

Lemma impair_checksums_verify_witness :
  let g := fix_checksums (ex_packet 0) 60 in
  is_ipv4 (ex_packet 0) 60 = true /\ l4_size g = 12 /\ be16 g 40 <> 0 /\
  oc_sum (ip_header g) = 65535 /\ oc_sum (pseudo_header g ++ l4_part g) = 65535.
Proof.
  pose proof (impair_checksums_verify (ex_packet 0)) as H. cbv zeta in *.
  assert (zlen (ex_packet 0) = 60) as E by done. rewrite E in H.
  assert (is_ipv4 (ex_packet 0) 60 = true) as Hi by (vm_compute; reflexivity). rewrite Hi in H.
  destruct H as (_ & _ & _ & _ & _ & Hh & Hu & _); [apply ex_packet_bytes; by compute|by compute|].
  split; [done|]. split; [vm_compute; reflexivity|]. split; [by vm_compute|]. split; [exact Hh|].
  apply Hu; [vm_compute; reflexivity|by vm_compute].
Defined.

(** The fragment offset is not looked at: a fragment that carries the middle of a
    datagram has four of its data bytes overwritten with a length and a
    checksum. *)
Lemma impair_overwrites_fragment_data :
  let f := ex_packet 1 in
  Z.land (be16 f 20) 8191 <> 0 /\ bslice 38 4 f = [0; 12; 0; 0] /\
  bslice 38 4 (fix_checksums f 60) <> bslice 38 4 f.
Proof. split; [by vm_compute|]. split; [by vm_compute|]. by vm_compute. Qed.
