(* ===== verification/Impair.v ===== *)
(** * The impaired wire

    [tools/cip_impair.c]: the process that forwards frames between two interfaces
    and, for CIP I/O frames only, drops, truncates, corrupts, delays, reorders,
    duplicates and replays them.  [WireFrame] has the part that looks into a
    frame.

    One [pump] is one direction with its own queue and counters; the two share
    nothing but [g_stop].  What a direction meets is a list of [round]s, one for
    each turn of its loop: the clock, what [select] and [recvfrom] return; the
    end of the list is the round in which [g_stop] is set.  The answers of
    [sendto] are a list too.  [rand_r] is the C library's, here any function from
    the seed to a number and the next seed.  The two
    [calloc] results are used unchecked by the source; here they are memory.

    The theorems: every frame seen is accounted for, forwarded or dropped, and
    nothing is sent that was not received; queue, ring and buffers are never
    overrun; a held frame leaves on time; with every knob at zero the wire is
    transparent.  A delay alone, however, reorders. *)

From Stdlib Require Import ZArith Lia Ascii.
From stdpp Require Import base list sorting strings tactics.
From S2P Require Import Prelude PlcTypes Config WireFrame.

Definition PENDING_MAX : Z := 512.
Definition REPLAY_KEEP : Z := 64.
Definition PACKET_OUTGOING : Z := 4.

Record knobs : Type := Knobs {
  k_delay_us : Z;
  k_jitter_us : Z;
  k_reorder_pct : Z;
  k_reorder_gap_us : Z;
  k_dup_pct : Z;
  k_replay_pct : Z;
  k_replay_age : Z;
  k_drop_pct : Z;
  k_trunc_pct : Z;
  k_corrupt_pct : Z
}.
#[export] Instance eta_knobs : Eta knobs := fun r =>
  Knobs (k_delay_us r) (k_jitter_us r) (k_reorder_pct r) (k_reorder_gap_us r)
    (k_dup_pct r) (k_replay_pct r) (k_replay_age r) (k_drop_pct r) (k_trunc_pct r)
    (k_corrupt_pct r).

(** [pending_t]; [p_data] is the first [len] bytes of [data], the others are never
    read. *)
Record pending : Type := Pending {
  p_due_us : Z;
  p_data : list Z
}.
#[export] Instance eta_pending : Eta pending := fun r =>
  Pending (p_due_us r) (p_data r).

Record dir : Type := Dir {
  di_rx_fd : Z;
  di_tx_fd : Z;
  di_tx_ifindex : Z;
  di_name : cstr;
  di_k : knobs;
  di_seed : Z;
  di_seen : Z;
  di_io_seen : Z;
  di_forwarded : Z;
  di_dropped : Z;
  di_delayed : Z;
  di_reordered : Z;
  di_duplicated : Z;
  di_replayed : Z;
  di_truncated : Z;
  di_corrupted : Z;
  di_tx_err : Z;
  di_last_errno : Z;
  di_max_hold_us : Z
}.
#[export] Instance eta_dir : Eta dir := fun r =>
  Dir (di_rx_fd r) (di_tx_fd r) (di_tx_ifindex r) (di_name r) (di_k r) (di_seed r)
    (di_seen r) (di_io_seen r) (di_forwarded r) (di_dropped r) (di_delayed r)
    (di_reordered r) (di_duplicated r) (di_replayed r) (di_truncated r) (di_corrupted r)
    (di_tx_err r) (di_last_errno r) (di_max_hold_us r).

(** What [sendto] will answer (zero or the error), and what it was asked to send
    on which interface. *)
Record wire : Type := Wire {
  wr_answers : list Z;
  wr_sent : list (Z * list Z)
}.
#[export] Instance eta_wire : Eta wire := fun r =>
  Wire (wr_answers r) (wr_sent r).

(** The local state of [pump]: the direction, the queue [q] up to [qn], and the
    ring [keep]. *)
Record pump_state : Type := PumpState {
  pm_dir : dir;
  pm_wire : wire;
  pm_q : list pending;
  pm_keep : list (list Z);
  pm_keep_n : Z;
  pm_keep_w : Z
}.
#[export] Instance eta_pump_state : Eta pump_state := fun r =>
  PumpState (pm_dir r) (pm_wire r) (pm_q r) (pm_keep r) (pm_keep_n r) (pm_keep_w r).

(** One turn of the loop: [now_us], the result of [select], and what [recvfrom]
    finds: the frame and its packet type, or an error. *)
Record round : Type := Round {
  rd_now : Z;
  rd_select : Z;
  rd_recv : option (list Z * Z)
}.
#[export] Instance eta_round : Eta round := fun r =>
  Round (rd_now r) (rd_select r) (rd_recv r).

Definition tx (d : dir) (w : wire) (buf : list Z) (len : Z) : dir * wire :=
  if len >? MAX_FRAME then (d, w)
  else
    let frame := fix_checksums (bslice 0 len buf) len in
    let err := default 0 (head (wr_answers w)) in
    let w := w <| wr_answers := tail (wr_answers w) |> <| wr_sent := wr_sent w ++ [(di_tx_ifindex d, frame)] |> in
    if err =? 0 then (d, w)
    else (d <| di_tx_err := u64 (di_tx_err d + 1) |> <| di_last_errno := err |>, w).

Section Random.
Variable rand_r : Z -> Z * Z.

(** The two draws of the corruption are not ordered by the language. *)
Variable index_first : bool.

Definition rnd (bound : Z) (d : dir) : Z * dir :=
  if bound =? 0 then (0, d)
  else let '(r, seed) := rand_r (di_seed d) in (u32 r mod bound, d <| di_seed := seed |>).

Definition hits (pct : Z) (d : dir) : bool * dir :=
  if pct =? 0 then (false, d)
  else let '(r, d) := rnd 100 d in (r <? pct, d).

(** [q[i] = q[--qn]]. *)
Definition take_last (i : nat) (q : list pending) : list pending :=
  match q !! (length q - 1)%nat with
  | Some p => take (length q - 1) (<[i := p]> q)
  | None => q
  end.

Definition forward (s : pump_state) (buf : list Z) : pump_state :=
  let '(d, w) := tx (pm_dir s) (pm_wire s) buf (zlen buf) in
  s <| pm_dir := d <| di_forwarded := u64 (di_forwarded d + 1) |> |> <| pm_wire := w |>.

(** The loop over the queue; each turn either advances [i] or shortens the queue,
    so [qn] turns are enough. *)
Fixpoint release (turns : nat) (t : Z) (i : nat) (s : pump_state) : pump_state :=
  match turns, pm_q s !! i with
  | S turns, Some p =>
      if p_due_us p <=? t then
        let s := forward s (p_data p) in
        release turns t i (s <| pm_q := take_last i (pm_q s) |>)
      else release turns t (S i) s
  | _, _ => s
  end.

(** Truncation or corruption: the frame that goes on. *)
Definition damage (off plen : Z) (buf : list Z) (d : dir) : list Z * dir :=
  let '(hit, d) := if plen =? 0 then (false, d) else hits (k_trunc_pct (di_k d)) d in
  if hit then
    let '(x, d) := if plen >? 4 then let '(r, d) := rnd (plen - 4) d in (r + 2, d) else (1, d) in
    (bslice 0 (u32 (off + x)) buf, d <| di_truncated := u64 (di_truncated d + 1) |>)
  else
    let '(hit, d) := if plen =? 0 then (false, d) else hits (k_corrupt_pct (di_k d)) d in
    if hit then
      let '(at_, bit, d) :=
        if index_first then let '(a, d) := rnd plen d in let '(b, d) := rnd 8 d in (a, b, d)
        else let '(b, d) := rnd 8 d in let '(a, d) := rnd plen d in (a, b, d) in
      (<[Z.to_nat (off + at_) := Z.lxor (byte_at buf (off + at_)) (u8 (Z.shiftl 1 bit))]> buf,
       d <| di_corrupted := u64 (di_corrupted d + 1) |>)
    else (buf, d).

(** Delay, jitter and reordering: how long the frame is held. *)
Definition holding (d : dir) : Z * dir :=
  let hold := k_delay_us (di_k d) in
  let '(hold, d) := if k_jitter_us (di_k d) =? 0 then (hold, d)
                    else let '(r, d) := rnd (k_jitter_us (di_k d)) d in (u64 (hold + r), d) in
  let '(hit, d) := hits (k_reorder_pct (di_k d)) d in
  let '(hold, d) := if hit then (u64 (hold + k_reorder_gap_us (di_k d)), d <| di_reordered := u64 (di_reordered d + 1) |>)
                    else (hold, d) in
  if hold =? 0 then (hold, d)
  else
    let d := d <| di_delayed := u64 (di_delayed d + 1) |> in
    (hold, if hold >? di_max_hold_us d then d <| di_max_hold_us := hold |> else d).

Definition keep_frame (s : pump_state) (buf : list Z) : pump_state :=
  s <| pm_keep_n := if pm_keep_n s <? REPLAY_KEEP then pm_keep_n s + 1 else pm_keep_n s |>
    <| pm_keep := <[Z.to_nat (pm_keep_w s) := buf]> (pm_keep s) |>
    <| pm_keep_w := (pm_keep_w s + 1) mod REPLAY_KEEP |>.

Definition hold_or_forward (t hold : Z) (s : pump_state) (buf : list Z) : pump_state :=
  if negb (hold =? 0) && (zlen (pm_q s) <? PENDING_MAX)
  then s <| pm_q := pm_q s ++ [Pending (u64 (t + hold)) buf] |>
  else forward s buf.

Definition duplicate (s : pump_state) (buf : list Z) : pump_state :=
  let '(hit, d) := hits (k_dup_pct (di_k (pm_dir s))) (pm_dir s) in
  if hit then
    let '(d, w) := tx d (pm_wire s) buf (zlen buf) in
    s <| pm_dir := d <| di_duplicated := u64 (di_duplicated d + 1) |> |> <| pm_wire := w |>
  else s <| pm_dir := d |>.

Definition replay (s : pump_state) : pump_state :=
  let age := k_replay_age (di_k (pm_dir s)) in
  if (pm_keep_n s >? age) && negb (age =? 0) then
    let '(hit, d) := hits (k_replay_pct (di_k (pm_dir s))) (pm_dir s) in
    if hit then
      let idx := u32 (pm_keep_w s + REPLAY_KEEP - 1 - age) mod REPLAY_KEEP in
      let buf := default [] (pm_keep s !! Z.to_nat idx) in
      let '(d, w) := tx d (pm_wire s) buf (zlen buf) in
      s <| pm_dir := d <| di_replayed := u64 (di_replayed d + 1) |> |> <| pm_wire := w |>
    else s <| pm_dir := d |>
  else s.

(** A CIP I/O frame, from [io_seen] on. *)
Definition impair_io (t off plen : Z) (buf : list Z) (s : pump_state) : pump_state :=
  let d := pm_dir s in
  let d := d <| di_io_seen := u64 (di_io_seen d + 1) |> in
  let '(hit, d) := hits (k_drop_pct (di_k d)) d in
  if hit then s <| pm_dir := d <| di_dropped := u64 (di_dropped d + 1) |> |>
  else
    let '(buf, d) := damage off plen buf d in
    let s := keep_frame (s <| pm_dir := d |>) buf in
    let '(hold, d) := holding (pm_dir s) in
    let s := hold_or_forward t hold (s <| pm_dir := d |>) buf in
    replay (duplicate s buf).

Definition pump_round (s : pump_state) (r : round) : pump_state :=
  let t := rd_now r in
  let s := release (length (pm_q s)) t 0 s in
  if rd_select r <=? 0 then s
  else match rd_recv r with
       | None => s
       | Some (data, pkttype) =>
           let buf := take (Z.to_nat MAX_FRAME) data in
           if zlen buf =? 0 then s
           else if pkttype =? PACKET_OUTGOING then s
           else
             let s := s <| pm_dir := (pm_dir s) <| di_seen := u64 (di_seen (pm_dir s) + 1) |> |> in
             match is_cip_io buf (zlen buf) with
             | None => forward s buf
             | Some (off, plen) => impair_io t off plen buf s
             end
       end.

Definition pump_start (d : dir) (answers : list Z) : pump_state :=
  PumpState d (Wire answers []) [] (replicate (Z.to_nat REPLAY_KEEP) []) 0 0.

(** The frames still held go out when the loop ends. *)
Definition flush (s : pump_state) : pump_state := foldl (fun s p => forward s (p_data p)) s (pm_q s).

Definition pump (d : dir) (answers : list Z) (rounds : list round) : pump_state :=
  flush (foldl pump_round (pump_start d answers) rounds).

End Random.

(** ** The command line *)

Definition knobs_default : knobs := (Knobs 0 0 0 0 0 0 0 0 0 0) <| k_reorder_gap_us := 20000 |> <| k_replay_age := 8 |>.

(** The argument up to its first equals sign, and what follows it. *)
Fixpoint split_eq (s : cstr) : option (cstr * cstr) :=
  match s with
  | [] => None
  | c :: s => if ceq c "=" then Some ([], s)
              else match split_eq s with Some (k, v) => Some (c :: k, v) | None => None end
  end.

Definition set_knob (key : cstr) (v : Z) (ks : knobs * Z) : option (knobs * Z) :=
  let '(k, seed) := ks in
  if bool_decide (key = txt "delay_us") then Some (k <| k_delay_us := v |>, seed)
  else if bool_decide (key = txt "jitter_us") then Some (k <| k_jitter_us := v |>, seed)
  else if bool_decide (key = txt "reorder_pct") then Some (k <| k_reorder_pct := v |>, seed)
  else if bool_decide (key = txt "reorder_gap_us") then Some (k <| k_reorder_gap_us := v |>, seed)
  else if bool_decide (key = txt "dup_pct") then Some (k <| k_dup_pct := v |>, seed)
  else if bool_decide (key = txt "replay_pct") then Some (k <| k_replay_pct := v |>, seed)
  else if bool_decide (key = txt "replay_age") then Some (k <| k_replay_age := v |>, seed)
  else if bool_decide (key = txt "drop_pct") then Some (k <| k_drop_pct := v |>, seed)
  else if bool_decide (key = txt "trunc_pct") then Some (k <| k_trunc_pct := v |>, seed)
  else if bool_decide (key = txt "corrupt_pct") then Some (k <| k_corrupt_pct := v |>, seed)
  else if bool_decide (key = txt "seed") then Some (k, v)
  else None.

(** The loop over [argv[4]] and on; [None] is exit code 2. *)
Fixpoint parse_knobs (args : list cstr) (ks : knobs * Z) : option (knobs * Z) :=
  match args with
  | [] => Some ks
  | a :: args =>
      match split_eq a with
      | None => None
      | Some (key, value) =>
          match set_knob key (u32 (strtoul value).1.1.1) ks with
          | None => None
          | Some ks => parse_knobs args ks
          end
      end
  end.

Definition dir_zero : dir := Dir 0 0 0 [] (Knobs 0 0 0 0 0 0 0 0 0 0) 0 0 0 0 0 0 0 0 0 0 0 0 0 0.

(** What the kernel answers when an interface is opened: the descriptor of the
    socket, the index of a name, the result of [bind] to an index. *)
Record net_answers : Type := NetAnswers {
  na_socket : Z;
  na_ifindex : cstr -> option Z;
  na_bind : Z -> Z
}.
#[export] Instance eta_net_answers : Eta net_answers := fun r =>
  NetAnswers (na_socket r) (na_ifindex r) (na_bind r).

Definition IFNAMSIZ : Z := 16.

(** The descriptor and the interface index; a failing [PACKET_MR_PROMISC] is only
    reported. *)
Definition open_if (net : net_answers) (ifname : cstr) : option (Z * Z) :=
  let fd := na_socket net in
  if fd <? 0 then None
  else match na_ifindex net (take (Z.to_nat (IFNAMSIZ - 1)) ifname) with
       | None => None
       | Some ifindex => if na_bind net ifindex <? 0 then None else Some (fd, ifindex)
       end.

(** [main]: [now] is [time(NULL)], [net_a] and [net_b] what the kernel
    answers for the two interfaces, the rest what the two threads meet.  The result is the
    exit code and the two directions as [report] prints them. *)
Definition impair_main (rand_r : Z -> Z * Z) (index_first : bool) (argv : list cstr) (now : Z)
    (net_a net_b : net_answers) (answers_ab answers_ba : list Z) (rounds_ab rounds_ba : list round)
    : Z * option (pump_state * pump_state) :=
  match argv with
  | _ :: if_a :: if_b :: _ :: knob_args =>
      match parse_knobs knob_args (knobs_default, u32 now) with
      | None => (2, None)
      | Some (k, seed) =>
          match open_if net_a if_a with
          | None => (1, None)
          | Some (fd_a, idx_a) =>
              match open_if net_b if_b with
              | None => (1, None)
              | Some (fd_b, idx_b) =>
                  let a2b := dir_zero <| di_rx_fd := fd_a |> <| di_tx_fd := fd_b |> <| di_tx_ifindex := idx_b |>
                                      <| di_k := k |> <| di_seed := seed |> <| di_name := txt "a->b" |> in
                  let b2a := dir_zero <| di_rx_fd := fd_b |> <| di_tx_fd := fd_a |> <| di_tx_ifindex := idx_a |>
                                      <| di_k := k |> <| di_seed := Z.lxor seed 23505 |> <| di_name := txt "b->a" |> in
                  (0, Some (pump rand_r index_first a2b answers_ab rounds_ab,
                            pump rand_r index_first b2a answers_ba rounds_ba))
              end
          end
      end
  | _ => (2, None)
  end.

(** ** Specifications *)

(** The frames a direction takes from its interface. *)
Definition received (r : round) : option (list Z) :=
  if rd_select r <=? 0 then None
  else match rd_recv r with
       | Some (data, pkttype) =>
           let buf := take (Z.to_nat MAX_FRAME) data in
           if (zlen buf =? 0) || (pkttype =? PACKET_OUTGOING) then None else Some buf
       | None => None
       end.

(** What may become of a frame before it is sent: nothing, a cut inside the payload
    of an I/O frame, or one flipped bit there. *)
Definition damaged (f g : list Z) : Prop :=
  g = f \/
  exists off plen, is_cip_io f (zlen f) = Some (off, plen) /\
    ((exists n, off < n <= off + plen /\ g = bslice 0 n f) \/
     (exists i b, off <= i < off + plen /\ 0 <= b < 8 /\
        g = <[Z.to_nat i := Z.lxor (byte_at f i) (2 ^ b)]> f)).

(** The frame [h], checksums repaired, on the interface of [d]. *)
Definition on_wire (d : dir) (h : list Z) : Z * list Z := (di_tx_ifindex d, fix_checksums h (zlen h)).

Definition counters_zero (d : dir) : Prop :=
  di_seen d = 0 /\ di_forwarded d = 0 /\ di_dropped d = 0 /\ di_duplicated d = 0 /\ di_replayed d = 0.

(** ** Frames *)

Lemma u64_add_l x y : u64 (u64 x + y) = u64 (x + y).
Proof. apply Zplus_mod_idemp_l. Qed.

Lemma u64_add_r x y : u64 (x + u64 y) = u64 (x + y).
Proof. apply Zplus_mod_idemp_r. Qed.

(** Equal up to the wrap-around of counters. *)
Ltac wrap64 := unfold u64; clear; Z.div_mod_to_equations; lia.

Lemma ihl_nonneg f : 0 <= Z.land (byte_at f 14) 15.
Proof. change 15 with (Z.ones 4). rewrite Z.land_ones by lia. apply Z.mod_pos_bound. lia. Qed.

(** The payload of an I/O frame lies inside the frame. *)
Lemma is_cip_io_bounds f len off plen :
  is_cip_io f len = Some (off, plen) -> 0 < off /\ 0 <= plen /\ off + plen <= len.
Proof.
  unfold is_cip_io. intros H. pose proof (ihl_nonneg f) as Hi.
  repeat (let E := fresh "E" in match goal with H : context [if ?b then None else _] |- _ => destruct b eqn:E; [done|] end).
  injection H as <- <-. rewrite !orb_false_iff, !Z.ltb_ge in *.
  set (B := if be16 _ _ >? 8 then _ else 0). set (O := if len >? _ then _ else 0).
  assert (0 <= B) by (unfold B; destruct (Z.gtb_spec (be16 f (14 + Z.land (byte_at f 14) 15 * 4 + 4)) 8); lia).
  assert (O = len - (14 + Z.land (byte_at f 14) 15 * 4 + 8)) as EO.
  { unfold O. destruct (Z.gtb_spec len (14 + Z.land (byte_at f 14) 15 * 4 + 8)); lia. }
  destruct (Z.leb_spec B O); rewrite ?andb_false_r; destruct (negb (B =? 0)); simpl; lia.
Qed.

Lemma tx_spec d w buf : zlen buf <= MAX_FRAME -> exists e n ans,
  tx d w buf (zlen buf) = (d <| di_tx_err := e |> <| di_last_errno := n |>, Wire ans (wr_sent w ++ [on_wire d buf])).
Proof.
  intros Hl. unfold tx. rewrite Z.gtb_ltb, (proj2 (Z.ltb_ge _ _)) by lia. rewrite bslice_all. unfold on_wire.
  cbv zeta. destruct (_ =? 0).
  - exists (di_tx_err d), (di_last_errno d), (tail (wr_answers w)). by destruct d.
  - by eexists _, _, (tail (wr_answers w)).
Qed.

Lemma forward_spec s buf : zlen buf <= MAX_FRAME -> exists e n ans,
  forward s buf = s <| pm_dir := (pm_dir s) <| di_tx_err := e |> <| di_last_errno := n |>
                                            <| di_forwarded := u64 (di_forwarded (pm_dir s) + 1) |> |>
                    <| pm_wire := Wire ans (wr_sent (pm_wire s) ++ [on_wire (pm_dir s) buf]) |>.
Proof.
  intros Hl. unfold forward. destruct (tx_spec (pm_dir s) (pm_wire s) buf Hl) as (e & n & ans & ->).
  exists e, n, ans. destruct s as [[] ?]. done.
Qed.

(** Taking an entry out of the queue by moving the last one into its place. *)
Lemma take_last_perm i q p : q !! i = Some p -> q ≡ₚ p :: take_last i q.
Proof.
  intros Hi. unfold take_last. destruct q as [|z l _] using rev_ind; [done|].
  replace (length (l ++ [z]) - 1)%nat with (length l) by (rewrite length_app; simpl; lia).
  rewrite lookup_app_r, Nat.sub_diag by done. simpl. destruct (decide (i < length l)%nat) as [Hl|Hl].
  - rewrite lookup_app_l in Hi by done. rewrite insert_app_l, take_app_length' by (rewrite ?length_insert; done).
    rewrite (insert_take_drop l i z Hl). rewrite <- (take_drop_middle l i p Hi) at 1.
    rewrite (Permutation_app_comm _ [z]), <- !Permutation_middle. simpl. by rewrite (Permutation_swap z).
  - assert (i = length l) as -> by (apply lookup_lt_Some in Hi; rewrite length_app in Hi; simpl in Hi; lia).
    rewrite lookup_app_r, Nat.sub_diag in Hi by done. simpl in Hi. injection Hi as ->.
    rewrite list_insert_id, take_app_length by (rewrite lookup_app_r, Nat.sub_diag; done). by rewrite Permutation_app_comm.
Qed.

Lemma take_last_prefix i q p : q !! i = Some p -> take i (take_last i q) = take i q.
Proof.
  intros Hi. pose proof (lookup_lt_Some _ _ _ Hi). unfold take_last. destruct (q !! (length q - 1)%nat); [|done].
  rewrite take_take, take_insert_ge by lia. f_equal. lia.
Qed.

(** A pass over the queue sends exactly what is due and keeps exactly what is not. *)
Definition sendable (h : list Z) : Prop := zlen h <= MAX_FRAME.

Lemma release_spec t : forall turns i s,
  (length (pm_q s) - i <= turns)%nat -> Forall (fun p => sendable (p_data p)) (pm_q s) ->
  Forall (fun p => t < p_due_us p) (take i (pm_q s)) -> exists out e n ans fw,
  let s' := release turns t i s in
  pm_q s ≡ₚ out ++ pm_q s' /\ Forall (fun p => p_due_us p <= t) out /\ Forall (fun p => t < p_due_us p) (pm_q s') /\
  (u64 fw = u64 (di_forwarded (pm_dir s) + zlen out) /\ (u64 (di_forwarded (pm_dir s)) = di_forwarded (pm_dir s) -> u64 fw = fw)) /\
  s' = s <| pm_dir := (pm_dir s) <| di_tx_err := e |> <| di_last_errno := n |> <| di_forwarded := fw |> |>
         <| pm_wire := Wire ans (wr_sent (pm_wire s) ++ map (fun p => on_wire (pm_dir s) (p_data p)) out) |>
         <| pm_q := pm_q s' |>.
Proof.
  induction turns as [|turns IH]; intros i s Hlen Hq Hpre; cbv zeta.
  - exists [], (di_tx_err (pm_dir s)), (di_last_errno (pm_dir s)), (wr_answers (pm_wire s)), (di_forwarded (pm_dir s)).
    simpl. rewrite take_ge in Hpre by lia. rewrite app_nil_r, Z.add_0_r.
    do 4 (split; [done|]). by destruct s as [[] [] ? ? ?].
  - cbn [release]. destruct (pm_q s !! i) as [p|] eqn:Hi.
    2:{ apply lookup_ge_None in Hi. rewrite take_ge in Hpre by lia.
        exists [], (di_tx_err (pm_dir s)), (di_last_errno (pm_dir s)), (wr_answers (pm_wire s)), (di_forwarded (pm_dir s)).
        simpl. rewrite app_nil_r, Z.add_0_r. do 4 (split; [done|]). by destruct s as [[] [] ? ? ?]. }
    destruct (Z.leb_spec (p_due_us p) t) as [Hdue|Hdue].
    2:{ apply IH; [lia|done|]. rewrite (take_S_r _ _ p Hi). by apply Forall_app_2; [|constructor]. }
    pose proof (proj1 (Forall_lookup _ _) Hq i p Hi) as Hp. simpl in Hp.
    destruct (forward_spec s (p_data p) Hp) as (e1 & n1 & a1 & Ef). rewrite Ef.
    pose proof (take_last_perm i (pm_q s) p Hi) as HP. set (q1 := take_last i (pm_q s)) in *.
    match goal with |- context [release turns t i ?x] => set (s1 := x) end.
    assert (length (pm_q s) = S (length q1)) as HL by (rewrite HP; done).
    destruct (IH i s1) as (out & e & n & ans & fw & Hperm & Hout & Hrest & Hfw & Es'); cbv zeta in *.
    + change (pm_q s1) with q1. lia.
    + change (pm_q s1) with q1. rewrite HP in Hq. by inversion Hq.
    + change (pm_q s1) with q1. unfold q1. by rewrite (take_last_prefix i (pm_q s) p Hi).
    + exists (p :: out), e, n, ans, fw. change (pm_q s1) with q1 in Hperm.
      split; [rewrite HP, Hperm; done|]. split; [by constructor|]. split; [done|].
      destruct Hfw as [Hfw Hn].
      split; [split; [rewrite Hfw; unfold s1, zlen; simpl; wrap64|intros _; apply Hn; unfold s1; simpl; wrap64]|].
      rewrite Es' at 1. generalize (pm_q (release turns t i s1)). intros q'. unfold s1. simpl.
      rewrite <- app_assoc. done.
Qed.

(** ** The ring of recent frames *)

Definition ring (hist keep : list (list Z)) (n w : Z) : Prop :=
  zlen keep = REPLAY_KEEP /\ n = Z.min (zlen hist) REPLAY_KEEP /\ w = zlen hist mod REPLAY_KEEP /\
  forall j, 0 <= j < n ->
    keep !! Z.to_nat ((zlen hist - 1 - j) mod REPLAY_KEEP) = hist !! Z.to_nat (zlen hist - 1 - j).

Lemma ring_start : ring [] (replicate (Z.to_nat REPLAY_KEEP) []) 0 0.
Proof. split; [done|]. split; [done|]. split; [done|]. intros. lia. Qed.

Lemma mod_distinct a j m : 0 < j < m -> (a - j) mod m <> a mod m.
Proof.
  intros Hj E. assert ((a - (a - j)) mod m = 0) as H by (rewrite Zminus_mod, E, Z.sub_diag; apply Z.mod_0_l; lia).
  replace (a - (a - j)) with j in H by lia. rewrite Z.mod_small in H by lia. lia.
Qed.

Lemma ring_keep hist keep n w buf : ring hist keep n w ->
  ring (hist ++ [buf]) (<[Z.to_nat w := buf]> keep) (if n <? REPLAY_KEEP then n + 1 else n) ((w + 1) mod REPLAY_KEEP).
Proof.
  intros (Hk & -> & -> & Hj). unfold ring, REPLAY_KEEP in *. pose proof (Z.mod_pos_bound (zlen hist) 64 ltac:(lia)) as Hm.
  pose proof (zlen_nonneg hist). assert (zlen (hist ++ [buf]) = zlen hist + 1) as HL by (rewrite zlen_app; done).
  split; [unfold zlen in *; rewrite length_insert; done|]. rewrite HL.
  split; [destruct (Z.ltb_spec (zlen hist `min` 64) 64); lia|]. split; [by rewrite Zplus_mod_idemp_l|].
  intros j Hr. replace (zlen hist + 1 - 1 - j) with (zlen hist - j) by lia. destruct (decide (j = 0)) as [->|Hne].
  - rewrite Z.sub_0_r, list_lookup_insert_eq by (unfold zlen in *; lia).
    rewrite lookup_app_r by (unfold zlen; lia). unfold zlen. rewrite Nat2Z.id, Nat.sub_diag. done.
  - assert (0 < j < 64) as Hj64 by (destruct (Z.ltb_spec (zlen hist `min` 64) 64); lia).
    pose proof (mod_distinct (zlen hist) j 64 Hj64). pose proof (Z.mod_pos_bound (zlen hist - j) 64 ltac:(lia)).
    rewrite list_lookup_insert_ne by lia. specialize (Hj (j - 1)). replace (zlen hist - 1 - (j - 1)) with (zlen hist - j) in Hj by lia.
    assert (j <= zlen hist) by (destruct (Z.ltb_spec (zlen hist `min` 64) 64); lia).
    rewrite Hj by lia. rewrite lookup_app_l by (unfold zlen in *; lia). done.
Qed.

(** The slot the source computes is the frame [age] before the newest. *)
Lemma ring_replay hist keep n w age : ring hist keep n w -> 0 < age < n ->
  keep !! Z.to_nat (u32 (w + REPLAY_KEEP - 1 - age) mod REPLAY_KEEP) = hist !! Z.to_nat (zlen hist - 1 - age).
Proof.
  intros (Hk & -> & -> & Hj) Ha. rewrite <- Hj by lia. unfold REPLAY_KEEP in *.
  pose proof (Z.mod_pos_bound (zlen hist) 64 ltac:(lia)). rewrite u32_small by lia. do 2 f_equal.
  replace (zlen hist mod 64 + 64 - 1 - age) with (zlen hist mod 64 - (1 + age) + 1 * 64) by lia.
  rewrite Z_mod_plus_full, Zminus_mod_idemp_l. f_equal. lia.
Qed.

(** ** The invariant of a direction *)

(** The fields the accounts depend on. *)
Definition acct (d : dir) : knobs * Z * Z * Z * Z * Z * Z :=
  (di_k d, di_tx_ifindex d, di_seen d, di_forwarded d, di_dropped d, di_duplicated d, di_replayed d).

Definition is_io (f : list Z) : Prop := is_Some (is_cip_io f (zlen f)).

(** What became of the frames received: [drp] were dropped, [prs] went on, each as the
    second of its pair; of these [hand] are in hand, [q] in the queue and [out] sent on;
    [dup] and [rep] were sent besides, and they and [hist] are frames that went on. *)
Definition traffic (d0 : dir) (rcv hand : list (list Z)) (q : list pending) (sent : list (Z * list Z)) (hist : list (list Z))
    (fw dr du re : Z) : Prop :=
  exists drp prs out dup rep,
    rcv ≡ₚ drp ++ map fst prs /\ Forall is_io drp /\ Forall (fun x => damaged x.1 x.2 /\ sendable x.2) prs /\
    map snd prs ≡ₚ hand ++ map p_data q ++ out /\ sent ≡ₚ map (on_wire d0) (out ++ dup ++ rep) /\
    Forall (fun h => h ∈ map snd prs) (dup ++ rep ++ hist) /\
    fw = u64 (zlen out) /\ dr = u64 (zlen drp) /\ du = u64 (zlen dup) /\ re = u64 (zlen rep).

Lemma zlen_snoc {A} (l : list A) x : zlen (l ++ [x]) = zlen l + 1.
Proof. rewrite zlen_app. done. Qed.

Section Traffic.
Context (d0 : dir) (rcv : list (list Z)) (q : list pending) (sent : list (Z * list Z)) (hist : list (list Z)) (fw dr du re : Z).

Lemma traffic_receive f g :
  traffic d0 rcv [] q sent hist fw dr du re -> damaged f g -> sendable g -> traffic d0 (rcv ++ [f]) [g] q sent hist fw dr du re.
Proof.
  intros (drp & prs & out & dup & rep & H1 & H2 & H3 & H4 & H5 & H6 & Hc) Hd Hs.
  exists drp, ((f, g) :: prs), out, dup, rep. simpl. split; [rewrite H1, (Permutation_app_comm _ [f]), <- Permutation_middle; done|].
  split; [done|]. split; [by constructor|]. split; [by rewrite H4|]. split; [done|]. split; [|done].
  eapply List.Forall_impl; [|exact H6]. intros h Hh. simpl in *. apply list_elem_of_further, Hh.
Qed.

Lemma traffic_drop f :
  traffic d0 rcv [] q sent hist fw dr du re -> is_io f -> traffic d0 (rcv ++ [f]) [] q sent hist fw (u64 (dr + 1)) du re.
Proof.
  intros (drp & prs & out & dup & rep & H1 & H2 & H3 & H4 & H5 & H6 & H7 & -> & H9) Hf.
  exists (f :: drp), prs, out, dup, rep. split; [by rewrite H1, (Permutation_app_comm _ [f])|].
  split; [by constructor|]. do 5 (split; [done|]). split; [unfold zlen; simpl; wrap64|done].
Qed.

Lemma traffic_keep g hand :
  traffic d0 rcv (g :: hand) q sent hist fw dr du re -> traffic d0 rcv (g :: hand) q sent (hist ++ [g]) fw dr du re.
Proof.
  intros (drp & prs & out & dup & rep & H1 & H2 & H3 & H4 & H5 & H6 & H7). exists drp, prs, out, dup, rep. do 5 (split; [done|]).
  split; [|done]. rewrite !app_assoc in *. apply Forall_app_2; [done|]. constructor; [|done]. rewrite H4. by left.
Qed.

Lemma traffic_queue p hand :
  traffic d0 rcv (p_data p :: hand) q sent hist fw dr du re -> traffic d0 rcv hand (q ++ [p]) sent hist fw dr du re.
Proof.
  intros (drp & prs & out & dup & rep & H1 & H2 & H3 & H4 & H5). exists drp, prs, out, dup, rep. do 3 (split; [done|]).
  split; [|done]. rewrite H4, map_app. simpl. rewrite <- app_assoc. simpl. by rewrite <- !Permutation_middle.
Qed.

Lemma traffic_unqueue o q' hand :
  q ≡ₚ o ++ q' -> traffic d0 rcv hand q sent hist fw dr du re -> traffic d0 rcv (map p_data o ++ hand) q' sent hist fw dr du re.
Proof.
  intros Hq (drp & prs & out & dup & rep & H1 & H2 & H3 & H4 & H5). exists drp, prs, out, dup, rep. do 3 (split; [done|]).
  split; [|done]. rewrite H4, Hq, map_app, <- !app_assoc, !app_assoc. by rewrite (Permutation_app_comm hand).
Qed.

Lemma traffic_forwards gs hand fw' :
  traffic d0 rcv (gs ++ hand) q sent hist fw dr du re -> u64 fw' = u64 (fw + zlen gs) ->
  traffic d0 rcv hand q (sent ++ map (on_wire d0) gs) hist (u64 fw') dr du re.
Proof.
  intros (drp & prs & out & dup & rep & H1 & H2 & H3 & H4 & H5 & H6 & -> & H7) Hfw. exists drp, prs, (out ++ gs), dup, rep.
  do 3 (split; [done|]). split; [by rewrite H4, <- app_assoc, (Permutation_app_comm gs), <- !app_assoc|].
  split; [by rewrite H5, <- map_app, <- !app_assoc, (Permutation_app_comm gs), <- !app_assoc|].
  split; [done|]. split; [|done]. rewrite Hfw, u64_add_l, zlen_app. done.
Qed.

Lemma traffic_dup g hand :
  traffic d0 rcv hand q sent hist fw dr du re -> g ∈ hist ->
  traffic d0 rcv hand q (sent ++ [on_wire d0 g]) hist fw dr (u64 (du + 1)) re.
Proof.
  intros (drp & prs & out & dup & rep & H1 & H2 & H3 & H4 & H5 & H6 & H7 & H8 & -> & H9) Hg.
  exists drp, prs, out, (g :: dup), rep. do 4 (split; [done|]).
  split; [rewrite H5; change [on_wire d0 g] with (map (on_wire d0) [g]); rewrite <- map_app; cbn [app]; by rewrite (Permutation_app_comm _ [g]), <- (Permutation_middle out)|].
  split; [constructor; [|done]|do 2 (split; [done|]); split; [unfold zlen; simpl; wrap64|done]].
  rewrite !Forall_app in H6. by apply (proj1 (List.Forall_forall _ _) (proj2 (proj2 H6))), list_elem_of_In.
Qed.

Lemma traffic_rep g hand :
  traffic d0 rcv hand q sent hist fw dr du re -> g ∈ hist ->
  traffic d0 rcv hand q (sent ++ [on_wire d0 g]) hist fw dr du (u64 (re + 1)).
Proof.
  intros (drp & prs & out & dup & rep & H1 & H2 & H3 & H4 & H5 & H6 & H7 & H8 & H9 & ->) Hg.
  exists drp, prs, out, dup, (g :: rep). do 4 (split; [done|]).
  split; [rewrite H5; change [on_wire d0 g] with (map (on_wire d0) [g]); rewrite <- map_app; cbn [app]; by rewrite (Permutation_app_comm _ [g]), !app_assoc, <- Permutation_middle|].
  rewrite !Forall_app in H6. destruct H6 as (F1 & F2 & F3).
  split; [|do 3 (split; [done|]); unfold zlen; simpl; wrap64].
  rewrite !Forall_app. split; [done|split; [constructor; [|done]|done]].
  by apply (proj1 (List.Forall_forall _ _) F3), list_elem_of_In.
Qed.
End Traffic.

(** [rcv] has been received, [hand] are neither queued nor sent, [hist] went through the ring. *)
Definition pump_inv (d0 : dir) (rcv hand hist : list (list Z)) (s : pump_state) : Prop :=
  let d := pm_dir s in
  di_k d = di_k d0 /\ di_tx_ifindex d = di_tx_ifindex d0 /\ di_seen d = u64 (zlen rcv) /\ zlen (pm_q s) <= PENDING_MAX /\
  ring hist (pm_keep s) (pm_keep_n s) (pm_keep_w s) /\
  traffic d0 rcv hand (pm_q s) (wr_sent (pm_wire s)) hist (di_forwarded d) (di_dropped d) (di_duplicated d) (di_replayed d).

Lemma inv_dir d0 rcv hand hist s d :
  pump_inv d0 rcv hand hist s -> acct d = acct (pm_dir s) -> pump_inv d0 rcv hand hist (s <| pm_dir := d |>).
Proof. unfold acct. intros H [= E1 E2 E3 E4 E5 E6 E7]. unfold pump_inv in *. simpl. rewrite E1, E2, E3, E4, E5, E6, E7. done. Qed.

(** Everything in hand, queued or gone through fits a frame. *)
Lemma traffic_sendable d0 rcv hand q sent hist fw dr du re h :
  traffic d0 rcv hand q sent hist fw dr du re -> h ∈ hand ++ map p_data q ++ hist -> sendable h.
Proof.
  intros (drp & prs & out & dup & rep & H1 & H2 & H3 & H4 & H5 & H6 & _) Hh.
  assert (h ∈ map snd prs) as Hm.
  { rewrite !elem_of_app in Hh. destruct Hh as [Hh|[Hh|Hh]]; [rewrite H4, !elem_of_app; by auto..|].
    rewrite !Forall_app in H6. by apply (proj1 (List.Forall_forall _ _) (proj2 (proj2 H6))), list_elem_of_In. }
  apply list_elem_of_fmap in Hm as (x & -> & Hx). by apply (proj1 (List.Forall_forall _ _) H3), list_elem_of_In.
Qed.

Lemma inv_receive d0 rcv hist s f g : pump_inv d0 rcv [] hist s -> damaged f g -> sendable g ->
  pump_inv d0 (rcv ++ [f]) [g] hist (s <| pm_dir := (pm_dir s) <| di_seen := u64 (di_seen (pm_dir s) + 1) |> |>).
Proof.
  intros (H1 & H2 & H3 & H4 & H5 & H6) Hd Hs. unfold pump_inv. simpl.
  do 2 (split; [done|]). split; [rewrite zlen_snoc, H3; wrap64|]. do 2 (split; [done|]). by apply traffic_receive.
Qed.

Lemma inv_drop d0 rcv hist s f d : pump_inv d0 rcv [] hist s -> is_io f ->
  acct d = acct ((pm_dir s) <| di_seen := u64 (di_seen (pm_dir s) + 1) |>) ->
  pump_inv d0 (rcv ++ [f]) [] hist (s <| pm_dir := d <| di_dropped := u64 (di_dropped d + 1) |> |>).
Proof.
  intros (H1 & H2 & H3 & H4 & H5 & H6) Hf [= E1 E2 E3 E4 E5 E6 E7]. unfold pump_inv. simpl. rewrite E1, E2, E3, E4, E5, E6, E7.
  do 2 (split; [done|]). split; [rewrite zlen_snoc, H3; wrap64|]. do 2 (split; [done|]). by apply traffic_drop.
Qed.

Lemma inv_forward d0 rcv hand hist s g : pump_inv d0 rcv (g :: hand) hist s -> pump_inv d0 rcv hand hist (forward s g).
Proof.
  intros (H1 & H2 & H3 & H4 & H5 & H6).
  destruct (forward_spec s g) as (er & n & ans & ->); [eapply traffic_sendable; [exact H6|by left]|].
  unfold pump_inv. simpl. do 5 (split; [done|]). replace (on_wire (pm_dir s) g) with (on_wire d0 g) by (unfold on_wire; by rewrite H2).
  exact (traffic_forwards _ _ _ _ _ _ _ _ _ [g] hand _ H6 eq_refl).
Qed.

(** A frame sent besides, with the counter that goes with it. *)
Lemma inv_extra d0 rcv hand hist s d g (f : dir -> dir) :
  pump_inv d0 rcv hand hist s -> acct d = acct (pm_dir s) -> g ∈ hist ->
  (forall d, acct (f d) = acct (d <| di_duplicated := u64 (di_duplicated d + 1) |>)) \/
  (forall d, acct (f d) = acct (d <| di_replayed := u64 (di_replayed d + 1) |>)) ->
  let '(d, w) := tx d (pm_wire s) g (zlen g) in pump_inv d0 rcv hand hist (s <| pm_dir := f d |> <| pm_wire := w |>).
Proof.
  intros (H1 & H2 & H3 & H4 & H5 & H6) [= A1 A2 A3 A4 A5 A6 A7] Hg Hf.
  destruct (tx_spec d (pm_wire s) g) as (er & n & ans & ->); [eapply traffic_sendable; [exact H6|rewrite !elem_of_app; by auto]|].
  set (d1 := d <| di_tx_err := er |> <| di_last_errno := n |>).
  replace (on_wire d g) with (on_wire d0 g) by (unfold on_wire; by rewrite A2, H2).
  destruct Hf as [Hf|Hf]; specialize (Hf d1); unfold acct in Hf; injection Hf as F1 F2 F3 F4 F5 F6 F7; unfold pump_inv; simpl in *;
    rewrite F1, F2, F3, F4, F5, F6, F7, A1, A2, A3, A4, A5, ?A6, ?A7; do 5 (split; [done|]);
    [by apply traffic_dup|by apply traffic_rep].
Qed.

Lemma inv_keep d0 rcv hand hist s g :
  pump_inv d0 rcv (g :: hand) hist s -> pump_inv d0 rcv (g :: hand) (hist ++ [g]) (keep_frame s g).
Proof.
  intros (H1 & H2 & H3 & H4 & H5 & H6). unfold pump_inv, keep_frame. simpl. do 4 (split; [done|]).
  split; [by apply ring_keep|by apply traffic_keep].
Qed.

Lemma inv_hold d0 rcv hand hist s t hold g :
  pump_inv d0 rcv (g :: hand) hist s -> pump_inv d0 rcv hand hist (hold_or_forward t hold s g).
Proof.
  intros Hi. unfold hold_or_forward. destruct (negb (hold =? 0) && _) eqn:Hb; [|by apply inv_forward].
  apply andb_true_iff in Hb as [_ Hb]. apply Z.ltb_lt in Hb. destruct Hi as (H1 & H2 & H3 & H4 & H5 & H6). unfold pump_inv. simpl.
  do 3 (split; [done|]). rewrite zlen_snoc. split; [lia|]. split; [done|]. by apply traffic_queue.
Qed.

Lemma queue_sendable d0 rcv hand hist s : pump_inv d0 rcv hand hist s -> Forall (fun p => sendable (p_data p)) (pm_q s).
Proof.
  intros (_ & _ & _ & _ & _ & H6). apply List.Forall_forall. intros p Hp. eapply traffic_sendable; [exact H6|].
  rewrite !elem_of_app. right. left. apply list_elem_of_fmap. exists p. split; [done|by apply list_elem_of_In].
Qed.

Lemma inv_release d0 rcv hist t s : pump_inv d0 rcv [] hist s -> pump_inv d0 rcv [] hist (release (length (pm_q s)) t 0 s).
Proof.
  intros Hi. pose proof Hi as (H1 & H2 & H3 & H4 & H5 & H6).
  destruct (release_spec t (length (pm_q s)) 0 s) as (out & e & n & ans & fw & HP & _ & _ & Hfw & Es); [lia|by eapply queue_sendable|constructor|].
  cbv zeta in *. set (s' := release _ _ _ _) in *. set (q' := pm_q s') in *. rewrite Es. unfold pump_inv. simpl.
  assert (zlen (pm_q s) = zlen out + zlen q') as HL by (rewrite <- zlen_app; unfold zlen; by rewrite HP).
  do 3 (split; [done|]). split; [pose proof (zlen_nonneg out); lia|]. split; [done|].
  destruct Hfw as [Hfw Hn]. rewrite <- Hn by (destruct H6 as (? & ? & ? & ? & ? & _ & _ & _ & _ & _ & _ & -> & _); wrap64).
  apply (traffic_unqueue _ _ _ _ _ _ _ _ _ out q') in H6; [|done].
  replace (map (fun p => on_wire (pm_dir s) (p_data p)) out) with (map (on_wire d0) (map p_data out))
    by (rewrite map_map; apply map_ext; intros p; unfold on_wire; by rewrite H2).
  eapply traffic_forwards; [exact H6|]. rewrite Hfw. unfold zlen. by rewrite length_map.
Qed.

(** The flush sends what is queued, in the order of the queue. *)
Lemma flush_queue d0 rcv hist q : forall s,
  pump_inv d0 rcv (map p_data q) hist (s <| pm_q := [] |>) ->
  pump_inv d0 rcv [] hist ((foldl (fun s p => forward s (p_data p)) s q) <| pm_q := [] |>).
Proof.
  induction q as [|p q IH]; intros s H0; [done|]. cbn [foldl map] in *. apply IH.
  assert (sendable (p_data p)) as Hp by (destruct H0 as (_ & _ & _ & _ & _ & H6); eapply traffic_sendable; [exact H6|by left]).
  apply inv_forward in H0. revert H0. unfold forward. cbn. by destruct (tx _ _ _ _).
Qed.

Lemma inv_flush d0 rcv hist s : pump_inv d0 rcv [] hist s -> pump_inv d0 rcv [] hist ((flush s) <| pm_q := [] |>).
Proof.
  intros (H1 & H2 & H3 & H4 & H5 & H6). apply flush_queue. unfold pump_inv. simpl. do 3 (split; [done|]). split; [done|]. split; [done|].
  apply (traffic_unqueue _ _ _ _ _ _ _ _ _ (pm_q s) []) in H6; [by rewrite app_nil_r in H6|by rewrite app_nil_r].
Qed.

Section Draws.
Variable rand_r : Z -> Z * Z.
Variable index_first : bool.

Lemma rnd_spec bound d x d' : 0 <= bound -> rnd rand_r bound d = (x, d') -> acct d' = acct d /\ (0 < bound -> 0 <= x < bound).
Proof.
  unfold rnd. intros Hb. destruct (Z.eqb_spec bound 0) as [->|Hne]; [intros [= <- <-]; split; [done|lia]|].
  destruct (rand_r (di_seed d)) as [r seed]. intros [= <- <-]. split; [done|]. intros _. apply Z.mod_pos_bound. lia.
Qed.

Lemma hits_spec pct d hit d' : hits rand_r pct d = (hit, d') -> acct d' = acct d /\ (pct = 0 -> hit = false /\ d' = d).
Proof.
  unfold hits. destruct (Z.eqb_spec pct 0); [by intros [= <- <-]|]. destruct (rnd rand_r 100 d) as [r d1] eqn:E.
  intros [= <- <-]. split; [|done]. by apply rnd_spec in E as [? _]; [|lia].
Qed.

(** A guarded draw. *)
Lemma hits_if_spec (b : bool) pct d hit d' :
  (if b then (false, d) else hits rand_r pct d) = (hit, d') -> acct d' = acct d /\ (hit = true -> b = false).
Proof. destruct b; [by intros [= <- <-]|]. intros H. by apply hits_spec in H as [? _]. Qed.

Lemma damage_spec off plen f d g d' :
  is_cip_io f (zlen f) = Some (off, plen) -> sendable f -> damage rand_r index_first off plen f d = (g, d') ->
  acct d' = acct d /\ damaged f g /\ sendable g.
Proof.
  intros Hio Hf. destruct (is_cip_io_bounds _ _ _ _ Hio) as (Ho & Hp & Hl). unfold damage, sendable, MAX_FRAME in *.
  destruct (if plen =? 0 then _ else _) as [hit d1] eqn:E1. apply hits_if_spec in E1 as [A1 N1]. destruct hit.
  { specialize (N1 eq_refl). apply Z.eqb_neq in N1.
    destruct (if plen >? 4 then _ else _) as [x d2] eqn:E2. intros [= <- <-].
    assert (acct d2 = acct d1 /\ 0 < x <= plen) as [A2 Hx].
    { destruct (Z.gtb_spec plen 4) as [H4|H4]; [|injection E2 as <- <-; split; [done|lia]].
      destruct (rnd rand_r (plen - 4) d1) as [r d3] eqn:E3. apply rnd_spec in E3 as [A3 R3]; [|lia].
      injection E2 as <- <-. split; [done|lia]. }
    rewrite u32_small by lia. split; [rewrite <- A1, <- A2; done|]. split; [|rewrite zlen_bslice; lia].
    right. exists off, plen. split; [done|]. left. exists (off + x). split; [lia|done]. }
  destruct (if plen =? 0 then _ else _) as [hit d2] eqn:E2. apply hits_if_spec in E2 as [A2 N2]. destruct hit.
  2:{ intros [= <- <-]. split; [by rewrite <- A1|]. by split; [left|]. }
  specialize (N2 eq_refl). apply Z.eqb_neq in N2. destruct (if index_first then _ else _) as [[a b] d3] eqn:E3.
  assert (acct d3 = acct d2 /\ 0 <= a < plen /\ 0 <= b < 8) as (A3 & Ha & Hb).
  { destruct index_first; [destruct (rnd rand_r plen d2) as [x d4] eqn:E4; destruct (rnd rand_r 8 d4) as [y d5] eqn:E5
      | destruct (rnd rand_r 8 d2) as [x d4] eqn:E4; destruct (rnd rand_r plen d4) as [y d5] eqn:E5];
    apply rnd_spec in E4 as [B1 R1]; try lia; apply rnd_spec in E5 as [B2 R2]; try lia;
    injection E3 as <- <- <-; rewrite B2, B1; (split; [done|lia]). }
  intros [= <- <-]. split; [rewrite <- A1, <- A2, <- A3; done|].
  split; [|unfold zlen in *; rewrite length_insert; lia].
  right. exists off, plen. split; [done|]. right. exists (off + a), b. split; [lia|]. split; [done|]. do 2 f_equal.
  rewrite Z.shiftl_mul_pow2, Z.mul_1_l by lia. apply u8_small. unfold is_byte.
  change 256 with (2 ^ 8). split; [lia|]. apply Z.pow_lt_mono_r; lia.
Qed.

Lemma holding_acct d hold d' : 0 <= k_jitter_us (di_k d) -> holding rand_r d = (hold, d') -> acct d' = acct d.
Proof.
  intros Hj. unfold holding. destruct (if k_jitter_us _ =? 0 then _ else _) as [h1 d1] eqn:E1.
  assert (acct d1 = acct d) as A1.
  { destruct (_ =? 0); [by injection E1 as <- <-|]. destruct (rnd rand_r _ d) as [r d2] eqn:E2. injection E1 as <- <-.
    by apply rnd_spec in E2 as [? _]. }
  destruct (hits rand_r _ d1) as [hit d2] eqn:E2. apply hits_spec in E2 as [A2 _].
  assert (forall h d3, acct d3 = acct d -> (if h =? 0 then (h, d3) else
     (h, if h >? di_max_hold_us (d3 <| di_delayed := u64 (di_delayed d3 + 1) |>)
         then (d3 <| di_delayed := u64 (di_delayed d3 + 1) |>) <| di_max_hold_us := h |>
         else d3 <| di_delayed := u64 (di_delayed d3 + 1) |>)) = (hold, d') -> acct d' = acct d) as Hfin.
  { intros h d3 A3. destruct (h =? 0); intros [= <- <-]; [done|]. rewrite <- A3. by destruct (h >? _). }
  destruct hit; apply Hfin; rewrite <- A1, <- A2; done.
Qed.

Lemma inv_duplicate d0 rcv hand hist s g :
  pump_inv d0 rcv hand hist s -> g ∈ hist -> pump_inv d0 rcv hand hist (duplicate rand_r s g).
Proof.
  intros Hi Hd. unfold duplicate. destruct (hits rand_r _ _) as [hit d] eqn:E. apply hits_spec in E as [A _].
  destruct hit; [|by apply inv_dir]. pose proof (inv_extra d0 rcv hand hist s d g (fun d => d <| di_duplicated := u64 (di_duplicated d + 1) |>)) as H.
  destruct (tx d (pm_wire s) g (zlen g)) as [d1 w1]. apply H; [done..|]. by left.
Qed.

Lemma inv_replay d0 rcv hand hist s :
  0 <= k_replay_age (di_k d0) -> pump_inv d0 rcv hand hist s -> pump_inv d0 rcv hand hist (replay rand_r s).
Proof.
  intros Ha Hi. unfold replay. destruct (_ && _) eqn:Hb; [|done]. apply andb_true_iff in Hb as [Hn Hz].
  rewrite Z.gtb_ltb in Hn. apply Z.ltb_lt in Hn. apply negb_true_iff, Z.eqb_neq in Hz.
  destruct (hits rand_r _ _) as [hit d] eqn:E. apply hits_spec in E as [A _]. destruct hit; [|by apply inv_dir].
  pose proof Hi as (H1 & _ & _ & _ & H10 & _).
  rewrite H1 in *. rewrite (ring_replay hist _ _ _ _ H10) by lia.
  destruct H10 as (_ & En & _). assert (zlen hist - 1 - k_replay_age (di_k d0) < zlen hist) by lia.
  assert (0 <= zlen hist - 1 - k_replay_age (di_k d0)) by lia.
  destruct (lookup_lt_is_Some_2 hist (Z.to_nat (zlen hist - 1 - k_replay_age (di_k d0)))) as [g Hg]; [unfold zlen in *; lia|].
  rewrite Hg. simpl. assert (g ∈ hist) as Hd by (by eapply list_elem_of_lookup_2).
  pose proof (inv_extra d0 rcv hand hist s d g (fun d => d <| di_replayed := u64 (di_replayed d + 1) |>)) as HX.
  destruct (tx d (pm_wire s) g (zlen g)) as [d1 w1]. apply HX; [done..|]. by right.
Qed.

(** The [uint32_t] fields the arithmetic depends on. *)
Definition knobs_u32 (k : knobs) : Prop :=
  0 <= k_jitter_us k < 2 ^ 32 /\ 0 <= k_replay_age k < 2 ^ 32 /\ 0 <= k_delay_us k < 2 ^ 32 /\ 0 <= k_reorder_gap_us k < 2 ^ 32.

Definition seen_one (s : pump_state) : pump_state := s <| pm_dir := (pm_dir s) <| di_seen := u64 (di_seen (pm_dir s) + 1) |> |>.

Lemma inv_impair d0 rcv hist t off plen f s :
  knobs_u32 (di_k d0) -> pump_inv d0 rcv [] hist s -> sendable f -> is_cip_io f (zlen f) = Some (off, plen) ->
  exists hist', pump_inv d0 (rcv ++ [f]) [] hist' (impair_io rand_r index_first t off plen f (seen_one s)).
Proof.
  intros ([Hj _] & [Ha _] & _) Hi Hs Hio. unfold impair_io. destruct (hits rand_r _ _) as [hit d1] eqn:E1. apply hits_spec in E1 as [A1 _].
  change (acct d1 = acct (pm_dir (seen_one s))) in A1. destruct hit; [exists hist; apply (inv_drop _ _ _ s f d1); [done|by eexists|done]|].
  destruct (damage rand_r index_first off plen f d1) as [g d2] eqn:E2.
  apply damage_spec in E2 as (A2 & Hd & Hsg); [|done..]. exists (hist ++ [g]).
  pose proof (inv_receive d0 rcv hist s f g Hi Hd Hsg) as Hr. fold (seen_one s) in Hr.
  set (s2 := keep_frame (seen_one s <| pm_dir := d2 |>) g).
  assert (pump_inv d0 (rcv ++ [f]) [g] (hist ++ [g]) s2) as Hi2 by (apply inv_keep, inv_dir; [done|congruence]).
  destruct (holding rand_r (pm_dir s2)) as [hold d3] eqn:E3.
  apply holding_acct in E3; [|by rewrite (proj1 Hi2)].
  apply inv_replay; [done|]. apply inv_duplicate; [|apply elem_of_app; right; by apply list_elem_of_singleton].
  apply inv_hold. by apply inv_dir.
Qed.

Lemma inv_round d0 rcv hist s r : knobs_u32 (di_k d0) -> pump_inv d0 rcv [] hist s ->
  exists hist', pump_inv d0 (rcv ++ option_list (received r)) [] hist' (pump_round rand_r index_first s r).
Proof.
  intros Hk Hi. unfold pump_round, received. apply (inv_release _ _ _ (rd_now r)) in Hi.
  set (s1 := release _ _ _ s) in *. clearbody s1.
  destruct (rd_select r <=? 0); [exists hist; by rewrite app_nil_r|]. destruct (rd_recv r) as [[data ty]|]; [|exists hist; by rewrite app_nil_r].
  set (f := take _ data). cbv zeta. destruct (zlen f =? 0); cbn [orb]; [exists hist; by rewrite app_nil_r|].
  destruct (ty =? PACKET_OUTGOING); [exists hist; by rewrite app_nil_r|]. cbn [option_list].
  assert (sendable f) as Hs by (unfold sendable, zlen, f; rewrite length_take; unfold MAX_FRAME; lia).
  destruct (is_cip_io f (zlen f)) as [[off plen]|] eqn:Hio; [by eapply inv_impair|].
  exists hist. apply inv_forward, inv_receive; [done|by left|done].
Qed.

Lemma inv_rounds d answers rounds : counters_zero d -> knobs_u32 (di_k d) ->
  exists hist, pump_inv d (omap received rounds) [] hist (foldl (pump_round rand_r index_first) (pump_start d answers) rounds).
Proof.
  intros (Z1 & Z2 & Z3 & Z4 & Z5) Hk. assert (exists hist, pump_inv d [] [] hist (pump_start d answers)) as H0.
  { exists []. unfold pump_inv. simpl. rewrite Z1, Z2, Z3, Z4, Z5. do 4 (split; [done|]). split; [apply ring_start|].
    by exists [], [], [], [], []. }
  change (omap received rounds) with ([] ++ omap received rounds). revert H0. generalize (@nil (list Z)) at 1 3, (pump_start d answers).
  induction rounds as [|r rounds IH]; intros rcv s H0; [by rewrite app_nil_r|]. cbn [foldl].
  replace (rcv ++ omap received (r :: rounds)) with ((rcv ++ option_list (received r)) ++ omap received rounds)
    by (rewrite <- app_assoc; f_equal; simpl; by destruct (received r)).
  apply IH. destruct H0 as [hist H0]. by eapply inv_round.
Qed.

Lemma hold_or_forward_queues t hold s buf :
  pm_q (hold_or_forward t hold s buf) = pm_q s ++ [Pending (u64 (t + hold)) buf] <-> hold <> 0 /\ zlen (pm_q s) < PENDING_MAX.
Proof.
  unfold hold_or_forward. destruct (Z.eqb_spec hold 0) as [|Hh]; cbn [negb andb].
  2: destruct (Z.ltb_spec (zlen (pm_q s)) PENDING_MAX); [by split|].
  all: split; [|lia]; intros E; exfalso; apply (f_equal length) in E; revert E; unfold forward; destruct (tx _ _ _ _);
    rewrite length_app; simpl; lia.
Qed.

(** How long a frame is held. *)
Lemma holding_range d hold d' : knobs_u32 (di_k d) -> holding rand_r d = (hold, d') -> exists j g,
  hold = k_delay_us (di_k d) + j + g /\ (j = 0 \/ 0 <= j < k_jitter_us (di_k d)) /\
  (g = 0 \/ (g = k_reorder_gap_us (di_k d) /\ k_reorder_pct (di_k d) <> 0)).
Proof.
  intros (Hj & _ & Hd & Hg). unfold holding. destruct (if k_jitter_us _ =? 0 then _ else _) as [h1 d1] eqn:E1.
  assert (acct d1 = acct d /\ exists j, h1 = k_delay_us (di_k d) + j /\ (j = 0 \/ 0 <= j < k_jitter_us (di_k d))) as [A1 (j & -> & Hr)].
  { destruct (Z.eqb_spec (k_jitter_us (di_k d)) 0) as [|Hne].
    - injection E1 as <- <-. split; [done|]. exists 0. split; [lia|by left].
    - destruct (rnd rand_r _ d) as [r d2] eqn:E2. injection E1 as <- <-. apply rnd_spec in E2 as [A R]; [|lia]. split; [done|].
      exists r. split; [rewrite u64_small by lia; lia|right; lia]. }
  assert (di_k d1 = di_k d) as K1 by (by injection A1). destruct (hits rand_r _ d1) as [hit d2] eqn:E2.
  apply hits_spec in E2 as [A2 N2]. assert (di_k d2 = di_k d) as K2 by (rewrite <- K1; by injection A2).
  intros Hx. exists j. destruct hit.
  - exists (k_reorder_gap_us (di_k d)). rewrite K2 in Hx. rewrite (u64_small (_ + _ + _)) in Hx by lia.
    assert (k_reorder_pct (di_k d) <> 0) as Hp by (rewrite <- K1; intros H0; by destruct (N2 H0)).
    assert (hold = k_delay_us (di_k d) + j + k_reorder_gap_us (di_k d)); [|by auto].
    apply (f_equal fst) in Hx. revert Hx.
    destruct (k_delay_us (di_k d) + j + k_reorder_gap_us (di_k d) =? 0); cbn [fst]; by intros <-.
  - exists 0. split; [|by auto]. rewrite Z.add_0_r. apply (f_equal fst) in Hx. revert Hx. destruct (k_delay_us (di_k d) + j =? 0); cbn [fst]; by intros <-.
Qed.

(** [C37] Every frame is accounted for, and nothing is made up.  Whatever arrives,
    however the draws fall and whichever sends fail, once the wire has stopped
    the frames received are, one for one, the frames dropped and the frames
    forwarded: every frame that was not dropped has been given to [sendto] exactly
    once for the forwarding, the held ones included, unchanged or, if it is an I/O
    frame, cut inside its payload or with one bit of that flipped, with its
    checksums repaired; only I/O frames are dropped; and whatever else was sent is a
    copy of a frame that went on, sent as a duplicate or as a replay.  The
    counters are these numbers, and the queue never holds more than its array. *)
Theorem impair_accounts (d : dir) (answers : list Z) (rounds : list round) :
  counters_zero d -> knobs_u32 (di_k d) ->
  let rcv := omap received rounds in
  let s := pump rand_r index_first d answers rounds in
  (exists dropped passed dup rep,
     rcv ≡ₚ dropped ++ map fst passed /\ Forall is_io dropped /\ Forall (fun x => damaged x.1 x.2) passed /\
     wr_sent (pm_wire s) ≡ₚ map (on_wire d) (map snd passed ++ dup ++ rep) /\
     Forall (fun h => h ∈ map snd passed) (dup ++ rep) /\
     di_forwarded (pm_dir s) = u64 (zlen passed) /\ di_dropped (pm_dir s) = u64 (zlen dropped) /\
     di_duplicated (pm_dir s) = u64 (zlen dup) /\ di_replayed (pm_dir s) = u64 (zlen rep)) /\
  di_seen (pm_dir s) = u64 (zlen rcv) /\
  zlen (pm_q (foldl (pump_round rand_r index_first) (pump_start d answers) rounds)) <= PENDING_MAX.
Proof.
  intros Hz Hk rcv s. destruct (inv_rounds d answers rounds Hz Hk) as [hist Hi].
  assert (zlen (pm_q (foldl (pump_round rand_r index_first) (pump_start d answers) rounds)) <= PENDING_MAX) as Hq by apply Hi.
  apply inv_flush in Hi. destruct Hi as (_ & _ & H3 & _ & _ & drp & prs & out & dup & rep & T1 & T2 & T3 & T4 & T5 & T6 & T7 & T8 & T9 & T10).
  simpl in *. split; [|done]. exists drp, prs, dup, rep. do 2 (split; [done|]).
  split; [eapply List.Forall_impl; [|exact T3]; by intros x [? _]|].
  split; [unfold s, pump; rewrite T5, T4; done|]. rewrite app_assoc, Forall_app in T6. split; [apply T6|].
  split; [|done]. etransitivity; [exact T7|]. unfold zlen. by rewrite <- T4, length_map.
Qed.

(** A held frame leaves on time.  At any moment the pass over the queue sends
    exactly the frames whose time has come and keeps exactly the others.  A frame is
    queued exactly when it is to be held and there is room, and its time is the
    moment of arrival plus the delay, plus less than the jitter, plus the gap if it
    was picked for reordering. *)
Theorem impair_release_exact (d : dir) (answers : list Z) (rounds : list round) (t : Z) :
  counters_zero d -> knobs_u32 (di_k d) ->
  let s := foldl (pump_round rand_r index_first) (pump_start d answers) rounds in
  let s' := release (length (pm_q s)) t 0 s in
  exists out, pm_q s ≡ₚ out ++ pm_q s' /\
    Forall (fun p => p_due_us p <= t) out /\ Forall (fun p => t < p_due_us p) (pm_q s') /\
    wr_sent (pm_wire s') = wr_sent (pm_wire s) ++ map (fun p => on_wire d (p_data p)) out /\
  forall hold d' buf, holding rand_r (pm_dir s) = (hold, d') ->
    (pm_q (hold_or_forward t hold s buf) = pm_q s ++ [Pending (u64 (t + hold)) buf] <->
     hold <> 0 /\ zlen (pm_q s) < PENDING_MAX) /\
    exists j g, hold = k_delay_us (di_k d) + j + g /\ (j = 0 \/ 0 <= j < k_jitter_us (di_k d)) /\
      (g = 0 \/ (g = k_reorder_gap_us (di_k d) /\ k_reorder_pct (di_k d) <> 0)).
Proof.
  intros Hz Hk s s'. destruct (inv_rounds d answers rounds Hz Hk) as [hist Hi]. fold s in Hi.
  destruct (release_spec t (length (pm_q s)) 0 s) as (out & e & n & ans & fw & HP & Ho & Hq & _ & Es); [lia|by eapply queue_sendable|constructor|].
  cbv zeta in *. fold s' in HP, Hq, Es. exists out. do 3 (split; [done|]). split.
  { rewrite Es. simpl. f_equal. apply map_ext. intros p. unfold on_wire. by rewrite (proj1 (proj2 Hi)). }
  intros hold d' buf Hh. split; [apply hold_or_forward_queues|]. rewrite <- (proj1 Hi). eapply holding_range; [|exact Hh].
  by rewrite (proj1 Hi).
Qed.

End Draws.

(** ** With nothing to impair *)

Definition quiet (k : knobs) : Prop :=
  k_delay_us k = 0 /\ k_jitter_us k = 0 /\ k_reorder_pct k = 0 /\ k_dup_pct k = 0 /\ k_replay_pct k = 0 /\
  k_drop_pct k = 0 /\ k_trunc_pct k = 0 /\ k_corrupt_pct k = 0.

Section Quiet.
Variable rand_r : Z -> Z * Z.
Variable index_first : bool.

Lemma hits_zero d : hits rand_r 0 d = (false, d).
Proof. done. Qed.

(** Nothing is held, and what was received is what was sent. *)
Definition passing (d0 : dir) (rcv : list (list Z)) (s : pump_state) : Prop :=
  pm_q s = [] /\ di_k (pm_dir s) = di_k d0 /\ di_tx_ifindex (pm_dir s) = di_tx_ifindex d0 /\
  wr_sent (pm_wire s) = map (on_wire d0) rcv.

Lemma passing_forward d0 rcv s f : passing d0 rcv s -> sendable f -> passing d0 (rcv ++ [f]) (forward s f).
Proof.
  intros (H1 & H2 & H3 & H4) Hs. destruct (forward_spec s f Hs) as (e & n & ans & ->). unfold passing. simpl.
  rewrite H4, map_app. do 3 (split; [done|]). unfold on_wire at 2. by rewrite H3.
Qed.

Lemma damage_quiet off plen f d : quiet (di_k d) -> damage rand_r index_first off plen f d = (f, d).
Proof.
  intros (_ & _ & _ & _ & _ & _ & K7 & K8). unfold damage. rewrite K7, hits_zero. destruct (plen =? 0); cbv iota beta.
  - done.
  - by rewrite K8, hits_zero.
Qed.

Lemma holding_quiet d : quiet (di_k d) -> holding rand_r d = (0, d).
Proof. intros (K1 & K2 & K3 & _). unfold holding. rewrite K1, K2. cbn [Z.eqb]. by rewrite K3. Qed.

Lemma passing_io d0 rcv t off plen s f : quiet (di_k d0) -> passing d0 rcv s -> sendable f ->
  passing d0 (rcv ++ [f]) (impair_io rand_r index_first t off plen f s).
Proof.
  intros Hq (H1 & H2 & H3 & H4) Hs. unfold impair_io. set (d1 := (pm_dir s) <| di_io_seen := _ |>).
  assert (quiet (di_k d1)) as Hq1 by (change (di_k d1) with (di_k (pm_dir s)); by rewrite H2).
  assert (hits rand_r (k_drop_pct (di_k d1)) d1 = (false, d1)) as -> by (replace (k_drop_pct (di_k d1)) with 0; [done|by symmetry; apply Hq1]).
  rewrite damage_quiet by done. set (s2 := keep_frame _ f).
  rewrite holding_quiet by done. unfold hold_or_forward. cbn [Z.eqb negb andb].
  assert (passing d0 (rcv ++ [f]) (forward (s2 <| pm_dir := pm_dir s2 |>) f)) as Hp by (apply passing_forward; done).
  set (s3 := forward _ f) in *. clearbody s3. destruct Hp as (P1 & P2 & P3 & P4). unfold duplicate. rewrite P2.
  replace (k_dup_pct (di_k d0)) with 0 by (symmetry; apply Hq). rewrite hits_zero.
  unfold replay. change (di_k (pm_dir (s3 <| pm_dir := pm_dir s3 |>))) with (di_k (pm_dir s3)). rewrite P2.
  replace (k_replay_pct (di_k d0)) with 0 by (symmetry; apply Hq). rewrite hits_zero. by destruct (_ && _).
Qed.

(** A wire with nothing to impair is transparent: what was received is sent, in
    order, each frame once, with its checksums repaired. *)
Theorem impair_transparent (d : dir) (answers : list Z) (rounds : list round) :
  quiet (di_k d) -> wr_sent (pm_wire (pump rand_r index_first d answers rounds)) = map (on_wire d) (omap received rounds).
Proof.
  intros Hq. enough (passing d (omap received rounds) (foldl (pump_round rand_r index_first) (pump_start d answers) rounds)) as (H1 & _ & _ & H4).
  { unfold pump, flush. by rewrite H1. }
  assert (passing d [] (pump_start d answers)) as H0 by done.
  change (omap received rounds) with ([] ++ omap received rounds). revert H0. generalize (@nil (list Z)), (pump_start d answers).
  induction rounds as [|r rounds IH]; intros rcv s H0; [by rewrite app_nil_r|]. cbn [foldl].
  replace (rcv ++ omap received (r :: rounds)) with ((rcv ++ option_list (received r)) ++ omap received rounds)
    by (rewrite <- app_assoc; f_equal; simpl; by destruct (received r)).
  apply IH. unfold pump_round. rewrite (proj1 H0). cbn [length release]. cbv zeta. unfold received.
  destruct (rd_select r <=? 0); [by rewrite app_nil_r|]. destruct (rd_recv r) as [[data ty]|]; [|by rewrite app_nil_r].
  set (f := take _ data). cbv zeta. destruct (zlen f =? 0); cbn [orb]; [by rewrite app_nil_r|].
  destruct (ty =? PACKET_OUTGOING); [by rewrite app_nil_r|]. cbn [option_list].
  assert (sendable f) by (unfold sendable, zlen, f; rewrite length_take; unfold MAX_FRAME; lia).
  destruct (is_cip_io f (zlen f)) as [[off plen]|]; [by apply passing_io|by apply passing_forward].
Qed.

End Quiet.

(** ** Examples *)

Definition ex_rand (seed : Z) : Z * Z := ((seed / 65536) mod 32768, u32 (seed * 1103515245 + 12345)).
Definition ex_dir (k : knobs) : dir := dir_zero <| di_tx_ifindex := 7 |> <| di_k := k |> <| di_seed := 1 |>.
Definition ex_io (n : Z) : list Z := <[45%nat := n]> (ex_packet 0).
Definition ex_delay : knobs := knobs_default <| k_delay_us := 1000 |>.
Definition ex_rounds : list round :=
  [Round 0 1 (Some (ex_io 1, 0)); Round 500 1 (Some (zeros 60, 0)); Round 600 1 (Some (ex_io 2, PACKET_OUTGOING)); Round 5000 0 None].

Lemma impair_accounts_witness :
  let s := pump ex_rand true (ex_dir ex_delay) [] ex_rounds in
  di_seen (pm_dir s) = 2 /\ di_delayed (pm_dir s) = 1 /\
  exists dropped passed dup rep, omap received ex_rounds ≡ₚ dropped ++ map fst passed /\
    wr_sent (pm_wire s) ≡ₚ map (on_wire (ex_dir ex_delay)) (map snd passed ++ dup ++ rep) /\
    di_forwarded (pm_dir s) = u64 (zlen passed).
Proof.
  destruct (impair_accounts ex_rand true (ex_dir ex_delay) [] ex_rounds) as ((dr & pa & du & re & H1 & _ & _ & H4 & _ & H6 & _) & _ & _);
    [by compute|by compute|].
  split; [vm_compute; reflexivity|]. split; [vm_compute; reflexivity|]. exists dr, pa, du, re. split; [exact H1|split; [exact H4|exact H6]].
Defined.

Lemma impair_release_exact_witness :
  let s := foldl (pump_round ex_rand true) (pump_start (ex_dir ex_delay) []) (take 2 ex_rounds) in
  zlen (pm_q s) = 1 /\
  exists out, pm_q s ≡ₚ out ++ pm_q (release (length (pm_q s)) 1000 0 s) /\ Forall (fun p => p_due_us p <= 1000) out.
Proof.
  split; [vm_compute; reflexivity|].
  destruct (impair_release_exact ex_rand true (ex_dir ex_delay) [] (take 2 ex_rounds) 1000) as (out & H1 & H2 & _);
    [by compute|by compute|]. exists out. split; [exact H1|exact H2].
Defined.

(** A delay alone changes the order: with a fixed delay, no jitter and no reordering,
    three frames that come due in the same pass leave as first, third, second,
    because the last entry of the queue is moved into the gap. *)
Lemma impair_delay_reorders :
  let s := pump ex_rand true (ex_dir ex_delay) []
             [Round 0 1 (Some (ex_io 1, 0)); Round 1 1 (Some (ex_io 2, 0)); Round 2 1 (Some (ex_io 3, 0)); Round 5000 0 None] in
  di_reordered (pm_dir s) = 0 /\ map (fun x => byte_at x.2 45) (wr_sent (pm_wire s)) = [1; 3; 2].
Proof. split; [vm_compute; reflexivity|]. vm_compute; reflexivity. Qed.

(** A frame with one byte of payload is counted as truncated and sent whole. *)
Definition ex_one_byte : list Z :=
  [2; 0; 0; 0; 0; 1; 2; 0; 0; 0; 0; 2; 8; 0] ++
  [69; 0; 0; 29; 0; 7; 0; 0; 64; 17; 0; 0; 10; 0; 0; 1; 10; 0; 0; 2] ++ [8; 174; 8; 174; 0; 9; 0; 0; 5].

Lemma impair_truncates_nothing :
  let d := ex_dir (knobs_default <| k_trunc_pct := 100 |>) in
  let s := pump ex_rand true d [] [Round 0 1 (Some (ex_one_byte, 0))] in
  di_truncated (pm_dir s) = 1 /\ wr_sent (pm_wire s) = [on_wire d ex_one_byte].
Proof. split; vm_compute; reflexivity. Qed.

(** ** The command line *)

(** The text of a setting reads back; any other key is refused. *)
Definition knob_arg (key : cstr) (v : Z) : cstr := key ++ txt "=" ++ decimal 20 v.

Definition knob_args (k : knobs) (seed : Z) : list cstr :=
  [knob_arg (txt "delay_us") (k_delay_us k); knob_arg (txt "jitter_us") (k_jitter_us k);
   knob_arg (txt "reorder_pct") (k_reorder_pct k); knob_arg (txt "reorder_gap_us") (k_reorder_gap_us k);
   knob_arg (txt "dup_pct") (k_dup_pct k); knob_arg (txt "replay_pct") (k_replay_pct k);
   knob_arg (txt "replay_age") (k_replay_age k); knob_arg (txt "drop_pct") (k_drop_pct k);
   knob_arg (txt "trunc_pct") (k_trunc_pct k); knob_arg (txt "corrupt_pct") (k_corrupt_pct k);
   knob_arg (txt "seed") seed].

Definition knobs_all_u32 (k : knobs) : Prop :=
  Forall (fun v => 0 <= v < 2 ^ 32)
    [k_delay_us k; k_jitter_us k; k_reorder_pct k; k_reorder_gap_us k; k_dup_pct k; k_replay_pct k; k_replay_age k;
     k_drop_pct k; k_trunc_pct k; k_corrupt_pct k].

Lemma split_eq_knob key v : Forall (fun c => ceq c "=" = false) key -> split_eq (knob_arg key v) = Some (key, decimal 20 v).
Proof. unfold knob_arg. induction 1 as [|c key Hc _ IH]; [done|]. cbn [app split_eq]. by rewrite Hc, IH. Qed.

Lemma parse_knob key v args ks ks' : Forall (fun c => ceq c "=" = false) key -> 0 <= v < 2 ^ 32 ->
  set_knob key v ks = Some ks' -> parse_knobs (knob_arg key v :: args) ks = parse_knobs args ks'.
Proof.
  intros Hk Hv Hs. cbn [parse_knobs]. rewrite split_eq_knob, strtoul_decimal by (done || unfold UINT64_MAX; lia). cbn [fst].
  by rewrite u32_small, Hs.
Qed.

(** The settings of a run, written as arguments, read back as they were, whatever the
    defaults. *)
Theorem impair_args_read_back (k k0 : knobs) (seed seed0 : Z) :
  knobs_all_u32 k -> 0 <= seed < 2 ^ 32 -> parse_knobs (knob_args k seed) (k0, seed0) = Some (k, seed).
Proof.
  intros Hk Hs. unfold knobs_all_u32 in Hk. repeat (apply Forall_cons_1 in Hk as [? Hk]). unfold knob_args.
  destruct k0. do 11 (erewrite parse_knob; [|by repeat constructor|done|by vm_compute]). by destruct k.
Qed.
