(* ===== verification/EipProbe.v ===== *)
(** * The wire probe

    [tools/eip_probe.c]: the sniffer that measures the cadence of CIP I/O per
    connection: inter-arrival histogram, sequence gaps, lateness against the RPI,
    and the worst silences.  [classify] is the part of the loop that looks into a
    frame, [record_packet] the part that updates a connection's statistics,
    [probe_loop] the whole loop over what [recv] and the clock answer,
    [probe_report] the values the report at the end prints.

    Doubles are the IEEE 754 binary64 operations of [SpecFloat], in the source's
    order of evaluation; no theorem depends on their rounding.  The histogram that
    [calloc] returns is a map in which an absent bin is zero.

    The theorems compare the one-pass statistics with definitions over the whole
    list of a connection's packets: each connection's record is that of its own
    packets alone, counts are counts of the deltas, the percentiles are those of
    the histogram, and the worst gaps are the largest. *)

From Stdlib Require Import ZArith Lia SpecFloat.
From stdpp Require Import base gmap list sorting tactics.
From S2P Require Import Prelude WireFrame.

Definition MAX_CONNS : Z := 32.
Definition HIST_BIN_US : Z := 5.
Definition HIST_BINS : Z := 120000.
Definition TOP_GAPS : Z := 20.

(** ** Doubles *)

Definition double : Type := spec_float.
Definition d_of_u64 (v : Z) : double := binary_normalize 53 1024 v 0 false.
Definition d_add : double -> double -> double := SFadd 53 1024.
Definition d_sub : double -> double -> double := SFsub 53 1024.
Definition d_mul : double -> double -> double := SFmul 53 1024.
Definition d_div : double -> double -> double := SFdiv 53 1024.
Definition d_zero : double := S754_zero false.

Arguments d_of_u64 : simpl never.
Arguments d_add : simpl never.
Arguments d_sub : simpl never.
Arguments d_mul : simpl never.
Arguments d_div : simpl never.

(** [(uint64_t) x], truncation toward zero; for the others the language defines no
    result and the callers do not get there. *)
Definition d_to_u64 (x : double) : Z :=
  match x with
  | S754_finite false m e => u64 (Z.shiftl (Z.pos m) e)
  | _ => 0
  end.

(** ** Data *)

Record gap : Type := Gap {
  g_at_s : double;
  g_delta_us : Z;
  g_seq_before : Z;
  g_lost : Z
}.
#[export] Instance eta_gap : Eta gap := fun r =>
  Gap (g_at_s r) (g_delta_us r) (g_seq_before r) (g_lost r).

Record conn : Type := Conn {
  c_id : Z;
  c_src_ip : Z;
  c_dst_ip : Z;
  c_used : bool;
  c_packets : Z;
  c_first_us : Z;
  c_last_us : Z;
  c_prev_seq : Z;
  c_have_prev : bool;
  c_prev_us : Z;
  c_mean : double;
  c_m2 : double;
  c_min_us : Z;
  c_max_us : Z;
  c_seq_lost : Z;
  c_seq_gaps : Z;
  c_seq_regress : Z;
  c_late_1_5x : Z;
  c_late_2x : Z;
  c_late_4x : Z;
  c_over_timeout : Z;
  c_max_consecutive_missed : Z;
  c_hist : gmap Z Z;
  c_top : list gap
}.
#[export] Instance eta_conn : Eta conn := fun r =>
  Conn (c_id r) (c_src_ip r) (c_dst_ip r) (c_used r) (c_packets r) (c_first_us r)
    (c_last_us r) (c_prev_seq r) (c_have_prev r) (c_prev_us r) (c_mean r) (c_m2 r)
    (c_min_us r) (c_max_us r) (c_seq_lost r) (c_seq_gaps r) (c_seq_regress r)
    (c_late_1_5x r) (c_late_2x r) (c_late_4x r) (c_over_timeout r)
    (c_max_consecutive_missed r) (c_hist r) (c_top r).

Definition gap_zero : gap := Gap d_zero 0 0 0.
Definition conn_zero : conn :=
  Conn 0 0 0 false 0 0 0 0 false 0 d_zero d_zero 0 0 0 0 0 0 0 0 0 0 ∅ (replicate (Z.to_nat TOP_GAPS) gap_zero).

(** [g_conns] and the two counters of [main]. *)
Record probe : Type := Probe {
  pb_conns : list conn;
  pb_total_udp : Z;
  pb_non_cip : Z
}.
#[export] Instance eta_probe : Eta probe := fun r =>
  Probe (pb_conns r) (pb_total_udp r) (pb_non_cip r).

Definition probe_zero : probe := Probe (replicate (Z.to_nat MAX_CONNS) conn_zero) 0 0.

(** ** Looking into a frame *)

Inductive classified : Type :=
| Other                                    (** not UDP on port 2222 *)
| NonCip                                   (** UDP on port 2222, not class 1 I/O *)
| CipIo (conn_id seq sip dip : Z).

(** [memcpy] of a 32-bit integer, and [p[0] | (p[1] << 8)]. *)
Definition mem32 (p : list Z) (off : Z) : Z := le_value (bslice off 4 p).
Definition le16 (p : list Z) (off : Z) : Z := Z.lor (byte_at p off) (Z.shiftl (byte_at p (off + 1)) 8).

(** [buf] is the whole receive buffer, [n] what [recv] returned. *)
Definition classify (buf : list Z) (n : Z) : classified :=
  if n <? 14 + 20 + 8 then Other
  else if negb (be16 buf 12 =? ETH_P_IP) then Other
  else if negb (Z.shiftr (byte_at buf 14) 4 =? 4) then Other
  else
    let ihl := Z.land (byte_at buf 14) 15 * 4 in
    if negb (byte_at buf 23 =? IPPROTO_UDP) then Other
    else
      let sip := mem32 buf 26 in
      let dip := mem32 buf 30 in
      let udp := 14 + ihl in
      if udp + 8 >? n then Other
      else
        let sport := be16 buf udp in
        let dport := be16 buf (udp + 2) in
        if negb (sport =? CIP_IO_PORT) && negb (dport =? CIP_IO_PORT) then Other
        else
          let p := udp + 8 in
          let avail := n - p in
          if avail <? 4 + 8 then NonCip
          else
            let item_count := le16 buf p in
            let type_id := le16 buf (p + 2) in
            let item_len := le16 buf (p + 4) in
            if (item_count <? 2) || negb (type_id =? 32770) || (item_len <? 8) then NonCip
            else CipIo (mem32 buf (p + 6)) (mem32 buf (p + 10)) sip dip.

(** ** The table of connections *)

(** The index of the first entry that satisfies [f]. *)
Fixpoint find_from (f : conn -> bool) (i : nat) (cs : list conn) : option nat :=
  match cs with
  | [] => None
  | c :: cs => if f c then Some i else find_from f (S i) cs
  end.

Definition conn_fresh (id sip dip : Z) : conn :=
  conn_zero <| c_used := true |> <| c_id := id |> <| c_src_ip := sip |> <| c_dst_ip := dip |> <| c_min_us := UINT64_MAX |>.

Inductive conn_slot : Type := Slot (i : nat) (cs : list conn) | Full | NoMem.

Definition conn_for (id sip dip : Z) (calloc_ok : bool) (cs : list conn) : conn_slot :=
  match find_from (fun c => c_used c && (c_id c =? id)) 0 cs with
  | Some i => Slot i cs
  | None =>
      match find_from (fun c => negb (c_used c)) 0 cs with
      | Some i => if calloc_ok then Slot i (<[i := conn_fresh id sip dip]> cs) else NoMem
      | None => Full
      end
  end.

(** ** A packet of a connection *)

(** The loop of [note_gap]: the new gap, at [top[i - 1]], moves up past every gap
    that is not larger. *)
Fixpoint sift (g : gap) (top : list gap) : list gap :=
  match top with
  | [] => [g]
  | t :: top => if g_delta_us t >? g_delta_us g then g :: t :: top else t :: sift g top
  end.

Definition note_gap (at_s : double) (delta seq lost : Z) (top : list gap) : list gap :=
  match top with
  | [] => []
  | t :: rest => if g_delta_us t >=? delta then top else sift (Gap at_s delta seq lost) rest
  end.

Definition bin_of (delta : Z) : Z :=
  let bin := delta / HIST_BIN_US in if bin >=? HIST_BINS then HIST_BINS - 1 else bin.

Definition hist_at (h : gmap Z Z) (bin : Z) : Z := default 0 (h !! bin).
Definition bump (b : bool) (n : Z) : Z := if b then u64 (n + 1) else n.

(** Welford's update, then the extremes and the histogram. *)
Definition record_delta (delta : Z) (c : conn) : conn :=
  let d := d_sub (d_of_u64 delta) (c_mean c) in
  let c := c <| c_mean := d_add (c_mean c) (d_div d (d_of_u64 (u64 (c_packets c - 1)))) |> in
  let c := c <| c_m2 := d_add (c_m2 c) (d_mul d (d_sub (d_of_u64 delta) (c_mean c))) |> in
  let c := if delta <? c_min_us c then c <| c_min_us := delta |> else c in
  let c := if delta >? c_max_us c then c <| c_max_us := delta |> else c in
  let bin := bin_of delta in
  c <| c_hist := <[bin := u64 (hist_at (c_hist c) bin + 1)]> (c_hist c) |>.

Definition record_late (rpi_us tmo_us delta : Z) (c : conn) : conn :=
  let c :=
    if rpi_us =? 0 then c
    else
      let c := c <| c_late_1_5x := bump (delta >? u64 (rpi_us * 3) / 2) (c_late_1_5x c) |> in
      let c := c <| c_late_2x := bump (delta >? u64 (rpi_us * 2)) (c_late_2x c) |> in
      let c := c <| c_late_4x := bump (delta >? u64 (rpi_us * 4)) (c_late_4x c) |> in
      let missed := delta / rpi_us in
      if (missed >? 1) && (missed - 1 >? c_max_consecutive_missed c)
      then c <| c_max_consecutive_missed := missed - 1 |> else c in
  if negb (tmo_us =? 0) && (delta >? tmo_us)
  then c <| c_over_timeout := u64 (c_over_timeout c + 1) |> else c.

(** The sequence counters; the number of skipped sequence numbers. *)
Definition record_seq (seq : Z) (c : conn) : Z * conn :=
  if seq =? u32 (c_prev_seq c + 1) then (0, c)
  else if seq >? c_prev_seq c then
    let lost := u32 (seq - c_prev_seq c - 1) in
    (lost, c <| c_seq_lost := u64 (c_seq_lost c + lost) |> <| c_seq_gaps := u64 (c_seq_gaps c + 1) |>)
  else (0, c <| c_seq_regress := u64 (c_seq_regress c + 1) |>).

Definition record_packet (rpi_us tmo_us t0 ts seq : Z) (c : conn) : conn :=
  let c := c <| c_packets := u64 (c_packets c + 1) |> <| c_last_us := ts |> in
  if c_packets c =? 1 then
    c <| c_first_us := ts |> <| c_prev_seq := seq |> <| c_prev_us := ts |> <| c_have_prev := true |>
  else
    let delta := u64 (ts - c_prev_us c) in
    let c := record_delta delta c in
    let c := record_late rpi_us tmo_us delta c in
    let '(lost, c) := record_seq seq c in
    let c := if (delta >? u64 (rpi_us * 2)) || negb (lost =? 0)
             then c <| c_top := note_gap (d_div (d_of_u64 (u64 (ts - t0))) (d_of_u64 1000000)) delta (c_prev_seq c) lost (c_top c) |>
             else c in
    c <| c_prev_seq := seq |> <| c_prev_us := ts |>.

(** ** The loop *)

(** What one turn meets: the clock at its head; what [recv] left in the buffer and
    returned, or whether its error is one the loop goes on after; the clock after
    it; the answer of [calloc], should it be asked. *)
Inductive recv_result : Type := Received (buf : list Z) (n : Z) | Again | Failed.
Record turn : Type := Turn {
  tn_now : Z;
  tn_recv : recv_result;
  tn_ts : Z;
  tn_calloc : bool
}.
#[export] Instance eta_turn : Eta turn := fun r =>
  Turn (tn_now r) (tn_recv r) (tn_ts r) (tn_calloc r).

(** [None] is [exit(1)]. *)
Definition probe_frame (rpi_us tmo_us t0 : Z) (buf : list Z) (n ts : Z) (calloc_ok : bool) (s : probe) : option probe :=
  match classify buf n with
  | Other => Some s
  | NonCip => Some (s <| pb_total_udp := u64 (pb_total_udp s + 1) |> <| pb_non_cip := u64 (pb_non_cip s + 1) |>)
  | CipIo id seq sip dip =>
      let s := s <| pb_total_udp := u64 (pb_total_udp s + 1) |> in
      match conn_for id sip dip calloc_ok (pb_conns s) with
      | NoMem => None
      | Full => Some s
      | Slot i cs =>
          Some (s <| pb_conns := match cs !! i with
                                 | Some c => <[i := record_packet rpi_us tmo_us t0 ts seq c]> cs
                                 | None => cs
                                 end |>)
      end
  end.

(** The end of the list is the turn in which [g_stop] is set. *)
Fixpoint probe_loop (rpi_us tmo_us t0 deadline : Z) (turns : list turn) (s : probe) : option probe :=
  match turns with
  | [] => Some s
  | t :: turns =>
      if tn_now t >=? deadline then Some s
      else match tn_recv t with
           | Again => probe_loop rpi_us tmo_us t0 deadline turns s
           | Failed => Some s
           | Received buf n =>
               match probe_frame rpi_us tmo_us t0 buf n (tn_ts t) (tn_calloc t) s with
               | Some s => probe_loop rpi_us tmo_us t0 deadline turns s
               | None => None
               end
           end
  end.

Definition probe_run (seconds rpi_us tmo_us t0 : Z) (turns : list turn) : option probe :=
  probe_loop rpi_us tmo_us t0 (u64 (t0 + u64 (seconds * 1000000))) turns probe_zero.

(** ** The report *)

Fixpoint pct_loop (bins : nat) (i want seen : Z) (h : gmap Z Z) : Z :=
  match bins with
  | O => u64 (HIST_BINS * HIST_BIN_US)
  | S bins =>
      let seen := u64 (seen + hist_at h i) in
      if seen >=? want then u64 (i * HIST_BIN_US) else pct_loop bins (i + 1) want seen h
  end.

Definition pct_want (p : double) (n : Z) : Z :=
  let want := d_to_u64 (d_div (d_mul p (d_of_u64 n)) (d_of_u64 100)) in
  if want =? 0 then 1 else want.

Definition pct (c : conn) (p : double) : Z :=
  if c_packets c <? 2 then 0
  else pct_loop (Z.to_nat HIST_BINS) 0 (pct_want p (u64 (c_packets c - 1))) 0 (c_hist c).

Definition connections (s : probe) : Z := zlen (List.filter c_used (pb_conns s)).

(** What [inet_ntoa] prints of an address as it came from the wire. *)
Definition octets (ip : Z) : list Z :=
  [Z.land ip 255; Z.land (Z.shiftr ip 8) 255; Z.land (Z.shiftr ip 16) 255; Z.land (Z.shiftr ip 24) 255].

(** The values the report prints about a connection, in the order of the lines. *)
Record conn_report : Type := ConnReport {
  cr_id : Z;
  cr_src : list Z;
  cr_dst : list Z;
  cr_packets : Z;
  cr_span_s : double;
  cr_expected : option (double * double);  (** packets expected at the RPI, percent delivered *)
  cr_mean : double;
  cr_min : Z;
  cr_max : Z;
  cr_stddev : double;
  cr_jitter : Z;
  cr_percentiles : list Z;
  cr_late : list Z;
  cr_over : Z;
  cr_gaps : Z;
  cr_lost : Z;
  cr_regress : Z;
  cr_missed : Z;
  cr_worst : list gap
}.
#[export] Instance eta_conn_report : Eta conn_report := fun r =>
  ConnReport (cr_id r) (cr_src r) (cr_dst r) (cr_packets r) (cr_span_s r)
    (cr_expected r) (cr_mean r) (cr_min r) (cr_max r) (cr_stddev r) (cr_jitter r)
    (cr_percentiles r) (cr_late r) (cr_over r) (cr_gaps r) (cr_lost r) (cr_regress r)
    (cr_missed r) (cr_worst r).

Definition d_1e6 : double := d_of_u64 1000000.

(** The percentiles asked for: 50, 95, 99, 99.9 and 99.99. *)
Definition percentiles : list double :=
  [d_of_u64 50; d_of_u64 95; d_of_u64 99; d_div (d_of_u64 999) (d_of_u64 10); d_div (d_of_u64 9999) (d_of_u64 100)].

(** The loop over [top], from its end. *)
Definition worst_gaps (top : list gap) : list gap := List.filter (fun g => negb (g_delta_us g =? 0)) (rev top).

Definition report_conn (rpi_us : Z) (c : conn) : conn_report :=
  let span := d_div (d_of_u64 (u64 (c_last_us c - c_first_us c))) d_1e6 in
  let sd := if c_packets c >? 2 then SFsqrt 53 1024 (d_div (c_m2 c) (d_of_u64 (u64 (c_packets c - 2)))) else d_zero in
  let expected := d_div (d_mul span d_1e6) (d_of_u64 rpi_us) in
  ConnReport (c_id c) (octets (c_src_ip c)) (octets (c_dst_ip c)) (c_packets c) span
    (if negb (rpi_us =? 0) && SFltb d_zero span
     then Some (expected, d_div (d_mul (d_of_u64 100) (d_of_u64 (c_packets c))) expected) else None)
    (c_mean c) (if c_min_us c =? UINT64_MAX then 0 else c_min_us c) (c_max_us c) sd
    (if c_max_us c >? rpi_us then c_max_us c - rpi_us else 0)
    (map (pct c) percentiles) [c_late_1_5x c; c_late_2x c; c_late_4x c] (c_over_timeout c)
    (c_seq_gaps c) (c_seq_lost c) (c_seq_regress c) (c_max_consecutive_missed c) (worst_gaps (c_top c)).

Record report : Type := Report {
  rp_duration_s : double;
  rp_rpi_us : Z;
  rp_tmo_us : Z;
  rp_total_udp : Z;
  rp_non_cip : Z;
  rp_connections : Z;
  rp_conns : list conn_report
}.
#[export] Instance eta_report : Eta report := fun r =>
  Report (rp_duration_s r) (rp_rpi_us r) (rp_tmo_us r) (rp_total_udp r) (rp_non_cip r)
    (rp_connections r) (rp_conns r).

(** [now] is the clock after the loop. *)
Definition probe_report (rpi_us tmo_us t0 now : Z) (s : probe) : report :=
  Report (d_div (d_of_u64 (u64 (now - t0))) d_1e6) rpi_us tmo_us (pb_total_udp s) (pb_non_cip s) (connections s)
    (map (report_conn rpi_us) (List.filter c_used (pb_conns s))).

Arguments bin_of : simpl never.
Arguments hist_at : simpl never.
Arguments pct_want : simpl never.
Arguments pct : simpl never.

(** ** Reference statistics *)

(** A packet of a connection is its time and its sequence number; a step is two
    consecutive packets. *)
Definition packet : Type := Z * Z.
Definition steps (ps : list packet) : list (packet * packet) := zip ps (tail ps).
Definition delta_of (s : packet * packet) : Z := u64 (s.2.1 - s.1.1).
Definition deltas (ps : list packet) : list Z := map delta_of (steps ps).
Definition in_order (s : packet * packet) : bool := s.2.2 =? u32 (s.1.2 + 1).
Definition jumped (s : packet * packet) : bool := negb (in_order s) && (s.2.2 >? s.1.2).
Definition went_back (s : packet * packet) : bool := negb (in_order s) && negb (s.2.2 >? s.1.2).
Definition skipped (s : packet * packet) : Z := if jumped s then s.2.2 - s.1.2 - 1 else 0.

Definition count {A} (f : A -> bool) (l : list A) : Z := zlen (List.filter f l).
Definition total (l : list Z) : Z := foldr Z.add 0 l.

(** The packets of a connection that was first heard with [ps]'s head. *)
Definition record_all (rpi_us tmo_us t0 : Z) (c : conn) (ps : list packet) : conn :=
  foldl (fun c p => record_packet rpi_us tmo_us t0 p.1 p.2 c) c ps.

(** The gaps that are worth noting. *)
Definition notable (rpi_us : Z) (s : packet * packet) : bool :=
  (delta_of s >? u64 (rpi_us * 2)) || negb (skipped s =? 0).
Definition gap_of (t0 : Z) (s : packet * packet) : gap :=
  Gap (d_div (d_of_u64 (u64 (s.2.1 - t0))) (d_of_u64 1000000)) (delta_of s) s.1.2 (skipped s).
Definition gaps (rpi_us t0 : Z) (ps : list packet) : list gap :=
  map (gap_of t0) (List.filter (notable rpi_us) (steps ps)).

(** [top] is as many of [gs] as it has places, none of the others being larger;
    places not taken are zero. *)
Definition gap_le (g h : gap) : Prop := g_delta_us g <= g_delta_us h.
Definition largest (gs top : list gap) : Prop :=
  length top = 20%nat /\ StronglySorted gap_le top /\
  exists rest, top ++ rest ≡ₚ replicate 20 gap_zero ++ gs /\ forall r t, r ∈ rest -> t ∈ top -> gap_le r t.

(** ** Lists of packets *)

Lemma count_snoc {A} (f : A -> bool) l x : count f (l ++ [x]) = count f l + (if f x then 1 else 0).
Proof. unfold count. rewrite List.filter_app, zlen_app. simpl. by destruct (f x). Qed.

Lemma count_bound {A} (f : A -> bool) l : 0 <= count f l <= zlen l.
Proof. unfold count, zlen. pose proof (List.filter_length_le f l). lia. Qed.

Lemma total_snoc l x : total (l ++ [x]) = total l + x.
Proof. unfold total. induction l; simpl in *; lia. Qed.

Lemma foldr_min_snoc l x a : foldr Z.min a (l ++ [x]) = Z.min x (foldr Z.min a l).
Proof. induction l; simpl in *; lia. Qed.

Lemma foldr_max_snoc l x a : foldr Z.max a (l ++ [x]) = Z.max x (foldr Z.max a l).
Proof. induction l; simpl in *; lia. Qed.

Lemma steps_snoc ps q p : steps ((ps ++ [q]) ++ [p]) = steps (ps ++ [q]) ++ [(q, p)].
Proof.
  unfold steps. induction ps as [|r ps IH]; [done|]. simpl tail in *.
  destruct ps as [|r' ps]; [done|]. simpl in *. f_equal. exact IH.
Qed.

Lemma zlen_steps ps q : zlen (steps (ps ++ [q])) = zlen ps.
Proof. unfold steps, zlen. rewrite length_zip_with. destruct ps as [|p ps]; [done|]. simpl tail. rewrite <- app_comm_cons. cbn [length]. rewrite !length_app. cbn [length]. lia. Qed.

Lemma deltas_snoc ps q p : deltas ((ps ++ [q]) ++ [p]) = deltas (ps ++ [q]) ++ [u64 (p.1 - q.1)].
Proof. unfold deltas. by rewrite steps_snoc, map_app. Qed.

(** ** The worst gaps *)

Lemma sift_perm g top : sift g top ≡ₚ g :: top.
Proof.
  induction top as [|t top IH]; simpl; [done|]. destruct (_ >? _); [done|]. rewrite IH. apply Permutation_swap.
Qed.

Lemma sift_sorted g top : StronglySorted gap_le top -> StronglySorted gap_le (sift g top).
Proof.
  induction 1 as [|t top Hs IH Hf]; simpl; [repeat constructor|].
  destruct (Z.gtb_spec (g_delta_us t) (g_delta_us g)) as [Hlt|Hge].
  - constructor; [by constructor|]. constructor; [unfold gap_le; lia|].
    eapply List.Forall_impl; [|exact Hf]. unfold gap_le. intros; lia.
  - constructor; [done|]. rewrite sift_perm. constructor; [unfold gap_le; lia|done].
Qed.

Lemma note_gap_largest gs top g :
  0 <= g_delta_us g -> largest gs top ->
  largest (gs ++ [g]) (note_gap (g_at_s g) (g_delta_us g) (g_seq_before g) (g_lost g) top).
Proof.
  intros Hg (Hlen & Hs & rest & Hp & Hr). destruct top as [|t top]; [done|]. simpl.
  apply StronglySorted_inv in Hs as [Hs Hf]. rewrite List.Forall_forall in Hf.
  replace (Gap _ _ _ _) with g by (by destruct g).
  destruct (Z.geb_spec (g_delta_us t) (g_delta_us g)) as [Hle|Hlt].
  - split; [done|]. split; [by constructor; [|apply List.Forall_forall]|]. exists (rest ++ [g]). split.
    + rewrite (assoc_L (++)), Hp. by rewrite <- (assoc_L (++)).
    + intros r u [Hin|Hin]%elem_of_app Hu; [by apply Hr|]. apply list_elem_of_singleton in Hin as ->.
      apply elem_of_cons in Hu as [->|Hu]; [done|]. apply list_elem_of_In in Hu. specialize (Hf u Hu). unfold gap_le in *. lia.
  - split; [by rewrite sift_perm|]. split; [by apply sift_sorted|]. exists (rest ++ [t]). split.
    + rewrite sift_perm, (assoc_L (++)). transitivity (g :: t :: (top ++ rest)).
      * simpl. apply Permutation_skip. rewrite (comm (++)). done.
      * simpl in Hp. rewrite Hp. rewrite (assoc_L (++)). by rewrite (comm (++) _ [g]).
    + intros r u Hin Hu. rewrite sift_perm in Hu.
      assert (gap_le r t) as Hrt.
      { apply elem_of_app in Hin as [Hin|Hin]; [by apply Hr; [|left]|]. by apply list_elem_of_singleton in Hin as ->; unfold gap_le. }
      apply elem_of_cons in Hu as [->|Hu]; [unfold gap_le in *; lia|]. apply list_elem_of_In in Hu. specialize (Hf u Hu). unfold gap_le in *. lia.
Qed.

Lemma largest_none : largest [] (replicate 20 gap_zero).
Proof.
  split; [done|]. split.
  - simpl. repeat constructor; unfold gap_le; simpl; lia.
  - exists []. split; [done|]. intros r t Hr. by apply elem_of_nil in Hr.
Qed.

(** ** What a connection's record says *)

(** The number of deltas beyond a limit, when there is an RPI to compare with. *)
Definition beyond (base limit : Z) (ds : list Z) : Z :=
  if base =? 0 then 0 else count (fun d => d >? limit) ds.
(** The longest run of packets that should have come within one delta. *)
Definition missed (rpi_us d : Z) : Z := d / rpi_us - 1.
Definition most_missed (rpi_us : Z) (ds : list Z) : Z :=
  if rpi_us =? 0 then 0 else foldr Z.max 0 (map (missed rpi_us) ds).

Definition measures (rpi_us tmo_us t0 : Z) (ps : list packet) (c : conn) : Prop :=
  let ds := deltas ps in
  c_packets c = zlen ps /\
  (exists ps' q, ps = ps' ++ [q] /\ c_last_us c = q.1 /\ c_prev_us c = q.1 /\ c_prev_seq c = q.2) /\
  c_min_us c = foldr Z.min UINT64_MAX ds /\ c_max_us c = foldr Z.max 0 ds /\
  (forall b, hist_at (c_hist c) b = count (fun d => bin_of d =? b) ds) /\
  c_late_1_5x c = beyond rpi_us (u64 (rpi_us * 3) / 2) ds /\
  c_late_2x c = beyond rpi_us (u64 (rpi_us * 2)) ds /\
  c_late_4x c = beyond rpi_us (u64 (rpi_us * 4)) ds /\
  c_max_consecutive_missed c = most_missed rpi_us ds /\
  c_over_timeout c = beyond tmo_us tmo_us ds /\
  c_seq_lost c = u64 (total (map skipped (steps ps))) /\
  c_seq_gaps c = count jumped (steps ps) /\ c_seq_regress c = count went_back (steps ps) /\
  largest (gaps rpi_us t0 ps) (c_top c).

Lemma hist_at_bump h bin b :
  hist_at (<[bin := u64 (hist_at h bin + 1)]> h) b = (if bin =? b then u64 (hist_at h b + 1) else hist_at h b).
Proof.
  unfold hist_at at 1 3 4. destruct (Z.eqb_spec bin b) as [->|Hne]; [by rewrite lookup_insert_eq|by rewrite lookup_insert_ne].
Qed.

(** The fields an update writes, and those it leaves. *)
Lemma record_delta_fields d c (c' := record_delta d c) :
  c_min_us c' = Z.min d (c_min_us c) /\ c_max_us c' = Z.max d (c_max_us c) /\
  c_hist c' = <[bin_of d := u64 (hist_at (c_hist c) (bin_of d) + 1)]> (c_hist c) /\
  (c_packets c', c_last_us c', c_prev_us c', c_prev_seq c') = (c_packets c, c_last_us c, c_prev_us c, c_prev_seq c) /\
  (c_late_1_5x c', c_late_2x c', c_late_4x c', c_over_timeout c', c_max_consecutive_missed c')
    = (c_late_1_5x c, c_late_2x c, c_late_4x c, c_over_timeout c, c_max_consecutive_missed c) /\
  (c_seq_lost c', c_seq_gaps c', c_seq_regress c', c_top c') = (c_seq_lost c, c_seq_gaps c, c_seq_regress c, c_top c).
Proof.
  subst c'. unfold record_delta. destruct c; simpl.
  destruct (Z.ltb_spec d c_min_us0); simpl; destruct (Z.gtb_spec d c_max_us0); simpl; repeat split; lia.
Qed.

Lemma record_late_fields rpi tmo d c (c' := record_late rpi tmo d c) :
  0 <= rpi -> 0 <= d -> 0 <= c_max_consecutive_missed c ->
  c_late_1_5x c' = bump (negb (rpi =? 0) && (d >? u64 (rpi * 3) / 2)) (c_late_1_5x c) /\
  c_late_2x c' = bump (negb (rpi =? 0) && (d >? u64 (rpi * 2))) (c_late_2x c) /\
  c_late_4x c' = bump (negb (rpi =? 0) && (d >? u64 (rpi * 4))) (c_late_4x c) /\
  c_over_timeout c' = bump (negb (tmo =? 0) && (d >? tmo)) (c_over_timeout c) /\
  c_max_consecutive_missed c'
    = (if rpi =? 0 then c_max_consecutive_missed c else Z.max (missed rpi d) (c_max_consecutive_missed c)) /\
  (c_min_us c', c_max_us c', c_hist c') = (c_min_us c, c_max_us c, c_hist c) /\
  (c_packets c', c_last_us c', c_prev_us c', c_prev_seq c') = (c_packets c, c_last_us c, c_prev_us c, c_prev_seq c) /\
  (c_seq_lost c', c_seq_gaps c', c_seq_regress c', c_top c') = (c_seq_lost c, c_seq_gaps c, c_seq_regress c, c_top c).
Proof.
  intros Hr Hd Hm. subst c'. unfold record_late, missed. destruct c; simpl in *. destruct (Z.eqb_spec rpi 0); simpl.
  - destruct (negb _ && _); simpl; repeat split.
  - destruct (Z.gtb_spec (d / rpi) 1), (Z.gtb_spec (d / rpi - 1) c_max_consecutive_missed0); simpl;
      destruct (negb _ && _); simpl; repeat split; lia.
Qed.

Lemma record_seq_fields q p c (Hp : c_prev_seq c = q.2) (s := (q, p) : packet * packet) (c' := (record_seq p.2 c).2) :
  0 <= q.2 -> 0 <= p.2 < 2 ^ 32 ->
  (record_seq p.2 c).1 = skipped s /\
  c_seq_lost c' = (if jumped s then u64 (c_seq_lost c + skipped s) else c_seq_lost c) /\
  c_seq_gaps c' = bump (jumped s) (c_seq_gaps c) /\ c_seq_regress c' = bump (went_back s) (c_seq_regress c) /\
  (c_min_us c', c_max_us c', c_hist c') = (c_min_us c, c_max_us c, c_hist c) /\
  (c_packets c', c_last_us c', c_prev_us c', c_prev_seq c') = (c_packets c, c_last_us c, c_prev_us c, c_prev_seq c) /\
  (c_late_1_5x c', c_late_2x c', c_late_4x c', c_over_timeout c', c_max_consecutive_missed c')
    = (c_late_1_5x c, c_late_2x c, c_late_4x c, c_over_timeout c, c_max_consecutive_missed c) /\
  c_top c' = c_top c.
Proof.
  intros Hq Hr. subst c'. unfold record_seq, skipped, jumped, went_back, in_order. subst s. cbn [fst snd]. rewrite Hp.
  destruct (p.2 =? u32 (q.2 + 1)); cbn [negb andb]; [repeat split; simpl; by rewrite ?Hp|].
  destruct (Z.gtb_spec p.2 q.2); cbn [negb andb]; rewrite ?(u32_small (p.2 - q.2 - 1)) by lia; repeat split; simpl; by rewrite ?Hp.
Qed.

Lemma bump_count {A} (f : A -> bool) (l : list A) x n :
  n = count f l -> zlen l + 1 < 2 ^ 64 -> bump (f x) n = count f (l ++ [x]).
Proof.
  intros -> Hl. rewrite count_snoc. pose proof (count_bound f l). unfold bump. destruct (f x); [|lia]. apply u64_small. lia.
Qed.

Lemma bump_beyond base limit ds d n :
  n = beyond base limit ds -> zlen ds + 1 < 2 ^ 64 -> bump (negb (base =? 0) && (d >? limit)) n = beyond base limit (ds ++ [d]).
Proof.
  unfold beyond. intros Hn Hl. destruct (base =? 0); cbn [negb andb]; [done|]. by apply (bump_count (fun d => d >? limit)).
Qed.

Lemma measures_hist ds d h :
  (forall b, hist_at h b = count (fun d => bin_of d =? b) ds) -> zlen ds + 1 < 2 ^ 64 ->
  forall b, hist_at (<[bin_of d := u64 (hist_at h (bin_of d) + 1)]> h) b = count (fun d => bin_of d =? b) (ds ++ [d]).
Proof.
  intros Hh Hl b. rewrite hist_at_bump, <- (bump_count (fun d => bin_of d =? b) ds d (hist_at h b)); [done|apply Hh|done].
Qed.

Lemma most_missed_snoc rpi ds d :
  most_missed rpi (ds ++ [d]) = (if rpi =? 0 then most_missed rpi ds else Z.max (missed rpi d) (most_missed rpi ds)).
Proof. unfold most_missed. destruct (rpi =? 0); [done|]. rewrite map_app. apply foldr_max_snoc. Qed.

Lemma most_missed_nonneg rpi ds : 0 <= most_missed rpi ds.
Proof. unfold most_missed. destruct (rpi =? 0); [done|]. induction ds; simpl; lia. Qed.

Lemma lost_snoc ss s n :
  n = u64 (total (map skipped ss)) -> (if jumped s then u64 (n + skipped s) else n) = u64 (total (map skipped (ss ++ [s]))).
Proof.
  intros ->. rewrite map_app. change (map skipped [s]) with [skipped s]. rewrite total_snoc. destruct (jumped s) eqn:E.
  - apply Zplus_mod_idemp_l.
  - assert (skipped s = 0) as -> by (unfold skipped; by rewrite E). by rewrite Z.add_0_r.
Qed.

Lemma gaps_snoc rpi t0 ps q p :
  gaps rpi t0 ((ps ++ [q]) ++ [p]) = gaps rpi t0 (ps ++ [q]) ++ (if notable rpi (q, p) then [gap_of t0 (q, p)] else []).
Proof. unfold gaps. rewrite steps_snoc, List.filter_app, map_app. simpl. by destruct (notable _ _). Qed.

(** Times are those of a 64-bit clock, sequence numbers have 32 bits. *)
Definition packet_ok (p : packet) : Prop := 0 <= p.2 < 2 ^ 32.

(** Any packet but the first, field by field. *)
Lemma record_packet_fields rpi tmo t0 q p c (s := (q, p) : packet * packet) (d := delta_of s) (c' := record_packet rpi tmo t0 p.1 p.2 c) :
  0 <= rpi -> packet_ok q -> packet_ok p -> 0 < c_packets c < 2 ^ 64 - 1 -> c_prev_us c = q.1 -> c_prev_seq c = q.2 ->
  0 <= c_max_consecutive_missed c ->
  c_packets c' = c_packets c + 1 /\ (c_last_us c', c_prev_us c', c_prev_seq c') = (p.1, p.1, p.2) /\
  c_min_us c' = Z.min d (c_min_us c) /\ c_max_us c' = Z.max d (c_max_us c) /\
  c_hist c' = <[bin_of d := u64 (hist_at (c_hist c) (bin_of d) + 1)]> (c_hist c) /\
  c_late_1_5x c' = bump (negb (rpi =? 0) && (d >? u64 (rpi * 3) / 2)) (c_late_1_5x c) /\
  c_late_2x c' = bump (negb (rpi =? 0) && (d >? u64 (rpi * 2))) (c_late_2x c) /\
  c_late_4x c' = bump (negb (rpi =? 0) && (d >? u64 (rpi * 4))) (c_late_4x c) /\
  c_max_consecutive_missed c'
    = (if rpi =? 0 then c_max_consecutive_missed c else Z.max (missed rpi d) (c_max_consecutive_missed c)) /\
  c_over_timeout c' = bump (negb (tmo =? 0) && (d >? tmo)) (c_over_timeout c) /\
  c_seq_lost c' = (if jumped s then u64 (c_seq_lost c + skipped s) else c_seq_lost c) /\
  c_seq_gaps c' = bump (jumped s) (c_seq_gaps c) /\ c_seq_regress c' = bump (went_back s) (c_seq_regress c) /\
  c_top c' = (let g := gap_of t0 s in
              if notable rpi s then note_gap (g_at_s g) (g_delta_us g) (g_seq_before g) (g_lost g) (c_top c) else c_top c).
Proof.
  intros Hrpi Hq Hp Hn Hus Hseq Hmm. subst c'. unfold record_packet. set (c0 := c <| c_packets := _ |> <| c_last_us := _ |>).
  assert (c_packets c0 = c_packets c + 1) as P0 by (unfold c0; simpl; apply u64_small; lia).
  destruct (Z.eqb_spec (c_packets c0) 1); [lia|]. assert (u64 (p.1 - c_prev_us c0) = d) as -> by (unfold c0; simpl; by rewrite Hus).
  assert ((c_last_us c0, c_prev_seq c0, c_min_us c0, c_max_us c0, c_hist c0, c_late_1_5x c0, c_late_2x c0, c_late_4x c0)
     = (p.1, c_prev_seq c, c_min_us c, c_max_us c, c_hist c, c_late_1_5x c, c_late_2x c, c_late_4x c)) as K1 by done.
  assert ((c_over_timeout c0, c_max_consecutive_missed c0, c_seq_lost c0, c_seq_gaps c0, c_seq_regress c0, c_top c0)
     = (c_over_timeout c, c_max_consecutive_missed c, c_seq_lost c, c_seq_gaps c, c_seq_regress c, c_top c)) as K2 by done.
  clearbody c0. injection K1 as ? ? ? ? ? ? ? ?. injection K2 as ? ? ? ? ? ?. destruct (record_delta_fields d c0) as (A1 & A2 & A3 & A4 & A5 & A6). set (c1 := record_delta d c0) in *. clearbody c1.
  injection A4 as ? ? ? ?. injection A5 as ? ? ? ? ?. injection A6 as ? ? ? ?.
  destruct (record_late_fields rpi tmo d c1) as (B1 & B2 & B3 & B4 & B5 & B6 & B7 & B8); [done|apply u64_range|lia|].
  set (c2 := record_late rpi tmo d c1) in *. clearbody c2. injection B6 as ? ? ?. injection B7 as ? ? ? ?. injection B8 as ? ? ? ?.
  destruct (record_seq_fields q p c2) as (C0 & C1 & C2 & C3 & C4 & C5 & C6 & C7); [congruence|apply Hq|exact Hp|].
  destruct (record_seq p.2 c2) as [lost c3]. cbn [fst snd] in *. subst lost.
  injection C4 as ? ? ?. injection C5 as ? ? ? ?. injection C6 as ? ? ? ? ?. fold s in C1, C2, C3 |- *.
  change (_ || _) with (notable rpi s).
  destruct (notable rpi s); simpl; repeat split;
    repeat match goal with H : ?f ?c = _ |- context [?f ?c] => is_var c; rewrite H end; done.
Qed.

Lemma measures_snoc rpi tmo t0 ps q p c :
  0 <= rpi -> packet_ok q -> packet_ok p -> zlen ps + 2 < 2 ^ 64 ->
  measures rpi tmo t0 (ps ++ [q]) c -> measures rpi tmo t0 ((ps ++ [q]) ++ [p]) (record_packet rpi tmo t0 p.1 p.2 c).
Proof.
  intros Hrpi Hq Hp Hl (M1 & (ps' & q' & E & _ & M2 & M3) & M4 & M5 & M6 & M7 & M8 & M9 & M10 & M11 & M12 & M13 & M14 & M15).
  apply app_inj_tail in E as [<- <-]. pose proof (zlen_nonneg ps). pose proof (zlen_steps ps q) as Hs.
  assert (zlen (deltas (ps ++ [q])) = zlen ps) as Hd by (rewrite <- Hs; unfold deltas, zlen; by rewrite length_map).
  pose proof (most_missed_nonneg rpi (deltas (ps ++ [q]))).
  assert (c_packets c = zlen ps + 1) as Hc by (by rewrite M1, zlen_app).
  destruct (record_packet_fields rpi tmo t0 q p c) as (R1 & R2 & R3 & R4 & R5 & R6 & R7 & R8 & R9 & R10 & R11 & R12 & R13 & R14); try done; [lia|lia|].
  injection R2 as R2a R2b R2c. unfold measures. rewrite deltas_snoc. fold (delta_of (q, p)).
  rewrite R1, R3, R4, R6, R7, R8, R9, R10, R11, R12, R13, steps_snoc, gaps_snoc, foldr_min_snoc, foldr_max_snoc, most_missed_snoc, M1, M4, M5, M10.
  split; [by rewrite (zlen_app (ps ++ [q]))|]. split; [by exists (ps ++ [q]), p|]. do 2 (split; [done|]).
  split; [rewrite R5; apply measures_hist; [done|lia]|].
  do 3 (split; [apply bump_beyond; [done|lia]|]). split; [done|]. split; [apply bump_beyond; [done|lia]|].
  split; [by apply lost_snoc|]. do 2 (split; [apply bump_count; [done|lia]|]). rewrite R14.
  destruct (notable rpi (q, p)); [|by rewrite app_nil_r]. apply note_gap_largest; [apply u64_range|done].
Qed.

Lemma measures_first rpi tmo t0 id sip dip p :
  measures rpi tmo t0 [p] (record_packet rpi tmo t0 p.1 p.2 (conn_fresh id sip dip)).
Proof.
  unfold measures, most_missed, beyond. simpl. do 13 (split; [first [done | by exists [], p | by destruct (_ =? 0)]|]).
  exact largest_none.
Qed.

Lemma record_all_measures rpi_us tmo_us t0 id sip dip ps :
  0 <= rpi_us -> Forall packet_ok ps -> ps <> [] -> zlen ps < 2 ^ 64 ->
  measures rpi_us tmo_us t0 ps (record_all rpi_us tmo_us t0 (conn_fresh id sip dip) ps).
Proof.
  intros Hrpi Hps Hne Hlen. induction ps as [|p ps IH] using rev_ind; [done|]. unfold record_all. rewrite foldl_snoc.
  apply Forall_app in Hps as [Hps Hp]. apply Forall_inv in Hp. rewrite zlen_app in Hlen. change (zlen [p]) with 1 in Hlen.
  destruct ps as [|q ps _] using rev_ind; [apply measures_first|].
  pose proof Hps as Hq. apply Forall_app in Hq as [_ Hq%Forall_inv]. rewrite zlen_app in Hlen. change (zlen [q]) with 1 in Hlen.
  apply measures_snoc; try done; [lia|]. apply IH; [done|by destruct ps|rewrite zlen_app; change (zlen [q]) with 1; lia].
Qed.

(** ** The gaps as reported *)

Lemma elem_of_worst g top : g ∈ worst_gaps top <-> g ∈ top /\ g_delta_us g <> 0.
Proof.
  unfold worst_gaps. rewrite list_elem_of_In, List.filter_In, <- in_rev, <- list_elem_of_In.
  destruct (Z.eqb_spec (g_delta_us g) 0); simpl; intuition congruence.
Qed.

Lemma sorted_snoc (R : gap -> gap -> Prop) l x :
  StronglySorted R l -> (forall y, y ∈ l -> R y x) -> StronglySorted R (l ++ [x]).
Proof.
  induction 1 as [|y l Hs IH Hf]; intros Hx; simpl; [repeat constructor|]. constructor.
  - apply IH. intros z Hz. apply Hx. by right.
  - apply Forall_app. split; [done|]. constructor; [apply Hx; by left|constructor].
Qed.

Lemma worst_sorted top : StronglySorted gap_le top -> StronglySorted (flip gap_le) (worst_gaps top).
Proof.
  induction 1 as [|t top Hs IH Hf]; [constructor|]. unfold worst_gaps. cbn [rev]. rewrite List.filter_app. simpl.
  destruct (negb _); [|by rewrite app_nil_r]. apply sorted_snoc; [exact IH|].
  intros y [Hy _]%elem_of_worst. rewrite List.Forall_forall in Hf. apply Hf. by apply list_elem_of_In.
Qed.

(** [C40] A connection's record is what its packets say.  After any number of packets, up
    to the width of the counters, the extremes are those of the inter-arrival times,
    each bin of the histogram counts the times that fall into it, the lateness
    counters count the times beyond 1.5, 2 and 4 RPIs and beyond the connection
    timeout, the sequence counters count jumps, steps back and skipped numbers, and
    the twenty gaps kept are the largest of those worth noting, in order.  The report
    lists exactly those of them that are not zero, the largest first. *)
Theorem probe_measures_connection (rpi_us tmo_us t0 id sip dip : Z) (ps : list packet)
    (Hrpi : 0 <= rpi_us) (Hps : Forall packet_ok ps) (Hne : ps <> []) (Hlen : zlen ps < 2 ^ 64) :
  let c := record_all rpi_us tmo_us t0 (conn_fresh id sip dip) ps in
  let worst := cr_worst (report_conn rpi_us c) in
  measures rpi_us tmo_us t0 ps c /\
  StronglySorted (flip gap_le) worst /\ (forall g, g ∈ worst <-> g ∈ c_top c /\ g_delta_us g <> 0).
Proof.
  intros c worst. pose proof (record_all_measures rpi_us tmo_us t0 id sip dip ps Hrpi Hps Hne Hlen) as Hm. fold c in Hm.
  split; [done|]. split; [|intros g; apply elem_of_worst]. apply worst_sorted. unfold measures, largest in Hm. apply Hm.
Qed.

(** ** The table *)

(** What the loop hears: the frames up to the deadline or the first fatal error,
    and of these the class 1 packets. *)
Fixpoint heard (deadline : Z) (turns : list turn) : list (classified * Z) :=
  match turns with
  | [] => []
  | t :: turns =>
      if tn_now t >=? deadline then []
      else match tn_recv t with
           | Again => heard deadline turns
           | Failed => []
           | Received buf n => (classify buf n, tn_ts t) :: heard deadline turns
           end
  end.

Record io : Type := Io { io_id : Z; io_sip : Z; io_dip : Z; io_packet : packet }.
Definition io_of (h : classified * Z) : option io :=
  match h with (CipIo id seq sip dip, ts) => Some (Io id sip dip (ts, seq)) | _ => None end.

(** The connections in the order they were first heard; the packets of one. *)
Definition add_id (ids : list Z) (f : io) : list Z := if bool_decide (io_id f ∈ ids) then ids else ids ++ [io_id f].
Definition ids (fs : list io) : list Z := foldl add_id [] fs.
Definition of_id (id : Z) (fs : list io) : list io := List.filter (fun f => io_id f =? id) fs.

Section Table.
Context (rpi_us tmo_us t0 : Z).

Definition conn_of (fs : list io) (id : Z) : conn :=
  match of_id id fs with
  | [] => conn_zero
  | f :: _ => record_all rpi_us tmo_us t0 (conn_fresh id (io_sip f) (io_dip f)) (map io_packet (of_id id fs))
  end.

Definition table_of (fs : list io) : list conn :=
  let kept := take 32 (ids fs) in map (conn_of fs) kept ++ replicate (32 - length kept) conn_zero.

Definition is_udp (h : classified * Z) : bool := match h.1 with Other => false | _ => true end.
Definition is_non_cip (h : classified * Z) : bool := match h.1 with NonCip => true | _ => false end.
Definition probe_of (hs : list (classified * Z)) : probe :=
  Probe (table_of (omap io_of hs)) (u64 (count is_udp hs)) (u64 (count is_non_cip hs)).

Lemma ids_snoc fs f : ids (fs ++ [f]) = add_id (ids fs) f.
Proof. unfold ids. apply foldl_snoc. Qed.

Lemma of_id_snoc id fs f : of_id id (fs ++ [f]) = of_id id fs ++ (if io_id f =? id then [f] else []).
Proof. unfold of_id. rewrite List.filter_app. simpl. by destruct (_ =? _). Qed.

Lemma ids_heard fs id : id ∈ ids fs <-> of_id id fs <> [].
Proof.
  induction fs as [|f fs IH] using rev_ind; [by split; [intros ?%elem_of_nil|]|]. rewrite ids_snoc, of_id_snoc. unfold add_id.
  destruct (Z.eqb_spec (io_id f) id) as [<-|Hne]; case_bool_decide as Hin; rewrite ?app_nil_r, ?elem_of_app, ?list_elem_of_singleton.
  - split; [by intros _ []%app_nil|done].
  - split; [by intros _ []%app_nil|by right].
  - exact IH.
  - rewrite <- IH. split; [by intros [|]|by left].
Qed.

Lemma ids_nodup fs : NoDup (ids fs).
Proof.
  induction fs as [|f fs IH] using rev_ind; [constructor|]. rewrite ids_snoc. unfold add_id. case_bool_decide; [done|].
  apply list.NoDup_app. split; [done|]. split; [|apply NoDup_singleton]. by intros x Hx ->%list_elem_of_singleton.
Qed.

Definition same_conn (c c' : conn) : Prop := c_used c' = c_used c /\ c_id c' = c_id c.

Lemma record_parts_keep rpi tmo d seq c :
  same_conn c (record_delta d c) /\ same_conn c (record_late rpi tmo d c) /\ same_conn c (record_seq seq c).2.
Proof.
  unfold same_conn. repeat split; [unfold record_delta|unfold record_delta|unfold record_late|unfold record_late|unfold record_seq|unfold record_seq];
    destruct c; simpl; repeat (match goal with |- context [if ?b then _ else _] => destruct b end; simpl); done.
Qed.

Lemma record_packet_keeps ts seq c : same_conn c (record_packet rpi_us tmo_us t0 ts seq c).
Proof.
  unfold record_packet. set (c0 := c <| c_packets := _ |> <| c_last_us := _ |>). destruct (_ =? 1); [done|]. set (d := u64 _). assert (same_conn c c0) as [K1 K2] by done. clearbody c0.
  destruct (record_parts_keep 0 0 d 0 c0) as [A _]. destruct (record_parts_keep rpi_us tmo_us d 0 (record_delta d c0)) as (_ & B & _).
  destruct (record_parts_keep 0 0 d seq (record_late rpi_us tmo_us d (record_delta d c0))) as (_ & _ & C).
  destruct (record_seq seq _) as [lost c3]. unfold same_conn in *. cbn [snd] in C. destruct A as [A1 A2], B as [B1 B2], C as [C1 C2].
  destruct (_ || _); simpl; split; congruence.
Qed.

Lemma record_all_keeps c ps : same_conn c (record_all rpi_us tmo_us t0 c ps).
Proof.
  revert c. induction ps as [|p ps IH]; intros c; [done|]. destruct (IH (record_packet rpi_us tmo_us t0 p.1 p.2 c)), (record_packet_keeps p.1 p.2 c).
  unfold same_conn. simpl. split; congruence.
Qed.

Lemma conn_of_used fs id : id ∈ ids fs -> c_used (conn_of fs id) = true /\ c_id (conn_of fs id) = id.
Proof.
  intros Hin%ids_heard. unfold conn_of. destruct (of_id id fs) as [|f l]; [done|]. by destruct (record_all_keeps (conn_fresh id (io_sip f) (io_dip f)) (map io_packet (f :: l))) as [-> ->].
Qed.

Lemma conn_of_other fs f id : io_id f <> id -> conn_of (fs ++ [f]) id = conn_of fs id.
Proof. intros Hne. unfold conn_of. rewrite of_id_snoc. destruct (Z.eqb_spec (io_id f) id); [done|]. by rewrite app_nil_r. Qed.

Lemma conn_of_next fs f :
  conn_of (fs ++ [f]) (io_id f) = record_packet rpi_us tmo_us t0 (io_packet f).1 (io_packet f).2
    (if bool_decide (io_id f ∈ ids fs) then conn_of fs (io_id f) else conn_fresh (io_id f) (io_sip f) (io_dip f)).
Proof.
  unfold conn_of. rewrite of_id_snoc, Z.eqb_refl. pose proof (ids_heard fs (io_id f)) as Hh.
  destruct (of_id (io_id f) fs) as [|g l].
  - rewrite bool_decide_eq_false_2 by (intros Hin; by apply Hh in Hin). done.
  - rewrite bool_decide_eq_true_2 by (by apply Hh). simpl. rewrite map_app. unfold record_all. simpl. by rewrite foldl_snoc.
Qed.

Lemma find_from_skip f i l k : Forall (fun c => f c = false) l -> find_from f i (l ++ k) = find_from f (i + length l) k.
Proof.
  intros H. revert i. induction H as [|c l Hc _ IH]; intros i; simpl; [by rewrite Nat.add_0_r|]. rewrite Hc, IH. f_equal. lia.
Qed.

Definition matches (id : Z) (c : conn) : bool := c_used c && (c_id c =? id).

Lemma kept_differ fs id l : id ∉ l -> (forall x, x ∈ l -> x ∈ ids fs) -> Forall (fun c => matches id c = false) (map (conn_of fs) l).
Proof.
  intros Hid Hl. apply Forall_fmap, list.Forall_forall. intros x Hx. destruct (conn_of_used fs x (Hl x Hx)) as [E1 E2].
  unfold compose, matches. rewrite E1, E2. destruct (Z.eqb_spec x id) as [->|]; done.
Qed.

Lemma kept_used fs l : (forall x, x ∈ l -> x ∈ ids fs) -> Forall (fun c => negb (c_used c) = false) (map (conn_of fs) l).
Proof. intros Hl. apply Forall_fmap, list.Forall_forall. intros x Hx. unfold compose. by destruct (conn_of_used fs x (Hl x Hx)) as [-> _]. Qed.

Lemma free_differ id n : Forall (fun c => matches id c = false) (replicate n conn_zero).
Proof. by apply Forall_replicate. Qed.

Lemma insert_mid {A} (l k : list A) (x y : A) : <[length l := y]> (l ++ x :: k) = l ++ y :: k.
Proof. rewrite insert_app_r_alt by lia. by rewrite Nat.sub_diag. Qed.

Lemma map_conn_other fs f l : io_id f ∉ l -> map (conn_of (fs ++ [f])) l = map (conn_of fs) l.
Proof. intros Hn. apply map_ext_in. intros x Hx. apply conn_of_other. intros E. apply Hn. rewrite E. by apply list_elem_of_In. Qed.

Lemma kept_in fs x : x ∈ take 32 (ids fs) -> x ∈ ids fs.
Proof. intros Hx. rewrite <- (take_drop 32 (ids fs)). apply elem_of_app. by left. Qed.

(** The table entry a packet is recorded in, and the table after it. *)
Lemma conn_for_table fs f :
  let id := io_id f in
  match conn_for id (io_sip f) (io_dip f) true (table_of fs) with
  | Slot i cs => exists c, cs !! i = Some c /\ <[i := record_packet rpi_us tmo_us t0 (io_packet f).1 (io_packet f).2 c]> cs = table_of (fs ++ [f])
  | Full => table_of (fs ++ [f]) = table_of fs
  | NoMem => False
  end.
Proof.
  cbv zeta. unfold conn_for, table_of. change (fun c => c_used c && (c_id c =? io_id f)) with (matches (io_id f)).
  rewrite ids_snoc. pose proof (conn_of_next fs f) as Hnext. pose proof (ids_nodup fs) as Hnd. unfold add_id.
  set (kept := take 32 (ids fs)). pose proof (kept_in fs) as Hk. fold kept in Hk.
  destruct (decide (io_id f ∈ kept)) as [Hin|Hout].
  - rewrite bool_decide_eq_true_2 in Hnext |- * by auto. fold kept. destruct (list_elem_of_split _ _ Hin) as (l1 & l2 & E).
    assert (NoDup kept) as Hnk by (rewrite <- (take_drop 32 (ids fs)) in Hnd; apply list.NoDup_app in Hnd; tauto).
    clearbody kept. subst kept. apply list.NoDup_app in Hnk as (_ & Hd & [Hn2 _]%list.NoDup_cons).
    assert (io_id f ∉ l1) as Hn1 by (intros Hx; apply (Hd _ Hx); by left).
    rewrite !map_app. cbn [map]. rewrite !map_conn_other, Hnext, <- !(assoc_L (++)) by done.
    rewrite find_from_skip by (apply kept_differ; [done|intros x Hx; apply Hk, elem_of_app; by left]). cbn [find_from app].
    destruct (conn_of_used fs (io_id f)) as [U1 U2]; [auto|]. unfold matches at 1. rewrite U1, U2, Z.eqb_refl. cbn [andb].
    exists (conn_of fs (io_id f)). rewrite Nat.add_0_l. split; [by apply list_lookup_middle|]. by rewrite <- (length_map (conn_of fs)), insert_mid.
  - rewrite find_from_skip, <- (app_nil_r (replicate _ _)), find_from_skip by first [apply free_differ|by apply kept_differ]. cbn [find_from].
    rewrite app_nil_r, find_from_skip by (by apply kept_used).
    assert (length kept = Nat.min 32 (length (ids fs))) as Hlk by apply length_take.
    destruct (decide (length (ids fs) < 32)%nat) as [Hlt|Hge].
    + assert (kept = ids fs) as Ek by (apply take_ge; lia). clearbody kept. subst kept. rewrite bool_decide_eq_false_2 in Hnext |- * by done.
      rewrite take_ge by (rewrite length_app; simpl; lia). rewrite map_app, map_conn_other, length_app by done. cbn [map length]. rewrite Hnext.
      replace (32 - length (ids fs))%nat with (S (31 - length (ids fs))) by lia.
      replace (32 - (length (ids fs) + 1))%nat with (31 - length (ids fs))%nat by lia.
      cbn [replicate find_from conn_zero c_used negb]. rewrite Nat.add_0_l, insert_mid.
      eexists. split; [by apply list_lookup_middle|]. by rewrite insert_mid, <- (assoc_L (++)).
    + assert (take 32 (if bool_decide (io_id f ∈ ids fs) then ids fs else ids fs ++ [io_id f]) = kept) as ->
        by (case_bool_decide; [done|by apply take_app_le; lia]).
      rewrite map_conn_other by done. replace (32 - length kept)%nat with O by lia. done.
Qed.

(** One frame. *)
Lemma probe_frame_table hs buf n ts s :
  s = probe_of hs -> probe_frame rpi_us tmo_us t0 buf n ts true s = Some (probe_of (hs ++ [(classify buf n, ts)])).
Proof.
  intros ->. unfold probe_frame, probe_of. rewrite !count_snoc, omap_app. unfold is_udp, is_non_cip. cbn [fst omap list_omap io_of].
  destruct (classify buf n) as [| |id seq sip dip]; cbn [setf pb_conns pb_total_udp pb_non_cip].
  - by rewrite app_nil_r, !Z.add_0_r.
  - rewrite app_nil_r. unfold u64. simpl. by rewrite !Zplus_mod_idemp_l.
  - pose proof (conn_for_table (omap io_of hs) (Io id sip dip (ts, seq))) as Hc. cbn [io_id io_sip io_dip io_packet fst snd] in Hc.
    simpl. destruct (conn_for id sip dip true (table_of (omap io_of hs))) as [i cs| |]; [destruct Hc as (c & -> & <-)|rewrite Hc|done];
      unfold u64; by rewrite Zplus_mod_idemp_l, Z.add_0_r.
Qed.

Lemma probe_loop_table deadline turns hs s :
  Forall (fun t => tn_calloc t = true) turns -> s = probe_of hs ->
  probe_loop rpi_us tmo_us t0 deadline turns s = Some (probe_of (hs ++ heard deadline turns)).
Proof.
  intros Hc. revert hs s. induction Hc as [|t turns Ht _ IH]; intros hs s Hs; simpl; [by rewrite app_nil_r, Hs|].
  destruct (_ >=? _); [by rewrite app_nil_r, Hs|]. destruct (tn_recv t) as [buf n| |]; [|by apply IH|by rewrite app_nil_r, Hs].
  rewrite Ht, (probe_frame_table hs buf n (tn_ts t) s Hs), (IH (hs ++ [(classify buf n, tn_ts t)])) by done. by rewrite <- (assoc_L (++)).
Qed.
End Table.

(** [C39] Connections are measured apart.  Whatever arrives, interleaved as it may be, the
    probe ends with the first thirty-two connections in the order they were first
    heard, each with exactly the record its own packets would have produced alone,
    and a connection beyond those changes nothing; the two totals count the
    datagrams on the port and those that are not class 1 I/O.  ([calloc] does not
    fail; if it does the process ends.) *)
Theorem probe_separates_connections (seconds rpi_us tmo_us t0 : Z) (turns : list turn)
    (Hmem : Forall (fun t => tn_calloc t = true) turns) :
  let hs := heard (u64 (t0 + u64 (seconds * 1000000))) turns in
  let io := omap io_of hs in
  exists s, probe_run seconds rpi_us tmo_us t0 turns = Some s /\
    pb_conns s = map (conn_of rpi_us tmo_us t0 io) (take 32 (ids io)) ++ replicate (32 - length (take 32 (ids io))) conn_zero /\
    length (pb_conns s) = 32%nat /\
    pb_total_udp s = u64 (count is_udp hs) /\ pb_non_cip s = u64 (count is_non_cip hs).
Proof.
  cbv zeta. eexists. split; [by apply (probe_loop_table rpi_us tmo_us t0 _ turns [])|]. repeat split.
  rewrite app_nil_l. simpl. unfold table_of. rewrite length_app, length_map, length_replicate, length_take. lia.
Qed.

(** ** Percentiles *)

Lemma count_below h ds i :
  (forall b, hist_at h b = count (fun d => bin_of d =? b) ds) ->
  count (fun d => bin_of d <? i) ds + hist_at h i = count (fun d => bin_of d <? i + 1) ds.
Proof.
  intros ->. induction ds as [|d ds IH] using rev_ind; [done|]. rewrite !count_snoc.
  destruct (Z.ltb_spec (bin_of d) i), (Z.eqb_spec (bin_of d) i), (Z.ltb_spec (bin_of d) (i + 1)); lia.
Qed.

Lemma pct_loop_spec bins i want h ds :
  (forall b, hist_at h b = count (fun d => bin_of d =? b) ds) -> zlen ds < 2 ^ 64 ->
  0 <= i -> i + Z.of_nat bins = HIST_BINS -> count (fun d => bin_of d <? i) ds < want ->
  exists j, pct_loop bins i want (count (fun d => bin_of d <? i) ds) h = j * HIST_BIN_US /\ 0 <= j <= HIST_BINS /\
    count (fun d => bin_of d <? j) ds < want /\ (j < HIST_BINS -> want <= count (fun d => bin_of d <? j + 1) ds).
Proof.
  intros Hh Hl. revert i. induction bins as [|bins IH]; intros i Hi Hb Hw.
  - exists HIST_BINS. assert (i = HIST_BINS) as -> by lia. repeat split; [unfold HIST_BINS; lia|lia|done|lia].
  - cbn [pct_loop]. rewrite (count_below h ds i Hh). pose proof (count_bound (fun d => bin_of d <? i + 1) ds).
    rewrite (u64_small (count _ ds)) by lia. destruct (Z.geb_spec (count (fun d => bin_of d <? i + 1) ds) want).
    + exists i. split; [apply u64_small; unfold HIST_BIN_US, HIST_BINS in *; lia|]. repeat split; [done|lia|done|done].
    + apply IH; lia.
Qed.

Lemma count_ext {A} (f g : A -> bool) l : (forall x, f x = g x) -> count f l = count g l.
Proof. intros H. unfold count. by rewrite (List.filter_ext f g). Qed.

Lemma count_none {A} (f : A -> bool) l : Forall (fun x => f x = false) l -> count f l = 0.
Proof. unfold count. induction 1 as [|x l Hx _ IH]; simpl; [done|]. by rewrite Hx. Qed.

Lemma count_all {A} (f : A -> bool) l : Forall (fun x => f x = true) l -> count f l = zlen l.
Proof. unfold count, zlen. induction 1 as [|x l Hx _ IH]; simpl; [done|]. rewrite Hx. simpl. lia. Qed.

Lemma bin_of_range d : 0 <= d -> 0 <= bin_of d < HIST_BINS.
Proof. unfold bin_of, HIST_BIN_US, HIST_BINS. intros. destruct (Z.geb_spec (d / 5) 120000); Z.div_mod_to_equations; lia. Qed.

Lemma bin_nonneg ps : Forall (fun d => (bin_of d <? 0) = false) (deltas ps).
Proof.
  apply Forall_fmap, list.Forall_forall. intros s _. unfold compose. pose proof (bin_of_range (delta_of s) (proj1 (u64_range _))). lia.
Qed.

Lemma bin_below ps : Forall (fun d => (bin_of d <? HIST_BINS) = true) (deltas ps).
Proof.
  apply Forall_fmap, list.Forall_forall. intros s _. unfold compose. pose proof (bin_of_range (delta_of s) (proj1 (u64_range _))). lia.
Qed.

Lemma zlen_deltas ps : ps <> [] -> zlen (deltas ps) = zlen ps - 1.
Proof.
  destruct ps as [|q ps _] using rev_ind; [done|]. intros _. unfold deltas. rewrite zlen_app. unfold zlen at 1. rewrite length_map.
  fold (zlen (steps (ps ++ [q]))). rewrite zlen_steps. change (zlen [q]) with 1. lia.
Qed.

Lemma pct_want_pos p n : 0 < pct_want p n.
Proof.
  unfold pct_want. assert (0 <= d_to_u64 (d_div (d_mul p (d_of_u64 n)) (d_of_u64 100))) as H.
  { unfold d_to_u64. destruct (d_div _ _) as [| | |[|] m e]; try lia. apply u64_range. }
  destruct (Z.eqb_spec (d_to_u64 (d_div (d_mul p (d_of_u64 n)) (d_of_u64 100))) 0); lia.
Qed.

(** The percentiles are those of the inter-arrival times, to the width of a bin: the
    value printed is the lower edge of the bin in which the wanted rank falls, fewer
    times than that lie in the bins below and at least as many up to it; only a
    rank beyond all of them gives the end of the scale. *)
Theorem probe_percentile (rpi_us tmo_us t0 id sip dip : Z) (ps : list packet) (p : double)
    (Hrpi : 0 <= rpi_us) (Hps : Forall packet_ok ps) (Hlen : 2 <= zlen ps < 2 ^ 64) :
  let c := record_all rpi_us tmo_us t0 (conn_fresh id sip dip) ps in
  let want := pct_want p (zlen ps - 1) in
  exists j, pct c p = j * HIST_BIN_US /\ 0 <= j <= HIST_BINS /\
    count (fun d => bin_of d <? j) (deltas ps) < want /\
    (j < HIST_BINS -> want <= count (fun d => bin_of d <=? j) (deltas ps)) /\
    (want <= zlen ps - 1 -> j < HIST_BINS).
Proof.
  cbv zeta. assert (ps <> []) as Hne by (intros ->; unfold zlen in Hlen; simpl in Hlen; lia).
  destruct (record_all_measures rpi_us tmo_us t0 id sip dip ps) as (M1 & _ & _ & _ & Mh & _); try done; [lia|].
  set (c := record_all _ _ _ _ _) in *. pose proof (zlen_deltas ps Hne) as Hd. unfold pct. rewrite M1, u64_small by lia.
  destruct (Z.ltb_spec (zlen ps) 2); [lia|]. set (want := pct_want p (zlen ps - 1)).
  assert (count (fun d => bin_of d <? 0) (deltas ps) = 0) as H0 by (apply count_none, bin_nonneg).
  destruct (pct_loop_spec (Z.to_nat HIST_BINS) 0 want (c_hist c) (deltas ps) Mh) as (j & Hj & Hr & Hlo & Hhi); [lia|done|done|rewrite H0; apply pct_want_pos|].
  rewrite H0 in Hj. exists j. do 3 (split; [done|]). split.
  - intros Hlt. specialize (Hhi Hlt). erewrite count_ext; [exact Hhi|]. intros d. simpl. lia.
  - intros Hw. destruct (decide (j = HIST_BINS)) as [->|]; [|lia]. rewrite (count_all _ (deltas ps) (bin_below ps)) in Hlo. lia.
Qed.

(** ** Losses *)

Lemma skipped_grow p q : packet_ok q -> p.2 < q.2 -> 0 <= p.2 -> skipped (p, q) = q.2 - p.2 - 1.
Proof.
  unfold skipped, jumped, in_order, packet_ok. cbn [fst snd]. intros Hq Hlt Hp. rewrite u32_small by lia.
  destruct (Z.eqb_spec q.2 (p.2 + 1)); cbn [negb andb]; [lia|]. destruct (Z.gtb_spec q.2 p.2); lia.
Qed.

Lemma skipped_nonneg s : 0 <= skipped s.
Proof. unfold skipped, jumped. destruct (in_order s); [done|]. cbn [negb andb]. destruct (Z.gtb_spec s.2.2 s.1.2); lia. Qed.

Lemma total_nonneg l : Forall (fun x => 0 <= x) l -> 0 <= total l.
Proof. unfold total. induction 1; simpl; lia. Qed.

(** On a connection whose sequence numbers only grow, the sequence counter is the loss:
    the numbers between the first and the last that did not arrive. *)
Theorem probe_counts_losses (rpi_us tmo_us t0 id sip dip : Z) (p q : packet) (ps : list packet)
    (Hrpi : 0 <= rpi_us) (Hps : Forall packet_ok (p :: ps ++ [q])) (Hlen : zlen ps < 2 ^ 63)
    (Hgrow : Forall (fun s => s.1.2 < s.2.2) (steps (p :: ps ++ [q]))) :
  c_seq_lost (record_all rpi_us tmo_us t0 (conn_fresh id sip dip) (p :: ps ++ [q])) = q.2 - p.2 - zlen ps - 1.
Proof.
  assert (total (map skipped (steps (p :: ps ++ [q]))) = q.2 - p.2 - zlen ps - 1) as Ht.
  { clear Hlen. revert p Hps Hgrow. induction ps as [|r ps IH]; intros p Hps Hgrow; cbn [app] in *.
    - inversion Hgrow as [|? ? H1 _]; subst. cbn [steps tail zip zip_with map total foldr]. inversion Hps as [|? ? H3 H4]; subst. apply Forall_inv in H4.
      rewrite skipped_grow; [change (zlen []) with 0; lia|done|done|apply H3].
    - inversion Hgrow as [|? ? H1 H2]; subst. inversion Hps as [|? ? H3 H4]; subst. specialize (IH r H4 H2).
      change (steps (p :: r :: ps ++ [q])) with ((p, r) :: steps (r :: ps ++ [q])). cbn [map total foldr] in *.
      rewrite skipped_grow; [|by apply Forall_inv in H4|done|apply H3]. unfold total in IH. rewrite IH. unfold zlen. simpl. lia. }
  destruct (record_all_measures rpi_us tmo_us t0 id sip dip (p :: ps ++ [q])) as (_ & _ & _ & _ & _ & _ & _ & _ & _ & _ & Hl & _); try done.
  - unfold zlen in *. simpl. rewrite length_app. simpl. lia.
  - rewrite Hl, Ht. apply u64_small. inversion Hps as [|? ? Hp Hr]; subst. apply Forall_app in Hr as [_ Hq%Forall_inv]. split.
    + rewrite <- Ht. apply total_nonneg, Forall_fmap, list.Forall_forall. intros s _. apply skipped_nonneg.
    + pose proof (zlen_nonneg ps). unfold packet_ok in *. lia.
Qed.

(** ** What the probe reads *)

(** A receive buffer with a class 1 datagram cut to [n] bytes, and what was there
    before behind it. *)
Definition cut_datagram (stale : list Z) : list Z :=
  zeros 12 ++ [8; 0] ++ [69] ++ zeros 8 ++ [17] ++ zeros 2 ++ [10; 0; 0; 1; 10; 0; 0; 2] ++
  [8; 174; 8; 174; 0; 20; 0; 0] ++ [2; 0; 2; 128; 8; 0; 120; 86; 52; 18] ++ [7; 0] ++ stale.

(** The length check asks for four bytes and the eight of the address item, but the
    item starts six bytes in: of a datagram cut there the last two bytes of the
    sequence number are whatever the buffer held before. *)
Theorem probe_reads_behind_frame :
  exists buf buf' n, bslice 0 n buf = bslice 0 n buf' /\
    classify buf n = CipIo 305419896 7 16777226 33554442 /\ classify buf' n = CipIo 305419896 65543 16777226 33554442.
Proof. by exists (cut_datagram [0; 0]), (cut_datagram [1; 0]), 54. Qed.

(** Frames that merely arrive out of order are counted as lost. *)
Theorem probe_reordering_counts_as_loss :
  c_seq_lost (record_all 5000 0 0 (conn_fresh 1 0 0) [(0, 1); (5000, 3); (5100, 2); (10000, 4)]) = 2.
Proof. vm_compute. reflexivity. Qed.

(** ** Witnesses *)

Lemma probe_measures_connection_witness :
  let c := record_all 5000 100000 0 (conn_fresh 1 0 0) [(0, 1); (5000, 2); (30000, 5)] in
  c_packets c = 3 /\ c_max_us c = 25000 /\ hist_at (c_hist c) 1000 = 1 /\ c_late_4x c = 1 /\ c_max_consecutive_missed c = 4 /\ c_seq_lost c = 2.
Proof.
  destruct (probe_measures_connection 5000 100000 0 1 0 0 [(0, 1); (5000, 2); (30000, 5)])
    as ((H1 & _ & _ & H2 & H3 & _ & _ & H4 & H5 & _ & H6 & _) & _);
    [lia|repeat constructor; simpl; lia|discriminate|vm_compute; reflexivity|].
  cbv zeta. rewrite H1, H2, H3, H4, H5, H6. vm_compute. repeat split.
Defined.

(** Two connections, their packets alternating. *)
Definition io_datagram (id seq : Z) : list Z :=
  bslice 0 48 (cut_datagram []) ++ le_bytes 4 id ++ le_bytes 4 seq ++ zeros 10.
Definition two_connections : list turn :=
  [Turn 0 (Received (io_datagram 1 10) 66) 100 true; Turn 100 Again 0 true; Turn 200 (Received (io_datagram 2 70) 66) 300 true;
   Turn 300 (Received (io_datagram 1 11) 66) 5100 true; Turn 5200 (Received (zeros 60) 60) 5300 true].

Lemma probe_separates_connections_witness :
  exists s, probe_run 10 5000 100000 0 two_connections = Some s /\
    map (fun c => (c_used c, c_id c, c_packets c)) (take 3 (pb_conns s)) = [(true, 1, 2); (true, 2, 1); (false, 0, 0)] /\
    pb_total_udp s = 3 /\ pb_non_cip s = 0.
Proof.
  destruct (probe_separates_connections 10 5000 100000 0 two_connections) as (s & Hs & Hc & _ & Hu & Hn);
    [repeat constructor|].
  exists s. split; [exact Hs|]. rewrite Hc, Hu, Hn. vm_compute. repeat split.
Defined.
