(* ===== verification/E2e.v ===== *)
(** * The end-to-end watchers

    [tools/e2e_cip_failsafe.c], [tools/e2e_link_survive.c] and
    [tools/e2e_two_plc.c]: programs that open one adapter, exchange images with it
    every 10 ms and judge what arrives.  They are the acceptance tests of the
    failsafe, so what matters is what a PASS means.

    The three share their shape: [open_by_protocol] is the part up to the loop,
    [scan_loop] the loop, with the filling of the outputs and the judgement as
    arguments; each program's own state is a record and its judgement a function
    on it.  The printed lines are left out, the times that only they contain too.

    The theorems read a verdict as a statement about the sequence of images that
    arrived: a pass of the failsafe watcher is exactly the policy at every scan of
    every outage; a pass of the survival watcher contains one for the outage it
    saw; the two-PLC check counts a frame as corrupt exactly when no sender with
    that tag could have sent it. *)

From Stdlib Require Import ZArith Lia.
From stdpp Require Import base list strings tactics.
From S2P Require Import Prelude PlcTypes SpscRing Adapter Runtime Registry.

Definition SCAN_US : Z := 10000.
Definition FRESH_MIN : Z := 20.
Definition EXIT_SUCCESS : Z := 0.
Definition EXIT_FAILURE : Z := 1.

(** ** What the programs share *)

Section Driver.
Context {W A : Type} `{Clock W, Tasking W}.
Abbreviation factory := (plc_adapter_factory W (plc_protocol_adapter W A)).

Fixpoint sleep_until_us (fuel : nat) (deadline_us : Z) (w : W) : option W :=
  match fuel with
  | O => None
  | S fuel =>
      let '(rc, w) := clock_nanosleep (deadline_us / 1000000, deadline_us mod 1000000 * 1000) w in
      if rc =? EINTR then sleep_until_us fuel deadline_us w else Some w
  end.

(** From the registry to the capabilities; [inl] is [EXIT_FAILURE].  The adapter
    [create] returns is not checked: [plc_adapter_open] refuses [NULL]. *)
Definition open_by_protocol (g : list factory) (proto : string) (cfg : plc_adapter_config) (alloc : bool * bool) (w : W)
    : W + (factory * option (plc_protocol_adapter W A) * plc_adapter_caps * W) :=
  match plc_adapter_registry_find (Some proto) g with
  | None => inl w
  | Some f =>
      let a := fa_create f ≫= fun create => create alloc.1 alloc.2 in
      let '(st, a, w) := plc_adapter_open a (Some cfg) w in
      if negb (is_ok st) then inl w
      else inr (f, a, default caps_zero (plc_adapter_get_caps a (Some caps_zero)).2, w)
  end.

(** [plc_adapter_close(a); f->destroy(a)]. *)
Definition close_and_destroy (f : factory) (a : option (plc_protocol_adapter W A)) (w : W) : W :=
  let '(_, a, w) := plc_adapter_close a w in
  match fa_destroy f, a with Some destroy, Some o => destroy o w | _, _ => w end.

Definition scanner_cfg (name instance : string) : plc_adapter_config :=
  default (Config None None 0 0 PLC_FAILSAFE_HOLD 0 0)
    (plc_adapter_config_init (Some (Config None None 0 0 PLC_FAILSAFE_HOLD 0 0)))
  <| cfg_name := Some name |> <| cfg_endpoint := Some instance |>.

(** [for (s = 0; s < scans; ++s)], one [fill], one exchange, one [look], one sleep;
    [inb] is the part of [in] the exchange is told about. *)
Fixpoint scan_loop {M} (fuel : nat) (fill : Z -> list Z -> list Z) (look : plc_status -> list Z -> M -> M)
    (out_len in_len : Z) (scans : nat) (s deadline : Z) (out inb : list Z) (a : option (plc_protocol_adapter W A)) (m : M) (w : W)
    : option (M * option (plc_protocol_adapter W A) * W) :=
  match scans with
  | O => Some (m, a, w)
  | S scans =>
      let out := fill s out in
      match plc_adapter_exchange a (Some out) out_len (Some inb) in_len w with
      | None => None
      | Some (st, a, inb', w) =>
          let inb := default inb inb' in
          let m := look st inb m in
          let deadline := u64 (deadline + SCAN_US) in
          match sleep_until_us fuel deadline w with
          | None => None
          | Some w => scan_loop fuel fill look out_len in_len scans (s + 1) deadline out inb a m w
          end
      end
  end.

(** [out[i] = (uint8_t)(s + i)] for [i] from [i] on. *)
Fixpoint fill_count (n : nat) (s i : Z) (out : list Z) : list Z :=
  match n with
  | O => out
  | S n => fill_count n s (i + 1) (<[Z.to_nat i := u8 (s + i)]> out)
  end.
End Driver.

(** Both comparisons of an outage scan, byte by byte. *)
Fixpoint compare_slice (n : nat) (i data_off : Z) (inb last_online : list Z) (all_zero same_as_last : bool) : bool * bool :=
  match n with
  | O => (all_zero, same_as_last)
  | S n =>
      let all_zero := if negb (byte_at inb (data_off + i) =? 0) then false else all_zero in
      let same_as_last := if negb (byte_at inb (data_off + i) =? byte_at last_online i) then false else same_as_last in
      compare_slice n (i + 1) data_off inb last_online all_zero same_as_last
  end.

Definition data_off : Z := 1.
Definition data_len_of (input_bytes : Z) : Z := if input_bytes >? data_off then input_bytes - data_off else 0.

(** ** e2e_cip_failsafe *)

Record cipfs : Type := Cipfs {
  cf_last_online : list Z;
  cf_saw_online : bool;
  cf_saw_down : bool;
  cf_online_scans : Z;
  cf_down_scans : Z;
  cf_violations : Z;
  cf_false_healthy : Z
}.
#[export] Instance eta_cipfs : Eta cipfs := fun r =>
  Cipfs (cf_last_online r) (cf_saw_online r) (cf_saw_down r) (cf_online_scans r)
    (cf_down_scans r) (cf_violations r) (cf_false_healthy r).

Definition cipfs_zero : cipfs := Cipfs (zeros PLC_IPC_MAX_FRAME_BYTES) false false 0 0 0 0.

Definition cipfs_look (expect_clear : bool) (data_len : Z) (inb : list Z) (m : cipfs) : cipfs :=
  if byte_at inb 0 =? 1 then
    let m := if cf_saw_down m then m <| cf_false_healthy := u64 (cf_false_healthy m + 1) |> else m in
    m <| cf_saw_online := true |> <| cf_online_scans := u64 (cf_online_scans m + 1) |>
      <| cf_last_online := bwrite 0 (bslice data_off data_len inb) (cf_last_online m) |>
  else if cf_saw_online m then
    let '(all_zero, same_as_last) := compare_slice (Z.to_nat data_len) 0 data_off inb (cf_last_online m) true true in
    let m := if negb (if expect_clear then all_zero else same_as_last)
             then m <| cf_violations := u64 (cf_violations m + 1) |> else m in
    let m := if negb (cf_saw_down m) then m <| cf_saw_down := true |> else m in
    m <| cf_down_scans := u64 (cf_down_scans m + 1) |>
  else m.

Definition cipfs_verdict (no_recover : bool) (m : cipfs) : Z :=
  if negb (cf_saw_online m) then EXIT_FAILURE
  else if negb (cf_saw_down m) then EXIT_FAILURE
  else if no_recover && negb (cf_false_healthy m =? 0) then EXIT_FAILURE
  else if negb (cf_violations m =? 0) then EXIT_FAILURE
  else EXIT_SUCCESS.

(** ** e2e_link_survive *)

Record linksurv : Type := Linksurv {
  ls_last_online : list Z;
  ls_prev : list Z;
  ls_saw_online : bool;
  ls_saw_down : bool;
  ls_saw_recovery : bool;
  ls_online_scans : Z;
  ls_down_scans : Z;
  ls_violations : Z;
  ls_post_scans : Z;
  ls_post_changes : Z
}.
#[export] Instance eta_linksurv : Eta linksurv := fun r =>
  Linksurv (ls_last_online r) (ls_prev r) (ls_saw_online r) (ls_saw_down r)
    (ls_saw_recovery r) (ls_online_scans r) (ls_down_scans r) (ls_violations r)
    (ls_post_scans r) (ls_post_changes r).

Definition linksurv_zero : linksurv :=
  Linksurv (zeros PLC_IPC_MAX_FRAME_BYTES) (zeros PLC_IPC_MAX_FRAME_BYTES) false false false 0 0 0 0 0.

Definition linksurv_look (expect_clear : bool) (data_len : Z) (inb : list Z) (m : linksurv) : linksurv :=
  let m :=
    if byte_at inb 0 =? 1 then
      let m := if ls_saw_down m && negb (ls_saw_recovery m) then m <| ls_saw_recovery := true |> else m in
      let m := if ls_saw_recovery m then
                 let m := m <| ls_post_scans := u64 (ls_post_scans m + 1) |> in
                 if negb (bool_decide (bslice data_off data_len inb = bslice 0 data_len (ls_prev m)))
                 then m <| ls_post_changes := u64 (ls_post_changes m + 1) |> else m
               else m in
      m <| ls_saw_online := true |> <| ls_online_scans := u64 (ls_online_scans m + 1) |>
        <| ls_last_online := bwrite 0 (bslice data_off data_len inb) (ls_last_online m) |>
    else if ls_saw_online m && negb (ls_saw_recovery m) then
      let '(all_zero, same_as_last) := compare_slice (Z.to_nat data_len) 0 data_off inb (ls_last_online m) true true in
      let m := if negb (if expect_clear then all_zero else same_as_last)
               then m <| ls_violations := u64 (ls_violations m + 1) |> else m in
      let m := if negb (ls_saw_down m) then m <| ls_saw_down := true |> else m in
      m <| ls_down_scans := u64 (ls_down_scans m + 1) |>
    else m in
  m <| ls_prev := bwrite 0 (bslice data_off data_len inb) (ls_prev m) |>.

Definition linksurv_verdict (m : linksurv) : Z :=
  if negb (ls_saw_online m) then EXIT_FAILURE
  else if negb (ls_saw_down m) then EXIT_FAILURE
  else if negb (ls_violations m =? 0) then EXIT_FAILURE
  else if negb (ls_saw_recovery m) then EXIT_FAILURE
  else if ls_post_scans m <? FRESH_MIN then EXIT_FAILURE
  else if ls_post_changes m =? 0 then EXIT_FAILURE
  else EXIT_SUCCESS.

(** Both watchers of the scanner role, from their arguments on: [policy] is the
    fourth word and [norecover] whether the fifth is there and says so; [scans]
    is what [strtol] makes of the third. *)
Section Watchers.
Context {W A : Type} `{Clock W, Tasking W}.
Abbreviation factory := (plc_adapter_factory W (plc_protocol_adapter W A)).

Definition watch {M} (name : string) (look : Z -> list Z -> M -> M) (m0 : M) (fuel : nat) (g : list factory)
    (instance : string) (scans : Z) (alloc : bool * bool) (w : W) : option (option M * W) :=
  match open_by_protocol g "ethernet-ip-scanner" (scanner_cfg name instance) alloc w with
  | inl w => Some (None, w)
  | inr (f, a, caps, w) =>
      let in_len := cap_input_bytes caps in
      let '(deadline, w) := plc_now_us w in
      match scan_loop fuel (fun s => fill_count (Z.to_nat (cap_output_bytes caps)) s 0) (fun _ => look (data_len_of in_len))
              (cap_output_bytes caps) in_len (Z.to_nat scans) 0 deadline
              (zeros PLC_IPC_MAX_FRAME_BYTES) (zeros in_len) a m0 w with
      | None => None
      | Some (m, a, w) => Some (Some m, close_and_destroy f a w)
      end
  end.

Definition cipfs_main (fuel : nat) (g : list factory) (instance policy : string) (norecover : bool) (scans : Z)
    (alloc : bool * bool) (w : W) : option (Z * W) :=
  match watch "cipfs" (cipfs_look (bool_decide (policy = "clear"))) cipfs_zero fuel g instance scans alloc w with
  | None => None
  | Some (m, w) => Some (match m with Some m => cipfs_verdict norecover m | None => EXIT_FAILURE end, w)
  end.

Definition linksurv_main (fuel : nat) (g : list factory) (instance policy : string) (scans : Z)
    (alloc : bool * bool) (w : W) : option (Z * W) :=
  match watch "linksurv" (linksurv_look (bool_decide (policy = "clear"))) linksurv_zero fuel g instance scans alloc w with
  | None => None
  | Some (m, w) => Some (match m with Some m => linksurv_verdict m | None => EXIT_FAILURE end, w)
  end.
End Watchers.

(** ** e2e_two_plc *)

Definition MAX_IMG : Z := 512.

Record two_plc : Type := TwoPlc {
  tp_ok : Z;
  tp_timeouts : Z;
  tp_matched : Z;
  tp_seen : Z;
  tp_last_peer_seq : Z;
  tp_have_peer_seq : bool;
  tp_fresh_frames : Z;
  tp_stale_frames : Z;
  tp_corrupt_bytes : Z;
  tp_regressions : Z;
  tp_worst_regress : Z;
  tp_ever_online : bool
}.
#[export] Instance eta_two_plc : Eta two_plc := fun r =>
  TwoPlc (tp_ok r) (tp_timeouts r) (tp_matched r) (tp_seen r) (tp_last_peer_seq r)
    (tp_have_peer_seq r) (tp_fresh_frames r) (tp_stale_frames r) (tp_corrupt_bytes r)
    (tp_regressions r) (tp_worst_regress r) (tp_ever_online r).

Definition two_plc_zero : two_plc := TwoPlc 0 0 0 0 0 false 0 0 0 0 0 false.

(** [out[i] = (uint8_t)(i ^ pattern)] from [i] on. *)
Fixpoint fill_tag (n : nat) (pattern i : Z) (out : list Z) : list Z :=
  match n with
  | O => out
  | S n => fill_tag n pattern (i + 1) (<[Z.to_nat i := u8 (Z.lxor i pattern)]> out)
  end.

(** [tx_seq] is the number of the scan, from one. *)
Definition fill_frame (pattern output_bytes s : Z) (out : list Z) : list Z :=
  let tx_seq := u32 (s + 1) in
  let out := bwrite 0 [u8 tx_seq; u8 (Z.shiftr tx_seq 8); u8 (Z.shiftr tx_seq 16); u8 (Z.shiftr tx_seq 24)] out in
  fill_tag (Z.to_nat (output_bytes - 4)) pattern 4 out.

Definition peer_seq_of (rx : list Z) : Z :=
  Z.lor (Z.lor (Z.lor (byte_at rx 0) (Z.shiftl (byte_at rx 1) 8)) (Z.shiftl (byte_at rx 2) 16)) (Z.shiftl (byte_at rx 3) 24).
Definition peer_tag_of (rx : list Z) : Z := u8 (Z.lxor (byte_at rx 4) 4).

(** The loop over the remaining bytes, which ends at the first wrong one. *)
Fixpoint wrong_byte (n : nat) (i tag : Z) (rx : list Z) : bool :=
  match n with
  | O => false
  | S n => if negb (byte_at rx i =? u8 (Z.lxor i tag)) then true else wrong_byte n (i + 1) tag rx
  end.

(** A frame of the peer that has a number. *)
Definition note_peer_seq (peer_seq : Z) (m : two_plc) : two_plc :=
  let m :=
    if tp_have_peer_seq m then
      let m := if negb (peer_seq =? tp_last_peer_seq m)
               then m <| tp_fresh_frames := u64 (tp_fresh_frames m + 1) |>
               else m <| tp_stale_frames := u64 (tp_stale_frames m + 1) |> in
      let adv := s32 (u32 (peer_seq - tp_last_peer_seq m)) in
      if adv <? 0 then
        let m := m <| tp_regressions := u64 (tp_regressions m + 1) |> in
        let back := u32 (- adv) in
        if back >? tp_worst_regress m then m <| tp_worst_regress := back |> else m
      else m
    else m in
  m <| tp_last_peer_seq := peer_seq |> <| tp_have_peer_seq := true |>.

(** [off] is the number of health bytes, [rx] starts behind them. *)
Definition two_plc_look (pattern off input_bytes : Z) (st : plc_status) (inb : list Z) (m : two_plc) : two_plc :=
  let m := if is_ok st then m <| tp_ok := u64 (tp_ok m + 1) |> else m <| tp_timeouts := u64 (tp_timeouts m + 1) |> in
  let rx := drop (Z.to_nat off) inb in
  let rx_len := if input_bytes >? off then input_bytes - off else 0 in
  let m :=
    if rx_len >=? 8 then
      let peer_seq := peer_seq_of rx in
      let peer_tag := peer_tag_of rx in
      let m := m <| tp_seen := peer_tag |> in
      if negb (peer_seq =? 0) then
        let m := note_peer_seq peer_seq m in
        if negb (peer_tag =? pattern) then
          let m := m <| tp_matched := u64 (tp_matched m + 1) |> in
          if wrong_byte (Z.to_nat (rx_len - 5)) 5 peer_tag rx
          then m <| tp_corrupt_bytes := u64 (tp_corrupt_bytes m + 1) |> else m
        else m
      else m
    else m in
  if negb (off =? 0) && (byte_at inb 0 =? 1) then m <| tp_ever_online := true |> else m.

Definition two_plc_verdict (m : two_plc) : Z :=
  if (tp_matched m >? 0) && (tp_fresh_frames m >? 0) && (tp_corrupt_bytes m =? 0) then EXIT_SUCCESS else EXIT_FAILURE.

Section TwoPlc.
Context {W A : Type} `{Clock W, Tasking W}.
Abbreviation factory := (plc_adapter_factory W (plc_protocol_adapter W A)).

(** [nanosleep] for 10 ms, whatever it returns. *)
Variable nanosleep_10ms : W -> W.

(** Up to 2000 exchanges, until one succeeds. *)
Fixpoint warm_up (n : nat) (out : list Z) (out_len : Z) (inb : list Z) (in_len : Z) (a : option (plc_protocol_adapter W A)) (w : W)
    : option (bool * list Z * option (plc_protocol_adapter W A) * W) :=
  match n with
  | O => Some (false, inb, a, w)
  | S n =>
      match plc_adapter_exchange a (Some out) out_len (Some inb) in_len w with
      | None => None
      | Some (st, a, inb', w) =>
          let inb := default inb inb' in
          if is_ok st then Some (true, inb, a, w) else warm_up n out out_len inb in_len a (nanosleep_10ms w)
      end
  end.

(** [pattern] and [scans] are what [strtoul] and [strtol] make of the arguments. *)
Definition two_plc_main (fuel : nat) (g : list factory) (role instance : string) (pattern scans : Z) (alloc : bool * bool) (w : W)
    : option (Z * W) :=
  let scanner := bool_decide (role = "scanner"%string) in
  let proto := if scanner then "ethernet-ip-scanner"%string else "ethernet-ip"%string in
  let cfg := scanner_cfg role instance <| cfg_failsafe_policy := PLC_FAILSAFE_HOLD |> in
  match open_by_protocol g proto cfg alloc w with
  | inl w => Some (EXIT_FAILURE, w)
  | inr (f, a, caps, w) =>
      let off := if scanner then 1 else 0 in
      let out := zeros MAX_IMG in
      match warm_up 2000 out (cap_output_bytes caps) (zeros (cap_input_bytes caps)) (cap_input_bytes caps) a w with
      | None => None
      | Some (false, _, _, w) => Some (EXIT_FAILURE, w)
      | Some (true, inb, a, w) =>
          let '(deadline, w) := plc_now_us w in
          match scan_loop fuel (fill_frame pattern (cap_output_bytes caps)) (two_plc_look pattern off (cap_input_bytes caps))
                  (cap_output_bytes caps) (cap_input_bytes caps) (Z.to_nat scans) 0 deadline out inb a two_plc_zero w with
          | None => None
          | Some (m, a, w) => Some (two_plc_verdict m, close_and_destroy f a w)
          end
      end
  end.
End TwoPlc.

(** ** The loop and the images it saw *)

(** What a look at each image in turn makes of it. *)
Definition judge {M} (look : list Z -> M -> M) (m : M) (imgs : list (list Z)) : M := foldl (fun m i => look i m) m imgs.

Section Loop.
Context {W A : Type} `{Clock W, Tasking W}.

(** The loop keeps nothing but what [look] makes of the images: with a log in its
    place the same loop yields the images, and judging these gives the state. *)
Lemma scan_loop_trace {M} (look : list Z -> M -> M) fuel fill out_len in_len scans :
  forall s deadline out inb (a : option (plc_protocol_adapter W A)) m imgs w,
  scan_loop fuel fill (fun _ => look) out_len in_len scans s deadline out inb a (judge look m imgs) w
  = match scan_loop fuel fill (fun _ i l => l ++ [i]) out_len in_len scans s deadline out inb a imgs w with
    | None => None
    | Some (imgs, a, w) => Some (judge look m imgs, a, w)
    end.
Proof.
  induction scans as [|scans IH]; intros s deadline out inb a m imgs w; simpl; [done|].
  destruct (plc_adapter_exchange _ _ _ _ _ _) as [[[[st a'] inb'] w']|]; [|done].
  destruct (sleep_until_us _ _ _) as [w''|]; [|done]. rewrite <- IH. unfold judge. by rewrite foldl_snoc.
Qed.

(** The loop ends if the exchanges return and the sleeps do. *)
Lemma sleep_until_us_returns `{!WorldInv W, !ClockLaws W, !TaskingLaws W} deadline :
  forall n (w : W), (interruptions w <= n)%nat ->
  exists w', forall fuel, (S n <= fuel)%nat -> sleep_until_us fuel deadline w = Some w'.
Proof.
  induction n as [|n IH]; intros w Hn;
    destruct (clock_nanosleep (deadline / 1000000, deadline mod 1000000 * 1000) w) as [rc w1] eqn:E;
    destruct (nanosleep_result (deadline / 1000000, deadline mod 1000000 * 1000) w) as [Hr|Hr]; rewrite E in Hr; simpl in Hr; subst rc.
  - exists w1. intros [|fuel] Hf; [lia|]. simpl. by rewrite E.
  - apply nanosleep_eintr in E. lia.
  - exists w1. intros [|fuel] Hf; [lia|]. simpl. by rewrite E.
  - pose proof (nanosleep_eintr _ _ _ E). destruct (IH w1) as [w' Hw]; [lia|]. exists w'. intros [|fuel] Hf; [lia|]. simpl. rewrite E. apply Hw. lia.
Qed.

Lemma exchange_some `{!AdapterReturns (W := W) (A := A) v} o out out_len inb in_len (w : W) :
  ad_vtbl o = Some v -> exists r o' inb' w', plc_adapter_exchange (Some o) (Some out) out_len (Some inb) in_len w = Some (r, Some o', inb', w') /\ ad_vtbl o' = Some v.
Proof.
  destruct o as [v' i]. simpl. intros ->. unfold plc_adapter_exchange, entry. destruct (vt_exchange v) as [f|] eqn:Ef; [|by eauto 10].
  simpl. destruct (_ || _); [by eauto 10|]. destruct (exchange_returns f i (Some out) out_len (Some inb) in_len w Ef) as [[[[st i'] inb'] w'] ->]. eauto 10.
Qed.

Lemma scan_loop_returns `{!WorldInv W, !ClockLaws W, !TaskingLaws W} `{!AdapterReturns (W := W) (A := A) v} {M} fill (look : plc_status -> list Z -> M -> M) out_len in_len scans :
  forall s deadline out inb o m w, ad_vtbl o = Some v ->
  exists r, returns (fun fuel => scan_loop fuel fill look out_len in_len scans s deadline out inb (Some o) m w) r.
Proof.
  induction scans as [|scans IH]; intros s deadline out inb o m w Ho; [eexists; exists O; intros; reflexivity|].
  destruct (exchange_some o (fill s out) out_len inb in_len w Ho) as (st & o' & inb' & w' & Ex & Ho').
  destruct (sleep_until_us_returns (u64 (deadline + SCAN_US)) (interruptions w') w') as [w'' Hs]; [done|].
  destruct (IH (s + 1) (u64 (deadline + SCAN_US)) (fill s out) (default inb inb') o' (look st (default inb inb') m) w'' Ho') as (r & n & Hr).
  exists r, (Nat.max (S (interruptions w')) n). intros fuel Hf. simpl. rewrite Ex, Hs by lia. apply Hr. lia.
Qed.
End Loop.

(** ** What an outage looks like *)

Definition up (img : list Z) : bool := byte_at img 0 =? 1.
Definition data (dl : Z) (img : list Z) : list Z := bslice data_off dl img.

(** The data of the last image in which the device was online. *)
Definition last_up (dl : Z) (imgs : list (list Z)) : option (list Z) :=
  foldl (fun acc img => if up img then Some (data dl img) else acc) None imgs.

(** An image during an outage: the device is not online, and was. *)
Definition outage (dl : Z) (before : list (list Z)) (img : list Z) : Prop := up img = false /\ is_Some (last_up dl before).
Definition obeys (clear : bool) (dl : Z) (before : list (list Z)) (img : list Z) : Prop :=
  data dl img = if clear then zeros dl else default [] (last_up dl before).

#[export] Instance obeys_dec clear dl before img : Decision (obeys clear dl before img).
Proof. unfold obeys. apply _. Defined.

(** What a PASS of the failsafe watcher should mean. *)
Definition failsafe_shown (clear norecover : bool) (dl : Z) (imgs : list (list Z)) : Prop :=
  (exists before img after, imgs = before ++ img :: after /\ outage dl before img) /\
  (forall before img after, imgs = before ++ img :: after -> outage dl before img -> obeys clear dl before img) /\
  (norecover = true -> forall before img after, imgs = before ++ img :: after -> outage dl before img -> Forall (fun i => up i = false) after).

(** ** Splitting a sequence of images *)

Lemma snoc_split {A} (l b a : list A) x y :
  l ++ [x] = b ++ y :: a <-> (b = l /\ y = x /\ a = []) \/ (exists a', a = a' ++ [x] /\ l = b ++ y :: a').
Proof.
  split.
  - destruct a as [|z a _] using rev_ind; intros E.
    + apply app_inj_tail in E as [-> ->]. by left.
    + right. exists a. rewrite app_comm_cons, (assoc_L (++)) in E. apply app_inj_tail in E as [-> ->]. done.
  - intros [(-> & -> & ->)|(a' & -> & ->)]; [done|]. by rewrite <- (assoc_L (++)).
Qed.

Lemma ex_snoc {A} (P : list A -> A -> Prop) l x :
  (exists b y a, l ++ [x] = b ++ y :: a /\ P b y) <-> (exists b y a, l = b ++ y :: a /\ P b y) \/ P l x.
Proof.
  split.
  - intros (b & y & a & E & HP). apply snoc_split in E as [(-> & -> & ->)|(a' & -> & ->)]; [by right|left; eauto].
  - intros [(b & y & a & -> & HP)|HP]; [exists b, y, (a ++ [x])|exists l, x, []]; split; try done. by rewrite <- (assoc_L (++)).
Qed.

Lemma all_snoc {A} (P : list A -> A -> list A -> Prop) l x :
  (forall b y a, l ++ [x] = b ++ y :: a -> P b y a) <-> (forall b y a, l = b ++ y :: a -> P b y (a ++ [x])) /\ P l x [].
Proof.
  split.
  - intros H. split; [|by apply H]. intros b y a ->. apply H. by rewrite <- (assoc_L (++)).
  - intros [H1 H2] b y a E. apply snoc_split in E as [(-> & -> & ->)|(a' & -> & ->)]; auto.
Qed.

(** ** The comparison *)

Lemma bslice_step off n l : 0 <= off -> off + Z.of_nat (S n) <= zlen l ->
  bslice off (Z.of_nat (S n)) l = byte_at l off :: bslice (off + 1) (Z.of_nat n) l.
Proof.
  intros H0 H. unfold bslice. rewrite !Nat2Z.id. rewrite (drop_S l (byte_at l off) (Z.to_nat off)) by (apply byte_at_lookup; lia).
  simpl. do 3 f_equal. lia.
Qed.

Lemma compare_slice_spec inb last : forall n i az sl,
  0 <= i -> data_off + i + Z.of_nat n <= zlen inb -> i + Z.of_nat n <= zlen last ->
  compare_slice n i data_off inb last az sl
  = (az && bool_decide (bslice (data_off + i) (Z.of_nat n) inb = zeros (Z.of_nat n)),
     sl && bool_decide (bslice (data_off + i) (Z.of_nat n) inb = bslice i (Z.of_nat n) last)).
Proof.
  assert (data_off = 1) as Ho by done. induction n as [|n IH]; intros i az sl Hi H1 H2; simpl compare_slice.
  - by rewrite !bool_decide_eq_true_2, !andb_true_r by done.
  - rewrite IH by lia. rewrite !(bslice_step _ n) by lia. rewrite Z.add_assoc. replace (zeros (Z.of_nat (S n))) with (0 :: zeros (Z.of_nat n))
      by (unfold zeros; by rewrite !Nat2Z.id).
    destruct (Z.eqb_spec (byte_at inb (data_off + i)) 0) as [E0|E0], (Z.eqb_spec (byte_at inb (data_off + i)) (byte_at last i)) as [E1|E1]; simpl; f_equal;
      try (f_equal; apply bool_decide_ext; split; congruence);
      symmetry; apply andb_false_intro2, bool_decide_eq_false_2; congruence.
Qed.

Lemma last_up_snoc dl imgs img : last_up dl (imgs ++ [img]) = if up img then Some (data dl img) else last_up dl imgs.
Proof. unfold last_up. by rewrite foldl_snoc. Qed.

Lemma last_up_keeps dl imgs more : is_Some (last_up dl imgs) -> is_Some (last_up dl (imgs ++ more)).
Proof.
  intros H. induction more as [|x more IH] using rev_ind; [by rewrite app_nil_r|]. rewrite (assoc_L (++)), last_up_snoc. by destruct (up x).
Qed.

(** An image as the programs see it. *)
Definition image_ok (dl : Z) (img : list Z) : Prop := zlen img = data_off + dl.

(** A counter of the scans at which something was wrong. *)
Definition counts (n : Z) (imgs : list (list Z)) (P : Prop) : Prop := 0 <= n <= zlen imgs /\ (n = 0 <-> P).

Lemma counts_same n imgs img (P Q : Prop) : counts n imgs P -> (P <-> Q) -> counts n (imgs ++ [img]) Q.
Proof. unfold counts. rewrite zlen_app. change (zlen [img]) with 1. intros [? ?] ?. split; [lia|tauto]. Qed.

Lemma counts_up n imgs img (P Q : Prop) : counts n imgs P -> zlen imgs < 2 ^ 64 - 1 -> ~ Q -> counts (u64 (n + 1)) (imgs ++ [img]) Q.
Proof.
  unfold counts. rewrite zlen_app. change (zlen [img]) with 1. intros [? ?] ? HQ. rewrite u64_small by lia. split; [lia|].
  split; [lia|done].
Qed.
Section Outage.
Context (clear : bool) (dl : Z) (Hdl : 0 <= dl < PLC_IPC_MAX_FRAME_BYTES).

(** The last online slice is in the buffer the programs compare with. *)
Definition holds_last (imgs : list (list Z)) (saw_online : bool) (buf : list Z) : Prop :=
  zlen buf = PLC_IPC_MAX_FRAME_BYTES /\ (saw_online = true <-> is_Some (last_up dl imgs)) /\
  forall u, last_up dl imgs = Some u -> bslice 0 dl buf = u.

Definition outage_seen (imgs : list (list Z)) : Prop := exists b img a, imgs = b ++ img :: a /\ outage dl b img.
Definition policy_kept (imgs : list (list Z)) : Prop :=
  forall b img a, imgs = b ++ img :: a -> outage dl b img -> obeys clear dl b img.
Definition stays_down (imgs : list (list Z)) : Prop :=
  forall b img a, imgs = b ++ img :: a -> outage dl b img -> Forall (fun i => up i = false) a.

Lemma data_len img : image_ok dl img -> zlen (data dl img) = dl.
Proof. unfold image_ok, data, data_off. intros. apply zlen_bslice; lia. Qed.

Lemma holds_last_up imgs img so buf :
  up img = true -> image_ok dl img -> holds_last imgs so buf -> holds_last (imgs ++ [img]) true (bwrite 0 (data dl img) buf).
Proof.
  intros Hu Hi (Hz & _ & _). pose proof (data_len img Hi) as Hd. split; [rewrite zlen_bwrite; lia|]. rewrite last_up_snoc, Hu.
  split; [by split|]. intros u [= <-]. rewrite <- Hd at 1. apply bslice_bwrite_same; lia.
Qed.

Lemma holds_last_down imgs img so buf : up img = false -> holds_last imgs so buf -> holds_last (imgs ++ [img]) so buf.
Proof. intros Hu Hh. unfold holds_last. by rewrite last_up_snoc, Hu. Qed.

(** The judgement of an image of an outage. *)
Lemma outage_judged imgs img buf :
  holds_last imgs true buf -> image_ok dl img ->
  (let '(z, same) := compare_slice (Z.to_nat dl) 0 data_off img buf true true in if clear then z else same)
    = bool_decide (obeys clear dl imgs img).
Proof.
  intros (Hz & Hs & Hb) Hi. unfold image_ok in Hi. rewrite compare_slice_spec by lia. rewrite Z2Nat.id, Z.add_0_r by lia. cbn [andb].
  destruct (proj1 Hs eq_refl) as [u Hu].
  destruct clear; apply bool_decide_ext; unfold obeys; [done|]. by rewrite Hu, (Hb u Hu).
Qed.

Lemma outage_seen_snoc imgs img : outage_seen (imgs ++ [img]) <-> outage_seen imgs \/ outage dl imgs img.
Proof. apply (ex_snoc (outage dl)). Qed.

Lemma policy_kept_snoc imgs img : policy_kept (imgs ++ [img]) <-> policy_kept imgs /\ (outage dl imgs img -> obeys clear dl imgs img).
Proof. apply (all_snoc (fun b i a => outage dl b i -> obeys clear dl b i)). Qed.

Lemma stays_down_snoc imgs img : stays_down (imgs ++ [img]) <-> stays_down imgs /\ (outage_seen imgs -> up img = false).
Proof.
  unfold stays_down at 1. rewrite (all_snoc (fun b i a => outage dl b i -> Forall (fun i => up i = false) a)). split.
  - intros [H _]. split.
    + intros b i a E Ho. specialize (H b i a E Ho). by apply Forall_app in H as [H _].
    + intros (b & i & a & E & Ho). specialize (H b i a E Ho). apply Forall_app in H as [_ H]. by apply Forall_inv in H.
  - intros [H1 H2]. split; [|by constructor]. intros b i a E Ho. apply Forall_app. split; [by apply (H1 b i a)|].
    constructor; [|constructor]. apply H2. by exists b, i, a.
Qed.
End Outage.

(** ** The failsafe watcher *)

Section CipfsProof.
Context (clear : bool) (dl : Z) (Hdl : 0 <= dl < PLC_IPC_MAX_FRAME_BYTES).

Definition cipfs_inv (imgs : list (list Z)) (m : cipfs) : Prop :=
  holds_last dl imgs (cf_saw_online m) (cf_last_online m) /\ (cf_saw_down m = true <-> outage_seen dl imgs) /\
  counts (cf_violations m) imgs (policy_kept clear dl imgs) /\ counts (cf_false_healthy m) imgs (stays_down dl imgs).

Lemma no_outage_up imgs img : up img = true -> ~ outage dl imgs img.
Proof. intros Hu [Hd _]. congruence. Qed.

Lemma cipfs_inv_snoc imgs img m :
  image_ok dl img -> zlen imgs < 2 ^ 64 - 1 -> cipfs_inv imgs m -> cipfs_inv (imgs ++ [img]) (cipfs_look clear dl img m).
Proof.
  intros Hi Hl (Hh & Hd & Hv & Hf). unfold cipfs_look. fold (up img). destruct (up img) eqn:Hu.
  - pose proof (no_outage_up imgs img Hu) as Hno. unfold cipfs_inv.
    assert (policy_kept clear dl imgs <-> policy_kept clear dl (imgs ++ [img])) as Hp by (rewrite policy_kept_snoc; tauto).
    pose proof (holds_last_up dl Hdl imgs img _ _ Hu Hi Hh) as Hh'. pose proof (stays_down_snoc dl imgs img) as Hst. rewrite Hu in Hst.
    destruct (cf_saw_down m) eqn:Hsd; cbn [cf_saw_online cf_last_online cf_saw_down cf_violations cf_false_healthy setf];
      (split; [exact Hh'|]); rewrite outage_seen_snoc, Hsd; (split; [tauto|]); (split; [by apply (counts_same _ _ _ _ _ Hv)|]).
    + apply (counts_up _ _ _ _ _ Hf Hl). intros [_ H]%Hst. discriminate H. tauto.
    + apply (counts_same _ _ _ _ _ Hf). rewrite Hst. split; [|tauto]. intros H. split; [done|]. intros H'%Hd. done.
  - pose proof (holds_last_down dl imgs img _ _ Hu Hh) as Hh'. pose proof (stays_down_snoc dl imgs img) as Hst. rewrite Hu in Hst.
    assert (counts (cf_false_healthy m) (imgs ++ [img]) (stays_down dl (imgs ++ [img]))) as Hf' by (apply (counts_same _ _ _ _ _ Hf); tauto).
    destruct (cf_saw_online m) eqn:Hso.
    + assert (outage dl imgs img) as Ho by (split; [done|]; by apply (proj1 (proj2 Hh))).
      pose proof (outage_judged clear dl Hdl imgs img _ Hh Hi) as Hj.
      destruct (compare_slice _ _ _ _ _ _ _) as [z same]. rewrite Hj. pose proof (policy_kept_snoc clear dl imgs img) as Hpk.
      unfold cipfs_inv. rewrite outage_seen_snoc. case_bool_decide as Hob; cbn [negb]; destruct (cf_saw_down m) eqn:Hsd; simpl;
        rewrite ?Hso, ?Hsd; (split; [exact Hh'|]); (split; [tauto|]); (split; [|exact Hf']).
      1, 2: apply (counts_same _ _ _ _ _ Hv); tauto.
      all: apply (counts_up _ _ _ _ _ Hv Hl); tauto.
    + assert (~ outage dl imgs img) as Hno by (intros [_ H]; apply (proj1 (proj2 Hh)) in H; discriminate H).
      unfold cipfs_inv. rewrite outage_seen_snoc, Hso. split; [exact Hh'|]. split; [tauto|]. split; [|exact Hf'].
      apply (counts_same _ _ _ _ _ Hv). rewrite policy_kept_snoc. tauto.
Qed.

Lemma cipfs_inv_all imgs :
  Forall (image_ok dl) imgs -> zlen imgs < 2 ^ 64 -> cipfs_inv imgs (judge (cipfs_look clear dl) cipfs_zero imgs).
Proof.
  intros HF Hl. induction imgs as [|img imgs IH] using rev_ind.
  - split; [split; [done|split; [split; [done|by intros [u Hu]]|by intros u Hu]]|].
    split; [split; [done|intros (b & i & a & E & _); by apply app_cons_not_nil in E]|].
    split; split; try done; (split; [|done]); intros _ b i a E; by apply app_cons_not_nil in E.
  - apply Forall_app in HF as [HF Hi%Forall_inv]. rewrite zlen_app in Hl. change (zlen [img]) with 1 in Hl.
    unfold judge. rewrite foldl_snoc. apply cipfs_inv_snoc; [done|lia|]. apply IH; [done|lia].
Qed.
End CipfsProof.

Lemma cipfs_verdict_iff clear norecover dl imgs :
  0 <= dl < PLC_IPC_MAX_FRAME_BYTES -> Forall (image_ok dl) imgs -> zlen imgs < 2 ^ 64 ->
  cipfs_verdict norecover (judge (cipfs_look clear dl) cipfs_zero imgs) = EXIT_SUCCESS <-> failsafe_shown clear norecover dl imgs.
Proof.
  intros Hdl HF Hl. destruct (cipfs_inv_all clear dl Hdl imgs HF Hl) as ((_ & Hso & _) & Hsd & [_ Hv] & [_ Hf]).
  set (m := judge _ _ _) in *. unfold cipfs_verdict, failsafe_shown. fold (outage_seen dl imgs) (policy_kept clear dl imgs) (stays_down dl imgs).
  assert (outage_seen dl imgs -> cf_saw_online m = true) as Hon.
  { intros (b & i & a & E & _ & Hu). apply Hso. rewrite E. by apply last_up_keeps. }
  destruct (Z.eqb_spec (cf_violations m) 0), (Z.eqb_spec (cf_false_healthy m) 0), (cf_saw_online m), (cf_saw_down m), norecover;
    cbn [negb andb]; (split; [intros E; try discriminate E|intros (H1 & H2 & H3)]); try done; intuition congruence.
Qed.

(** ** The survival watcher *)

Section LinksurvProof.
Context (clear : bool) (dl : Z).
Abbreviation cipfs_of := (judge (cipfs_look clear dl) cipfs_zero).

(** Until the device is back it is the failsafe watcher on the same images; from
    then on that watcher's state stays where it was. *)
Definition linksurv_inv (imgs : list (list Z)) (m : linksurv) : Prop :=
  exists pre post, imgs = pre ++ post /\ cf_false_healthy (cipfs_of pre) = 0 /\ ls_violations m = cf_violations (cipfs_of pre) /\
    ls_saw_down m = cf_saw_down (cipfs_of pre) /\ (cf_saw_down (cipfs_of pre) = true -> cf_saw_online (cipfs_of pre) = true) /\
    if ls_saw_recovery m
    then ls_saw_down m = true /\ (exists x t, post = x :: t /\ up x = true) /\ 0 <= ls_post_scans m <= zlen (List.filter up post)
    else post = [] /\ ls_saw_online m = cf_saw_online (cipfs_of pre) /\ ls_last_online m = cf_last_online (cipfs_of pre) /\ ls_post_scans m = 0.

Lemma cipfs_of_snoc imgs img : cipfs_of (imgs ++ [img]) = cipfs_look clear dl img (cipfs_of imgs).
Proof. unfold judge. by rewrite foldl_snoc. Qed.

Lemma linksurv_inv_snoc imgs img m :
  zlen imgs < 2 ^ 64 - 1 -> linksurv_inv imgs m -> linksurv_inv (imgs ++ [img]) (linksurv_look clear dl img m).
Proof.
  intros Hl (pre & post & -> & F1 & F2 & F3 & F4 & Hrec). rewrite zlen_app in Hl. pose proof (zlen_nonneg pre).
  assert (0 <= zlen (List.filter up post) <= zlen post) as Hfb by (unfold zlen; pose proof (List.filter_length_le up post); lia).
  unfold linksurv_look. fold (up img). destruct m as [lo pv so sd sr os ds vi ps pc]. cbn -[up u64 compare_slice judge] in *. destruct sr.
  - destruct Hrec as (-> & (x & t & -> & Hx) & Hn). exists pre, ((x :: t) ++ [img]). rewrite (assoc_L (++)), List.filter_app, zlen_app.
    cbn [List.filter] in *. split; [done|]. destruct (up img); rewrite ?andb_false_r; cbn -[up u64 compare_slice judge].
    + change (zlen [img]) with 1. rewrite Hx in *.
      assert (0 <= u64 (ps + 1) <= zlen (x :: List.filter up t) + 1) as Hb by (rewrite u64_small by lia; lia).
      destruct (negb _); cbn -[up u64 compare_slice judge]; repeat (split; [done|]); (split; [by eauto|done]).
    + change (zlen []) with 0. repeat (split; [done|]). split; [by eauto|lia].
  - destruct Hrec as (-> & -> & -> & ->). rewrite app_nil_r in *. destruct (up img) eqn:Hu.
    + destruct sd; cbn -[up u64 compare_slice judge].
      * exists pre, [img]. cbn [List.filter]. rewrite Hu. change (u64 (0 + 1)) with 1. change (zlen [img]) with 1.
        destruct (negb _); cbn -[up u64 compare_slice judge]; repeat (split; [done|]); (split; [by eauto|lia]).
      * exists (pre ++ [img]), []. rewrite app_nil_r, cipfs_of_snoc. destruct (cipfs_of pre) as [lo' so' sd' os' ds' vi' fh'].
        unfold cipfs_look. fold (up img). rewrite Hu. cbn -[up u64 compare_slice judge] in *. subst vi sd' fh'. done.
    + exists (pre ++ [img]), []. rewrite app_nil_r, cipfs_of_snoc. destruct (cipfs_of pre) as [lo' so' sd' os' ds' vi' fh'].
      unfold cipfs_look. fold (up img). rewrite Hu. cbn -[up u64 compare_slice judge] in *. subst vi sd fh'.
      destruct so'; cbn -[up u64 compare_slice judge]; [|done].
      destruct (compare_slice _ _ _ _ _ _ _) as [z same]. destruct (negb (if clear then z else same)), sd'; done.
Qed.
End LinksurvProof.

Lemma scan_loop_log_length {W A} `{Clock W, Tasking W} fuel fill out_len in_len scans :
  forall s deadline out inb (a : option (plc_protocol_adapter W A)) (l imgs : list (list Z)) w a' w',
  scan_loop fuel fill (fun _ i l => l ++ [i]) out_len in_len scans s deadline out inb a l w = Some (imgs, a', w') ->
  length imgs = (length l + scans)%nat.
Proof.
  induction scans as [|scans IH]; intros s deadline out inb a l imgs w a' w'; simpl; [intros [= -> _ _]; lia|].
  destruct (plc_adapter_exchange _ _ _ _ _ _) as [[[[st a1] inb'] w1]|]; [|done].
  destruct (sleep_until_us _ _ _) as [w2|]; [|done]. intros ->%IH. rewrite length_app. simpl. lia.
Qed.

(** [C38] What a PASS of the failsafe watcher means.  Whatever the adapter and the link do,
    the program exits with success exactly when the images its exchanges delivered
    show an outage after the device was online, and in every image of every outage
    the device's slice is zero (CLEAR) or the slice of the last online image (HOLD);
    with [norecover], also no image after the first of an outage is online again. *)
Theorem cipfs_pass_exact {W A : Type} `{Clock W, Tasking W} (fuel : nat)
    (g : list (plc_adapter_factory W (plc_protocol_adapter W A))) (instance policy : string) (norecover : bool) (scans : Z)
    (alloc : bool * bool) (w : W) f a caps w1 (imgs : list (list Z)) a' w2
    (Hopen : open_by_protocol g "ethernet-ip-scanner" (scanner_cfg "cipfs" instance) alloc w = inr (f, a, caps, w1))
    (Hcaps : 1 <= cap_input_bytes caps <= PLC_IPC_MAX_FRAME_BYTES)
    (Hrun : scan_loop fuel (fun s => fill_count (Z.to_nat (cap_output_bytes caps)) s 0) (fun _ i l => l ++ [i])
              (cap_output_bytes caps) (cap_input_bytes caps) (Z.to_nat scans) 0 (plc_now_us w1).1
              (zeros PLC_IPC_MAX_FRAME_BYTES) (zeros (cap_input_bytes caps)) a [] (plc_now_us w1).2 = Some (imgs, a', w2))
    (Hlen : Forall (fun i => zlen i = cap_input_bytes caps) imgs) (Hscans : scans < 2 ^ 63) :
  exists code, cipfs_main fuel g instance policy norecover scans alloc w = Some (code, close_and_destroy f a' w2) /\
    (code = EXIT_SUCCESS <-> failsafe_shown (bool_decide (policy = "clear"%string)) norecover (cap_input_bytes caps - 1) imgs).
Proof.
  unfold cipfs_main, watch. rewrite Hopen. destruct (plc_now_us w1) as [d w1']. cbn [fst snd] in Hrun.
  set (clear := bool_decide _). set (look := cipfs_look clear (data_len_of (cap_input_bytes caps))).
  change cipfs_zero with (judge look cipfs_zero []). rewrite scan_loop_trace, Hrun. eexists. split; [done|].
  assert (data_len_of (cap_input_bytes caps) = cap_input_bytes caps - 1) as <-
    by (unfold data_len_of, data_off; destruct (Z.gtb_spec (cap_input_bytes caps) 1); lia).
  apply scan_loop_log_length in Hrun. apply cipfs_verdict_iff.
  - unfold data_len_of, data_off. destruct (Z.gtb_spec (cap_input_bytes caps) 1); lia.
  - eapply List.Forall_impl; [|exact Hlen]. intros i Hi. unfold image_ok, data_len_of, data_off in *. destruct (Z.gtb_spec (cap_input_bytes caps) 1); lia.
  - unfold zlen. simpl in Hrun. lia.
Qed.

(** A PASS of the survival watcher contains one of the failsafe watcher: the images up
    to the recovery show an outage that followed the policy and did not end before,
    then the device was online again, for twenty images at least. *)
Theorem linksurv_pass_shows_failsafe (clear : bool) (dl : Z) (imgs : list (list Z))
    (Hdl : 0 <= dl < PLC_IPC_MAX_FRAME_BYTES) (Hlen : Forall (image_ok dl) imgs) (Hn : zlen imgs < 2 ^ 64)
    (Hpass : linksurv_verdict (judge (linksurv_look clear dl) linksurv_zero imgs) = EXIT_SUCCESS) :
  exists before recovered after, imgs = before ++ recovered :: after /\ up recovered = true /\
    failsafe_shown clear true dl before /\ FRESH_MIN <= zlen (List.filter up (recovered :: after)).
Proof.
  assert (linksurv_inv clear dl imgs (judge (linksurv_look clear dl) linksurv_zero imgs)) as Hinv.
  { clear Hpass. induction imgs as [|img imgs IH] using rev_ind; [by exists [], []|]. unfold judge. rewrite foldl_snoc.
    apply Forall_app in Hlen as [Hlen _]. rewrite zlen_app in Hn. change (zlen [img]) with 1 in Hn. apply linksurv_inv_snoc; [lia|]. apply IH; [done|lia]. }
  set (m := judge (linksurv_look clear dl) linksurv_zero imgs) in *. destruct Hinv as (pre & post & -> & F1 & F2 & F3 & F4 & Hrec). unfold linksurv_verdict in Hpass.
  destruct (ls_saw_online m), (ls_saw_down m), (Z.eqb_spec (ls_violations m) 0) as [Hv|], (ls_saw_recovery m), (Z.ltb_spec (ls_post_scans m) FRESH_MIN); try discriminate Hpass.
  destruct Hrec as (_ & (x & t & -> & Hx) & Hps). exists pre, x, t. split; [done|]. split; [done|]. split; [|lia].
  apply Forall_app in Hlen as [Hlen _]. rewrite zlen_app in Hn. pose proof (zlen_nonneg (x :: t)). apply cipfs_verdict_iff; [done|done|lia|].
  unfold cipfs_verdict. rewrite F1, <- F3, <- F2, Hv, F4 by done. done.
Qed.

(** A device that comes back with one frozen image passes all the same: under CLEAR the
    recovery itself is the change that is asked for. *)
Theorem linksurv_accepts_frozen :
  let imgs := [1; 5] :: [0; 0] :: replicate 20 [1; 5] in
  linksurv_verdict (judge (linksurv_look true 1) linksurv_zero imgs) = EXIT_SUCCESS.
Proof. vm_compute. reflexivity. Qed.

(** ** The two-PLC check *)

(** The frame of [n] bytes that a PLC with tag [tag] sends as number [sq]. *)
Definition frame (tag sq : Z) (n : nat) : list Z :=
  le_bytes 4 sq ++ map (fun i => u8 (Z.lxor (Z.of_nat i) tag)) (seq 4 (n - 4)).

Lemma fill_tag_list tag : forall k (i : nat) out, (i + k <= length out)%nat ->
  fill_tag k tag (Z.of_nat i) out = take i out ++ map (fun i => u8 (Z.lxor (Z.of_nat i) tag)) (seq i k) ++ drop (i + k) out.
Proof.
  induction k as [|k IH]; intros i out Hl; simpl.
  - rewrite Nat.add_0_r. by rewrite take_drop.
  - replace (Z.of_nat i + 1) with (Z.of_nat (S i)) by lia. rewrite Nat2Z.id, IH by (rewrite length_insert; lia).
    rewrite (take_S_r _ i (u8 (Z.lxor (Z.of_nat i) tag))) by (apply list_lookup_insert_eq; lia).
    rewrite take_insert_ge, drop_insert_lt by lia. rewrite <- (assoc_L (++)). simpl. by rewrite Nat.add_succ_r.
Qed.

Lemma le_bytes_shifts v : le_bytes 4 v = [u8 v; u8 (Z.shiftr v 8); u8 (Z.shiftr v 16); u8 (Z.shiftr v 24)].
Proof. cbn [le_bytes]. rewrite !Z.shiftr_div_pow2, !Z.div_div by lia. done. Qed.

Lemma fill_frame_sends tag n s out :
  4 <= n <= zlen out -> bslice 0 n (fill_frame tag n s out) = frame tag (u32 (s + 1)) (Z.to_nat n).
Proof.
  intros Hn. unfold fill_frame, frame. rewrite <- le_bytes_shifts. set (b := le_bytes 4 _).
  assert (length b = 4%nat) as Hb by apply length_le_bytes. unfold zlen in Hn.
  assert (length (bwrite 0 b out) = length out) as Hw by (apply length_bwrite; unfold zlen; lia).
  change 4 with (Z.of_nat 4) at 2. rewrite fill_tag_list by lia.
  assert (take 4 (bwrite 0 b out) = b) as -> by (change (bwrite 0 b out) with (b ++ drop (0 + length b) out); by apply take_app_length').
  unfold bslice. rewrite drop_0, (assoc_L (++)), take_app_length'; [|rewrite length_app, length_map, length_seq, Hb; lia].
  do 3 f_equal. lia.
Qed.

Lemma peer_seq_value rx : bytes rx -> (4 <= length rx)%nat -> peer_seq_of rx = le_value (take 4 rx).
Proof.
  intros Hb Hl. destruct rx as [|b0 [|b1 [|b2 [|b3 rx]]]]; simpl in Hl; try lia. unfold peer_seq_of, byte_at. simpl.
  inversion Hb as [|? ? H0 Hb1]; subst. inversion Hb1 as [|? ? H1 Hb2]; subst. inversion Hb2 as [|? ? H2 Hb3]; subst. inversion Hb3 as [|? ? H3 _]; subst.
  unfold is_byte in *. rewrite (lor_shiftl_add b0 b1 8), (lor_shiftl_add _ b2 16), (lor_shiftl_add _ b3 24) by lia. lia.
Qed.

Lemma tag_back b : is_byte b -> u8 (Z.lxor 4 (u8 (Z.lxor b 4))) = b.
Proof.
  intros Hb. assert (forallb (fun n => u8 (Z.lxor 4 (u8 (Z.lxor (Z.of_nat n) 4))) =? Z.of_nat n) (seq 0 256) = true) as Hall by (vm_compute; reflexivity).
  rewrite forallb_forall in Hall. specialize (Hall (Z.to_nat b)). rewrite Z2Nat.id in Hall by (destruct Hb; lia).
  apply Z.eqb_eq, Hall, in_seq. unfold is_byte in Hb. lia.
Qed.

Lemma wrong_byte_spec tag rx : forall k (i : nat), (i + k <= length rx)%nat ->
  wrong_byte k (Z.of_nat i) tag rx = false <-> take k (drop i rx) = map (fun i => u8 (Z.lxor (Z.of_nat i) tag)) (seq i k).
Proof.
  induction k as [|k IH]; intros i Hl; [done|]. cbn [wrong_byte]. replace (Z.of_nat i + 1) with (Z.of_nat (S i)) by lia.
  rewrite (drop_S rx (byte_at rx (Z.of_nat i)) i) by (pose proof (byte_at_lookup rx (Z.of_nat i)) as Hx; rewrite Nat2Z.id in Hx; apply Hx; unfold zlen; lia).
  cbn [take seq map]. destruct (Z.eqb_spec (byte_at rx (Z.of_nat i)) (u8 (Z.lxor (Z.of_nat i) tag))) as [E|E]; cbn [negb].
  - rewrite IH, E by lia. split; [by intros ->|by intros [=]].
  - split; [done|]. intros [= ? _]. congruence.
Qed.

(** A frame passes the check exactly when a sender with its tag and number sends it. *)
Lemma clean_frame_iff rx (n := length rx) :
  bytes rx -> (8 <= n)%nat ->
  wrong_byte (n - 5) 5 (peer_tag_of rx) rx = false <-> rx = frame (peer_tag_of rx) (peer_seq_of rx) n.
Proof.
  intros Hb Hn. change (wrong_byte (n - 5) 5) with (wrong_byte (n - 5) (Z.of_nat 5)). rewrite wrong_byte_spec by (unfold n in *; lia). rewrite peer_seq_value by (done || (unfold n in *; lia)).
  assert (rx = take 4 rx ++ byte_at rx 4 :: drop 5 rx) as Hsp.
  { rewrite <- (take_drop 4 rx) at 1. f_equal. apply drop_S. apply (byte_at_lookup rx 4). unfold zlen. unfold n in Hn. lia. }
  assert (le_bytes 4 (le_value (take 4 rx)) = take 4 rx) as Hle.
  { replace 4%nat with (length (take 4 rx)) at 1 by (rewrite length_take; unfold n in Hn; lia). apply le_bytes_value. by apply Forall_take. }
  unfold frame. rewrite Hle. replace (n - 4)%nat with (S (n - 5)) by lia. cbn [seq map].
  replace (u8 (Z.lxor (Z.of_nat 4) (peer_tag_of rx))) with (byte_at rx 4) by (symmetry; apply tag_back, byte_at_byte, Hb).
  rewrite take_ge by (rewrite length_drop; unfold n; lia). split; intros E.
  - rewrite <- E. exact Hsp.
  - rewrite Hsp in E at 1. apply app_inv_head in E. by injection E.
Qed.

Lemma found_at {A} (P : list A -> A -> Prop) `{!forall b x, Decision (P b x)} l :
  ~ (forall b y a, l = b ++ y :: a -> ~ P b y) -> exists b y a, l = b ++ y :: a /\ P b y.
Proof.
  induction l as [|x l IH] using rev_ind; intros Hno.
  - exfalso. apply Hno. intros b y a E. by apply app_cons_not_nil in E.
  - rewrite (all_snoc (fun b y _ => ~ P b y)) in Hno. apply ex_snoc. destruct (decide (P l x)); [by right|left]. apply IH. tauto.
Qed.

Lemma found_in {A} (f : A -> bool) (l : list A) : ~ (forall x, x ∈ l -> f x = false) -> exists x, x ∈ l /\ f x = true.
Proof.
  intros H. destruct (existsb f l) eqn:E.
  - apply existsb_exists in E as (x & Hx & Hf). exists x. by rewrite list_elem_of_In.
  - exfalso. apply H. intros x Hx. destruct (f x) eqn:Ef; [|done]. rewrite list_elem_of_In in Hx.
    assert (existsb f l = true) by (apply existsb_exists; eauto). congruence.
Qed.

Section TwoPlcProof.
Context (pattern off : Z) (n : nat) (Hoff : 0 <= off) (Hn : (8 <= n)%nat).

Definition rx_of (img : list Z) : list Z := drop (Z.to_nat off) img.
Definition numbered (img : list Z) : bool := negb (peer_seq_of (rx_of img) =? 0).
(** A numbered frame with another tag than our own. *)
Definition foreign (img : list Z) : bool := numbered img && negb (peer_tag_of (rx_of img) =? pattern).
Definition clean (img : list Z) : Prop := rx_of img = frame (peer_tag_of (rx_of img)) (peer_seq_of (rx_of img)) n.
Definition last_number (imgs : list (list Z)) : option Z :=
  foldl (fun acc img => if numbered img then Some (peer_seq_of (rx_of img)) else acc) None imgs.
Definition renumbered (before : list (list Z)) (img : list Z) : Prop :=
  numbered img = true /\ exists q, last_number before = Some q /\ q <> peer_seq_of (rx_of img).

#[export] Instance renumbered_dec before img : Decision (renumbered before img).
Proof.
  unfold renumbered. destruct (last_number before) as [q|].
  - destruct (decide (numbered img = true /\ q <> peer_seq_of (rx_of img))) as [[H1 H2]|H]; [left|right]; [by eauto|].
    intros (H1 & q' & [= <-] & H2). auto.
  - right. by intros (_ & q & H & _).
Defined.

Definition peer_shown (imgs : list (list Z)) : Prop :=
  (exists img, img ∈ imgs /\ foreign img = true) /\
  (exists before img after, imgs = before ++ img :: after /\ renumbered before img) /\
  (forall img, img ∈ imgs -> foreign img = true -> clean img).

Definition frame_image (img : list Z) : Prop := length img = (Z.to_nat off + n)%nat /\ bytes img.

Definition two_plc_inv (imgs : list (list Z)) (m : two_plc) : Prop :=
  last_number imgs = (if tp_have_peer_seq m then Some (tp_last_peer_seq m) else None) /\
  counts (tp_matched m) imgs (forall img, img ∈ imgs -> foreign img = false) /\
  counts (tp_fresh_frames m) imgs (forall b img a, imgs = b ++ img :: a -> ~ renumbered b img) /\
  counts (tp_corrupt_bytes m) imgs (forall img, img ∈ imgs -> foreign img = true -> clean img).

Lemma all_in_snoc (P : list Z -> Prop) imgs img : (forall i, i ∈ imgs ++ [img] -> P i) <-> (forall i, i ∈ imgs -> P i) /\ P img.
Proof.
  split.
  - intros H. split; [intros i Hi|]; apply H; apply elem_of_app; [by left|right; by left].
  - intros [H1 H2] i [Hi|Hi]%elem_of_app; [by apply H1|]. by apply list_elem_of_singleton in Hi as ->.
Qed.

Lemma counts_step (b : bool) k imgs img (P Q : Prop) :
  counts k imgs P -> zlen imgs < 2 ^ 64 - 1 -> (b = true -> ~ Q) -> (b = false -> (P <-> Q)) ->
  counts (if b then u64 (k + 1) else k) (imgs ++ [img]) Q.
Proof. intros Hc Hl H1 H2. destruct b; [apply (counts_up _ _ _ P); auto|apply (counts_same _ _ _ P); auto]. Qed.

(** The fields the verdict rests on. *)
Definition verdict_fields (m : two_plc) : bool * Z * Z * Z * Z :=
  (tp_have_peer_seq m, tp_last_peer_seq m, tp_matched m, tp_fresh_frames m, tp_corrupt_bytes m).

Lemma note_peer_seq_fields q m :
  verdict_fields (note_peer_seq q m)
  = (true, q, tp_matched m, if tp_have_peer_seq m && negb (q =? tp_last_peer_seq m) then u64 (tp_fresh_frames m + 1) else tp_fresh_frames m,
     tp_corrupt_bytes m).
Proof.
  unfold note_peer_seq, verdict_fields. destruct (tp_have_peer_seq m); [|done]. destruct (negb (q =? tp_last_peer_seq m)); cbn [andb];
    set (m1 := m <| _ := _ |>); destruct (_ <? 0); try done; cbv zeta; destruct (_ >? _); done.
Qed.

(** The same after an image. *)
Lemma two_plc_look_fields st img m (m' := two_plc_look pattern off (off + Z.of_nat n) st img m) :
  tp_have_peer_seq m' = tp_have_peer_seq m || numbered img /\
  tp_last_peer_seq m' = (if numbered img then peer_seq_of (rx_of img) else tp_last_peer_seq m) /\
  tp_matched m' = (if foreign img then u64 (tp_matched m + 1) else tp_matched m) /\
  tp_fresh_frames m' = (if numbered img && tp_have_peer_seq m && negb (peer_seq_of (rx_of img) =? tp_last_peer_seq m)
                        then u64 (tp_fresh_frames m + 1) else tp_fresh_frames m) /\
  tp_corrupt_bytes m' = (if foreign img && wrong_byte (n - 5) 5 (peer_tag_of (rx_of img)) (rx_of img)
                         then u64 (tp_corrupt_bytes m + 1) else tp_corrupt_bytes m).
Proof.
  subst m'. unfold two_plc_look. fold (rx_of img). destruct (Z.gtb_spec (off + Z.of_nat n) off); [|lia].
  replace (off + Z.of_nat n - off) with (Z.of_nat n) by lia. destruct (Z.geb_spec (Z.of_nat n) 8); [|lia].
  replace (Z.to_nat (Z.of_nat n - 5)) with (n - 5)%nat by lia. set (m0 := if is_ok st then _ else _).
  assert (verdict_fields m0 = verdict_fields m) as E0 by (unfold m0; by destruct (is_ok st)). clearbody m0. cbv zeta.
  set (m1 := m0 <| tp_seen := _ |>). assert (verdict_fields m1 = verdict_fields m) as E1 by exact E0. clearbody m1.
  pose proof (note_peer_seq_fields (peer_seq_of (rx_of img)) m1) as E2. set (m2 := note_peer_seq _ m1) in *. clearbody m2.
  unfold foreign, numbered, verdict_fields in *. injection E1 as Fa Fb Fc Fd Fe. injection E2 as Ea Eb Ec Ed Ee.
  destruct (negb (off =? 0) && _), (peer_seq_of (rx_of img) =? 0), (peer_tag_of (rx_of img) =? pattern); cbn [negb andb];
    try destruct (wrong_byte _ _ _ _); simpl; rewrite ?Ea, ?Eb, ?Ec, ?Ed, ?Ee, ?Fa, ?Fb, ?Fc, ?Fd, ?Fe, ?orb_true_r, ?orb_false_r; done.
Qed.

Lemma clean_iff img : frame_image img -> clean img <-> wrong_byte (n - 5) 5 (peer_tag_of (rx_of img)) (rx_of img) = false.
Proof.
  intros [Hl Hb]. assert (length (rx_of img) = n) as Hr by (unfold rx_of; rewrite length_drop; lia). unfold clean.
  rewrite <- Hr at 1 2. rewrite clean_frame_iff; [done|by apply Forall_drop|lia].
Qed.

Lemma two_plc_inv_snoc imgs img st m :
  frame_image img -> zlen imgs < 2 ^ 64 - 1 -> two_plc_inv imgs m ->
  two_plc_inv (imgs ++ [img]) (two_plc_look pattern off (off + Z.of_nat n) st img m).
Proof.
  intros Hi Hl (I1 & I2 & I3 & I4). destruct (two_plc_look_fields st img m) as (L1 & L2 & L3 & L4 & L5). unfold two_plc_inv.
  rewrite L1, L2, L3, L4, L5. split; [|split; [|split]].
  - unfold last_number. rewrite foldl_snoc. fold (last_number imgs). rewrite I1. destruct (tp_have_peer_seq m), (numbered img); done.
  - apply (counts_step _ _ _ _ _ _ I2 Hl); intros Hf.
    + intros H%all_in_snoc. destruct H as [_ H]. congruence.
    + rewrite all_in_snoc. tauto.
  - apply (counts_step _ _ _ _ _ _ I3 Hl).
    + intros Hf H%(all_snoc (fun b i _ => ~ renumbered b i)). destruct H as [_ H]. apply H.
      destruct (numbered img) eqn:En, (tp_have_peer_seq m); try discriminate Hf. split; [done|]. eexists. split; [exact I1|].
      destruct (Z.eqb_spec (peer_seq_of (rx_of img)) (tp_last_peer_seq m)); [discriminate Hf|congruence].
    + intros Hf. rewrite (all_snoc (fun b i _ => ~ renumbered b i)). split; [|tauto]. intros H. split; [done|]. intros (En & q & Hq & Hne).
      rewrite I1 in Hq. destruct (tp_have_peer_seq m); [|discriminate Hq]. injection Hq as Hq. rewrite En, Hq in Hf.
      destruct (Z.eqb_spec (peer_seq_of (rx_of img)) q); [congruence|discriminate Hf].
  - pose proof (clean_iff img Hi) as Hc. apply (counts_step _ _ _ _ _ _ I4 Hl); intros Hf.
    + intros H%all_in_snoc. destruct H as [_ H]. apply andb_true_iff in Hf as [Hf Hw]. apply H in Hf. apply Hc in Hf. congruence.
    + rewrite all_in_snoc. split; [|tauto]. intros H. split; [done|]. intros Hfo. rewrite Hfo in Hf. by apply Hc.
Qed.

Lemma two_plc_inv_all obs :
  Forall frame_image (map snd obs) -> zlen obs < 2 ^ 64 ->
  two_plc_inv (map snd obs) (foldl (fun m o => two_plc_look pattern off (off + Z.of_nat n) o.1 o.2 m) two_plc_zero obs).
Proof.
  intros HF Hl. induction obs as [|[st img] obs IH] using rev_ind.
  - split; [done|]. repeat split; try done.
    + intros _ img Hi. by apply elem_of_nil in Hi.
    + intros _ b i a E. by apply app_cons_not_nil in E.
    + intros _ img Hi. by apply elem_of_nil in Hi.
  - rewrite map_app in *. apply Forall_app in HF as [HF Hi%Forall_inv]. rewrite zlen_app in Hl. change (zlen [(st, img)]) with 1 in Hl.
    rewrite foldl_snoc. apply two_plc_inv_snoc; [done|unfold zlen in *; rewrite length_map; lia|]. apply IH; [done|lia].
Qed.
End TwoPlcProof.

(** What a PASS of the two-PLC check means: among the images that arrived some frame
    carried a number and a foreign tag, the number changed from one numbered frame
    to the next at least once, and every frame with a foreign tag is, byte for byte,
    the frame a PLC with that tag sends under that number. *)
Theorem two_plc_pass_exact (pattern off : Z) (n : nat) (obs : list (plc_status * list Z))
    (Hoff : 0 <= off) (Hn : (8 <= n)%nat) (Himg : Forall (frame_image off n) (map snd obs)) (Hlen : zlen obs < 2 ^ 64) :
  two_plc_verdict (foldl (fun m o => two_plc_look pattern off (off + Z.of_nat n) o.1 o.2 m) two_plc_zero obs) = EXIT_SUCCESS
  <-> peer_shown pattern off n (map snd obs).
Proof.
  destruct (two_plc_inv_all pattern off n Hn obs Himg Hlen) as (_ & [M1 M2] & [F1 F2] & [C1 C2]).
  set (m := foldl _ _ _) in *. unfold two_plc_verdict, peer_shown.
  destruct (Z.gtb_spec (tp_matched m) 0), (Z.gtb_spec (tp_fresh_frames m) 0), (Z.eqb_spec (tp_corrupt_bytes m) 0); cbn [andb];
    (split; [intros E; try discriminate E|intros ((i & Hi & Hfo) & (b & j & a & Hj & Hre) & Hcl)]).
  - split; [apply found_in; rewrite <- M2; lia|]. split; [|tauto]. apply (found_at (renumbered off)). rewrite <- F2. lia.
  - done.
  - tauto.
  - exfalso. apply (proj1 F2 ltac:(lia) b j a Hj Hre).
  - tauto.
  - assert (foreign pattern off i = false) by (apply M2; [lia|done]). congruence.
  - tauto.
  - assert (foreign pattern off i = false) by (apply M2; [lia|done]). congruence.
  - tauto.
Qed.

(** A peer whose number stops after its first change passes. *)
Theorem two_plc_accepts_stuck :
  let rx sq := frame 90 sq 8 in
  let obs := map (fun i => (PLC_OK, i)) (rx 1 :: replicate 100 (rx 2)) in
  two_plc_verdict (foldl (fun m o => two_plc_look 165 0 8 o.1 o.2 m) two_plc_zero obs) = EXIT_SUCCESS.
Proof. vm_compute. reflexivity. Qed.

(** ** Witnesses *)

(** An adapter that plays back images of two bytes, and its factory. *)
Definition player_vtbl : plc_adapter_vtbl ticking (list (list Z)) :=
  Vtbl (Some (fun a _ w => (PLC_OK, a, w))) (Some (fun a w => (PLC_OK, a, w)))
    (Some (fun a _ _ inb _ w => match a with
                                | i :: a => Some (PLC_OK, a, Some i, w)
                                | [] => Some (PLC_ERR_TIMEOUT, [], inb, w)
                                end))
    (Some (fun _ _ => (PLC_OK, Caps 1 "dev" "ethernet-ip-scanner" 2 1 PLC_FAILSAFE_HOLD 5000 100000 1 0)))
    (Some (fun _ s => (PLC_OK, s))) (Some (fun _ => PLC_ADAPTER_ONLINE)).
Definition player (imgs : list (list Z)) : plc_adapter_factory ticking (plc_protocol_adapter ticking (list (list Z))) :=
  Factory (Some "ethernet-ip-scanner"%string) "player" (Some (fun _ _ => Some (Adapter (Some player_vtbl) imgs))) (Some (fun _ w => w)).

(** Online with 5, two scans held, online again with 6. *)
Definition held_outage : list (list Z) := [[0; 0]; [1; 5]; [2; 5]; [2; 5]; [1; 6]].

Lemma cipfs_pass_exact_witness :
  (cipfs_main 1 [player held_outage] "dev" "hold" false 5 (true, true) (0, 1000) ≫= fun r => Some r.1) = Some EXIT_SUCCESS /\
  failsafe_shown false false 1 held_outage.
Proof.
  destruct (cipfs_pass_exact 1 [player held_outage] "dev" "hold" false 5 (true, true) (0, 1000)
    (player held_outage) (Some (Adapter (Some player_vtbl) held_outage))
    (Caps 1 "dev" "ethernet-ip-scanner" 2 1 PLC_FAILSAFE_HOLD 5000 100000 1 0) (0, 1000) held_outage
    (Some (Adapter (Some player_vtbl) [])) (50000000, 1000)) as (code & Hmain & Hiff);
    [reflexivity|simpl; unfold PLC_IPC_MAX_FRAME_BYTES; lia|vm_compute; reflexivity|repeat constructor|lia|].
  assert (cipfs_main 1 [player held_outage] "dev" "hold" false 5 (true, true) (0, 1000) = Some (EXIT_SUCCESS, (50000000, 1000))) as E by (vm_compute; reflexivity).
  rewrite E in Hmain. assert (code = EXIT_SUCCESS) as -> by congruence. split; [rewrite E; reflexivity|]. exact (proj1 Hiff eq_refl).
Defined.

Lemma two_plc_pass_exact_witness : peer_shown 165 1 8 [1 :: frame 90 1 8; 1 :: frame 90 2 8].
Proof.
  apply (two_plc_pass_exact 165 1 8 [(PLC_OK, 1 :: frame 90 1 8); (PLC_ERR_TIMEOUT, 1 :: frame 90 2 8)]);
    [lia|lia|repeat constructor; vm_compute; repeat constructor; discriminate|vm_compute; reflexivity|vm_compute; reflexivity].
Defined.
