(* ===== verification/Bench.v ===== *)
(** * The exchange benchmark

    [tools/bench_exchange.c]: the round trip of an exchange, measured scan by scan
    against the adapter process.  [bench_loop] is the measuring loop, [bench_look]
    what it makes of one exchange, [percentile] the reading of the histogram; the
    child process and the sleep of the warm-up are arguments.  Doubles and the
    histogram are as in [EipProbe], the start of the program as in [E2e].

    The theorems compare the one-pass figures with the list of exchanges: above all
    [max_run], the figure the failsafe window is set from, is the length of the
    longest run of consecutive failures. *)

From Stdlib Require Import ZArith Lia.
From stdpp Require Import base gmap list strings tactics.
From S2P Require Import Prelude PlcTypes Adapter Runtime Registry EipProbe E2e.

Definition IMAGE_BYTES : Z := 32.
Definition HIST_BUCKETS : Z := 20000.

Record bench : Type := Bench {
  be_timeouts : Z;
  be_max_rtt : Z;
  be_sum : Z;
  be_n : Z;
  be_run : Z;
  be_max_run : Z;
  be_hist : gmap Z Z
}.
#[export] Instance eta_bench : Eta bench := fun r =>
  Bench (be_timeouts r) (be_max_rtt r) (be_sum r) (be_n r) (be_run r) (be_max_run r)
    (be_hist r).

Definition bench_zero : bench := Bench 0 0 0 0 0 0 ∅.

Definition bucket (rtt : Z) : Z := if rtt <? HIST_BUCKETS then rtt else HIST_BUCKETS - 1.

Definition bench_look (st : plc_status) (rtt : Z) (m : bench) : bench :=
  if negb (is_ok st) then
    let m := m <| be_timeouts := u64 (be_timeouts m + 1) |> in
    let m := m <| be_run := u64 (be_run m + 1) |> in
    if be_run m >? be_max_run m then m <| be_max_run := be_run m |> else m
  else
    let m := m <| be_run := 0 |> in
    let b := bucket rtt in
    let m := m <| be_hist := <[b := u64 (hist_at (be_hist m) b + 1)]> (be_hist m) |> in
    let m := if rtt >? be_max_rtt m then m <| be_max_rtt := rtt |> else m in
    m <| be_sum := u64 (be_sum m + rtt) |> <| be_n := u64 (be_n m + 1) |>.

Fixpoint percentile_loop (buckets : nat) (i want seen : Z) (h : gmap Z Z) : Z :=
  match buckets with
  | O => HIST_BUCKETS
  | S buckets =>
      let seen := u64 (seen + hist_at h i) in
      if seen >=? want then i else percentile_loop buckets (i + 1) want seen h
  end.

Definition percentile (h : gmap Z Z) (total : Z) (p : double) : Z :=
  percentile_loop (Z.to_nat HIST_BUCKETS) 0 (d_to_u64 (d_mul (d_of_u64 total) p)) 0 h.

(** The line that is printed. *)
Record bench_report : Type := BenchReport {
  br_n : Z;
  br_mean : Z;
  br_percentiles : list Z;
  br_max : Z;
  br_timeouts : Z;
  br_max_run : Z
}.
#[export] Instance eta_bench_report : Eta bench_report := fun r =>
  BenchReport (br_n r) (br_mean r) (br_percentiles r) (br_max r) (br_timeouts r)
    (br_max_run r).

Definition bench_ranks : list double :=
  [d_div (d_of_u64 5) (d_of_u64 10); d_div (d_of_u64 9) (d_of_u64 10); d_div (d_of_u64 99) (d_of_u64 100);
   d_div (d_of_u64 999) (d_of_u64 1000); d_div (d_of_u64 9999) (d_of_u64 10000)].

Definition bench_report_of (m : bench) : bench_report :=
  BenchReport (be_n m) (be_sum m / be_n m) (map (percentile (be_hist m) (be_n m)) bench_ranks)
    (be_max_rtt m) (be_timeouts m) (be_max_run m).

Section BenchRun.
Context {W A : Type} `{Clock W, Tasking W}.
Abbreviation factory := (plc_adapter_factory W (plc_protocol_adapter W A)).

(** [fork] and [execl] of the adapter process; [kill] and [waitpid]; [usleep]. *)
Variable spawn : W -> W.
Variable reap : W -> W.
Variable usleep_20ms : W -> W.

(** [look] is [bench_look]. *)
Fixpoint bench_loop {M} (look : plc_status -> Z -> M -> M) (fuel scans : nat) (s cycle_us deadline : Z) (inb : list Z) (a : option (plc_protocol_adapter W A)) (m : M) (w : W)
    : option (M * option (plc_protocol_adapter W A) * W) :=
  match scans with
  | O => Some (m, a, w)
  | S scans =>
      let out := replicate 32 (u8 s) in
      let '(t0, w) := plc_now_us w in
      match plc_adapter_exchange a (Some out) IMAGE_BYTES (Some inb) IMAGE_BYTES w with
      | None => None
      | Some (st, a, inb', w) =>
          let inb := default inb inb' in
          let '(t1, w) := plc_now_us w in
          let rtt := u64 (t1 - t0) in
          let m := look st rtt m in
          let deadline := u64 (deadline + u64 cycle_us) in
          let '(t, w) := plc_now_us w in
          if deadline <? t then bench_loop look fuel scans (s + 1) cycle_us t inb a m w
          else match sleep_until_us fuel deadline w with
               | None => None
               | Some w => bench_loop look fuel scans (s + 1) cycle_us deadline inb a m w
               end
      end
  end.

Definition bench_cfg (instance : string) (budget_us : Z) : plc_adapter_config :=
  scanner_cfg "bench" instance <| cfg_input_bytes := IMAGE_BYTES |> <| cfg_output_bytes := IMAGE_BYTES |>
    <| cfg_exchange_timeout_us := u32 budget_us |> <| cfg_failsafe_timeout_us := 3600000000 |>.

(** [inb0] is what the uninitialised array [in] holds. *)
Definition bench_main (fuel : nat) (g : list factory) (instance : string) (scans cycle_us budget_us : Z)
    (inb0 : list Z) (alloc : bool * bool) (w : W) : option (Z * option bench_report * W) :=
  match open_by_protocol g "ethernet-ip" (bench_cfg instance budget_us) alloc w with
  | inl w => Some (EXIT_FAILURE, None, w)
  | inr (f, a, _, w) =>
      let w := spawn w in
      match warm_up usleep_20ms 500 (zeros IMAGE_BYTES) IMAGE_BYTES inb0 IMAGE_BYTES a w with
      | None => None
      | Some (_, inb, a, w) =>
          let '(deadline, w) := plc_now_us w in
          match bench_loop bench_look fuel (Z.to_nat scans) 0 cycle_us deadline inb a bench_zero w with
          | None => None
          | Some (m, a, w) =>
              let w := close_and_destroy f a (reap w) in
              if be_n m =? 0 then Some (EXIT_FAILURE, None, w) else Some (EXIT_SUCCESS, Some (bench_report_of m), w)
          end
      end
  end.
End BenchRun.

Arguments bucket : simpl never.
Arguments percentile : simpl never.

(** ** What the figures say *)

(** An exchange: how it ended and how long it took. *)
Abbreviation exchange := (plc_status * Z)%type.
Definition failed (e : exchange) : bool := negb (is_ok e.1).
Definition rtts (es : list exchange) : list Z := map snd (List.filter (fun e => is_ok e.1) es).

(** The length of the run of failures at the end, and of the longest anywhere. *)
Definition run_at_end (k : nat) (es : list exchange) : Prop :=
  exists before run, es = before ++ run /\ length run = k /\ Forall (fun e => failed e = true) run /\
    (before = [] \/ exists b e, before = b ++ [e] /\ failed e = false).
Definition longest_run (k : nat) (es : list exchange) : Prop :=
  (exists before run after, es = before ++ run ++ after /\ length run = k /\ Forall (fun e => failed e = true) run) /\
  (forall before run after, es = before ++ run ++ after -> Forall (fun e => failed e = true) run -> (length run <= k)%nat).

Definition bench_says (es : list exchange) (m : bench) : Prop :=
  be_n m = zlen (rtts es) /\ be_timeouts m = count failed es /\ be_n m + be_timeouts m = zlen es /\
  be_sum m = u64 (total (rtts es)) /\ be_max_rtt m = foldr Z.max 0 (rtts es) /\
  (forall b, hist_at (be_hist m) b = count (fun r => bucket r =? b) (rtts es)) /\
  run_at_end (Z.to_nat (be_run m)) es /\ 0 <= be_run m <= be_max_run m /\
  longest_run (Z.to_nat (be_max_run m)) es /\ be_max_run m <= zlen es.

(** ** Runs *)

Lemma run_at_end_snoc k es e :
  run_at_end k es -> run_at_end (if failed e then S k else O) (es ++ [e]).
Proof.
  intros (b & r & -> & <- & Hr & Hb). destruct (failed e) eqn:Ef.
  - exists b, (r ++ [e]). rewrite (assoc_L (++)), length_app. split; [done|]. split; [simpl; lia|]. split; [|done]. apply Forall_app. auto.
  - exists ((b ++ r) ++ [e]), []. rewrite app_nil_r. repeat split; [constructor|]. right. eauto.
Qed.

(** A run that ends with the list is no longer than the run at its end. *)
Lemma run_at_end_max k es b r : run_at_end k es -> es = b ++ r -> Forall (fun e => failed e = true) r -> (length r <= k)%nat.
Proof.
  intros (b' & r' & -> & <- & Hr' & Hb') E Hr. destruct (decide (length r <= length r')%nat) as [|Hlt]; [done|exfalso].
  destruct Hb' as [->|(c & e & -> & He)].
  - apply (f_equal length) in E. rewrite !length_app in E. simpl in E. lia.
  - rewrite <- (assoc_L (++)) in E. simpl in E. assert (e ∈ r) as Hin.
    { assert ((c ++ e :: r') !! length c = Some e) as Hc by (by apply list_lookup_middle). rewrite E in Hc.
      apply (f_equal length) in E. rewrite !length_app in E. simpl in E. rewrite lookup_app_r in Hc by lia. by eapply list_elem_of_lookup_2. }
    rewrite list.Forall_forall in Hr. specialize (Hr e Hin). congruence.
Qed.

Lemma longest_run_snoc k j es e :
  longest_run k es -> run_at_end j (es ++ [e]) -> longest_run (Nat.max k j) (es ++ [e]).
Proof.
  intros [(b & r & a & E & Hk & Hr) Hmax] Hend. split.
  - destruct (decide (j <= k)%nat).
    + exists b, r, (a ++ [e]). rewrite E, <- !(assoc_L (++)). split; [done|]. split; [lia|done].
    + destruct Hend as (b' & r' & E' & Hj & Hr' & _). exists b', r', []. rewrite app_nil_r. split; [done|]. split; [lia|done].
  - intros b' r' a' E' Hr'. destruct a' as [|x a' _] using rev_ind.
    + rewrite app_nil_r in E'. pose proof (run_at_end_max j _ _ _ Hend E' Hr'). lia.
    + rewrite !(assoc_L (++)) in E'. apply app_inj_tail in E' as [E' _]. rewrite <- (assoc_L (++)) in E'. specialize (Hmax b' r' a' E' Hr'). lia.
Qed.

(** ** The figures *)

Lemma rtts_snoc es e : rtts (es ++ [e]) = rtts es ++ (if failed e then [] else [e.2]).
Proof. unfold rtts, failed. rewrite List.filter_app, map_app. simpl. by destruct (is_ok e.1). Qed.

Lemma bench_look_fields st rtt m (f := negb (is_ok st)) (m' := bench_look st rtt m) :
  be_timeouts m' = (if f then u64 (be_timeouts m + 1) else be_timeouts m) /\
  be_run m' = (if f then u64 (be_run m + 1) else 0) /\
  be_max_run m' = (if f then Z.max (be_max_run m) (u64 (be_run m + 1)) else be_max_run m) /\
  be_n m' = (if f then be_n m else u64 (be_n m + 1)) /\ be_sum m' = (if f then be_sum m else u64 (be_sum m + rtt)) /\
  be_max_rtt m' = (if f then be_max_rtt m else Z.max rtt (be_max_rtt m)) /\
  be_hist m' = (if f then be_hist m else <[bucket rtt := u64 (hist_at (be_hist m) (bucket rtt) + 1)]> (be_hist m)).
Proof.
  subst m'. unfold bench_look. fold f. destruct m as [ti mr su n ru mx h], f; simpl.
  - destruct (Z.gtb_spec (u64 (ru + 1)) mx); simpl; repeat split; lia.
  - destruct (Z.gtb_spec rtt mr); simpl; repeat split; lia.
Qed.

Lemma bench_says_snoc es e m :
  0 <= e.2 -> zlen es < 2 ^ 64 - 1 -> bench_says es m -> bench_says (es ++ [e]) (bench_look e.1 e.2 m).
Proof.
  intros He Hl (S1 & S2 & S3 & S4 & S5 & S6 & S7 & S8 & S9 & S10). pose proof (zlen_nonneg (rtts es)). pose proof (count_bound failed es).
  pose proof (run_at_end_snoc _ es e S7) as R. pose proof (longest_run_snoc _ _ es e S9 R) as L.
  destruct (bench_look_fields e.1 e.2 m) as (F1 & F2 & F3 & F4 & F5 & F6 & F7). fold (failed e) in F1, F2, F3, F4, F5, F6, F7.
  unfold bench_says. rewrite F1, F2, F3, F4, F5, F6, F7, rtts_snoc, count_snoc, (zlen_app es). change (zlen [e]) with 1. destruct (failed e).
  - rewrite app_nil_r, (u64_small (be_run m + 1)), (u64_small (be_timeouts m + 1)) by lia.
    replace (S (Z.to_nat (be_run m))) with (Z.to_nat (be_run m + 1)) in R, L by lia. rewrite <- Z2Nat.inj_max in L by lia.
    do 6 (split; [first [done|lia]|]). split; [done|]. split; [lia|]. split; [done|lia].
  - rewrite Nat.max_0_r in L. rewrite zlen_app, total_snoc, foldr_max_snoc, S4, S5, (u64_small (be_n m + 1)) by lia. change (zlen [e.2]) with 1.
    split; [lia|]. split; [lia|]. split; [lia|]. split; [apply Zplus_mod_idemp_l|]. split; [done|]. split.
    + intros b. rewrite hist_at_bump, <- (bump_count (fun r => bucket r =? b) (rtts es) e.2 (hist_at (be_hist m) b)); [done|apply S6|lia].
    + split; [done|]. split; [lia|]. split; [done|lia].
Qed.

Lemma bench_says_all (es : list exchange) :
  Forall (fun e => 0 <= e.2) es -> zlen es < 2 ^ 64 -> bench_says es (foldl (fun m e => bench_look e.1 e.2 m) bench_zero es).
Proof.
  intros HF Hl. induction es as [|e es IH] using rev_ind.
  - do 6 (split; [done|]). split; [exists [], []; repeat split; [constructor|by left]|]. split; [done|]. split; [|done]. split; [by exists [], [], []|].
    intros b r a E _. symmetry in E. apply app_nil in E as [_ [-> _]%app_nil]. done.
  - apply Forall_app in HF as [HF He%Forall_inv]. rewrite zlen_app in Hl. change (zlen [e]) with 1 in Hl. rewrite foldl_snoc.
    apply bench_says_snoc; [done|lia|]. apply IH; [done|lia].
Qed.

(** The loop keeps nothing but what [look] makes of the exchanges. *)
Lemma bench_loop_trace {W A M} `{Clock W, Tasking W} (look : plc_status -> Z -> M -> M) fuel scans :
  forall s cycle deadline inb (a : option (plc_protocol_adapter W A)) m es w,
  bench_loop look fuel scans s cycle deadline inb a (foldl (fun m e => look e.1 e.2 m) m es) w
  = match bench_loop (fun st rtt l => l ++ [(st, rtt)]) fuel scans s cycle deadline inb a es w with
    | None => None
    | Some (es, a, w) => Some (foldl (fun m e => look e.1 e.2 m) m es, a, w)
    end.
Proof.
  induction scans as [|scans IH]; intros s cycle deadline inb a m es w; simpl; [done|]. destruct (plc_now_us w) as [t0 w0].
  destruct (plc_adapter_exchange _ _ _ _ _ _) as [[[[st a'] inb'] w1]|]; [|done]. destruct (plc_now_us w1) as [t1 w2].
  destruct (plc_now_us w2) as [t w3]. specialize (IH (s + 1) cycle).
  assert (look st (u64 (t1 - t0)) (foldl (fun m e => look e.1 e.2 m) m es) = foldl (fun m e => look e.1 e.2 m) m (es ++ [(st, u64 (t1 - t0))])) as ->
    by (by rewrite foldl_snoc).
  destruct (_ <? _); [apply IH|]. destruct (sleep_until_us _ _ _); [apply IH|done].
Qed.

Lemma bench_log_shape {W A} `{Clock W, Tasking W} fuel scans :
  forall s cycle deadline inb (a : option (plc_protocol_adapter W A)) (es es' : list exchange) w a' w',
  bench_loop (fun st rtt l => l ++ [(st, rtt)]) fuel scans s cycle deadline inb a es w = Some (es', a', w') ->
  Forall (fun e => 0 <= e.2) es -> Forall (fun e => 0 <= e.2) es' /\ length es' = (length es + scans)%nat.
Proof.
  induction scans as [|scans IH]; intros s cycle deadline inb a es es' w a' w'; simpl; [intros [= <- _ _]; split; [done|lia]|].
  destruct (plc_now_us w) as [t0 w0]. destruct (plc_adapter_exchange _ _ _ _ _ _) as [[[[st a1] inb'] w1]|]; [|done].
  destruct (plc_now_us w1) as [t1 w2]. destruct (plc_now_us w2) as [t w3]. intros Hb Hes.
  assert (Forall (fun e : exchange => 0 <= e.2) (es ++ [(st, u64 (t1 - t0))])) as Hes' by (apply Forall_app; split; [done|]; constructor; [apply u64_range|constructor]).
  destruct (_ <? _); [|destruct (sleep_until_us _ _ _); [|done]]; apply IH in Hb as [H1 H2]; try done; (split; [done|]); rewrite length_app in H2; simpl in H2; lia.
Qed.

(** The benchmark's figures are those of its exchanges.  If the measuring loop ends,
    every scan is counted once, as a success or as a failure; mean, maximum and
    histogram are those of the round trips of the successes; and [max_run] is the
    length of the longest run of consecutive failures.  The program succeeds exactly
    when some exchange did. *)
Theorem bench_reports_exchanges {W A : Type} `{Clock W, Tasking W} (spawn reap usleep : W -> W) (fuel : nat)
    (g : list (plc_adapter_factory W (plc_protocol_adapter W A))) (instance : string) (scans cycle_us budget_us : Z)
    (inb0 : list Z) (alloc : bool * bool) (w : W) f a caps w1 ok inb a1 w2 (es : list exchange) a2 w3
    (Hopen : open_by_protocol g "ethernet-ip" (bench_cfg instance budget_us) alloc w = inr (f, a, caps, w1))
    (Hwarm : warm_up usleep 500 (zeros IMAGE_BYTES) IMAGE_BYTES inb0 IMAGE_BYTES a (spawn w1) = Some (ok, inb, a1, w2))
    (Hrun : bench_loop (fun st rtt l => l ++ [(st, rtt)]) fuel (Z.to_nat scans) 0 cycle_us (plc_now_us w2).1 inb a1 [] (plc_now_us w2).2
              = Some (es, a2, w3))
    (Hscans : scans < 2 ^ 63) :
  exists m, bench_says es m /\ length es = Z.to_nat scans /\
    bench_main spawn reap usleep fuel g instance scans cycle_us budget_us inb0 alloc w
    = Some (if be_n m =? 0 then (EXIT_FAILURE, None, close_and_destroy f a2 (reap w3))
            else (EXIT_SUCCESS, Some (bench_report_of m), close_and_destroy f a2 (reap w3))).
Proof.
  exists (foldl (fun m e => bench_look e.1 e.2 m) bench_zero es).
  destruct (bench_log_shape _ _ _ _ _ _ _ _ _ _ _ _ Hrun) as [HF Hlen]; [constructor|]. split.
  - apply bench_says_all; [done|]. unfold zlen. rewrite Hlen. simpl. lia.
  - split; [done|]. unfold bench_main. rewrite Hopen, Hwarm. destruct (plc_now_us w2) as [d w2']. cbn [fst snd] in Hrun.
    change bench_zero with (foldl (fun m (e : exchange) => bench_look e.1 e.2 m) bench_zero []) at 1. rewrite bench_loop_trace, Hrun.
    by destruct (_ =? 0).
Qed.

(** A percentile whose rank is below one is zero, whatever was measured: the median of a
    single round trip of 700 us. *)
Theorem bench_small_median :
  let m := bench_look PLC_OK 700 bench_zero in be_n m = 1 /\ percentile (be_hist m) (be_n m) (d_div (d_of_u64 5) (d_of_u64 10)) = 0.
Proof. vm_compute. by split. Qed.

(** ** Witness *)

(** An adapter that answers every other exchange. *)
Definition every_other : plc_adapter_vtbl ticking bool :=
  Vtbl (Some (fun a _ w => (PLC_OK, a, w))) (Some (fun a w => (PLC_OK, a, w)))
    (Some (fun (a : bool) _ _ inb _ w => Some (if a then PLC_OK else PLC_ERR_TIMEOUT, negb a, inb, w)))
    (Some (fun _ c => (PLC_OK, c))) (Some (fun _ s => (PLC_OK, s))) (Some (fun _ => PLC_ADAPTER_ONLINE)).
Definition every_other_factory : plc_adapter_factory ticking (plc_protocol_adapter ticking bool) :=
  Factory (Some "ethernet-ip"%string) "every other" (Some (fun _ _ => Some (Adapter (Some every_other) true))) (Some (fun _ w => w)).

Lemma bench_reports_exchanges_witness :
  exists m, be_n m = 1 /\ be_timeouts m = 2 /\ 1 <= be_max_run m /\
    (bench_main id id id 1 [every_other_factory] "b" 3 1000 5000 (zeros 32) (true, true) (0, 1000) ≫= fun r => Some r.1.1) = Some EXIT_SUCCESS.
Proof.
  destruct (bench_reports_exchanges id id id 1 [every_other_factory] "b" 3 1000 5000 (zeros 32) (true, true) (0, 1000)
    every_other_factory (Some (Adapter (Some every_other) true)) caps_zero (0, 1000) true (zeros 32) (Some (Adapter (Some every_other) false)) (0, 1000)
    [(PLC_ERR_TIMEOUT, 1); (PLC_OK, 1); (PLC_ERR_TIMEOUT, 1)] (Some (Adapter (Some every_other) true)) (3000000, 1000)) as (m & Hm & _ & Hmain);
    [reflexivity|reflexivity|vm_compute; reflexivity|lia|].
  destruct Hm as (H1 & H2 & _ & _ & _ & _ & _ & H3 & H4 & _). change (be_n m = 1) in H1. change (be_timeouts m = 2) in H2. exists m. split; [exact H1|]. split; [exact H2|].
  rewrite H1 in Hmain. split; [|by rewrite Hmain].
  pose proof (proj2 H4 [] [(PLC_ERR_TIMEOUT, 1)] [(PLC_OK, 1); (PLC_ERR_TIMEOUT, 1)] eq_refl ltac:(repeat constructor)) as Hge. simpl in Hge. lia.
Defined.
