(* ===== verification/CipFuzz.v ===== *)
(** * The sender of malformed datagrams

    [tools/cip_fuzz.c]: eight kinds of datagram sent in turn to the class 1 port of
    a live stack.  [rand_r] is the C library's, here any function from the seed to
    a number and the next seed; what [sendto] answers is a list.

    The reference is a strict reader of the common packet format: an item count,
    then as many items, each a type, a length and that many bytes.  The shaped
    datagrams are what the program says they are, malformed: the reader rejects
    every one of them, at whatever point the random cut falls. *)

From Stdlib Require Import ZArith Lia.
From stdpp Require Import base list tactics.
From S2P Require Import Prelude.

Definition FUZZ_BUF : Z := 2048.

Definition put16 (off v : Z) (b : list Z) : list Z := bwrite off [u8 v; u8 (Z.shiftr v 8)] b.
Definition put32 (off v : Z) (b : list Z) : list Z :=
  bwrite off [u8 v; u8 (Z.shiftr v 8); u8 (Z.shiftr v 16); u8 (Z.shiftr v 24)] b.

(** [for (i = 0; i < 32; ++i) b[18 + i] = (uint8_t)i]. *)
Fixpoint count_up (n : nat) (i : Z) (b : list Z) : list Z :=
  match n with O => b | S n => count_up n (i + 1) (bwrite (18 + i) [u8 i] b) end.

Section Fuzz.
Variable rand_r : Z -> Z * Z.

Definition fuzz_rnd (seed bound : Z) : Z * Z :=
  if bound =? 0 then (0, seed) else let '(r, seed) := rand_r seed in (u32 r mod bound, seed).

(** The noise of the last kind. *)
Fixpoint noise (n : nat) (i seed : Z) (b : list Z) : list Z * Z :=
  match n with
  | O => (b, seed)
  | S n => let '(r, seed) := fuzz_rnd seed 256 in noise n (i + 1) seed (bwrite i [u8 r] b)
  end.

(** The length, the buffer and the seed. *)
Definition build (seed which cap : Z) : Z * list Z * Z :=
  let b := zeros cap in
  let kind := which mod 8 in
  if kind =? 0 then (0, b, seed)
  else if kind =? 1 then (1, b, seed)
  else if kind =? 2 then (2, put16 0 2 b, seed)
  else if kind =? 3 then
    let b := put16 0 2 b in
    let b := put16 2 32770 b in
    let b := put16 4 65535 b in
    (6, b, seed)
  else if kind =? 4 then
    let b := put16 0 2 b in
    let b := put16 2 32770 b in
    let b := put16 4 8 b in
    let b := put32 6 305419896 b in
    let b := put32 10 1 b in
    let b := put16 14 177 b in
    let b := put16 16 65535 b in
    (18, b, seed)
  else if kind =? 5 then
    let b := put16 0 65535 b in
    let b := put16 2 32770 b in
    let b := put16 4 2 b in
    (8, b, seed)
  else if kind =? 6 then
    let b := put16 0 2 b in
    let b := put16 2 32770 b in
    let b := put16 4 8 b in
    let b := put32 6 305419896 b in
    let b := put32 10 1 b in
    let b := put16 14 177 b in
    let b := put16 16 32 b in
    let b := count_up 32 0 b in
    let '(r, seed) := fuzz_rnd seed 48 in
    (2 + r, b, seed)
  else
    let '(r, seed) := fuzz_rnd seed 64 in
    let n := 1 + r in
    let '(b, seed) := noise (Z.to_nat n) 0 seed b in
    (n, b, seed).

(** The loop of [main]: [answers] says for each [sendto] whether it succeeded; the
    datagrams in order, and how many were sent. *)
Fixpoint fuzz_loop (n : nat) (i seed : Z) (answers : list bool) (log : list (list Z)) (sent : Z) : list (list Z) * Z * Z :=
  match n with
  | O => (log, sent, seed)
  | S n =>
      let '(len, b, seed) := build seed (u32 i) FUZZ_BUF in
      let sent := if default true (head answers) then sent + 1 else sent in
      fuzz_loop n (i + 1) seed (tail answers) (log ++ [bslice 0 len b]) sent
  end.

Definition fuzz_run (count seed : Z) (answers : list bool) : list (list Z) * Z * Z :=
  fuzz_loop (Z.to_nat count) 0 seed answers [] 0.
End Fuzz.

Arguments build : simpl never.

(** ** The reference reader *)

Fixpoint cpf_items (n : nat) (l : list Z) : option (list (Z * list Z)) :=
  match n with
  | O => Some []
  | S n =>
      match l with
      | t0 :: t1 :: l0 :: l1 :: rest =>
          let len := l0 + 256 * l1 in
          if len <=? zlen rest
          then cons (t0 + 256 * t1, bslice 0 len rest) <$> cpf_items n (drop (Z.to_nat len) rest)
          else None
      | _ => None
      end
  end.

Definition cpf_parse (d : list Z) : option (list (Z * list Z)) :=
  match d with c0 :: c1 :: l => cpf_items (Z.to_nat (c0 + 256 * c1)) l | _ => None end.

(** A frame as a class 1 connection sends it is read as its two items. *)
Example cpf_reads_class1 :
  cpf_parse ([2; 0] ++ [2; 128; 8; 0] ++ [1; 2; 3; 4; 5; 0; 0; 0] ++ [177; 0; 2; 0] ++ [9; 9])
  = Some [(32770, [1; 2; 3; 4; 5; 0; 0; 0]); (177, [9; 9])].
Proof. reflexivity. Qed.

(** ** The datagrams *)

Section Datagrams.
Variable rand_r : Z -> Z * Z.

Lemma fuzz_rnd_range seed bound : 0 < bound -> 0 <= (fuzz_rnd rand_r seed bound).1 < bound.
Proof.
  intros Hb. unfold fuzz_rnd. destruct (Z.eqb_spec bound 0); [lia|]. destruct (rand_r seed). apply Z.mod_pos_bound. lia.
Qed.

Lemma noise_shape : forall n i seed b, 0 <= i -> i + Z.of_nat n <= zlen b -> bytes b ->
  zlen (noise rand_r n i seed b).1 = zlen b /\ bytes (noise rand_r n i seed b).1.
Proof.
  induction n as [|n IH]; intros i seed b Hi Hl Hb; simpl; [done|]. destruct (fuzz_rnd rand_r seed 256) as [r seed'].
  assert (zlen (bwrite i [u8 r] b) = zlen b) as Hz by (apply zlen_bwrite; [done|change (zlen [u8 r]) with 1; lia]).
  rewrite <- Hz. apply IH; [lia|lia|]. apply bytes_bwrite; [|done]. constructor; [apply u8_range|constructor].
Qed.

(** The sixth kind, at each of the points it can be cut. *)
Definition whole_frame : list Z :=
  count_up 32 0 (put16 16 32 (put16 14 177 (put32 10 1 (put32 6 305419896 (put16 4 8 (put16 2 32770 (put16 0 2 (zeros FUZZ_BUF)))))))).
Definition cut_frame (r : Z) : list Z := bslice 0 (2 + r) whole_frame.

Lemma cut_frame_shape : forall r, 0 <= r < 48 -> zlen (cut_frame r) <= 65 /\ bytes (cut_frame r) /\ cpf_parse (cut_frame r) = None.
Proof.
  assert (forallb (fun n => let d := cut_frame (Z.of_nat n) in
            (zlen d <=? 65) && forallb (fun b => (0 <=? b) && (b <? 256)) d && bool_decide (cpf_parse d = None)) (seq 0 48) = true) as Hall
    by (vm_compute; reflexivity).
  intros r Hr. rewrite forallb_forall in Hall. specialize (Hall (Z.to_nat r)). rewrite Z2Nat.id in Hall by lia.
  assert (In (Z.to_nat r) (seq 0 48)) as Hin by (apply in_seq; lia). apply Hall in Hin.
  apply andb_true_iff in Hin as [[H1 H2]%andb_true_iff H3]. rewrite bool_decide_eq_true in H3. rewrite forallb_forall in H2.
  split; [lia|]. split; [|done]. apply List.Forall_forall. intros b Hb. specialize (H2 b Hb). unfold is_byte. lia.
Qed.

Lemma build_shape seed which :
  0 <= which -> let '(len, b, _) := build rand_r seed which FUZZ_BUF in
  zlen (bslice 0 len b) <= 65 /\ bytes (bslice 0 len b) /\ (which mod 8 <> 7 -> cpf_parse (bslice 0 len b) = None).
Proof.
  intros Hw. unfold build. pose proof (Z.mod_pos_bound which 8 ltac:(lia)) as Hk. set (kind := which mod 8) in *. clearbody kind.
  assert (forall len b, (zlen (bslice 0 len b) <=? 65) && forallb (fun b => (0 <=? b) && (b <? 256)) (bslice 0 len b)
            && bool_decide (cpf_parse (bslice 0 len b) = None) = true ->
          zlen (bslice 0 len b) <= 65 /\ bytes (bslice 0 len b) /\ (kind <> 7 -> cpf_parse (bslice 0 len b) = None)) as Hfix.
  { intros len b [[H1 H2]%andb_true_iff H3]%andb_true_iff. rewrite bool_decide_eq_true in H3. rewrite forallb_forall in H2.
    split; [lia|]. split; [|done]. apply List.Forall_forall. intros x Hx. specialize (H2 x Hx). unfold is_byte. lia. }
  destruct (Z.eqb_spec kind 0); [by apply Hfix; vm_compute|].
  destruct (Z.eqb_spec kind 1); [by apply Hfix; vm_compute|].
  destruct (Z.eqb_spec kind 2); [by apply Hfix; vm_compute|].
  destruct (Z.eqb_spec kind 3); [by apply Hfix; vm_compute|].
  destruct (Z.eqb_spec kind 4); [by apply Hfix; vm_compute|].
  destruct (Z.eqb_spec kind 5); [by apply Hfix; vm_compute|].
  destruct (Z.eqb_spec kind 6).
  - pose proof (fuzz_rnd_range seed 48 ltac:(lia)) as Hr. destruct (fuzz_rnd rand_r seed 48) as [r seed']. simpl in Hr.
    cbv zeta. set (b6 := count_up 32 0 _). assert (bslice 0 (2 + r) b6 = cut_frame r) as -> by (unfold cut_frame, whole_frame, b6; reflexivity). destruct (cut_frame_shape r Hr) as (H1 & H2 & H3). auto.
  - pose proof (fuzz_rnd_range seed 64 ltac:(lia)) as Hr. destruct (fuzz_rnd rand_r seed 64) as [r seed']. simpl in Hr.
    pose proof (noise_shape (Z.to_nat (1 + r)) 0 seed' (zeros FUZZ_BUF)) as Hn.
    destruct (noise _ _ _ _ _) as [b seed'']. simpl in Hn. destruct Hn as [Hz Hb]; [lia|unfold FUZZ_BUF; rewrite zlen_zeros; lia|apply bytes_zeros|].
    unfold FUZZ_BUF in Hz. rewrite zlen_zeros in Hz by lia. rewrite zlen_bslice by lia. split; [lia|]. split; [by apply bytes_bslice|lia].
Qed.

(** What is logged at place [k]. *)
Definition fuzz_datagram (k : Z) (d : list Z) : Prop :=
  zlen d <= 65 /\ bytes d /\ (k mod 8 <> 7 -> cpf_parse d = None).

Lemma fuzz_loop_log : forall n seed answers log sent,
  (forall k d, log !! k = Some d -> fuzz_datagram (Z.of_nat k) d) ->
  let '(log', sent', _) := fuzz_loop rand_r n (zlen log) seed answers log sent in
  length log' = (length log + n)%nat /\ sent <= sent' <= sent + Z.of_nat n /\
  (forall k d, log' !! k = Some d -> fuzz_datagram (Z.of_nat k) d).
Proof.
  induction n as [|n IH]; intros seed answers log sent Hlog; simpl; [split; [lia|split; [lia|done]]|].
  pose proof (build_shape seed (u32 (zlen log)) (proj1 (u32_range _))) as Hb.
  destruct (build rand_r seed (u32 (zlen log)) FUZZ_BUF) as [[len b] seed'].
  specialize (IH seed' (tail answers) (log ++ [bslice 0 len b]) (if default true (head answers) then sent + 1 else sent)).
  rewrite zlen_app in IH. change (zlen [bslice 0 len b]) with 1 in IH.
  destruct (fuzz_loop _ _ _ _ _ _ _) as [[log' sent'] s']. destruct IH as (H1 & H2 & H3).
  - intros k d [Hk|[Hk Hd]]%lookup_app_Some; [by apply Hlog|]. apply list_lookup_singleton_Some in Hd as [Hd <-].
    assert (Z.of_nat k = zlen log) as -> by (unfold zlen; lia). unfold fuzz_datagram.
    replace (zlen log mod 8) with (u32 (zlen log) mod 8) by (unfold u32; apply Z.mod_mod_divide; by exists (2 ^ 29)). exact Hb.
  - rewrite length_app in H1. simpl in H1. split; [lia|]. split; [|done]. destruct (default true (head answers)); lia.
Qed.
End Datagrams.

(** What the program sends is malformed.  Whatever the seed, of [count] datagrams
    none is longer than 65 bytes, and every one but each eighth, which is noise, is
    rejected by a strict reader of the common packet format, wherever the random
    cut falls; no more are reported sent than were built. *)
Theorem fuzz_sends_malformed (rand_r : Z -> Z * Z) (count seed : Z) (answers : list bool) (Hcount : 0 <= count) :
  let '(log, sent, _) := fuzz_run rand_r count seed answers in
  zlen log = count /\ 0 <= sent <= count /\
  forall k d, log !! k = Some d -> zlen d <= 65 /\ bytes d /\ (Z.of_nat k mod 8 <> 7 -> cpf_parse d = None).
Proof.
  unfold fuzz_run. pose proof (fuzz_loop_log rand_r (Z.to_nat count) seed answers [] 0) as H. change (zlen []) with 0 in H.
  destruct (fuzz_loop _ _ _ _ _ _ _) as [[log sent] s]. destruct H as (H1 & H2 & H3); [by intros k d Hk|].
  split; [unfold zlen; simpl in H1; lia|]. split; [lia|]. exact H3.
Qed.

Lemma fuzz_sends_malformed_witness :
  let '(log, sent, _) := fuzz_run (fun s => (s, s + 1)) 7 3 [true; false] in zlen log = 7 /\ 0 <= sent <= 7 /\ Forall (fun d => cpf_parse d = None) log.
Proof.
  pose proof (fuzz_sends_malformed (fun s => (s, s + 1)) 7 3 [true; false] ltac:(lia)) as H.
  destruct (fuzz_run (fun s => (s, s + 1)) 7 3 [true; false]) as [[log sent] s]. destruct H as (H1 & H2 & H3).
  split; [exact H1|]. split; [exact H2|]. apply list.Forall_lookup. intros k d Hk. apply (H3 k d Hk).
  apply lookup_lt_Some in Hk. unfold zlen in H1. rewrite Z.mod_small by lia. lia.
Defined.
